(** * Clinical-trials MCP server: storage, cache, session and filter core

    A shallow embedding of the TypeScript sources
    - [src/utils/helpers.ts]   (filterStudies, formatStudyList),
    - [src/utils/cache.ts]     (CacheManager),
    - [src/db/database.ts]     (DatabaseManager),
    - [src/mcp/server.ts]      (the refine_results, summarize_session and
                                search_trials tool handlers),
    - [src/utils/export.ts]    (getExportPath, exportToJSON, exportToJSONL,
                                and sanitizeDeep of its later revision),
    - [src/api/client.ts]      (buildQuery, buildURLParams, fetchWithRetry,
                                searchAll),
    together with the parts of the JavaScript runtime they rely on
    (string methods, truthiness, JSON.stringify and JSON.parse, and
    path.join of Node under POSIX).

    Conventions.  A JavaScript string is a Rocq [string]; every character is
    one code unit.  The case conversions are the ASCII ones, so the model is
    exact on strings of ASCII characters.  A JavaScript number is an integer
    [Z]; fractions, NaN and the infinities are outside the model.  An optional
    property is an [option]; [None] is JavaScript's [undefined]. *)

From Stdlib Require Import ZArith List String Ascii Bool Lia Permutation.
From Stdlib Require Import Decimal DecimalString DecimalN.
From stdpp Require Import base option gmap strings list.
Import ListNotations.

Local Open Scope string_scope.
Local Open Scope Z_scope.

(** ** JavaScript strings *)

Module JsString.

Definition isLower (c : ascii) : bool :=
  let n := nat_of_ascii c in (Nat.leb 97 n && Nat.leb n 122)%bool.

Definition isUpper (c : ascii) : bool :=
  let n := nat_of_ascii c in (Nat.leb 65 n && Nat.leb n 90)%bool.

Definition upperChar (c : ascii) : ascii :=
  if isLower c then ascii_of_nat (nat_of_ascii c - 32) else c.

Definition lowerChar (c : ascii) : ascii :=
  if isUpper c then ascii_of_nat (nat_of_ascii c + 32) else c.

Fixpoint mapChars (f : ascii -> ascii) (s : string) : string :=
  match s with
  | EmptyString => EmptyString
  | String c s' => String (f c) (mapChars f s')
  end.

(** [s.toUpperCase()] and [s.toLowerCase()] *)
Definition toUpperCase : string -> string := mapChars upperChar.
Definition toLowerCase : string -> string := mapChars lowerChar.

(** [s.replace(/ /g, "_")] *)
Definition replaceSpaces : string -> string :=
  mapChars (fun c => if Ascii.eqb c " " then "_"%char else c).

(** [s.includes(sub)] *)
Fixpoint includes (s sub : string) : bool :=
  String.prefix sub s ||
  match s with
  | EmptyString => false
  | String _ s' => includes s' sub
  end.

(** [a < b] and [a > b] on strings: code-unit lexicographic order *)
Definition lt (a b : string) : bool := String.ltb a b.
Definition gt (a b : string) : bool := String.ltb b a.

(** Truthiness of an optional string: [undefined] and the empty string are falsy. *)
Definition truthy (o : option string) : option string :=
  match o with
  | Some EmptyString => None
  | _ => o
  end.

(** [a.join(sep)] on an array of strings *)
Definition join (sep : string) (l : list string) : string := String.concat sep l.

End JsString.

(** ** Node's [path] module, under POSIX *)

Module Path.

(** The segments of a path between separators. *)
Fixpoint segments (p current : string) : list string :=
  match p with
  | EmptyString => [current]
  | String c r =>
      if Ascii.eqb c "/" then current :: segments r EmptyString
      else segments r (current ++ String c EmptyString)
  end.

(** [path.isAbsolute(p)] *)
Definition isAbsolute (p : string) : bool := String.prefix "/" p.

(** Whether the last character is a separator. *)
Fixpoint trailingSeparator (p : string) : bool :=
  match p with
  | EmptyString => false
  | String c EmptyString => Ascii.eqb c "/"
  | String _ r => trailingSeparator r
  end.

(** [normalizeString]: the segments are taken from the left; an empty
    segment and [.] are dropped; [..] takes back the segment before it,
    unless there is none or it is [..] itself, in which case [..] is kept
    when [allowAboveRoot].  [res] holds the result, last segment first. *)
Fixpoint resolve (allowAboveRoot : bool) (segs res : list string) : list string :=
  match segs with
  | [] => res
  | seg :: rest =>
      if String.eqb seg EmptyString || String.eqb seg "." then resolve allowAboveRoot rest res
      else if String.eqb seg ".." then
        match res with
        | top :: below =>
            if String.eqb top ".."
            then resolve allowAboveRoot rest (if allowAboveRoot then ".." :: res else res)
            else resolve allowAboveRoot rest below
        | [] => resolve allowAboveRoot rest (if allowAboveRoot then [".."] else [])
        end
      else resolve allowAboveRoot rest (seg :: res)
  end.

(** [path.normalize(p)] *)
Definition normalize (p : string) : string :=
  if String.eqb p EmptyString then "."
  else
    let absolute := isAbsolute p in
    let body := JsString.join "/" (rev (resolve (negb absolute) (segments p EmptyString) [])) in
    if String.eqb body EmptyString
    then (if absolute then "/" else if trailingSeparator p then "./" else ".")
    else (if absolute then "/" else EmptyString) ++ body
         ++ (if trailingSeparator p then "/" else EmptyString).

(** [path.join(a, b)]: the arguments that are not empty, joined by a
    separator, and normalised. *)
Definition join (a b : string) : string :=
  normalize (if String.eqb a EmptyString then b
             else if String.eqb b EmptyString then a
             else a ++ "/" ++ b).

(** A name that a directory entry can have. *)
Definition isName (name : string) : bool :=
  negb (String.eqb name EmptyString || String.eqb name "." || String.eqb name ".."
        || JsString.includes name "/").

(** What the paths [path.join(dir, name)] of the entries of [dir] begin
    with: the normalised directory and a separator, or nothing for the
    current directory. *)
Definition below (dir : string) : string :=
  let absolute := isAbsolute dir in
  (if absolute then "/" else EmptyString)
  ++ match resolve (negb absolute) (segments dir EmptyString) [] with
     | [] => EmptyString
     | res => JsString.join "/" (rev res) ++ "/"
     end.

End Path.

(** ** JavaScript values and JSON

    The payloads that flow through the cache and the record store are
    untyped JavaScript values.  An object is the list of its own enumerable
    properties in enumeration order; its keys are pairwise distinct. *)

Module Js.

Unset Elimination Schemes.
Inductive JsVal :=
| JUndefined
| JNull
| JBool (b : bool)
| JNum (n : Z)
| JStr (s : string)
| JArr (elems : list JsVal)
| JObj (props : list (string * JsVal)).
Set Elimination Schemes.

(** What a failing operation throws. *)
Inductive JsError :=
| TypeError
| SyntaxError
| SqliteError.

Inductive Result (A : Type) :=
| Ok (a : A)
| Throw (e : JsError).
Arguments Ok {A} a.
Arguments Throw {A} e.

Definition bindR {A B} (r : Result A) (k : A -> Result B) : Result B :=
  match r with
  | Ok a => k a
  | Throw e => Throw e
  end.

(** [if (v)] *)
Definition truthy (v : JsVal) : bool :=
  match v with
  | JUndefined | JNull => false
  | JBool b => b
  | JNum n => negb (n =? 0)
  | JStr s => negb (String.eqb s EmptyString)
  | JArr _ | JObj _ => true
  end.

(** First binding of a key in a property list. *)
Fixpoint assoc {A} (k : string) (l : list (string * A)) : option A :=
  match l with
  | [] => None
  | (k', x) :: r => if String.eqb k k' then Some x else assoc k r
  end.

(** [o[k] = x]: overwrite in place, or append a new property. *)
Fixpoint setProp (k : string) (x : JsVal) (l : list (string * JsVal))
  : list (string * JsVal) :=
  match l with
  | [] => [(k, x)]
  | (k', y) :: r => if String.eqb k k' then (k, x) :: r else (k', y) :: setProp k x r
  end.

(** [v?.k], also the value of [v.k] when [v] is an object. *)
Definition member (v : JsVal) (k : string) : JsVal :=
  match v with
  | JObj props => default JUndefined (assoc k props)
  | _ => JUndefined
  end.

Fixpoint path (v : JsVal) (ks : list string) : JsVal :=
  match ks with
  | [] => v
  | k :: r => path (member v k) r
  end.

Definition asString (v : JsVal) : option string :=
  match v with JStr s => Some s | _ => None end.
Definition asNumber (v : JsVal) : option Z :=
  match v with JNum n => Some n | _ => None end.
Definition asBool (v : JsVal) : option bool :=
  match v with JBool b => Some b | _ => None end.
Definition asObject (v : JsVal) : option JsVal :=
  match v with JObj _ => Some v | _ => None end.
Definition asArray (v : JsVal) : option (list JsVal) :=
  match v with JArr l => Some l | _ => None end.

(** Decimal digits of a number, [String(n)] for an integer [n]. *)
Definition natToString (n : N) : string :=
  DecimalString.NilEmpty.string_of_uint (N.to_uint n).

Definition numberToString (n : Z) : string :=
  match n with
  | Zneg p => String "-" (natToString (Npos p))
  | _ => natToString (Z.to_N n)
  end.

(** [Object.keys(v)] *)
Definition indices (n : nat) : list string :=
  map (fun i => natToString (N.of_nat i)) (seq 0 n).

Definition Object_keys (v : JsVal) : Result (list string) :=
  match v with
  | JUndefined | JNull => Throw TypeError
  | JBool _ | JNum _ => Ok []
  | JStr s => Ok (indices (String.length s))
  | JArr l => Ok (indices (List.length l))
  | JObj props => Ok (map fst props)
  end.

(** [a.sort()] on an array of strings: ascending code-unit order. *)
Fixpoint insertSorted (x : string) (l : list string) : list string :=
  match l with
  | [] => [x]
  | y :: r => if String.leb x y then x :: l else y :: insertSorted x r
  end.

Definition sort (l : list string) : list string :=
  fold_right insertSorted [] l.

End Js.

Module JSON.
Import Js.
Local Open Scope nat_scope.

Definition hexDigit (n : nat) : ascii :=
  ascii_of_nat (if Nat.ltb n 10 then 48 + n else 87 + n).

(** One code unit inside a JSON string literal (QuoteJSONString). *)
Definition quoteChar (c : ascii) : string :=
  let n := nat_of_ascii c in
  if Nat.eqb n 8 then "\b"
  else if Nat.eqb n 9 then "\t"
  else if Nat.eqb n 10 then "\n"
  else if Nat.eqb n 12 then "\f"
  else if Nat.eqb n 13 then "\r"
  else if Nat.eqb n 34 then String "\" (String "034" EmptyString)
  else if Nat.eqb n 92 then "\\"
  else if Nat.ltb n 32 then
    "\u00" ++ String (hexDigit (Nat.div n 16)) (String (hexDigit (Nat.modulo n 16)) EmptyString)
  else String c EmptyString.

Fixpoint quoteChars (s : string) : string :=
  match s with
  | EmptyString => String "034" EmptyString
  | String c r => quoteChar c ++ quoteChars r
  end.

Definition quote (s : string) : string := String "034" (quoteChars s).

Definition newline : string := String (ascii_of_nat 10) EmptyString.

(** The closing step of SerializeJSONObject and SerializeJSONArray. *)
Definition wrap (opening closing gap stepback indent : string) (partial : list string)
  : string :=
  match partial with
  | [] => opening ++ closing
  | _ =>
      if String.eqb gap EmptyString then opening ++ String.concat "," partial ++ closing
      else opening ++ newline ++ indent
           ++ String.concat ("," ++ newline ++ indent) partial
           ++ newline ++ stepback ++ closing
  end.

Definition memberText (gap : string) (k : string) (t : option string) : list string :=
  match t with
  | Some t => [quote k ++ ":" ++ (if String.eqb gap EmptyString then EmptyString else " ") ++ t]
  | None => []
  end.

(** SerializeJSONProperty.  [K] is the property list of an array replacer
    ([None] without one), [gap] the indentation unit, [indent] the current
    indentation.  [None] is the result [undefined]. *)
Fixpoint serialize (K : option (list string)) (gap indent : string) (v : JsVal)
  : option string :=
  match v with
  | JUndefined => None
  | JNull => Some "null"
  | JBool true => Some "true"
  | JBool false => Some "false"
  | JNum n => Some (numberToString n)
  | JStr s => Some (quote s)
  | JArr elems =>
      let inner := indent ++ gap in
      let partial := map (fun x => default "null" (serialize K gap inner x)) elems in
      Some (wrap "[" "]" gap indent inner partial)
  | JObj props =>
      let inner := indent ++ gap in
      let texts := map (fun kx => (fst kx, serialize K gap inner (snd kx))) props in
      let partial :=
        match K with
        | None => flat_map (fun kt => memberText gap (fst kt) (snd kt)) texts
        | Some ks =>
            flat_map (fun k => memberText gap k (default None (assoc k texts))) ks
        end in
      Some (wrap "{" "}" gap indent inner partial)
  end.

(** [JSON.stringify(v)], [JSON.stringify(v, keys)] and
    [JSON.stringify(v, null, 2)] *)
Definition stringify (v : JsVal) : option string := serialize None EmptyString EmptyString v.
Definition stringifyKeys (v : JsVal) (keys : list string) : option string :=
  serialize (Some keys) EmptyString EmptyString v.
Definition stringifyIndent2 (v : JsVal) : option string := serialize None "  " EmptyString v.

(** *** JSON.parse *)

Definition isWs (c : ascii) : bool :=
  let n := nat_of_ascii c in
  Nat.eqb n 32 || Nat.eqb n 9 || Nat.eqb n 10 || Nat.eqb n 13.

Fixpoint skipWs (s : string) : string :=
  match s with
  | String c r => if isWs c then skipWs r else s
  | EmptyString => s
  end.

Definition hexValue (c : ascii) : option nat :=
  let n := nat_of_ascii c in
  if Nat.leb 48 n && Nat.leb n 57 then Some (n - 48)
  else if Nat.leb 97 n && Nat.leb n 102 then Some (n - 87)
  else if Nat.leb 65 n && Nat.leb n 70 then Some (n - 55)
  else None.

Definition consChar (c : ascii) (r : option (string * string)) : option (string * string) :=
  match r with
  | Some (s, rest) => Some (String c s, rest)
  | None => None
  end.

(** The characters of a string literal, after the opening quote.  A
    [\u] escape above [00ff] denotes a code unit the string type does not
    have. *)
Fixpoint parseChars (s : string) : option (string * string) :=
  match s with
  | EmptyString => None
  | String c r =>
      let n := nat_of_ascii c in
      if Nat.eqb n 34 then Some (EmptyString, r)
      else if Nat.eqb n 92 then
        match r with
        | String e r' =>
            let m := nat_of_ascii e in
            if Nat.eqb m 34 then consChar e (parseChars r')
            else if Nat.eqb m 92 then consChar e (parseChars r')
            else if Nat.eqb m 47 then consChar e (parseChars r')
            else if Nat.eqb m 98 then consChar (ascii_of_nat 8) (parseChars r')
            else if Nat.eqb m 102 then consChar (ascii_of_nat 12) (parseChars r')
            else if Nat.eqb m 110 then consChar (ascii_of_nat 10) (parseChars r')
            else if Nat.eqb m 114 then consChar (ascii_of_nat 13) (parseChars r')
            else if Nat.eqb m 116 then consChar (ascii_of_nat 9) (parseChars r')
            else if Nat.eqb m 117 then
              match r' with
              | String h1 (String h2 (String h3 (String h4 r''))) =>
                  match hexValue h1, hexValue h2, hexValue h3, hexValue h4 with
                  | Some 0, Some 0, Some a, Some b =>
                      consChar (ascii_of_nat (16 * a + b)) (parseChars r'')
                  | _, _, _, _ => None
                  end
              | _ => None
              end
            else None
        | EmptyString => None
        end
      else if Nat.ltb n 32 then None
      else consChar c (parseChars r)
  end.

Definition digitOf (c : ascii) : option (Decimal.uint -> Decimal.uint) :=
  match c with
  | "0"%char => Some Decimal.D0 | "1"%char => Some Decimal.D1
  | "2"%char => Some Decimal.D2 | "3"%char => Some Decimal.D3
  | "4"%char => Some Decimal.D4 | "5"%char => Some Decimal.D5
  | "6"%char => Some Decimal.D6 | "7"%char => Some Decimal.D7
  | "8"%char => Some Decimal.D8 | "9"%char => Some Decimal.D9
  | _ => None
  end.

(** The longest prefix of decimal digits. *)
Fixpoint parseDigits (s : string) : Decimal.uint * string :=
  match s with
  | EmptyString => (Decimal.Nil, s)
  | String c r =>
      match digitOf c with
      | Some d => let '(ds, rest) := parseDigits r in (d ds, rest)
      | None => (Decimal.Nil, s)
      end
  end.

(** An integer literal without sign.  A fraction or an exponent would
    denote a number outside the model and is refused, as is a leading
    zero. *)
Definition parseNat (s : string) : option (N * string) :=
  let '(ds, rest) := parseDigits s in
  let continues :=
    match rest with
    | String c _ =>
        Ascii.eqb c "." || Ascii.eqb c "e" || Ascii.eqb c "E"
    | EmptyString => false
    end in
  match ds with
  | Decimal.Nil => None
  | Decimal.D0 (Decimal.Nil) => if continues then None else Some (0%N, rest)
  | Decimal.D0 _ => None
  | _ => if continues then None else Some (N.of_uint ds, rest)
  end.

(** [Some rest] when [s] is [word] followed by [rest]. *)
Fixpoint dropPrefix (word s : string) : option string :=
  match word, s with
  | EmptyString, _ => Some s
  | String a word', String b s' => if Ascii.eqb a b then dropPrefix word' s' else None
  | String _ _, EmptyString => None
  end.

Definition literal (word : string) (v : JsVal) (s : string) : option (JsVal * string) :=
  match dropPrefix word s with
  | Some rest => Some (v, rest)
  | None => None
  end.

Section Composite.
(** The parser of one value, one nesting level down. *)
Variable parseValue : string -> option (JsVal * string).

(** The elements of an array after the first one, and the closing
    bracket. *)
Fixpoint parseElements (fuel : nat) (acc : list JsVal) (s : string)
  : option (JsVal * string) :=
  match fuel with
  | O => None
  | S fuel' =>
      match skipWs s with
      | String c r =>
          if Ascii.eqb c "]" then Some (JArr (rev acc), r)
          else if Ascii.eqb c "," then
            match parseValue r with
            | Some (x, r') => parseElements fuel' (x :: acc) r'
            | None => None
            end
          else None
      | EmptyString => None
      end
  end.

(** One member of an object: a string literal, a colon, a value. *)
Definition parseMember (s : string) : option (string * JsVal * string) :=
  match skipWs s with
  | String c r =>
      if Ascii.eqb c "034" then
        match parseChars r with
        | Some (k, r') =>
            match skipWs r' with
            | String c' r'' =>
                if Ascii.eqb c' ":" then
                  match parseValue r'' with
                  | Some (x, rest) => Some (k, x, rest)
                  | None => None
                  end
                else None
            | EmptyString => None
            end
        | None => None
        end
      else None
  | EmptyString => None
  end.

(** The members of an object after the first one, and the closing brace; a
    repeated key overwrites the earlier value. *)
Fixpoint parseMembers (fuel : nat) (acc : list (string * JsVal)) (s : string)
  : option (JsVal * string) :=
  match fuel with
  | O => None
  | S fuel' =>
      match skipWs s with
      | String c r =>
          if Ascii.eqb c "}" then Some (JObj acc, r)
          else if Ascii.eqb c "," then
            match parseMember r with
            | Some (k, x, r') => parseMembers fuel' (setProp k x acc) r'
            | None => None
            end
          else None
      | EmptyString => None
      end
  end.
End Composite.

Fixpoint parseValue (fuel : nat) (s : string) : option (JsVal * string) :=
  match fuel with
  | O => None
  | S fuel' =>
      match skipWs s with
      | EmptyString => None
      | String c r =>
          if Ascii.eqb c "[" then
            match skipWs r with
            | String c' r' =>
                if Ascii.eqb c' "]" then Some (JArr [], r')
                else
                  match parseValue fuel' r with
                  | Some (x, r'') => parseElements (parseValue fuel') fuel' [x] r''
                  | None => None
                  end
            | EmptyString => None
            end
          else if Ascii.eqb c "{" then
            match skipWs r with
            | String c' r' =>
                if Ascii.eqb c' "}" then Some (JObj [], r')
                else
                  match parseMember (parseValue fuel') r with
                  | Some (k, x, r'') => parseMembers (parseValue fuel') fuel' [(k, x)] r''
                  | None => None
                  end
            | EmptyString => None
            end
          else if Ascii.eqb c "034" then
            match parseChars r with
            | Some (str, r') => Some (JStr str, r')
            | None => None
            end
          else if Ascii.eqb c "n" then literal "ull" JNull r
          else if Ascii.eqb c "t" then literal "rue" (JBool true) r
          else if Ascii.eqb c "f" then literal "alse" (JBool false) r
          else if Ascii.eqb c "-" then
            match parseNat r with
            | Some (n, r') => Some (JNum (- Z.of_N n)%Z, r')
            | None => None
            end
          else
            match parseNat (String c r) with
            | Some (n, r') => Some (JNum (Z.of_N n), r')
            | None => None
            end
      end
  end.

(** [JSON.parse(text)]; [None] is a thrown SyntaxError. *)
Definition parse (text : string) : option JsVal :=
  match parseValue (S (String.length text)) text with
  | Some (v, rest) =>
      match skipWs rest with
      | EmptyString => Some v
      | _ => None
      end
  | None => None
  end.

End JSON.


(** ** The record types of [src/models/types.ts]

    The zod schemas are objects with optional members; only the members the
    modelled functions read are kept (the schemas are [passthrough]). *)

Module Types.

Record IdentificationModule := {
  nctId : string;
  briefTitle : string;
  officialTitle : option string;
  acronym : option string }.

Record DateStruct := {
  date : option string;
  dateType : option string }.

Record StatusModule := {
  overallStatus : string;
  startDateStruct : option DateStruct;
  primaryCompletionDateStruct : option DateStruct;
  completionDateStruct : option DateStruct;
  lastUpdatePostDateStruct : option DateStruct }.

Record DescriptionModule := {
  briefSummary : option string;
  detailedDescription : option string }.

Record ConditionsModule := {
  conditions : option (list string);
  keywords : option (list string) }.

Record MaskingInfo := {
  masking : option string }.

Record DesignInfo := {
  allocation : option string;
  interventionModel : option string;
  primaryPurpose : option string;
  maskingInfo : option MaskingInfo }.

Record EnrollmentInfo := {
  count : option Z;
  enrollmentType : option string }.

Record DesignModule := {
  studyType : option string;
  phases : option (list string);
  designInfo : option DesignInfo;
  enrollmentInfo : option EnrollmentInfo }.

Record Intervention := {
  interventionKind : option string;   (* the member [type] *)
  interventionName : option string }.

Record ArmsInterventionsModule := {
  interventions : option (list Intervention) }.

Record EligibilityModule := {
  eligibilityCriteria : option string;
  healthyVolunteers : option bool;
  sex : option string;
  minimumAge : option string;
  maximumAge : option string;
  stdAges : option (list string) }.

Record Location := {
  facility : option string;
  locStatus : option string;
  city : option string;
  state : option string;
  country : option string }.

Record ContactsLocationsModule := {
  locations : option (list Location) }.

Record Sponsor := {
  sponsorName : option string;
  sponsorClass : option string }.      (* the member [class] *)

Record SponsorCollaboratorsModule := {
  leadSponsor : option Sponsor }.

Record OversightModule := {
  isFdaRegulatedDrug : option bool;
  isFdaRegulatedDevice : option bool }.

Record ProtocolSection := {
  identificationModule : IdentificationModule;
  statusModule : StatusModule;
  descriptionModule : option DescriptionModule;
  conditionsModule : option ConditionsModule;
  designModule : option DesignModule;
  armsInterventionsModule : option ArmsInterventionsModule;
  eligibilityModule : option EligibilityModule;
  contactsLocationsModule : option ContactsLocationsModule;
  sponsorCollaboratorsModule : option SponsorCollaboratorsModule;
  oversightModule : option OversightModule }.

Record Study := {
  protocolSection : ProtocolSection;
  hasResults : option bool }.

(** [FilterParams]; [phase] is not declared in the interface but read by
    [filterStudies] through a cast. *)
Record FilterParams := {
  f_phase : option string;
  f_locationCountry : option string;
  f_locationState : option string;
  f_locationCity : option string;
  f_enrollmentMin : option Z;
  f_enrollmentMax : option Z;
  f_startDateAfter : option string;
  f_startDateBefore : option string;
  f_completionDateAfter : option string;
  f_completionDateBefore : option string;
  f_interventionType : option string;
  f_hasResults : option bool;
  f_studyType : option string;
  f_sex : option string;
  f_healthyVolunteers : option bool;
  f_sponsorClass : option string;
  f_allocation : option string;
  f_interventionModel : option string;
  f_primaryPurpose : option string;
  f_minAge : option string;
  f_maxAge : option string;
  f_ageGroups : option (list string);
  f_masking : option string;
  f_fdaRegulated : option bool;
  f_keyword : option string }.

(** The criteria object with no member set. *)
Definition noFilters : FilterParams :=
  Build_FilterParams None None None None None None None None None None None None
    None None None None None None None None None None None None None.

End Types.

(** ** The cast [as Study]

    [JSON.parse] yields an untyped value that the callers use at type
    [Study].  [asStudy] reads the members the record types declare; it is
    defined on the values that have the members the schema requires
    ([protocolSection] with [identificationModule.nctId],
    [identificationModule.briefTitle] and [statusModule.overallStatus]).  A
    member of another type than the schema's reads as absent. *)

Module Cast.
Import Js Types.

Definition str (v : JsVal) (k : string) : option string := asString (member v k).
Definition num (v : JsVal) (k : string) : option Z := asNumber (member v k).
Definition boolean (v : JsVal) (k : string) : option bool := asBool (member v k).

Definition obj {A} (v : JsVal) (k : string) (f : JsVal -> A) : option A :=
  f <$> asObject (member v k).

Definition strings (v : JsVal) (k : string) : option (list string) :=
  asArray (member v k) ≫= mapM asString.

Definition objects {A} (v : JsVal) (k : string) (f : JsVal -> A) : option (list A) :=
  asArray (member v k) ≫= mapM (fun x => f <$> asObject x).

Definition asDateStruct (v : JsVal) : DateStruct :=
  {| date := str v "date"; dateType := str v "type" |}.

Definition asDescriptionModule (v : JsVal) : DescriptionModule :=
  {| briefSummary := str v "briefSummary";
     detailedDescription := str v "detailedDescription" |}.

Definition asConditionsModule (v : JsVal) : ConditionsModule :=
  {| conditions := strings v "conditions"; keywords := strings v "keywords" |}.

Definition asMaskingInfo (v : JsVal) : MaskingInfo :=
  {| masking := str v "masking" |}.

Definition asDesignInfo (v : JsVal) : DesignInfo :=
  {| allocation := str v "allocation";
     interventionModel := str v "interventionModel";
     primaryPurpose := str v "primaryPurpose";
     maskingInfo := obj v "maskingInfo" asMaskingInfo |}.

Definition asEnrollmentInfo (v : JsVal) : EnrollmentInfo :=
  {| count := num v "count"; enrollmentType := str v "type" |}.

Definition asDesignModule (v : JsVal) : DesignModule :=
  {| studyType := str v "studyType";
     phases := strings v "phases";
     designInfo := obj v "designInfo" asDesignInfo;
     enrollmentInfo := obj v "enrollmentInfo" asEnrollmentInfo |}.

Definition asIntervention (v : JsVal) : Intervention :=
  {| interventionKind := str v "type"; interventionName := str v "name" |}.

Definition asArmsInterventionsModule (v : JsVal) : ArmsInterventionsModule :=
  {| interventions := objects v "interventions" asIntervention |}.

Definition asEligibilityModule (v : JsVal) : EligibilityModule :=
  {| eligibilityCriteria := str v "eligibilityCriteria";
     healthyVolunteers := boolean v "healthyVolunteers";
     sex := str v "sex";
     minimumAge := str v "minimumAge";
     maximumAge := str v "maximumAge";
     stdAges := strings v "stdAges" |}.

Definition asLocation (v : JsVal) : Location :=
  {| facility := str v "facility";
     locStatus := str v "status";
     city := str v "city";
     state := str v "state";
     country := str v "country" |}.

Definition asContactsLocationsModule (v : JsVal) : ContactsLocationsModule :=
  {| locations := objects v "locations" asLocation |}.

Definition asSponsor (v : JsVal) : Sponsor :=
  {| sponsorName := str v "name"; sponsorClass := str v "class" |}.

Definition asSponsorCollaboratorsModule (v : JsVal) : SponsorCollaboratorsModule :=
  {| leadSponsor := obj v "leadSponsor" asSponsor |}.

Definition asOversightModule (v : JsVal) : OversightModule :=
  {| isFdaRegulatedDrug := boolean v "isFdaRegulatedDrug";
     isFdaRegulatedDevice := boolean v "isFdaRegulatedDevice" |}.

Definition asIdentificationModule (v : JsVal) : option IdentificationModule :=
  id ← str v "nctId";
  title ← str v "briefTitle";
  Some {| nctId := id;
          briefTitle := title;
          officialTitle := str v "officialTitle";
          acronym := str v "acronym" |}.

Definition asStatusModule (v : JsVal) : option StatusModule :=
  status ← str v "overallStatus";
  Some {| overallStatus := status;
          startDateStruct := obj v "startDateStruct" asDateStruct;
          primaryCompletionDateStruct := obj v "primaryCompletionDateStruct" asDateStruct;
          completionDateStruct := obj v "completionDateStruct" asDateStruct;
          lastUpdatePostDateStruct := obj v "lastUpdatePostDateStruct" asDateStruct |}.

Definition asProtocolSection (v : JsVal) : option ProtocolSection :=
  ident ← asObject (member v "identificationModule") ≫= asIdentificationModule;
  status ← asObject (member v "statusModule") ≫= asStatusModule;
  Some {| identificationModule := ident;
          statusModule := status;
          descriptionModule := obj v "descriptionModule" asDescriptionModule;
          conditionsModule := obj v "conditionsModule" asConditionsModule;
          designModule := obj v "designModule" asDesignModule;
          armsInterventionsModule :=
            obj v "armsInterventionsModule" asArmsInterventionsModule;
          eligibilityModule := obj v "eligibilityModule" asEligibilityModule;
          contactsLocationsModule :=
            obj v "contactsLocationsModule" asContactsLocationsModule;
          sponsorCollaboratorsModule :=
            obj v "sponsorCollaboratorsModule" asSponsorCollaboratorsModule;
          oversightModule := obj v "oversightModule" asOversightModule |}.

Definition asStudy (v : JsVal) : option Study :=
  protocol ← asObject (member v "protocolSection") ≫= asProtocolSection;
  Some {| protocolSection := protocol; hasResults := boolean v "hasResults" |}.

(** [s.protocolSection.identificationModule.nctId] *)
Definition studyId (s : Study) : string :=
  nctId (identificationModule (protocolSection s)).

End Cast.

(** ** [src/utils/helpers.ts]: the filter engine *)

Module Helpers.
Import Types JsString.

(** Optional chaining [o?.m]: [undefined] when [o] is. *)
Definition chain {A B} (o : option A) (m : A -> option B) : option B :=
  match o with
  | Some x => m x
  | None => None
  end.
Infix "?." := chain (at level 25, left associativity).

(** [a || []] on an optional array *)
Definition orEmpty {A} (o : option (list A)) : list A := default [] o.

(** [a || b] on optional booleans: the first operand when it is truthy,
    the second one otherwise. *)
Definition orBool (a b : option bool) : option bool :=
  match a with
  | Some true => a
  | _ => b
  end.

(** [a !== b] for an optional value against a value that is present *)
Definition differs {A} `{EqDecision A} (a : option A) (b : A) : bool :=
  negb (bool_decide (a = Some b)).

Section Clauses.
Variable filters : FilterParams.
Variable study : Study.

Let protocol := protocolSection study.
Let locs := orEmpty (contactsLocationsModule protocol ?. locations).
Let intervs := orEmpty (armsInterventionsModule protocol ?. interventions).
Let enrollment := designModule protocol ?. enrollmentInfo ?. count.
Let startDate := startDateStruct (statusModule protocol) ?. date.
Let completionDate := completionDateStruct (statusModule protocol) ?. date.

(** Each definition is one [if] block of the callback; it is [false]
    exactly when the block executes [return false]. *)

Definition phaseOk : bool :=
  match truthy (f_phase filters) with
  | None => true
  | Some phaseFilter =>
      let phs := orEmpty (designModule protocol ?. phases) in
      let normalizedFilter := toLowerCase phaseFilter in
      existsb (fun p =>
        let normalizedPhase := toLowerCase p in
        if String.eqb normalizedFilter "phase 1"
        then String.eqb normalizedPhase "phase 1"
             || String.eqb normalizedPhase "early phase 1"
        else String.eqb normalizedPhase normalizedFilter) phs
  end.

Definition someLocation (field : Location -> option string) (q : string) : bool :=
  existsb (fun loc =>
    match field loc with
    | Some v => includes (toLowerCase v) (toLowerCase q)
    | None => false
    end) locs.

Definition locationCountryOk : bool :=
  match truthy (f_locationCountry filters) with
  | None => true
  | Some q => someLocation country q
  end.

Definition locationStateOk : bool :=
  match truthy (f_locationState filters) with
  | None => true
  | Some q => someLocation state q
  end.

Definition locationCityOk : bool :=
  match truthy (f_locationCity filters) with
  | None => true
  | Some q => someLocation city q
  end.

Definition enrollmentMinOk : bool :=
  match f_enrollmentMin filters, enrollment with
  | Some lo, Some n => negb (n <? lo)
  | _, _ => true
  end.

Definition enrollmentMaxOk : bool :=
  match f_enrollmentMax filters, enrollment with
  | Some hi, Some n => negb (n >? hi)
  | _, _ => true
  end.

Definition notBefore (bound recordDate : option string) : bool :=
  match truthy bound, truthy recordDate with
  | Some b, Some d => negb (lt d b)
  | _, _ => true
  end.

Definition notAfter (bound recordDate : option string) : bool :=
  match truthy bound, truthy recordDate with
  | Some b, Some d => negb (gt d b)
  | _, _ => true
  end.

Definition startDateAfterOk := notBefore (f_startDateAfter filters) startDate.
Definition startDateBeforeOk := notAfter (f_startDateBefore filters) startDate.
Definition completionDateAfterOk :=
  notBefore (f_completionDateAfter filters) completionDate.
Definition completionDateBeforeOk :=
  notAfter (f_completionDateBefore filters) completionDate.

Definition interventionTypeOk : bool :=
  match truthy (f_interventionType filters) with
  | None => true
  | Some q =>
      existsb (fun int =>
        bool_decide (toLowerCase <$> interventionKind int = Some (toLowerCase q)))
        intervs
  end.

Definition hasResultsOk : bool :=
  match f_hasResults filters with
  | None => true
  | Some b => negb (differs (hasResults study) b)
  end.

(** The four enumeration filters that upper-case both sides. *)
Definition upperEq (criterion recordValue : option string) : bool :=
  match truthy criterion with
  | None => true
  | Some c => negb (differs (toUpperCase <$> recordValue) (toUpperCase c))
  end.

(** The three enumeration filters that upper-case both sides and replace
    every space by an underscore. *)
Definition normalizedEq (criterion recordValue : option string) : bool :=
  match truthy criterion with
  | None => true
  | Some c =>
      negb (differs (replaceSpaces <$> (toUpperCase <$> recordValue))
                    (replaceSpaces (toUpperCase c)))
  end.

Definition studyTypeOk : bool :=
  upperEq (f_studyType filters) (designModule protocol ?. studyType).

Definition sexOk : bool :=
  upperEq (f_sex filters) (eligibilityModule protocol ?. sex).

Definition healthyVolunteersOk : bool :=
  match f_healthyVolunteers filters with
  | None => true
  | Some b => negb (differs (eligibilityModule protocol ?. healthyVolunteers) b)
  end.

Definition sponsorClassOk : bool :=
  upperEq (f_sponsorClass filters)
          (sponsorCollaboratorsModule protocol ?. leadSponsor ?. sponsorClass).

Definition allocationOk : bool :=
  normalizedEq (f_allocation filters)
               (designModule protocol ?. designInfo ?. allocation).

Definition interventionModelOk : bool :=
  normalizedEq (f_interventionModel filters)
               (designModule protocol ?. designInfo ?. interventionModel).

Definition primaryPurposeOk : bool :=
  normalizedEq (f_primaryPurpose filters)
               (designModule protocol ?. designInfo ?. primaryPurpose).

Definition minAgeOk : bool :=
  match truthy (f_minAge filters) with
  | None => true
  | Some bound =>
      match truthy (eligibilityModule protocol ?. minimumAge) with
      | None => false
      | Some studyMinAge =>
          negb (String.eqb studyMinAge "N/A") && negb (lt studyMinAge bound)
      end
  end.

Definition maxAgeOk : bool :=
  match truthy (f_maxAge filters) with
  | None => true
  | Some bound =>
      match truthy (eligibilityModule protocol ?. maximumAge) with
      | None => false
      | Some studyMaxAge =>
          negb (String.eqb studyMaxAge "N/A") && negb (gt studyMaxAge bound)
      end
  end.

Definition ageGroupsOk : bool :=
  match f_ageGroups filters with
  | None | Some [] => true
  | Some ags =>
      let studyAgeGroups := orEmpty (eligibilityModule protocol ?. stdAges) in
      existsb (fun ag =>
        existsb (fun sag => String.eqb (toUpperCase sag) (toUpperCase ag))
                studyAgeGroups) ags
  end.

Definition maskingOk : bool :=
  upperEq (f_masking filters)
          (designModule protocol ?. designInfo ?. maskingInfo ?. masking).

Definition fdaRegulatedOk : bool :=
  match f_fdaRegulated filters with
  | None => true
  | Some wanted =>
      match oversightModule protocol with
      | Some oversight =>
          let isFDARegulated :=
            orBool (isFdaRegulatedDrug oversight) (isFdaRegulatedDevice oversight) in
          negb (differs isFDARegulated wanted)
      | None => false
      end
  end.

Definition keywordOk : bool :=
  match truthy (f_keyword filters) with
  | None => true
  | Some q =>
      let kws := orEmpty (conditionsModule protocol ?. keywords) in
      existsb (fun kw => includes (toLowerCase kw) (toLowerCase q)) kws
  end.

(** The callback of [studies.filter]: the blocks in source order; the
    first failing block returns [false], otherwise [true] is returned. *)
Definition matches : bool :=
  phaseOk
  && locationCountryOk && locationStateOk && locationCityOk
  && enrollmentMinOk && enrollmentMaxOk
  && startDateAfterOk && startDateBeforeOk
  && completionDateAfterOk && completionDateBeforeOk
  && interventionTypeOk
  && hasResultsOk
  && studyTypeOk && sexOk && healthyVolunteersOk && sponsorClassOk
  && allocationOk && interventionModelOk && primaryPurposeOk
  && minAgeOk && maxAgeOk
  && ageGroupsOk
  && maskingOk
  && fdaRegulatedOk
  && keywordOk.
End Clauses.

(** [studies.filter((study) => ...)] *)
Definition filterStudies (studies : list Study) (filters : FilterParams) : list Study :=
  List.filter (matches filters) studies.

(** [formatStudyList(studies, maxResults)] *)
Definition nl : string := JSON.newline.

Definition lengthText {A} (l : list A) : string :=
  Js.natToString (N.of_nat (List.length l)).

Definition studyEntry (i : nat) (study : Study) : string :=
  let protocol := protocolSection study in
  let id := identificationModule protocol in
  let status := statusModule protocol in
  let design := designModule protocol in
  Js.natToString (N.of_nat (i + 1)) ++ ". **" ++ nctId id ++ "** - " ++ briefTitle id ++ nl
  ++ "   Status: " ++ overallStatus status
  ++ match design ?. phases with
     | Some ((_ :: _) as ph) => " | Phase: " ++ join ", " ph
     | _ => EmptyString
     end
  ++ match design ?. enrollmentInfo ?. count with
     | Some n => if n =? 0 then EmptyString
                 else " | Enrollment: " ++ Js.numberToString n
     | None => EmptyString
     end
  ++ nl ++ nl.

Definition formatStudyList (studies : list Study) (maxResults : nat) : string :=
  let displayStudies := take maxResults studies in
  "Found " ++ lengthText studies ++ " studies" ++ nl ++ nl
  ++ String.concat EmptyString (imap studyEntry displayStudies)
  ++ if Nat.ltb maxResults (List.length studies)
     then "... and " ++ Js.natToString (N.of_nat (List.length studies - maxResults))
          ++ " more studies" ++ nl
     else EmptyString.

End Helpers.

(** ** [src/utils/cache.ts]: the two-tier response cache *)

Module Cache.
Import Js.

Definition MEMORY_CACHE_TTL_MS : Z := 60 * 1000.
Definition DISK_CACHE_TTL_MS : Z := 24 * 60 * 60 * 1000.

Record CacheEntry := {
  data : JsVal;
  timestamp : Z }.

(** A [CacheManager] together with the two pieces of its environment it
    touches: the files of the cache directory (path to content) and the
    clock behind [Date.now()].  One method call reads one clock value;
    time passes between calls ([elapse]). *)
Record State := {
  memoryCache : gmap string CacheEntry;
  cacheDir : string;
  files : gmap string string;
  clock : Z }.

Definition elapse (ms : Z) (c : State) : State :=
  {| memoryCache := memoryCache c; cacheDir := cacheDir c;
     files := files c; clock := clock c + ms |}.

Definition withMemory (m : gmap string CacheEntry) (c : State) : State :=
  {| memoryCache := m; cacheDir := cacheDir c; files := files c; clock := clock c |}.

Definition withFiles (f : gmap string string) (c : State) : State :=
  {| memoryCache := memoryCache c; cacheDir := cacheDir c; files := f; clock := clock c |}.

(** *** hashString *)

(** ToInt32 *)
Definition toInt32 (z : Z) : Z :=
  let m := z mod 2 ^ 32 in
  if m <? 2 ^ 31 then m else m - 2 ^ 32.

(** [a << k] and [a & b] on numbers *)
Definition shl (a k : Z) : Z := toInt32 (Z.shiftl (toInt32 a) k).
Definition and32 (a b : Z) : Z := Z.land (toInt32 a) (toInt32 b).

Definition charCode (c : ascii) : Z := Z.of_nat (nat_of_ascii c).

(** One iteration of the loop body. *)
Definition hashStep (hash : Z) (c : ascii) : Z :=
  let hash := shl hash 5 - hash + charCode c in
  and32 hash hash.

Definition hashLoop (str : string) : Z :=
  fold_left hashStep (list_ascii_of_string str) 0.

Definition digit36 (d : Z) : ascii :=
  ascii_of_nat (Z.to_nat (if d <? 10 then 48 + d else 87 + d)).

(** The base-36 digits of a positive number, most significant first. *)
Fixpoint digits36 (fuel : nat) (n : Z) (acc : string) : string :=
  match fuel with
  | O => acc
  | S fuel' =>
      if n <=? 0 then acc
      else digits36 fuel' (n / 36) (String (digit36 (n mod 36)) acc)
  end.

(** [n.toString(36)] for a non-negative integer *)
Definition toString36 (n : Z) : string :=
  if n =? 0 then "0" else digits36 (S (Z.to_nat (Z.log2 n))) n EmptyString.

Definition hashString (str : string) : string :=
  toString36 (Z.abs (hashLoop str)).

(** *** generateKey *)

(** The property list of an array replacer: its items without repetition. *)
Definition propertyList (items : list string) : list string :=
  fold_left (fun acc k => if existsb (String.eqb k) acc then acc else (acc ++ [k])%list)
            items [].

Definition generateKey (prefix : string) (params : JsVal) : Result string :=
  bindR (Object_keys params) (fun keys =>
    match JSON.stringifyKeys params (propertyList (sort keys)) with
    | Some paramsStr => Ok (prefix ++ ":" ++ hashString paramsStr)
    | None => Throw TypeError
    end).

(** *** The memory tier *)

Definition getFromMemory (key : string) (c : State) : State * JsVal :=
  match memoryCache c !! key with
  | None => (c, JNull)
  | Some entry =>
      let age := clock c - timestamp entry in
      if age >? MEMORY_CACHE_TTL_MS
      then (withMemory (delete key (memoryCache c)) c, JNull)
      else (c, data entry)
  end.

Definition setInMemory (key : string) (d : JsVal) (c : State) : State :=
  withMemory (<[key := {| data := d; timestamp := clock c |}]> (memoryCache c)) c.

(** *** The disk tier *)

(** [path.join(this.cacheDir, `${key}.json`)] *)
Definition getDiskCachePath (key : string) (c : State) : string :=
  Path.join (cacheDir c) (key ++ ".json").

(** ToNumber on the values a timestamp member is read at; [None] is NaN.
    Strings and objects are not converted. *)
Definition toNumber (v : JsVal) : option Z :=
  match v with
  | JNum n => Some n
  | JNull => Some 0
  | JBool b => Some (if b then 1 else 0)
  | _ => None
  end.

Definition unlink (filePath : string) (c : State) : State :=
  withFiles (delete filePath (files c)) c.

Definition getFromDisk (key : string) (c : State) : State * JsVal :=
  let filePath := getDiskCachePath key c in
  match files c !! filePath with
  | None => (c, JNull)
  | Some content =>
      match JSON.parse content with
      | None | Some JNull => (unlink filePath c, JNull)      (* the catch block *)
      | Some entry =>
          let expired :=
            match toNumber (member entry "timestamp") with
            | Some t => clock c - t >? DISK_CACHE_TTL_MS
            | None => false
            end in
          if expired then (unlink filePath c, JNull)
          else (c, member entry "data")
      end
  end.

Definition entryObject (d : JsVal) (now : Z) : JsVal :=
  JObj [("data", d); ("timestamp", JNum now)].

Definition setOnDisk (key : string) (d : JsVal) (c : State) : State :=
  let filePath := getDiskCachePath key c in
  match JSON.stringifyIndent2 (entryObject d (clock c)) with
  | Some text => withFiles (<[filePath := text]> (files c)) c
  | None => c
  end.

(** *** get and set *)

Definition get (prefix : string) (params : JsVal) (c : State) : Result (State * JsVal) :=
  bindR (generateKey prefix params) (fun key =>
    let '(c1, memoryData) := getFromMemory key c in
    if truthy memoryData then Ok (c1, memoryData)
    else
      let '(c2, diskData) := getFromDisk key c1 in
      if truthy diskData then Ok (setInMemory key diskData c2, diskData)
      else Ok (c2, JNull)).

Definition set (prefix : string) (params : JsVal) (d : JsVal) (c : State) : Result State :=
  bindR (generateKey prefix params) (fun key =>
    Ok (setOnDisk key d (setInMemory key d c))).

End Cache.


(** ** [src/db/database.ts]: the record store and the sessions

    The [studies] table is keyed by its primary key [nct_id]; the
    [search_sessions] table by [session_id]; [session_results] is the list
    of its rows (session_id, nct_id) in insertion order.  The child tables
    (conditions, keywords, interventions, locations, outcomes) are written
    after the [studies] row, by statements that ignore conflicts, and read
    by none of the modelled methods; they are left out.

    The full-text index [studies_fts] is an external-content FTS5 table
    over [studies], kept by three triggers.  Trigger [studies_au] runs
    [UPDATE studies_fts ... WHERE rowid = new.rowid] after every update of
    a [studies] row.  SQLite answers that statement with
    SQLITE_CORRUPT_VTAB when it finds the index out of step with the table,
    which an update of an external-content table by this trigger can bring
    about; the update of the row is then undone with it.  The content of
    the index is outside the model.  What the database keeps of it is the
    answer [fts_accepts n] that SQLite gives to the [n]-th update the
    trigger runs on this file, and the number [fts_updates] of the updates
    run so far. *)

Module Database.
Import Js Types Cast.

Record StudyRow := {
  brief_title : string;
  official_title : option string;
  acronym_ : option string;
  overall_status : string;
  study_type : option string;
  phase : option string;
  enrollment_count : option Z;
  enrollment_type : option string;
  start_date : option string;
  start_date_type : option string;
  primary_completion_date : option string;
  completion_date : option string;
  last_update_posted : option string;
  has_results : Z;
  brief_summary : option string;
  detailed_description : option string;
  eligibility_criteria : option string;
  sex_ : option string;
  minimum_age : option string;
  maximum_age : option string;
  healthy_volunteers : Z;
  lead_sponsor_name : option string;
  lead_sponsor_class : option string;
  allocation_ : option string;
  intervention_model : option string;
  primary_purpose : option string;
  masking_ : option string;
  is_fda_regulated_drug : option Z;
  is_fda_regulated_device : option Z;
  age_groups : option string;
  raw_json : string;
  fetched_at : Z;
  updated_at : Z }.

Record SessionRow := {
  search_params : string;
  created_at : Z;
  last_accessed_at : Z }.

(** The database file, and the clock behind [CURRENT_TIMESTAMP]. *)
Record DB := {
  studies : gmap string StudyRow;
  search_sessions : gmap string SessionRow;
  session_results : list (string * string);
  now : Z;
  fts_accepts : nat -> bool;
  fts_updates : nat }.

Definition withStudies (t : gmap string StudyRow) (db : DB) : DB :=
  {| studies := t; search_sessions := search_sessions db;
     session_results := session_results db; now := now db;
     fts_accepts := fts_accepts db; fts_updates := fts_updates db |}.

Definition withSessions (t : gmap string SessionRow) (db : DB) : DB :=
  {| studies := studies db; search_sessions := t;
     session_results := session_results db; now := now db;
     fts_accepts := fts_accepts db; fts_updates := fts_updates db |}.

Definition withResults (t : list (string * string)) (db : DB) : DB :=
  {| studies := studies db; search_sessions := search_sessions db;
     session_results := t; now := now db;
     fts_accepts := fts_accepts db; fts_updates := fts_updates db |}.

(** The database after one more update of the full-text index. *)
Definition indexed (db : DB) : DB :=
  {| studies := studies db; search_sessions := search_sessions db;
     session_results := session_results db; now := now db;
     fts_accepts := fts_accepts db; fts_updates := S (fts_updates db) |}.

(** A method runs on the database and returns or throws; what it wrote
    before throwing stays written (no transaction is opened). *)
Definition M (A : Type) : Type := DB -> DB * Result A.

Definition ret {A} (a : A) : M A := fun db => (db, Ok a).
Definition throw {A} (e : JsError) : M A := fun db => (db, Throw e).
Definition bind {A B} (m : M A) (k : A -> M B) : M B :=
  fun db =>
    match m db with
    | (db', Ok a) => k a db'
    | (db', Throw e) => (db', Throw e)
    end.
Definition modify (f : DB -> DB) : M unit := fun db => (f db, Ok tt).
Definition read {A} (f : DB -> A) : M A := fun db => (db, Ok (f db)).

Notation "x <- m ;; k" := (bind m (fun x => k))
  (at level 100, m at next level, right associativity).
Notation "m ;;; k" := (bind m (fun _ => k))
  (at level 100, right associativity).

(** [for (const x of l) body(x)] *)
Fixpoint forEach {A} (l : list A) (body : A -> M unit) : M unit :=
  match l with
  | [] => ret tt
  | x :: r => body x ;;; forEach r body
  end.

(** [s || null] on strings and numbers, [b ? 1 : 0] *)
Definition orNullNum (n : option Z) : option Z :=
  match n with
  | Some 0 => None
  | _ => n
  end.

Definition flag (b : option bool) : Z :=
  match b with
  | Some true => 1
  | _ => 0
  end.

Infix "?." := Helpers.chain (at level 25, left associativity).

(** The parameters bound by [stmt.run] in [upsertStudy]. *)
Definition project (study : Study) (rawJson : string) (fetched updated : Z) : StudyRow :=
  let protocol := protocolSection study in
  let identification := identificationModule protocol in
  let status := statusModule protocol in
  let description := descriptionModule protocol in
  let design := designModule protocol in
  let eligibility := eligibilityModule protocol in
  let sponsor := sponsorCollaboratorsModule protocol in
  let oversight := oversightModule protocol in
  let orNull := JsString.truthy in
  {| brief_title := briefTitle identification;
     official_title := orNull (officialTitle identification);
     acronym_ := orNull (acronym identification);
     overall_status := overallStatus status;
     study_type := orNull (design ?. studyType);
     phase := orNull (JsString.join ", " <$> design ?. phases);
     enrollment_count := orNullNum (design ?. enrollmentInfo ?. count);
     enrollment_type := orNull (design ?. enrollmentInfo ?. enrollmentType);
     start_date := orNull (startDateStruct status ?. date);
     start_date_type := orNull (startDateStruct status ?. dateType);
     primary_completion_date := orNull (primaryCompletionDateStruct status ?. date);
     completion_date := orNull (completionDateStruct status ?. date);
     last_update_posted := orNull (lastUpdatePostDateStruct status ?. date);
     has_results := flag (hasResults study);
     brief_summary := orNull (description ?. briefSummary);
     detailed_description := orNull (description ?. detailedDescription);
     eligibility_criteria := orNull (eligibility ?. eligibilityCriteria);
     sex_ := orNull (eligibility ?. sex);
     minimum_age := orNull (eligibility ?. minimumAge);
     maximum_age := orNull (eligibility ?. maximumAge);
     healthy_volunteers := flag (eligibility ?. healthyVolunteers);
     lead_sponsor_name := orNull (sponsor ?. leadSponsor ?. sponsorName);
     lead_sponsor_class := orNull (sponsor ?. leadSponsor ?. sponsorClass);
     allocation_ := orNull (design ?. designInfo ?. allocation);
     intervention_model := orNull (design ?. designInfo ?. interventionModel);
     primary_purpose := orNull (design ?. designInfo ?. primaryPurpose);
     masking_ := orNull (design ?. designInfo ?. maskingInfo ?. masking);
     is_fda_regulated_drug := Some (flag (oversight ?. isFdaRegulatedDrug));
     is_fda_regulated_device := Some (flag (oversight ?. isFdaRegulatedDevice));
     age_groups := orNull (JsString.join "," <$> eligibility ?. stdAges);
     raw_json := rawJson;
     fetched_at := fetched;
     updated_at := updated |}.

(** [INSERT INTO studies ... ON CONFLICT(nct_id) DO UPDATE SET ...]: a new
    row, or every column but [fetched_at] overwritten. *)
Definition upsertRow (id : string) (study : Study) (rawJson : string) (db : DB) : DB :=
  let fetched :=
    match studies db !! id with
    | Some old => fetched_at old
    | None => now db
    end in
  withStudies (<[id := project study rawJson fetched (now db)]> (studies db)) db.

(** Trigger [studies_au]: the update of the full-text index that follows
    an update of a [studies] row. *)
Definition studies_au : M unit :=
  fun db =>
    if fts_accepts db (fts_updates db) then (indexed db, Ok tt)
    else (indexed db, Throw SqliteError).

(** [upsertStudy(study)].  For a new identifier the statement inserts the
    row (trigger [studies_ai] adds it to the index).  For a stored
    identifier it updates the row and trigger [studies_au] runs; when
    SQLite refuses the trigger's update the statement is undone, the row
    stays as it was, and [stmt.run] throws. *)
Definition upsertStudy (study : JsVal) : M unit :=
  match asStudy study, JSON.stringify study with
  | Some typed, Some rawJson =>
      fun db =>
        match studies db !! studyId typed with
        | None => (upsertRow (studyId typed) typed rawJson db, Ok tt)
        | Some _ =>
            match studies_au (upsertRow (studyId typed) typed rawJson db) with
            | (db', Ok _) => (db', Ok tt)
            | (_, Throw e) => (indexed db, Throw e)
            end
        end
  | _, _ => throw TypeError
  end.

(** [getStudy(nctId)]; [None] is [null]. *)
Definition getStudy (nctId : string) : M (option JsVal) :=
  row <- read (fun db => studies db !! nctId) ;;
  match row with
  | Some row =>
      match JSON.parse (raw_json row) with
      | Some study => ret (Some study)
      | None => throw SyntaxError
      end
  | None => ret None
  end.

(** [INSERT INTO session_results (session_id, nct_id) VALUES (?, ?)] under
    the primary key and the two foreign keys. *)
Definition insertResult (sessionId nctId : string) : M unit :=
  fun db =>
    if bool_decide ((sessionId, nctId) ∈ session_results db) then (db, Throw SqliteError)
    else if bool_decide (is_Some (search_sessions db !! sessionId)
                         ∧ is_Some (studies db !! nctId))
    then (withResults (session_results db ++ [(sessionId, nctId)]) db, Ok tt)
    else (db, Throw SqliteError).

(** [createSession(sessionId, searchParams, nctIds)] *)
Definition createSession (sessionId : string) (searchParams : JsVal)
           (nctIds : list string) : M unit :=
  match JSON.stringify searchParams with
  | None => throw TypeError
  | Some params =>
      known <- read (fun db => search_sessions db !! sessionId) ;;
      match known with
      | Some _ => throw SqliteError
      | None =>
          modify (fun db =>
            withSessions (<[sessionId := {| search_params := params;
                                            created_at := now db;
                                            last_accessed_at := now db |}]>
                            (search_sessions db)) db) ;;;
          forEach nctIds (insertResult sessionId)
      end
  end.

(** [UPDATE search_sessions SET last_accessed_at = CURRENT_TIMESTAMP
     WHERE session_id = ?] *)
Definition touch (sessionId : string) : M unit :=
  modify (fun db =>
    withSessions
      (alter (fun row => {| search_params := search_params row;
                            created_at := created_at row;
                            last_accessed_at := now db |})
             sessionId (search_sessions db)) db).

(** The [nct_id]s of the rows of a session, in insertion order. *)
Definition sessionRows (sessionId : string) (db : DB) : list string :=
  snd <$> List.filter (fun row => String.eqb (fst row) sessionId) (session_results db).

(** The [nct_id]s of a session in the order in which a query for the
    session finds them.  The query has no ORDER BY; SQLite answers it by
    walking the index of the primary key (session_id, nct_id), so the
    identifiers come in ascending order, compared code unit by code
    unit. *)
Definition sessionIds (sessionId : string) (db : DB) : list string :=
  sort (sessionRows sessionId db).

(** [SELECT s.raw_json FROM studies s INNER JOIN session_results sr ...
     WHERE sr.session_id = ?]: the payloads in the order of
    [sessionIds]. *)
Definition selectRawJson (sessionId : string) (db : DB) : list string :=
  omap (fun id => raw_json <$> studies db !! id) (sessionIds sessionId db).

(** [rows.map((row) => JSON.parse(row.raw_json))] *)
Definition parseAll (rows : list string) : M (list JsVal) :=
  match mapM JSON.parse rows with
  | Some l => ret l
  | None => throw SyntaxError
  end.

(** [getSessionResults(sessionId)] *)
Definition getSessionResults (sessionId : string) : M (list JsVal) :=
  touch sessionId ;;;
  rows <- read (selectRawJson sessionId) ;;
  parseAll rows.

(** [updateSessionResults(sessionId, nctIds)] *)
Definition updateSessionResults (sessionId : string) (nctIds : list string) : M unit :=
  modify (fun db =>
    withResults
      (List.filter (fun row => negb (String.eqb (fst row) sessionId))
                   (session_results db)) db) ;;;
  forEach nctIds (insertResult sessionId) ;;;
  touch sessionId.

End Database.

(** ** [src/mcp/server.ts]: the [refine_results] tool *)

Module Server.
Import Js Types Cast Database.

(** The object a tool call returns: a text content, or the result of the
    [catch] block ([isError: true]) for a thrown error. *)
Inductive ToolResult :=
| Content (text : string)
| ErrorContent (e : JsError).

Definition notFoundText (sessionId : string) : string :=
  "Session " ++ sessionId ++ " not found or has no results.".

Definition filteredText (filtered studies : list Study) : string :=
  "Filtered to " ++ Helpers.lengthText filtered ++ " studies (from "
  ++ Helpers.lengthText studies ++ ")" ++ Helpers.nl ++ Helpers.nl
  ++ Helpers.formatStudyList filtered 10.

(** The body of [case "refine_results"]. *)
Definition refineBody (sessionId : string) (filterParams : FilterParams) : M string :=
  parsed <- getSessionResults sessionId ;;
  match parsed with
  | [] => ret (notFoundText sessionId)
  | _ =>
      match mapM asStudy parsed with
      | None => throw TypeError
      | Some studies =>
          let filteredStudies := Helpers.filterStudies studies filterParams in
          let nctIds := studyId <$> filteredStudies in
          updateSessionResults sessionId nctIds ;;;
          ret (filteredText filteredStudies studies)
      end
  end.

(** The handler: the body inside [try], the [catch] turning a thrown
    error into an error result. *)
Definition refine_results (sessionId : string) (filterParams : FilterParams) (db : DB)
  : DB * ToolResult :=
  match refineBody sessionId filterParams db with
  | (db', Ok text) => (db', Content text)
  | (db', Throw e) => (db', ErrorContent e)
  end.

End Server.

(** * Vocabulary of the statements

    Predicates, derived states and sample data the properties below are
    stated with. *)

Import Js Types Cast Helpers Cache JSON Database Server.

(** The record [study] with its [oversightModule] replaced. *)
Definition withOversight (o : option OversightModule) (study : Study) : Study :=
  let p := protocolSection study in
  {| protocolSection :=
       {| identificationModule := identificationModule p;
          statusModule := statusModule p;
          descriptionModule := descriptionModule p;
          conditionsModule := conditionsModule p;
          designModule := designModule p;
          armsInterventionsModule := armsInterventionsModule p;
          eligibilityModule := eligibilityModule p;
          contactsLocationsModule := contactsLocationsModule p;
          sponsorCollaboratorsModule := sponsorCollaboratorsModule p;
          oversightModule := o |};
     hasResults := hasResults study |}.

(** The criteria [filters] with the two enrollment bounds removed. *)
Definition withoutEnrollmentBounds (f : FilterParams) : FilterParams :=
  {| f_phase := f_phase f;
     f_locationCountry := f_locationCountry f;
     f_locationState := f_locationState f;
     f_locationCity := f_locationCity f;
     f_enrollmentMin := None;
     f_enrollmentMax := None;
     f_startDateAfter := f_startDateAfter f;
     f_startDateBefore := f_startDateBefore f;
     f_completionDateAfter := f_completionDateAfter f;
     f_completionDateBefore := f_completionDateBefore f;
     f_interventionType := f_interventionType f;
     f_hasResults := f_hasResults f;
     f_studyType := f_studyType f;
     f_sex := f_sex f;
     f_healthyVolunteers := f_healthyVolunteers f;
     f_sponsorClass := f_sponsorClass f;
     f_allocation := f_allocation f;
     f_interventionModel := f_interventionModel f;
     f_primaryPurpose := f_primaryPurpose f;
     f_minAge := f_minAge f;
     f_maxAge := f_maxAge f;
     f_ageGroups := f_ageGroups f;
     f_masking := f_masking f;
     f_fdaRegulated := f_fdaRegulated f;
     f_keyword := f_keyword f |}.

(** The record and the criteria at which C5 fails as stated. *)
Definition bareProtocol (id title : string) : ProtocolSection :=
  {| identificationModule :=
       {| nctId := id; briefTitle := title; officialTitle := None; acronym := None |};
     statusModule :=
       {| overallStatus := "RECRUITING"; startDateStruct := None;
          primaryCompletionDateStruct := None; completionDateStruct := None;
          lastUpdatePostDateStruct := None |};
     descriptionModule := None; conditionsModule := None; designModule := None;
     armsInterventionsModule := None; eligibilityModule := None;
     contactsLocationsModule := None; sponsorCollaboratorsModule := None;
     oversightModule := None |}.

Definition bareStudy : Study :=
  {| protocolSection := bareProtocol "NCT00000001" "A study"; hasResults := None |}.

Definition atLeast100 : FilterParams :=
  Build_FilterParams None None None None (Some 100) None None None None None None None
    None None None None None None None None None None None None None.

Definition fdaRegulatedOnly : FilterParams :=
  Build_FilterParams None None None None None None None None None None None None
    None None None None None None None None None None None (Some true) None.

Definition regulatedDrug : OversightModule :=
  {| isFdaRegulatedDrug := Some true; isFdaRegulatedDevice := None |}.

Definition adultsOnly : FilterParams :=
  Build_FilterParams None None None None None None None None None None None None
    None None None None None None None (Some "18 Years") None None None None None.

Definition noUpperAge : Study :=
  let p := bareProtocol "NCT00000002" "No age limits" in
  {| protocolSection :=
       {| identificationModule := identificationModule p;
          statusModule := statusModule p;
          descriptionModule := None; conditionsModule := None; designModule := None;
          armsInterventionsModule := None;
          eligibilityModule :=
            Some {| eligibilityCriteria := None; healthyVolunteers := None;
                    sex := Some "ALL"; minimumAge := Some "N/A"; maximumAge := None;
                    stdAges := None |};
          contactsLocationsModule := None; sponsorCollaboratorsModule := None;
          oversightModule := None |};
     hasResults := None |}.

(** Equality of two enumeration values up to ASCII case, and up to ASCII
    case and the space/underscore separator. *)
Definition sameUpToCase (stored : option string) (wanted : string) : Prop :=
  exists v, stored = Some v /\ JsString.toUpperCase v = JsString.toUpperCase wanted.

Definition sameUpToCaseAndSeparator (stored : option string) (wanted : string) : Prop :=
  exists v, stored = Some v
            /\ JsString.replaceSpaces (JsString.toUpperCase v)
               = JsString.replaceSpaces (JsString.toUpperCase wanted).

(** The record and the criteria at which C4 fails as stated. *)
Definition expandedAccessStudy : Study :=
  let p := bareProtocol "NCT00000003" "Compassionate use" in
  {| protocolSection :=
       {| identificationModule := identificationModule p;
          statusModule := statusModule p;
          descriptionModule := None; conditionsModule := None;
          designModule :=
            Some {| studyType := Some "Expanded Access"; phases := None;
                    designInfo :=
                      Some {| allocation := None;
                              interventionModel := Some "Parallel Assignment";
                              primaryPurpose := None; maskingInfo := None |};
                    enrollmentInfo := None |};
          armsInterventionsModule := None; eligibilityModule := None;
          contactsLocationsModule := None; sponsorCollaboratorsModule := None;
          oversightModule := None |};
     hasResults := None |}.

Definition expandedAccessOnly : FilterParams :=
  Build_FilterParams None None None None None None None None None None None None
    (Some "EXPANDED_ACCESS") None None None None None None None None None None None None.

Definition parallelAssignmentOnly : FilterParams :=
  Build_FilterParams None None None None None None None None None None None None
    None None None None None (Some "PARALLEL_ASSIGNMENT") None None None None None None None.

(** The serialised members of an object, by key. *)
Definition memberTexts (K : option (list string)) (gap inner : string)
           (props : list (string * JsVal)) : list (string * option string) :=
  map (fun kx => (fst kx, JSON.serialize K gap inner (snd kx))) props.

Definition objectPartial (K : option (list string)) (gap : string)
           (texts : list (string * option string)) : list string :=
  match K with
  | None => flat_map (fun kt => JSON.memberText gap (fst kt) (snd kt)) texts
  | Some ks => flat_map (fun k => JSON.memberText gap k (default None (assoc k texts))) ks
  end.

Definition arrayPartial (K : option (list string)) (gap inner : string)
           (elems : list JsVal) : list string :=
  map (fun x => default "null" (JSON.serialize K gap inner x)) elems.

Definition searchParams1 : list (string * JsVal) :=
  [("query", JStr "cancer"); ("pageSize", JNum 100); ("status", JStr "RECRUITING")].

Definition searchParams2 : list (string * JsVal) :=
  [("status", JStr "RECRUITING"); ("query", JStr "cancer"); ("pageSize", JNum 100)].

Fixpoint allWs (s : string) : bool :=
  match s with
  | EmptyString => true
  | String c r => isWs c && allWs r
  end.

(** The text after a number must not continue it. *)
Definition stops (rest : string) : Prop :=
  match rest with
  | EmptyString => True
  | String c _ =>
      digitOf c = None /\ c <> "."%char /\ c <> "e"%char /\ c <> "E"%char
  end.

Definition JsVal_ind (P : JsVal -> Prop)
  (Hundefined : P JUndefined) (Hnull : P JNull)
  (Hbool : forall b, P (JBool b)) (Hnum : forall n, P (JNum n))
  (Hstr : forall s, P (JStr s))
  (Harr : forall elems, Forall P elems -> P (JArr elems))
  (Hobj : forall props, Forall (fun kx => P (snd kx)) props -> P (JObj props))
  : forall v, P v :=
  fix go (v : JsVal) : P v :=
    match v with
    | JUndefined => Hundefined
    | JNull => Hnull
    | JBool b => Hbool b
    | JNum n => Hnum n
    | JStr s => Hstr s
    | JArr elems =>
        Harr elems
          ((fix all (l : list JsVal) : Forall P l :=
              match l with
              | [] => @List.Forall_nil _ P
              | x :: r => @List.Forall_cons _ P x r (go x) (all r)
              end) elems)
    | JObj props =>
        Hobj props
          ((fix all (l : list (string * JsVal)) : Forall (fun kx => P (snd kx)) l :=
              match l with
              | [] => @List.Forall_nil _ (fun kx => P (snd kx))
              | kx :: r => @List.Forall_cons _ (fun kx => P (snd kx)) kx r (go (snd kx)) (all r)
              end) props)
    end.

Fixpoint distinct (l : list string) : bool :=
  match l with
  | [] => true
  | x :: r => negb (existsb (String.eqb x) r) && distinct r
  end.

(** The values JSON can express: no [undefined] inside, and objects whose
    keys are pairwise distinct. *)
Fixpoint isJson (v : JsVal) : bool :=
  match v with
  | JUndefined => false
  | JNull | JBool _ | JNum _ | JStr _ => true
  | JArr elems => forallb isJson elems
  | JObj props => distinct (map fst props) && forallb (fun kx => isJson (snd kx)) props
  end.

(** The number of nodes of a value. *)
Fixpoint nodes (v : JsVal) : nat :=
  match v with
  | JArr elems => S (list_sum (map nodes elems))
  | JObj props => S (list_sum (map (fun kx => nodes (snd kx)) props))
  | _ => 1
  end.

(** The separators the serialiser puts before an element and before the
    closing bracket. *)
Definition sepBefore (gap inner : string) : string :=
  if String.eqb gap EmptyString then EmptyString else newline ++ inner.

Definition sepAfter (gap indent : string) : string :=
  if String.eqb gap EmptyString then EmptyString else newline ++ indent.

(** [sep ++ t1 ++ sep ++ t2 ++ ... ++ tail] *)
Definition joined (sep : string) (texts : list string) (tail : string) : string :=
  fold_right (fun t acc => sep ++ t ++ acc) tail texts.

Definition emptyCache : State :=
  {| memoryCache := ∅; cacheDir := "./cache"; files := ∅; clock := 1700000000000 |}.

Definition searchKey : string :=
  Eval vm_compute in
    match generateKey "search" (JObj searchParams1) with
    | Ok key => key
    | Throw _ => EmptyString
    end.

Definition emptyResponse : JsVal :=
  JObj [("studies", JArr []); ("totalCount", JNum 0)].

(** The record an identifier resolves to: its row's [raw_json], parsed and
    read as a [Study]. *)
Definition resolve (db : DB) (id : string) : option Study :=
  match studies db !! id with
  | Some row =>
      match JSON.parse (raw_json row) with
      | Some v => asStudy v
      | None => None
      end
  | None => None
  end.

(** Whether the record of an identifier satisfies the criteria. *)
Definition recordMatches (db : DB) (filters : FilterParams) (id : string) : bool :=
  match resolve db id with
  | Some study => matches filters study
  | None => false
  end.

(** SQLite accepts the next [n] updates of the full-text index. *)
Definition accepting (n : nat) (db : DB) : Prop :=
  forall k, (k < n)%nat -> fts_accepts db (fts_updates db + k)%nat = true.

(** A list of strings in ascending code-unit order. *)
Fixpoint ascending (l : list string) : Prop :=
  match l with
  | [] => True
  | x :: r => Forall (fun y => String.leb x y = true) r /\ ascending r
  end.

(** The invariant of the database file: every stored payload parses to a
    study filed under its own identifier; [session_results] satisfies its
    primary key and its two foreign keys. *)
Record wf (db : DB) : Prop := {
  wf_studies : forall id row,
    studies db !! id = Some row ->
    exists v typed,
      JSON.parse (raw_json row) = Some v /\ asStudy v = Some typed /\ studyId typed = id;
  wf_key : NoDup (session_results db);
  wf_foreign : forall sid id,
    (sid, id) ∈ session_results db ->
    is_Some (search_sessions db !! sid) /\ is_Some (studies db !! id) }.

Definition touched (sessionId : string) (db : DB) : DB :=
  withSessions
    (alter (fun row => {| search_params := search_params row;
                          created_at := created_at row;
                          last_accessed_at := now db |})
           sessionId (search_sessions db)) db.

(** The rows of the other sessions. *)
Definition otherRows (sid : string) (db : DB) : list (string * string) :=
  List.filter (fun row => negb (String.eqb (fst row) sid)) (session_results db).

(** The database after [updateSessionResults(sid, ids)] has run to its end. *)
Definition updated (sid : string) (ids : list string) (db : DB) : DB :=
  touched sid (withResults (otherRows sid db ++ map (pair sid) ids) db).

(** Successive refinements of one session. *)
Definition refineAll (sid : string) (criteria : list FilterParams) (db : DB) : DB :=
  fold_left (fun db filters => fst (refine_results sid filters db)) criteria db.

(** The text of a refinement that keeps no record out of [n]. *)
Definition emptyResultText (n : nat) : string :=
  "Filtered to 0 studies (from " ++ natToString (N.of_nat n) ++ ")" ++ nl ++ nl
  ++ "Found 0 studies" ++ nl ++ nl.

Definition emptyDb : DB :=
  {| studies := ∅; search_sessions := ∅; session_results := []; now := 0;
     fts_accepts := fun _ => true; fts_updates := 0 |}.

Definition sampleStudyA : JsVal :=
  JObj [("protocolSection",
         JObj [("identificationModule",
                JObj [("nctId", JStr "NCT00000101"); ("briefTitle", JStr "Alpha")]);
               ("statusModule", JObj [("overallStatus", JStr "RECRUITING")]);
               ("designModule",
                JObj [("studyType", JStr "INTERVENTIONAL");
                      ("phases", JArr [JStr "PHASE2"]);
                      ("enrollmentInfo", JObj [("count", JNum 120)])])]);
        ("hasResults", JBool true)].

Definition sampleStudyB : JsVal :=
  JObj [("protocolSection",
         JObj [("identificationModule",
                JObj [("nctId", JStr "NCT00000102"); ("briefTitle", JStr "Beta")]);
               ("statusModule", JObj [("overallStatus", JStr "COMPLETED")]);
               ("oversightModule", JObj [("isFdaRegulatedDrug", JBool false)])]);
        ("hasResults", JBool false)].

(** The first sample study under a longer title. *)
Definition revisedStudyA : JsVal :=
  JObj [("protocolSection",
         JObj [("identificationModule",
                JObj [("nctId", JStr "NCT00000101"); ("briefTitle", JStr "Alpha Two")]);
               ("statusModule", JObj [("overallStatus", JStr "RECRUITING")]);
               ("designModule",
                JObj [("studyType", JStr "INTERVENTIONAL");
                      ("phases", JArr [JStr "PHASE2"]);
                      ("enrollmentInfo", JObj [("count", JNum 120)])])]);
        ("hasResults", JBool true)].

(** A new database file on which SQLite refuses the updates of the
    full-text index, as it does for the update that follows the upsert of
    [revisedStudyA] over [sampleStudyA]. *)
Definition refusingDb : DB :=
  {| studies := ∅; search_sessions := ∅; session_results := []; now := 0;
     fts_accepts := fun _ => false; fts_updates := 0 |}.

Definition typedStudyA : Study :=
  Eval vm_compute in default bareStudy (asStudy sampleStudyA).

Definition typedStudyB : Study :=
  Eval vm_compute in default bareStudy (asStudy sampleStudyB).

(** The database after the two sample studies were filed. *)
Definition filedDb : DB :=
  fst (upsertStudy sampleStudyB (fst (upsertStudy sampleStudyA emptyDb))).

(** The database after a search that found the two sample studies and
    opened the session tok1 on them. *)
Definition sampleDb : DB :=
  fst (createSession "tok1" (JObj searchParams1) ["NCT00000101"; "NCT00000102"]
         (fst (upsertStudy sampleStudyB (fst (upsertStudy sampleStudyA emptyDb))))).

(** The database after a search that found nothing and opened the session
    tok0. *)
Definition emptySessionDb : DB :=
  fst (createSession "tok0" (JObj searchParams1) [] emptyDb).

Definition withResultsOnly : FilterParams :=
  Build_FilterParams None None None None None None None None None None None (Some true)
    None None None None None None None None None None None None None.

(** ** Vocabulary for the other criteria *)

(** A string criterion the filter skips: absent, or the empty string. *)
Definition unset (o : option string) : Prop := JsString.truthy o = None.

(** Criteria none of which is in force. *)
Record blank (f : FilterParams) : Prop := {
  blank_phase : unset (f_phase f);
  blank_locationCountry : unset (f_locationCountry f);
  blank_locationState : unset (f_locationState f);
  blank_locationCity : unset (f_locationCity f);
  blank_enrollmentMin : f_enrollmentMin f = None;
  blank_enrollmentMax : f_enrollmentMax f = None;
  blank_startDateAfter : unset (f_startDateAfter f);
  blank_startDateBefore : unset (f_startDateBefore f);
  blank_completionDateAfter : unset (f_completionDateAfter f);
  blank_completionDateBefore : unset (f_completionDateBefore f);
  blank_interventionType : unset (f_interventionType f);
  blank_hasResults : f_hasResults f = None;
  blank_studyType : unset (f_studyType f);
  blank_sex : unset (f_sex f);
  blank_healthyVolunteers : f_healthyVolunteers f = None;
  blank_sponsorClass : unset (f_sponsorClass f);
  blank_allocation : unset (f_allocation f);
  blank_interventionModel : unset (f_interventionModel f);
  blank_primaryPurpose : unset (f_primaryPurpose f);
  blank_minAge : unset (f_minAge f);
  blank_maxAge : unset (f_maxAge f);
  blank_ageGroups : f_ageGroups f = None \/ f_ageGroups f = Some [];
  blank_masking : unset (f_masking f);
  blank_fdaRegulated : f_fdaRegulated f = None;
  blank_keyword : unset (f_keyword f) }.

(** The criteria object a caller gets from options that were all left
    out or given as empty strings. *)
Definition emptyStrings : FilterParams :=
  Build_FilterParams (Some EmptyString) (Some EmptyString) None None None None
    (Some EmptyString) None None None None None
    None None None None None None None None None (Some []) None None (Some EmptyString).

(** [text] occurs in [s], ignoring ASCII case. *)
Definition containsIgnoringCase (s text : string) : Prop :=
  exists before after,
    JsString.toLowerCase s = before ++ JsString.toLowerCase text ++ after.

(** The lists of a record the list-valued criteria look into. *)
Definition phasesOf (study : Study) : list string :=
  orEmpty (designModule (protocolSection study) ?. phases).

Definition locationsOf (study : Study) : list Location :=
  orEmpty (contactsLocationsModule (protocolSection study) ?. locations).

Definition interventionsOf (study : Study) : list Intervention :=
  orEmpty (armsInterventionsModule (protocolSection study) ?. interventions).

Definition keywordsOf (study : Study) : list string :=
  orEmpty (conditionsModule (protocolSection study) ?. keywords).

Definition ageGroupsOf (study : Study) : list string :=
  orEmpty (eligibilityModule (protocolSection study) ?. stdAges).

(** The start and the completion date of a record, when it has a non-empty one. *)
Definition startDateOf (study : Study) : option string :=
  JsString.truthy (startDateStruct (statusModule (protocolSection study)) ?. date).

Definition completionDateOf (study : Study) : option string :=
  JsString.truthy (completionDateStruct (statusModule (protocolSection study)) ?. date).

(** Code-unit order on strings. *)
Definition textLe (a b : string) : Prop := String.ltb b a = false.

(** All criteria of a list hold of the record behind an identifier. *)
Definition allMatch (db : DB) (criteria : list FilterParams) (id : string) : bool :=
  forallb (fun filters => recordMatches db filters id) criteria.

(** A record with something in every member the criteria read. *)
Definition bostonStudy : Study :=
  {| protocolSection :=
       {| identificationModule :=
            {| nctId := "NCT00000004"; briefTitle := "Checkpoint inhibitor in children";
               officialTitle := None; acronym := None |};
          statusModule :=
            {| overallStatus := "COMPLETED";
               startDateStruct := Some {| date := Some "2020-05"; dateType := Some "ACTUAL" |};
               primaryCompletionDateStruct := None;
               completionDateStruct :=
                 Some {| date := Some "2023-11-30"; dateType := Some "ACTUAL" |};
               lastUpdatePostDateStruct := None |};
          descriptionModule := None;
          conditionsModule :=
            Some {| conditions := Some ["Neuroblastoma"];
                    keywords := Some ["Immunotherapy"; "Pediatric oncology"] |};
          designModule :=
            Some {| studyType := Some "INTERVENTIONAL";
                    phases := Some ["Early Phase 1"];
                    designInfo := None;
                    enrollmentInfo := Some {| count := Some 40; enrollmentType := None |} |};
          armsInterventionsModule :=
            Some {| interventions :=
                      Some [ {| interventionKind := Some "DRUG";
                                interventionName := Some "Nivolumab" |} ] |};
          eligibilityModule :=
            Some {| eligibilityCriteria := None; healthyVolunteers := Some false;
                    sex := Some "ALL"; minimumAge := Some "9 Years";
                    maximumAge := Some "17 Years"; stdAges := Some ["CHILD"] |};
          contactsLocationsModule :=
            Some {| locations :=
                      Some [ {| facility := Some "Children's Hospital";
                                locStatus := None; city := Some "Boston";
                                state := Some "Massachusetts";
                                country := Some "United States" |} ] |};
          sponsorCollaboratorsModule := None;
          oversightModule :=
            Some {| isFdaRegulatedDrug := Some false; isFdaRegulatedDevice := None |} |};
     hasResults := None |}.

(** Criteria with one member set. *)
Definition inCountry (q : string) : FilterParams :=
  Build_FilterParams None (Some q) None None None None None None None None None None
    None None None None None None None None None None None None None.

Definition inPhase (q : string) : FilterParams :=
  Build_FilterParams (Some q) None None None None None None None None None None None
    None None None None None None None None None None None None None.

Definition resultsPosted (b : bool) : FilterParams :=
  Build_FilterParams None None None None None None None None None None None (Some b)
    None None None None None None None None None None None None None.

Definition fdaRegulatedIs (b : bool) : FilterParams :=
  Build_FilterParams None None None None None None None None None None None None
    None None None None None None None None None None None (Some b) None.

Definition startedFrom (d : string) : FilterParams :=
  Build_FilterParams None None None None None None (Some d) None None None None None
    None None None None None None None None None None None None None.

Definition minAgeIs (a : string) : FilterParams :=
  Build_FilterParams None None None None None None None None None None None None
    None None None None None None None (Some a) None None None None None.

(** ** [src/utils/cache.ts]: the key, and the two clean-up methods *)

(** The hash before it is wrapped to 32 bits: [31 * h + c] per code unit. *)
Definition poly31 (str : string) : Z :=
  fold_left (fun h c => 31 * h + charCode c) (list_ascii_of_string str) 0.

Fixpoint allChars (p : ascii -> bool) (s : string) : bool :=
  match s with
  | EmptyString => true
  | String c r => p c && allChars p r
  end.

(** The digits [0-9a-z] of [toString(36)]. *)
Definition isBase36 (c : ascii) : bool :=
  let n := nat_of_ascii c in
  (Nat.leb 48 n && Nat.leb n 57) || (Nat.leb 97 n && Nat.leb n 122).

(** What the caller of [get] receives. *)
Definition answer (r : Result (State * JsVal)) : Result JsVal :=
  bindR r (fun x => Ok (snd x)).

(** What the memory tier and the disk tier hold under a key at the time
    [now]: the payload of an entry that has not expired, [null] otherwise. *)
Definition memoryAnswer (now : Z) (entry : option CacheEntry) : JsVal :=
  match entry with
  | Some e => if now - timestamp e >? MEMORY_CACHE_TTL_MS then JNull else data e
  | None => JNull
  end.

(** Whether a cache file is deleted when it is read at the time [now]: by
    the age test, or by the [catch] block. *)
Definition staleFile (now : Z) (content : string) : bool :=
  match JSON.parse content with
  | None | Some JNull => true
  | Some entry =>
      match toNumber (member entry "timestamp") with
      | Some t => now - t >? DISK_CACHE_TTL_MS
      | None => false
      end
  end.

Definition diskAnswer (now : Z) (file : option string) : JsVal :=
  match file with
  | Some content =>
      if staleFile now content then JNull
      else member (default JNull (JSON.parse content)) "data"
  | None => JNull
  end.

Definition tiersAnswer (now : Z) (entry : option CacheEntry) (file : option string) : JsVal :=
  if Js.truthy (memoryAnswer now entry) then memoryAnswer now entry
  else if Js.truthy (diskAnswer now file) then diskAnswer now file
  else JNull.

(** [fs.readdirSync(dir)] lists the entries that lie directly in [dir]:
    the files whose path is [path.join(dir, name)] for a name without
    separator. *)
Definition entryName (dir path : string) : option string :=
  match dropPrefix (Path.below dir) path with
  | Some name => if Path.isName name then Some name else None
  | None => None
  end.

Definition listed (dir path : string) : bool :=
  match entryName dir path with
  | Some _ => true
  | None => false
  end.

(** [clearExpired()]: the memory entries older than the memory TTL are
    deleted; every entry of the cache directory is read and parsed, and
    unlinked when it is older than the disk TTL or when reading it
    throws. *)
Definition clearExpired (c : State) : State :=
  let now := clock c in
  withFiles
    (filter (fun file : string * string =>
               listed (cacheDir c) file.1 && staleFile now file.2 = false)
            (files c))
    (withMemory
       (filter (fun entry : string * CacheEntry =>
                  (now - timestamp entry.2 >? MEMORY_CACHE_TTL_MS) = false)
               (memoryCache c))
       c).

(** Two parameter objects that differ in one string member. *)
Definition oneParam (k v : string) : JsVal := JObj [(k, JStr v)].

(** ** [src/db/database.ts]: the backfill run when the database is opened

    [backfillDenormalizedFields] selects the rows whose [allocation] or
    [is_fda_regulated_drug] column is NULL and writes seven columns from the
    stored payload again, one UPDATE for each row, inside a [try] block.
    A payload that does not parse, or whose [protocolSection] is
    [undefined] or [null], throws inside the block before the UPDATE; an
    UPDATE whose full-text trigger SQLite refuses throws and is undone.  In
    both cases the [catch] block goes on with the next row. *)

(** [WHERE allocation IS NULL OR is_fda_regulated_drug IS NULL] *)
Definition unfilled (row : StudyRow) : bool :=
  match allocation_ row, is_fda_regulated_drug row with
  | Some _, Some _ => false
  | _, _ => true
  end.

(** The row that the UPDATE of the [try] block writes; [None] when the
    block throws before the UPDATE. *)
Definition backfillRow (row : StudyRow) : option StudyRow :=
  match JSON.parse (raw_json row) with
  | None => None
  | Some study =>
      match member study "protocolSection" with
      | JUndefined | JNull => None
      | protocol =>
          let design := obj protocol "designModule" asDesignModule in
          let eligibility := obj protocol "eligibilityModule" asEligibilityModule in
          let oversight := obj protocol "oversightModule" asOversightModule in
          let orNull := JsString.truthy in
          Some
          {| brief_title := brief_title row;
             official_title := official_title row;
             acronym_ := acronym_ row;
             overall_status := overall_status row;
             study_type := study_type row;
             phase := phase row;
             enrollment_count := enrollment_count row;
             enrollment_type := enrollment_type row;
             start_date := start_date row;
             start_date_type := start_date_type row;
             primary_completion_date := primary_completion_date row;
             completion_date := completion_date row;
             last_update_posted := last_update_posted row;
             has_results := has_results row;
             brief_summary := brief_summary row;
             detailed_description := detailed_description row;
             eligibility_criteria := eligibility_criteria row;
             sex_ := sex_ row;
             minimum_age := minimum_age row;
             maximum_age := maximum_age row;
             healthy_volunteers := healthy_volunteers row;
             lead_sponsor_name := lead_sponsor_name row;
             lead_sponsor_class := lead_sponsor_class row;
             allocation_ := orNull (design ?. designInfo ?. allocation);
             intervention_model := orNull (design ?. designInfo ?. interventionModel);
             primary_purpose := orNull (design ?. designInfo ?. primaryPurpose);
             masking_ := orNull (design ?. designInfo ?. maskingInfo ?. masking);
             is_fda_regulated_drug := Some (flag (oversight ?. isFdaRegulatedDrug));
             is_fda_regulated_device := Some (flag (oversight ?. isFdaRegulatedDevice));
             age_groups := orNull (JsString.join "," <$> eligibility ?. stdAges);
             raw_json := raw_json row;
             fetched_at := fetched_at row;
             updated_at := updated_at row |}
      end
  end.

(** One turn of the loop, for a selected row and its identifier. *)
Definition backfillStep (db : DB) (entry : string * StudyRow) : DB :=
  match backfillRow entry.2 with
  | None => db
  | Some row =>
      if fts_accepts db (fts_updates db)
      then indexed (withStudies (<[entry.1 := row]> (studies db)) db)
      else indexed db
  end.

(** The rows that the SELECT finds. *)
Definition selected (db : DB) : list (string * StudyRow) :=
  List.filter (fun entry : string * StudyRow => unfilled entry.2)
              (map_to_list (studies db)).

(** [for (const row of rows) { ... }] *)
Definition backfillRows (rows : list (string * StudyRow)) (db : DB) : DB :=
  fold_left backfillStep rows db.

(** [backfillDenormalizedFields()].  The loop takes the selected rows in
    the order in which the SELECT finds them, the order of their insertion,
    which the table of the model does not record: the model takes the
    order of the map, and what is proved of the loop is proved for every
    order of the selected rows. *)
Definition backfillDenormalizedFields (db : DB) : DB :=
  backfillRows (selected db) db.

(** The database some time later. *)
Definition later (ms : Z) (db : DB) : DB :=
  {| studies := studies db; search_sessions := search_sessions db;
     session_results := session_results db; now := now db + ms;
     fts_accepts := fts_accepts db; fts_updates := fts_updates db |}.

(** Every row is what [upsertStudy] writes for its payload. *)
Definition written (db : DB) : Prop :=
  forall id row,
    studies db !! id = Some row ->
    exists study typed,
      JSON.parse (raw_json row) = Some study /\ asStudy study = Some typed
      /\ row = project typed (raw_json row) (fetched_at row) (updated_at row).

(** The identifiers of a list that [studies] has a row for. *)
Definition known (db : DB) (ids : list string) : Prop :=
  Forall (fun id => is_Some (studies db !! id)) ids.

(** The seven columns the backfill writes. *)
Definition backfilled (row : StudyRow) :=
  (allocation_ row, intervention_model row, primary_purpose row, masking_ row,
   is_fda_regulated_drug row, is_fda_regulated_device row, age_groups row).

(** The columns the backfill leaves alone. *)
Definition kept (row : StudyRow) :=
  (brief_title row, official_title row, acronym_ row, overall_status row, study_type row,
   phase row, enrollment_count row, enrollment_type row, start_date row,
   start_date_type row, primary_completion_date row, completion_date row,
   last_update_posted row, has_results row, brief_summary row, detailed_description row,
   eligibility_criteria row, sex_ row, minimum_age row, maximum_age row,
   healthy_volunteers row, lead_sponsor_name row, lead_sponsor_class row,
   raw_json row, fetched_at row, updated_at row).

(** ** [src/mcp/server.ts]: the [summarize_session] tool

    [maxResults] is a natural number, as [formatStudyList] takes it. *)

(** The body of [case "summarize_session"]. *)
Definition summarizeBody (sessionId : string) (maxResults : nat) : M string :=
  parsed <- getSessionResults sessionId ;;
  match parsed with
  | [] => ret (notFoundText sessionId)
  | _ =>
      match mapM asStudy parsed with
      | None => throw TypeError
      | Some studies => ret (formatStudyList studies maxResults)
      end
  end.

Definition summarize_session (sessionId : string) (maxResults : nat) (db : DB)
  : DB * ToolResult :=
  match summarizeBody sessionId maxResults db with
  | (db', Ok text) => (db', Content text)
  | (db', Throw e) => (db', ErrorContent e)
  end.

(** The first line of the answer of [refine_results]. *)
Definition filteredHeader (kept total : nat) : string :=
  "Filtered to " ++ natToString (N.of_nat kept) ++ " studies (from "
  ++ natToString (N.of_nat total) ++ ")" ++ nl ++ nl.

(** ** [src/utils/export.ts]: the JSON and JSONL exports

    An export writes one file.  The file system is the content of its
    files by path; the directories that [getExportPath] creates on the way
    are left out.  The format is one of the three literals the callers
    pass.  [exportToCSV] hands its rows to the papaparse library and is not
    modelled. *)

Module Exports.

Inductive ExportFormat := csv | json | jsonl.

Definition formatName (format : ExportFormat) : string :=
  match format with
  | csv => "csv"
  | json => "json"
  | jsonl => "jsonl"
  end.

(** [path.basename(p)]: the last segment that is not empty. *)
Definition basename (p : string) : string :=
  default EmptyString
    (last (List.filter (fun s => negb (String.eqb s EmptyString))
                       (Path.segments p EmptyString))).

(** [ensureExportsDir(format, filename)]: the path
    [path.join(path.join("./exports", format), filename)]. *)
Definition EXPORTS_DIR : string := "./exports".

Definition ensureExportsDir (format : ExportFormat) (filename : string) : string :=
  let formatDir := Path.join EXPORTS_DIR (formatName format) in
  Path.join formatDir filename.

(** [getExportPath(outputPath, format)] *)
Definition getExportPath (outputPath : string) (format : ExportFormat) : string :=
  let filename := basename outputPath in
  if Path.isAbsolute outputPath || JsString.includes outputPath "/" then outputPath
  else ensureExportsDir format filename.

(** A call [fs.writeFileSync(target, content, "utf-8")]. *)
Record Write := {
  target : string;
  content : string }.

(** [exportToJSON(studies, outputPath)] up to its last statement but one:
    the call of [fs.writeFileSync] that it makes.  Whether the file system
    takes the write is outside the model; it does not when the target is a
    directory, as the paths are that [getExportPath] returns for the empty
    name and for the names ["."] and [".."]. *)
Definition exportToJSON (studies : list JsVal) (outputPath : string) : Result Write :=
  let finalPath := getExportPath outputPath json in
  match JSON.stringifyIndent2 (JArr studies) with
  | Some text => Ok {| target := finalPath; content := text |}
  | None => Throw TypeError
  end.

(** [studies.map(study => JSON.stringify(study)).join("\n")]; [join] prints
    an [undefined] element as the empty string. *)
Definition jsonLines (studies : list JsVal) : string :=
  JsString.join JSON.newline
    (map (fun study => default EmptyString (JSON.stringify study)) studies).

(** [exportToJSONL(studies, outputPath)], in the same way. *)
Definition exportToJSONL (studies : list JsVal) (outputPath : string) : Result Write :=
  let finalPath := getExportPath outputPath jsonl in
  Ok {| target := finalPath; content := jsonLines studies |}.

End Exports.

(** ** The revision of [export.ts] that fills the blanks

    In this revision the exports replace [null], [undefined], the empty
    string and the empty array by the text BLANK before they print. *)

Module SanitizedExports.
Import Exports.

Definition BLANK_PLACEHOLDER : string := "BLANK".

(** [sanitizeValue(value)]; [None] is [null] or [undefined]. *)
Definition sanitizeValue (value : option string) : string :=
  match value with
  | None | Some EmptyString => BLANK_PLACEHOLDER
  | Some s => s
  end.

(** [sanitizeArray(arr, separator)] *)
Definition sanitizeArray (arr : option (list string)) (separator : string) : string :=
  match arr with
  | None | Some [] => BLANK_PLACEHOLDER
  | Some l =>
      let joined := JsString.join separator l in
      if String.eqb joined EmptyString then BLANK_PLACEHOLDER else joined
  end.

Section MapR.
Context {A B : Type} (f : A -> Result B).

(** [l.map(f)] for an [f] that may throw. *)
Fixpoint mapR (l : list A) : Result (list B) :=
  match l with
  | [] => Ok []
  | x :: r =>
      match f x with
      | Ok y =>
          match mapR r with
          | Ok ys => Ok (y :: ys)
          | Throw e => Throw e
          end
      | Throw e => Throw e
      end
  end.
End MapR.

(** The own properties that [sanitized[key] = ...] creates: the key
    [__proto__] creates none, it goes to the prototype setter. *)
Definition assigned (props : list (string * JsVal)) : list (string * JsVal) :=
  List.filter (fun kx => negb (String.eqb (fst kx) "__proto__")) props.

(** [sanitizeDeep(value)].  On an object the loop calls
    [value.hasOwnProperty(key)] for each key: an own property of that name
    shadows the method, and the call throws a TypeError. *)
Fixpoint sanitizeDeep (value : JsVal) : Result JsVal :=
  match value with
  | JNull | JUndefined => Ok (JStr BLANK_PLACEHOLDER)
  | JStr s => if String.eqb s EmptyString then Ok (JStr BLANK_PLACEHOLDER) else Ok value
  | JNum _ | JBool _ => Ok value
  | JArr [] => Ok (JStr BLANK_PLACEHOLDER)
  | JArr items =>
      match mapR sanitizeDeep items with
      | Ok l => Ok (JArr l)
      | Throw e => Throw e
      end
  | JObj [] => Ok (JObj [])
  | JObj props =>
      match assoc "hasOwnProperty" props with
      | Some _ => Throw TypeError
      | None =>
          match mapR (fun kx => match sanitizeDeep (snd kx) with
                                | Ok y => Ok (fst kx, y)
                                | Throw e => Throw e
                                end) props with
          | Ok l => Ok (JObj (assigned l))
          | Throw e => Throw e
          end
      end
  end.

(** [exportToJSON(studies, outputPath)]: the call of [fs.writeFileSync]
    that it makes, or what the sanitiser throws before. *)
Definition exportToJSON (studies : list JsVal) (outputPath : string) : Result Write :=
  let finalPath := getExportPath outputPath json in
  bindR (sanitizeDeep (JArr studies)) (fun sanitizedStudies =>
    match JSON.stringifyIndent2 sanitizedStudies with
    | Some text => Ok {| target := finalPath; content := text |}
    | None => Throw TypeError
    end).

(** [exportToJSONL(studies, outputPath)], in the same way. *)
Definition exportToJSONL (studies : list JsVal) (outputPath : string) : Result Write :=
  let finalPath := getExportPath outputPath jsonl in
  bindR (mapR sanitizeDeep studies) (fun sanitized =>
    Ok {| target := finalPath; content := jsonLines sanitized |}).

End SanitizedExports.

(** *** Vocabulary for the exports *)

(** [text.split("\n")] *)
Fixpoint splitLines (text current : string) : list string :=
  match text with
  | EmptyString => [current]
  | String c r =>
      if Ascii.eqb c (ascii_of_nat 10) then current :: splitLines r EmptyString
      else splitLines r (current ++ String c EmptyString)
  end.

(** A value with nothing the sanitiser replaces or drops in it. *)
Fixpoint clean (v : JsVal) : bool :=
  match v with
  | JUndefined | JNull => false
  | JBool _ | JNum _ => true
  | JStr s => negb (String.eqb s EmptyString)
  | JArr items =>
      match items with [] => false | _ => true end && forallb clean items
  | JObj props =>
      forallb (fun kx => negb (String.eqb (fst kx) "hasOwnProperty")
                         && negb (String.eqb (fst kx) "__proto__")
                         && clean (snd kx)) props
  end.

(** A value none of whose objects has an own property [hasOwnProperty]. *)
Fixpoint plain (v : JsVal) : bool :=
  match v with
  | JArr items => forallb plain items
  | JObj props =>
      forallb (fun kx => negb (String.eqb (fst kx) "hasOwnProperty") && plain (snd kx)) props
  | _ => true
  end.

(** A text without a line feed. *)
Definition oneLine (s : string) : bool :=
  allChars (fun c => negb (Ascii.eqb c (ascii_of_nat 10))) s.

(** The body of the loop of [sanitizeDeep] over the properties of an object. *)
Definition sanitizeMember (kx : string * JsVal) : Result (string * JsVal) :=
  match SanitizedExports.sanitizeDeep (snd kx) with
  | Ok y => Ok (fst kx, y)
  | Throw e => Throw e
  end.

(** ** [src/api/client.ts]: the search query and the retry loop *)

Module Client.

Definition DEFAULT_PAGE_SIZE : Z := 100.
Definition MAX_RETRIES : nat := 3.
Definition RETRY_DELAY_MS : Z := 1000.

(** The members of [SearchParams] the client reads. *)
Record SearchParams := {
  query : option string;
  condition : option string;
  intervention : option string;
  phase : option string;
  status : option string;
  location : option string;
  sponsorSearch : option string;
  pageSize : option Z;
  pageToken : option string;
  fields : option (list string) }.

(** [if (v) parts.push(prefix + v)] *)
Definition pushed (prefix : string) (v : option string) : list string :=
  match JsString.truthy v with
  | Some v => [prefix ++ v]
  | None => []
  end.

(** [buildQuery(params)] *)
Definition buildQuery (params : SearchParams) : string :=
  let parts :=
    (pushed EmptyString (query params)
     ++ pushed "AREA[ConditionSearch]" (condition params)
     ++ pushed "AREA[InterventionSearch]" (intervention params)
     ++ pushed "AREA[SponsorSearch]" (sponsorSearch params)
     ++ pushed "AREA[LocationSearch]" (location params)
     ++ pushed EmptyString (phase params))%list in
  match parts with
  | [] => EmptyString
  | _ => JsString.join " AND " parts
  end.

(** [urlParams.set(name, value)] on the list of pairs of a
    [URLSearchParams]: the first pair of that name is overwritten, or a new
    pair is appended. *)
Fixpoint setParam (name value : string) (l : list (string * string))
  : list (string * string) :=
  match l with
  | [] => [(name, value)]
  | (n, v) :: r =>
      if String.eqb name n then (name, value) :: r else (n, v) :: setParam name value r
  end.

(** [if (v) urlParams.set(name, f(v))] *)
Definition setWhen (name : string) (v : option string) (l : list (string * string))
  : list (string * string) :=
  match JsString.truthy v with
  | Some v => setParam name v l
  | None => l
  end.

(** [params.pageSize || DEFAULT_PAGE_SIZE] *)
Definition pageSizeOrDefault (params : SearchParams) : Z :=
  match pageSize params with
  | None | Some 0 => DEFAULT_PAGE_SIZE
  | Some n => n
  end.

(** [buildURLParams(params)], as the list of its pairs *)
Definition buildURLParams (params : SearchParams) : list (string * string) :=
  let urlParams := [] in
  let urlParams := setWhen "query.term" (Some (buildQuery params)) urlParams in
  let urlParams :=
    setWhen "filter.overallStatus"
            (JsString.toUpperCase <$> JsString.truthy (status params)) urlParams in
  let urlParams := setParam "pageSize" (numberToString (pageSizeOrDefault params)) urlParams in
  let urlParams := setWhen "pageToken" (pageToken params) urlParams in
  let urlParams :=
    match fields params with
    | Some ((_ :: _) as fs) => setParam "fields" (JsString.join "," fs) urlParams
    | _ => urlParams
    end in
  setParam "countTotal" "true" urlParams.

(** What one call of [fetch] comes to: the promise is rejected, or it is
    resolved with a response. *)
Record Response := {
  ok : bool;
  statusCode : Z;
  statusText : string;
  body : JsVal }.

Inductive FetchOutcome :=
| Rejected (message : string)
| Resolved (response : Response).

(** The network answers the calls of [fetch] one after the other; the
    client counts its calls and records how long it waited between them. *)
Definition Network := string -> nat -> FetchOutcome.

Record Client := {
  calls : nat;
  waits : list Z }.

(** The message of the error an attempt ends with; [None] when it returns
    the response. *)
Definition failure (outcome : FetchOutcome) : option string :=
  match outcome with
  | Rejected message => Some message
  | Resolved response =>
      if ok response then None
      else Some ("HTTP " ++ numberToString (statusCode response) ++ ": " ++ statusText response)
  end.

(** The loop of [fetchWithRetry], [remaining] iterations before its end;
    [i = retries - remaining] is the loop counter. *)
Fixpoint retryLoop (net : Network) (url : string) (retries remaining : nat)
         (lastError : option string) (c : Client) : Client * (Response + string) :=
  match remaining with
  | O =>
      (c, inr ("Failed after " ++ natToString (N.of_nat retries) ++ " retries: "
               ++ default "undefined" lastError))
  | S remaining' =>
      let i := (retries - remaining)%nat in
      let outcome := net url (calls c) in
      let c := {| calls := S (calls c); waits := waits c |} in
      match outcome, failure outcome with
      | Resolved response, None => (c, inl response)
      | _, message =>
          let c :=
            if Nat.ltb i (retries - 1)
            then {| calls := calls c;
                    waits := (waits c ++ [RETRY_DELAY_MS * 2 ^ Z.of_nat i])%list |}
            else c in
          retryLoop net url retries remaining' message c
      end
  end.

(** [fetchWithRetry(url, retries)] *)
Definition fetchWithRetry (net : Network) (url : string) (retries : nat) (c : Client)
  : Client * (Response + string) :=
  retryLoop net url retries retries None c.

End Client.

(** *** Vocabulary for the client *)

(** The waits before the attempts 1 to [k]: one second, doubled each time. *)
Definition backoff (k : nat) : list Z :=
  map (fun i => Client.RETRY_DELAY_MS * 2 ^ Z.of_nat i) (seq 0 k).

(** No search term is set. *)
Definition noTerm (params : Client.SearchParams) : Prop :=
  unset (Client.query params) /\ unset (Client.condition params)
  /\ unset (Client.intervention params) /\ unset (Client.sponsorSearch params)
  /\ unset (Client.location params) /\ unset (Client.phase params).

Definition conditionSearch (c : string) : Client.SearchParams :=
  {| Client.query := None; Client.condition := Some c; Client.intervention := None;
     Client.phase := None; Client.status := Some "recruiting"; Client.location := None;
     Client.sponsorSearch := None; Client.pageSize := Some 0; Client.pageToken := None;
     Client.fields := None |}.

(** A network that fails twice and then answers. *)
Definition flakyNetwork : Client.Network :=
  fun _ k =>
    match k with
    | O => Client.Rejected "ECONNRESET"
    | S O => Client.Resolved {| Client.ok := false; Client.statusCode := 503;
                                Client.statusText := "Service Unavailable";
                                Client.body := JNull |}
    | _ => Client.Resolved {| Client.ok := true; Client.statusCode := 200;
                              Client.statusText := "OK"; Client.body := emptyResponse |}
    end.

(** ** [src/mcp/server.ts]: the [search_trials] tool

    The handler works on the cache and on the database, and asks the API
    through [apiClient.search].  The API is a function from the number of
    requests made before and the parameters of the request to what the
    promise comes to: the members of the validated response object, or the
    message of the error it is rejected with.  The identifier of the new
    session is the one [generateSessionId()] returns; the time the requests
    take is [latency], and the two readings of the wall clock in
    [saveRawResponse] are given as their ISO texts. *)

Module SearchTool.

Definition Api := nat -> JsVal -> list (string * JsVal) + string.

(** What the [catch] block of the handler receives. *)
Inductive Failure :=
| Threw (e : JsError)
| Rejected (message : string).

Inductive Answer :=
| Text (text : string)
| IsError (failure : Failure).

Record World := {
  cache : Cache.State;
  store : DB }.

(** [iso.split("T")[0]] *)
Fixpoint beforeT (iso : string) : string :=
  match iso with
  | EmptyString => EmptyString
  | String c r => if Ascii.eqb c "T" then EmptyString else String c (beforeT r)
  end.

(** [cache.saveRawResponse(response, params)]: one line is appended to the
    file [raw-<date>.jsonl] of the cache directory. *)
Definition saveRawResponse (response params : JsVal) (isoDate isoTimestamp : string)
           (c : Cache.State) : Cache.State :=
  let date := beforeT isoDate in
  let jsonlPath := Path.join (cacheDir c) ("raw-" ++ date ++ ".jsonl") in
  let line :=
    default "undefined"
      (JSON.stringify (JObj [("timestamp", JStr isoTimestamp); ("params", params);
                             ("response", response)])) in
  withFiles (<[jsonlPath := default EmptyString (files c !! jsonlPath) ++ line ++ JSON.newline]>
               (files c)) c.

(** The loop of [apiClient.searchAll(params)] together with the loop that
    consumes it, [studies.push(...batch)]: the pages are asked for one
    after the other, each with the token of the page before, until a page
    comes without one.  [calls] counts the requests made, [studies] holds
    the batches so far.  [None]: the loop is still running after [fuel]
    pages. *)
Fixpoint searchAll (api : Api) (fuel calls : nat) (params : list (string * JsVal))
         (nextPageToken : JsVal) (studies : list JsVal)
  : option (list JsVal + Failure) :=
  match fuel with
  | O => None
  | S fuel' =>
      let searchParams := JObj (setProp "pageToken" nextPageToken params) in
      match api calls searchParams with
      | inr message => Some (inr (Rejected message))
      | inl response =>
          match asArray (member (JObj response) "studies") with
          | None => Some (inr (Threw TypeError))
          | Some batch =>
              let studies := (studies ++ batch)%list in
              let nextPageToken := member (JObj response) "nextPageToken" in
              if Js.truthy nextPageToken
              then searchAll api fuel' (S calls) params nextPageToken studies
              else Some (inl studies)
          end
      end
  end.

(** [cache.set("search", searchParams, response);
     cache.saveRawResponse(response, searchParams)] *)
Definition keep (searchParams response : JsVal) (isoDate isoTimestamp : string)
           (c : Cache.State) : Result Cache.State :=
  match Cache.set "search" searchParams response c with
  | Ok c => Ok (saveRawResponse response searchParams isoDate isoTimestamp c)
  | Throw e => Throw e
  end.

(** The first half of the handler: the value of [studies] and the cache
    after it, from the cache, from all pages of the API, or from one call
    of the API. *)
Definition findStudies (api : Api) (fuel : nat) (latency : Z) (isoDate isoTimestamp : string)
           (fetchAll : bool) (searchParams : list (string * JsVal)) (c : Cache.State)
  : option (Cache.State * (JsVal + Failure)) :=
  match Cache.get "search" (JObj searchParams) c with
  | Throw e => Some (c, inr (Threw e))
  | Ok (c, cachedResponse) =>
      if Js.truthy cachedResponse then Some (c, inl (member cachedResponse "studies"))
      else if fetchAll then
        match searchAll api fuel 0 searchParams JUndefined [] with
        | None => None
        | Some (inr failure) => Some (c, inr failure)
        | Some (inl studies) =>
            let response :=
              JObj [("studies", JArr studies); ("nextPageToken", JUndefined);
                    ("totalCount", JNum (Z.of_nat (List.length studies)))] in
            match keep (JObj searchParams) response isoDate isoTimestamp
                       (Cache.elapse latency c) with
            | Ok c => Some (c, inl (JArr studies))
            | Throw e => Some (Cache.elapse latency c, inr (Threw e))
            end
        end
      else
        match api O (JObj searchParams) with
        | inr message => Some (c, inr (Rejected message))
        | inl response =>
            let studies := member (JObj response) "studies" in
            match keep (JObj searchParams) (JObj response) isoDate isoTimestamp
                       (Cache.elapse latency c) with
            | Ok c => Some (c, inl studies)
            | Throw e => Some (Cache.elapse latency c, inr (Threw e))
            end
        end
  end.

Definition sessionText (summary sessionId : string) : string :=
  summary ++ nl ++ "**Session ID:** " ++ sessionId ++ nl ++ nl
  ++ "Use this session ID to refine results, get summaries, or export data.".

(** The second half of the handler, on the database.  A value of
    [studies] that is no array makes the loop or [studies.map] throw. *)
Definition storeAndOpen (sessionId : string) (searchParams : list (string * JsVal))
           (studies : JsVal) : M string :=
  match asArray studies with
  | None => throw TypeError
  | Some studies =>
      forEach studies upsertStudy ;;;
      match mapM asStudy studies with
      | None => throw TypeError
      | Some typed =>
          let nctIds := studyId <$> typed in
          createSession sessionId (JObj searchParams) nctIds ;;;
          ret (sessionText (formatStudyList typed 10) sessionId)
      end
  end.

(** The handler of [case "search_trials"], with the [catch] block. *)
Definition search_trials (api : Api) (fuel : nat) (latency : Z)
           (sessionId isoDate isoTimestamp : string)
           (fetchAll : bool) (searchParams : list (string * JsVal)) (w : World)
  : option (World * Answer) :=
  match findStudies api fuel latency isoDate isoTimestamp fetchAll searchParams (cache w) with
  | None => None
  | Some (c, inr failure) => Some ({| cache := c; store := store w |}, IsError failure)
  | Some (c, inl studies) =>
      match storeAndOpen sessionId searchParams studies (store w) with
      | (db, Ok text) => Some ({| cache := c; store := db |}, Text text)
      | (db, Throw e) => Some ({| cache := c; store := db |}, IsError (Threw e))
      end
  end.

End SearchTool.

(** The world some time later. *)
Definition afterwards (ms s : Z) (w : SearchTool.World) : SearchTool.World :=
  {| SearchTool.cache := Cache.elapse ms (SearchTool.cache w);
     SearchTool.store := later s (SearchTool.store w) |}.

(** An API that serves the given pages one after the other: each page
    but the last comes with a token, and the request for a page carries
    the token of the page before. *)
Fixpoint serves (api : SearchTool.Api) (calls : nat) (params : list (string * JsVal))
         (token : JsVal) (pages : list (list JsVal * JsVal)) : Prop :=
  match pages with
  | [] => False
  | (batch, next) :: rest =>
      exists response,
        api calls (JObj (setProp "pageToken" token params)) = inl response
        /\ member (JObj response) "studies" = JArr batch
        /\ member (JObj response) "nextPageToken" = next
        /\ match rest with
           | [] => Js.truthy next = false
           | _ => Js.truthy next = true /\ serves api (S calls) params next rest
           end
  end.

(** An API that serves the given pages, each with a token, and rejects
    the request after them. *)
Fixpoint breaks (api : SearchTool.Api) (calls : nat) (params : list (string * JsVal))
         (token : JsVal) (pages : list (list JsVal * JsVal)) (message : string) : Prop :=
  match pages with
  | [] => api calls (JObj (setProp "pageToken" token params)) = inr message
  | (batch, next) :: rest =>
      exists response,
        api calls (JObj (setProp "pageToken" token params)) = inl response
        /\ member (JObj response) "studies" = JArr batch
        /\ member (JObj response) "nextPageToken" = next
        /\ Js.truthy next = true
        /\ breaks api (S calls) params next rest message
  end.

(** *** Sample data *)

Definition freshWorld : SearchTool.World :=
  {| SearchTool.cache := emptyCache; SearchTool.store := emptyDb |}.

Definition onePage : SearchTool.Api :=
  fun _ _ => inl [("studies", JArr [sampleStudyA; sampleStudyB])].

Definition down : SearchTool.Api := fun _ _ => inr "fetch failed".

Definition twoPages : SearchTool.Api :=
  fun _ params =>
    match member params "pageToken" with
    | JStr _ => inl [("studies", JArr [sampleStudyB])]
    | _ => inl [("studies", JArr [sampleStudyA]); ("nextPageToken", JStr "page2")]
    end.

Definition secondPageFails : SearchTool.Api :=
  fun calls params =>
    match calls with
    | O => inl [("studies", JArr [sampleStudyA]); ("nextPageToken", JStr "page2")]
    | S _ => inr "Failed after 3 retries: HTTP 500: Internal Server Error"
    end.

(** * Properties *)

(** ** The filter engine *)

Section FilterFacts.
Variable filters : FilterParams.
Variable study : Study.

(** [matches] holds exactly when no block returns [false]. *)
Lemma matches_true_iff :
  matches filters study = true <->
  Forall (fun b => b = true)
    [ phaseOk filters study;
      locationCountryOk filters study; locationStateOk filters study;
      locationCityOk filters study;
      enrollmentMinOk filters study; enrollmentMaxOk filters study;
      startDateAfterOk filters study; startDateBeforeOk filters study;
      completionDateAfterOk filters study; completionDateBeforeOk filters study;
      interventionTypeOk filters study;
      hasResultsOk filters study;
      studyTypeOk filters study; sexOk filters study;
      healthyVolunteersOk filters study; sponsorClassOk filters study;
      allocationOk filters study; interventionModelOk filters study;
      primaryPurposeOk filters study;
      minAgeOk filters study; maxAgeOk filters study;
      ageGroupsOk filters study;
      maskingOk filters study;
      fdaRegulatedOk filters study;
      keywordOk filters study ].
Proof.
  unfold matches. rewrite !andb_true_iff, !Forall_cons, Forall_nil. tauto.
Qed.

Lemma matches_false_of (clause : bool) :
  clause = false ->
  (matches filters study = true -> clause = true) ->
  matches filters study = false.
Proof.
  intros Hc Himp. destruct (matches filters study); [|reflexivity].
  rewrite Himp in Hc; [discriminate | reflexivity].
Qed.
End FilterFacts.

Ltac clause_of_matches :=
  let H := fresh in
  intros H; apply matches_true_iff in H;
  repeat (apply Forall_cons_1 in H; destruct H as [? H]); assumption.

Lemma filterStudies_In (studies : list Study) (filters : FilterParams) (s : Study) :
  In s (filterStudies studies filters) <-> In s studies /\ matches filters s = true.
Proof. unfold filterStudies. apply filter_In. Qed.

Lemma filter_idempotent {A} (p : A -> bool) (l : list A) :
  List.filter p (List.filter p l) = List.filter p l.
Proof.
  induction l as [|x l IH]; [reflexivity|].
  simpl. destruct (p x) eqn:Hx; simpl; [rewrite Hx; f_equal|]; exact IH.
Qed.

Lemma filter_sublist {A} (p : A -> bool) (l : list A) : sublist (List.filter p l) l.
Proof.
  induction l as [|x l IH]; simpl; [constructor|].
  destruct (p x); [apply sublist_skip | apply sublist_cons]; exact IH.
Qed.

(** C3.  Filtering twice with the same criteria is filtering once; the
    result is the subsequence of the input, in the input's order, made of
    the records on which [matches] holds. *)
Theorem filterStudies_idempotent (S : list Study) (C : FilterParams) :
  filterStudies (filterStudies S C) C = filterStudies S C
  /\ sublist (filterStudies S C) S
  /\ (forall s, In s (filterStudies S C) <-> In s S /\ matches C s = true).
Proof.
  split; [apply filter_idempotent|].
  split; [apply filter_sublist|].
  intros s. apply filterStudies_In.
Qed.

Lemma fdaRegulatedOk_no_oversight (filters : FilterParams) (study : Study) (b : bool) :
  f_fdaRegulated filters = Some b ->
  oversightModule (protocolSection study) = None ->
  fdaRegulatedOk filters study = false.
Proof. intros Hf Ho. unfold fdaRegulatedOk. rewrite Hf, Ho. reflexivity. Qed.

Lemma matches_oversight_irrelevant (filters : FilterParams) (study : Study)
      (o : option OversightModule) :
  f_fdaRegulated filters = None ->
  matches filters (withOversight o study) = matches filters study.
Proof.
  intros Hf. unfold matches.
  replace (fdaRegulatedOk filters (withOversight o study)) with true
    by (unfold fdaRegulatedOk; rewrite Hf; reflexivity).
  replace (fdaRegulatedOk filters study) with true
    by (unfold fdaRegulatedOk; rewrite Hf; reflexivity).
  reflexivity.
Qed.

(** C1.  With [fdaRegulated] specified (true or false), a record without an
    [oversightModule] does not match and is in no filter result; with
    [fdaRegulated] unspecified the outcome of [matches] is the same whatever
    the [oversightModule] is, absent or present. *)
Theorem fda_filter_fails_closed (study : Study) (filters : FilterParams) :
  oversightModule (protocolSection study) = None ->
  (forall b, f_fdaRegulated filters = Some b ->
     matches filters study = false
     /\ forall studies, ~ In study (filterStudies studies filters))
  /\ (f_fdaRegulated filters = None ->
      forall o, matches filters study = matches filters (withOversight o study)).
Proof.
  intros Ho. split.
  - intros b Hf.
    assert (Hm : matches filters study = false).
    { apply (matches_false_of _ _ (fdaRegulatedOk filters study)).
      - eapply fdaRegulatedOk_no_oversight; eassumption.
      - clause_of_matches. }
    split; [exact Hm|].
    intros studies Hin. apply filterStudies_In in Hin. destruct Hin as [_ Hin].
    rewrite Hm in Hin. discriminate.
  - intros Hf o. symmetry. apply matches_oversight_irrelevant. exact Hf.
Qed.

Ltac same_clauses g f study :=
  change (phaseOk g study) with (phaseOk f study);
  change (locationCountryOk g study) with (locationCountryOk f study);
  change (locationStateOk g study) with (locationStateOk f study);
  change (locationCityOk g study) with (locationCityOk f study);
  change (startDateAfterOk g study) with (startDateAfterOk f study);
  change (startDateBeforeOk g study) with (startDateBeforeOk f study);
  change (completionDateAfterOk g study) with (completionDateAfterOk f study);
  change (completionDateBeforeOk g study) with (completionDateBeforeOk f study);
  change (interventionTypeOk g study) with (interventionTypeOk f study);
  change (hasResultsOk g study) with (hasResultsOk f study);
  change (studyTypeOk g study) with (studyTypeOk f study);
  change (sexOk g study) with (sexOk f study);
  change (healthyVolunteersOk g study) with (healthyVolunteersOk f study);
  change (sponsorClassOk g study) with (sponsorClassOk f study);
  change (allocationOk g study) with (allocationOk f study);
  change (interventionModelOk g study) with (interventionModelOk f study);
  change (primaryPurposeOk g study) with (primaryPurposeOk f study);
  change (minAgeOk g study) with (minAgeOk f study);
  change (maxAgeOk g study) with (maxAgeOk f study);
  change (ageGroupsOk g study) with (ageGroupsOk f study);
  change (maskingOk g study) with (maskingOk f study);
  change (fdaRegulatedOk g study) with (fdaRegulatedOk f study);
  change (keywordOk g study) with (keywordOk f study).

Lemma matches_enrollment_split (filters : FilterParams) (study : Study) :
  matches filters study =
  enrollmentMinOk filters study && enrollmentMaxOk filters study
  && matches (withoutEnrollmentBounds filters) study.
Proof.
  unfold matches.
  change (enrollmentMinOk (withoutEnrollmentBounds filters) study) with true.
  change (enrollmentMaxOk (withoutEnrollmentBounds filters) study) with true.
  same_clauses (withoutEnrollmentBounds filters) filters study.
  apply eq_true_iff_eq. rewrite !andb_true_iff. tauto.
Qed.

(** C5, as the code has it.  The enrollment bounds constrain only a
    record that has a count: without a count they are skipped and the
    record is judged by the other criteria alone; with a count [n] the
    record matches exactly when [n] is at least every given minimum, at
    most every given maximum (both inclusive), and the other criteria
    hold. *)
Theorem enrollment_range_filter (filters : FilterParams) (study : Study) :
  let enrollment := designModule (protocolSection study) ?. enrollmentInfo ?. count in
  (enrollment = None ->
     matches filters study = matches (withoutEnrollmentBounds filters) study)
  /\ (forall n, enrollment = Some n ->
       (matches filters study = true <->
        (forall lo, f_enrollmentMin filters = Some lo -> lo <= n)
        /\ (forall hi, f_enrollmentMax filters = Some hi -> n <= hi)
        /\ matches (withoutEnrollmentBounds filters) study = true)).
Proof.
  intros enrollment. rewrite matches_enrollment_split.
  unfold enrollmentMinOk, enrollmentMaxOk. fold enrollment. split.
  - intros ->. destruct (f_enrollmentMin filters), (f_enrollmentMax filters); reflexivity.
  - intros n ->. rewrite !andb_true_iff.
    destruct (f_enrollmentMin filters) as [lo|], (f_enrollmentMax filters) as [hi|];
      rewrite ?negb_true_iff, ?Z.ltb_ge, ?Z.gtb_ltb, ?Z.ltb_ge;
      (split; [intros [[? ?] ?]; repeat split; try congruence;
               intros ? [= <-]; assumption
              | intros (Hlo & Hhi & ?); repeat split; auto]).
Qed.

(** C5 as stated fails: a record without an enrollment count passes a
    criteria object that sets [enrollmentMin]. *)
Lemma enrollment_filter_not_closed :
  designModule (protocolSection bareStudy) ?. enrollmentInfo ?. count = None
  /\ f_enrollmentMin atLeast100 = Some 100
  /\ matches atLeast100 bareStudy = true
  /\ filterStudies [bareStudy] atLeast100 = [bareStudy].
Proof. repeat split. Qed.

Lemma enrollment_range_filter_witness :
  matches atLeast100 bareStudy = matches (withoutEnrollmentBounds atLeast100) bareStudy.
Proof. apply (enrollment_range_filter atLeast100 bareStudy). reflexivity. Defined.

Lemma fda_filter_fails_closed_witness :
  (matches fdaRegulatedOnly bareStudy = false
   /\ forall studies, ~ In bareStudy (filterStudies studies fdaRegulatedOnly))
  /\ matches noFilters bareStudy
     = matches noFilters (withOversight (Some regulatedDrug) bareStudy).
Proof.
  split.
  - apply (proj1 (fda_filter_fails_closed bareStudy fdaRegulatedOnly eq_refl) true).
    reflexivity.
  - apply (proj2 (fda_filter_fails_closed bareStudy noFilters eq_refl)).
    reflexivity.
Defined.

(** ** The age filters *)

Lemma truthy_Some (o : option string) (s : string) :
  JsString.truthy o = Some s <-> o = Some s /\ s <> EmptyString.
Proof.
  unfold JsString.truthy. destruct o as [[|c r]|]; split.
  - discriminate.
  - intros [[= <-] Hne]. contradiction.
  - intros [= <-]. split; [reflexivity | discriminate].
  - intros [H _]. exact H.
  - discriminate.
  - intros [H _]. discriminate.
Qed.

(** C10.  With [minAge] (respectively [maxAge]) set to a non-empty string, a
    record whose [minimumAge] (respectively [maximumAge]) is absent or is
    the string N/A does not match and is in no filter result. *)
Theorem age_filters_fail_closed (filters : FilterParams) (study : Study) (bound : string) :
  bound <> EmptyString ->
  let eligibility := eligibilityModule (protocolSection study) in
  (f_minAge filters = Some bound ->
   eligibility ?. minimumAge = None \/ eligibility ?. minimumAge = Some "N/A" ->
   matches filters study = false
   /\ forall studies, ~ In study (filterStudies studies filters))
  /\ (f_maxAge filters = Some bound ->
      eligibility ?. maximumAge = None \/ eligibility ?. maximumAge = Some "N/A" ->
      matches filters study = false
      /\ forall studies, ~ In study (filterStudies studies filters)).
Proof.
  intros Hne eligibility.
  assert (Hout : matches filters study = false ->
                 forall studies, ~ In study (filterStudies studies filters)).
  { intros Hm studies Hin. apply filterStudies_In in Hin.
    destruct Hin as [_ Hin]. rewrite Hm in Hin. discriminate. }
  assert (Hb : JsString.truthy (Some bound) = Some bound)
    by (apply truthy_Some; split; [reflexivity | exact Hne]).
  split; intros Hf Hage.
  - assert (Hm : matches filters study = false).
    { apply (matches_false_of _ _ (minAgeOk filters study)); [|clause_of_matches].
      unfold minAgeOk. rewrite Hf, Hb. fold eligibility.
      destruct Hage as [-> | ->]; reflexivity. }
    split; [exact Hm | exact (Hout Hm)].
  - assert (Hm : matches filters study = false).
    { apply (matches_false_of _ _ (maxAgeOk filters study)); [|clause_of_matches].
      unfold maxAgeOk. rewrite Hf, Hb. fold eligibility.
      destruct Hage as [-> | ->]; reflexivity. }
    split; [exact Hm | exact (Hout Hm)].
Qed.

Lemma age_filters_fail_closed_witness :
  matches adultsOnly noUpperAge = false
  /\ forall studies, ~ In noUpperAge (filterStudies studies adultsOnly).
Proof.
  apply (proj1 (age_filters_fail_closed adultsOnly noUpperAge "18 Years"
                  ltac:(discriminate))).
  - reflexivity.
  - right. reflexivity.
Defined.

(** ** The enumeration filters *)

Lemma differs_false {A} `{EqDecision A} (a : option A) (b : A) :
  negb (differs a b) = true <-> a = Some b.
Proof.
  unfold differs. rewrite negb_involutive. apply bool_decide_eq_true.
Qed.

Lemma upperEq_spec (c : string) (r : option string) :
  c <> EmptyString ->
  (upperEq (Some c) r = true <->
   exists v, r = Some v /\ JsString.toUpperCase v = JsString.toUpperCase c).
Proof.
  intros Hne. unfold upperEq.
  rewrite (proj2 (truthy_Some (Some c) c) (conj eq_refl Hne)), differs_false.
  destruct r as [v|]; simpl; split.
  - intros [= H]. exists v. split; [reflexivity | exact H].
  - intros (v' & [= <-] & H). rewrite H. reflexivity.
  - discriminate.
  - intros (v' & [=] & _).
Qed.

Lemma normalizedEq_spec (c : string) (r : option string) :
  c <> EmptyString ->
  (normalizedEq (Some c) r = true <->
   exists v, r = Some v
             /\ JsString.replaceSpaces (JsString.toUpperCase v)
                = JsString.replaceSpaces (JsString.toUpperCase c)).
Proof.
  intros Hne. unfold normalizedEq.
  rewrite (proj2 (truthy_Some (Some c) c) (conj eq_refl Hne)), differs_false.
  destruct r as [v|]; simpl; split.
  - intros [= H]. exists v. split; [reflexivity | exact H].
  - intros (v' & [= <-] & H). rewrite H. reflexivity.
  - discriminate.
  - intros (v' & [=] & _).
Qed.

(** C4, as the code has it.  A record that matches agrees with every
    enumeration criterion that is set (to a non-empty string): for
    allocation, intervention model and primary purpose up to case and the
    space/underscore separator; for study type, sex, sponsor class and
    masking up to case only.  Each of the seven blocks passes exactly when
    its comparison holds. *)
Theorem enumeration_filters (filters : FilterParams) (study : Study) (c : string) :
  c <> EmptyString ->
  let p := protocolSection study in
  let design := designModule p in
  (f_studyType filters = Some c ->
     (studyTypeOk filters study = true <-> sameUpToCase (design ?. studyType) c))
  /\ (f_sex filters = Some c ->
     (sexOk filters study = true <-> sameUpToCase (eligibilityModule p ?. sex) c))
  /\ (f_sponsorClass filters = Some c ->
     (sponsorClassOk filters study = true <->
      sameUpToCase (sponsorCollaboratorsModule p ?. leadSponsor ?. sponsorClass) c))
  /\ (f_masking filters = Some c ->
     (maskingOk filters study = true <->
      sameUpToCase (design ?. designInfo ?. maskingInfo ?. masking) c))
  /\ (f_allocation filters = Some c ->
     (allocationOk filters study = true <->
      sameUpToCaseAndSeparator (design ?. designInfo ?. allocation) c))
  /\ (f_interventionModel filters = Some c ->
     (interventionModelOk filters study = true <->
      sameUpToCaseAndSeparator (design ?. designInfo ?. interventionModel) c))
  /\ (f_primaryPurpose filters = Some c ->
     (primaryPurposeOk filters study = true <->
      sameUpToCaseAndSeparator (design ?. designInfo ?. primaryPurpose) c))
  /\ (matches filters study = true ->
      studyTypeOk filters study = true /\ sexOk filters study = true
      /\ sponsorClassOk filters study = true /\ maskingOk filters study = true
      /\ allocationOk filters study = true /\ interventionModelOk filters study = true
      /\ primaryPurposeOk filters study = true).
Proof.
  intros Hne p design.
  assert (Hu : forall r, upperEq (Some c) r = true <-> sameUpToCase r c)
    by (intros r; apply upperEq_spec; exact Hne).
  assert (Hn : forall r, normalizedEq (Some c) r = true <-> sameUpToCaseAndSeparator r c)
    by (intros r; apply normalizedEq_spec; exact Hne).
  split; [intros Hf; unfold studyTypeOk; rewrite Hf; apply Hu|].
  split; [intros Hf; unfold sexOk; rewrite Hf; apply Hu|].
  split; [intros Hf; unfold sponsorClassOk; rewrite Hf; apply Hu|].
  split; [intros Hf; unfold maskingOk; rewrite Hf; apply Hu|].
  split; [intros Hf; unfold allocationOk; rewrite Hf; apply Hn|].
  split; [intros Hf; unfold interventionModelOk; rewrite Hf; apply Hn|].
  split; [intros Hf; unfold primaryPurposeOk; rewrite Hf; apply Hn|].
  intros Hm. repeat split; revert Hm; clause_of_matches.
Qed.

(** C4 as stated fails for the study type: the stored value and the
    criterion are equal up to case and separator, and the record is
    excluded. *)
Lemma study_type_separator_not_normalized :
  f_studyType expandedAccessOnly = Some "EXPANDED_ACCESS"
  /\ sameUpToCaseAndSeparator
       (designModule (protocolSection expandedAccessStudy) ?. studyType) "EXPANDED_ACCESS"
  /\ matches expandedAccessOnly expandedAccessStudy = false.
Proof.
  split; [reflexivity|]. split; [|reflexivity].
  eexists. split; reflexivity.
Qed.

Lemma enumeration_filters_witness :
  interventionModelOk parallelAssignmentOnly expandedAccessStudy = true
  <-> sameUpToCaseAndSeparator
        (designModule (protocolSection expandedAccessStudy) ?. designInfo ?. interventionModel)
        "PARALLEL_ASSIGNMENT".
Proof.
  apply (enumeration_filters parallelAssignmentOnly expandedAccessStudy
           "PARALLEL_ASSIGNMENT" ltac:(discriminate)).
  reflexivity.
Defined.

(** ** The cache key *)

Lemma string_compare_refl (a : string) : String.compare a a = Eq.
Proof.
  induction a as [|c a IH]; simpl; [reflexivity|].
  unfold Ascii.compare. rewrite N.compare_refl. exact IH.
Qed.

Lemma string_compare_lt_trans (a b c : string) :
  String.compare a b = Lt -> String.compare b c = Lt -> String.compare a c = Lt.
Proof.
  revert b c. induction a as [|x a IH]; intros [|y b] [|z c]; simpl;
    try discriminate; try reflexivity.
  unfold Ascii.compare.
  destruct (N.compare_spec (N_of_ascii x) (N_of_ascii y)) as [Hxy|Hxy|Hxy];
    destruct (N.compare_spec (N_of_ascii y) (N_of_ascii z)) as [Hyz|Hyz|Hyz];
    try discriminate; intros H1 H2.
  - rewrite Hxy, Hyz, N.compare_refl. eapply IH; eassumption.
  - rewrite Hxy. apply N.compare_lt_iff in Hyz. rewrite Hyz. reflexivity.
  - rewrite <- Hyz. apply N.compare_lt_iff in Hxy. rewrite Hxy. reflexivity.
  - assert (H : (N_of_ascii x < N_of_ascii z)%N) by (eapply N.lt_trans; eassumption).
    apply N.compare_lt_iff in H. rewrite H. reflexivity.
Qed.

Lemma string_leb_trans (a b c : string) :
  String.leb a b = true -> String.leb b c = true -> String.leb a c = true.
Proof.
  unfold String.leb.
  destruct (String.compare a b) eqn:Hab; try discriminate;
    destruct (String.compare b c) eqn:Hbc; try discriminate; intros _ _.
  - apply String.compare_eq_iff in Hab. subst. rewrite Hbc. reflexivity.
  - apply String.compare_eq_iff in Hab. subst. rewrite Hbc. reflexivity.
  - apply String.compare_eq_iff in Hbc. subst. rewrite Hab. reflexivity.
  - rewrite (string_compare_lt_trans _ _ _ Hab Hbc). reflexivity.
Qed.

Lemma string_leb_false (a b : string) :
  String.leb a b = false -> String.leb b a = true.
Proof.
  intros H. destruct (String.leb_total a b) as [H' | H']; [congruence | exact H'].
Qed.

(** Inserting two keys into any list commutes. *)
Lemma insertSorted_comm (x y : string) (l : list string) :
  insertSorted x (insertSorted y l) = insertSorted y (insertSorted x l).
Proof.
  induction l as [|z l IH]; simpl.
  - destruct (String.leb x y) eqn:Hxy, (String.leb y x) eqn:Hyx; try reflexivity.
    + rewrite (String.leb_antisym _ _ Hxy Hyx). reflexivity.
    + apply string_leb_false in Hxy. congruence.
  - destruct (String.leb y z) eqn:Hyz, (String.leb x z) eqn:Hxz; simpl;
      rewrite ?Hyz, ?Hxz.
    + destruct (String.leb x y) eqn:Hxy, (String.leb y x) eqn:Hyx; try reflexivity.
      * rewrite (String.leb_antisym _ _ Hxy Hyx). reflexivity.
      * apply string_leb_false in Hxy. congruence.
    + destruct (String.leb x y) eqn:Hxy; [|reflexivity].
      rewrite (string_leb_trans _ _ _ Hxy Hyz) in Hxz. discriminate.
    + destruct (String.leb y x) eqn:Hyx; [|reflexivity].
      rewrite (string_leb_trans _ _ _ Hyx Hxz) in Hyz. discriminate.
    + rewrite IH. reflexivity.
Qed.

(** Sorting forgets the order of the input. *)
Lemma sort_Permutation (l1 l2 : list string) :
  Permutation l1 l2 -> sort l1 = sort l2.
Proof.
  induction 1 as [| x l1 l2 _ IH | x y l | l1 l2 l3 _ IH1 _ IH2]; simpl.
  - reflexivity.
  - rewrite IH. reflexivity.
  - apply insertSorted_comm.
  - congruence.
Qed.

Lemma insertSorted_Permutation (x : string) (l : list string) :
  Permutation (insertSorted x l) (x :: l).
Proof.
  induction l as [|y l IH]; simpl; [reflexivity|].
  destruct (String.leb x y); [reflexivity|].
  rewrite IH. apply perm_swap.
Qed.

Lemma sort_elements (l : list string) : Permutation (sort l) l.
Proof.
  induction l as [|x l IH]; [reflexivity|].
  change (sort (x :: l)) with (insertSorted x (sort l)).
  rewrite insertSorted_Permutation, IH. reflexivity.
Qed.

Lemma insertSorted_ascending (x : string) (l : list string) :
  ascending l -> ascending (insertSorted x l).
Proof.
  induction l as [|y l IH]; intros Hl; simpl.
  - split; [constructor | exact I].
  - destruct Hl as [Hy Hl]. destruct (String.leb x y) eqn:Hxy.
    + split; [|split; assumption]. constructor; [exact Hxy|].
      eapply Forall_impl; [exact Hy|]. intros z Hz. cbn in Hz |- *.
      exact (string_leb_trans _ _ _ Hxy Hz).
    + split; [|exact (IH Hl)].
      rewrite insertSorted_Permutation. constructor; [|exact Hy].
      apply string_leb_false. exact Hxy.
Qed.

Lemma sort_ascending (l : list string) : ascending (sort l).
Proof.
  induction l as [|x l IH]; [exact I|].
  change (sort (x :: l)) with (insertSorted x (sort l)).
  apply insertSorted_ascending. exact IH.
Qed.

(** Sorting leaves a list that is in order as it is. *)
Lemma sort_ascending_fixed (l : list string) : ascending l -> sort l = l.
Proof.
  induction l as [|x l IH]; intros Hl; [reflexivity|]. destruct Hl as [Hx Hl].
  change (sort (x :: l)) with (insertSorted x (sort l)). rewrite (IH Hl).
  destruct l as [|y l]; [reflexivity|]. simpl.
  apply Forall_cons in Hx as [Hxy _]. rewrite Hxy. reflexivity.
Qed.

Lemma filter_ascending (p : string -> bool) (l : list string) :
  ascending l -> ascending (List.filter p l).
Proof.
  induction l as [|x l IH]; intros Hl; [exact I|]. destruct Hl as [Hx Hl]. simpl.
  destruct (p x); [|exact (IH Hl)].
  split; [|exact (IH Hl)].
  apply Forall_forall. intros y Hy. rewrite Forall_forall in Hx. apply Hx.
  apply list_elem_of_In in Hy. apply filter_In in Hy as [Hy _].
  apply list_elem_of_In. exact Hy.
Qed.

Lemma sort_sort (l : list string) : sort (sort l) = sort l.
Proof. apply sort_ascending_fixed, sort_ascending. Qed.

Lemma sort_filter_sort (p : string -> bool) (l : list string) :
  sort (List.filter p (sort l)) = List.filter p (sort l).
Proof. apply sort_ascending_fixed, filter_ascending, sort_ascending. Qed.

Lemma sort_In (x : string) (l : list string) : In x (sort l) <-> In x l.
Proof.
  split; apply Permutation_in; [apply sort_elements | symmetry; apply sort_elements].
Qed.

Lemma sort_NoDup (l : list string) : NoDup l -> NoDup (sort l).
Proof. intros H. rewrite sort_elements. exact H. Qed.

Lemma sort_length (l : list string) : List.length (sort l) = List.length l.
Proof. apply Permutation_length, sort_elements. Qed.

Lemma assoc_In {A} (k : string) (x : A) (l : list (string * A)) :
  NoDup (map fst l) -> In (k, x) l -> assoc k l = Some x.
Proof.
  induction l as [|[k' y] l IH]; simpl; [contradiction|].
  intros Hnd [H | H].
  - injection H as -> ->. rewrite String.eqb_refl. reflexivity.
  - apply NoDup_cons in Hnd as [Hnotin Hnd']. destruct (String.eqb_spec k k') as [-> | Hne].
    + exfalso. apply Hnotin.
      apply list_elem_of_In. apply (in_map fst) in H. exact H.
    + apply IH; assumption.
Qed.

Lemma assoc_None {A} (k : string) (l : list (string * A)) :
  assoc k l = None <-> ~ In k (map fst l).
Proof.
  induction l as [|[k' y] l IH]; simpl; [tauto|].
  destruct (String.eqb_spec k k') as [-> | Hne].
  - split; [discriminate | intros H; exfalso; apply H; left; reflexivity].
  - rewrite IH. split; [intros H [H' | H']; [congruence | tauto] | tauto].
Qed.

Lemma assoc_Some_In {A} (k : string) (x : A) (l : list (string * A)) :
  assoc k l = Some x -> In (k, x) l.
Proof.
  induction l as [|[k' y] l IH]; simpl; [discriminate|].
  destruct (String.eqb_spec k k') as [-> | Hne].
  - intros [= ->]. left. reflexivity.
  - intros H. right. apply IH. exact H.
Qed.

(** Two objects with the same properties answer every lookup alike. *)
Lemma assoc_Permutation {A} (k : string) (l1 l2 : list (string * A)) :
  NoDup (map fst l1) -> Permutation l1 l2 -> assoc k l1 = assoc k l2.
Proof.
  intros Hnd Hp.
  assert (Hnd2 : NoDup (map fst l2)).
  { rewrite <- (Permutation_map fst Hp). exact Hnd. }
  destruct (assoc k l1) as [x|] eqn:H1.
  - symmetry. apply assoc_In; [exact Hnd2|].
    eapply Permutation_in; [exact Hp|]. apply assoc_Some_In. exact H1.
  - symmetry. apply assoc_None. apply assoc_None in H1. intros Hin. apply H1.
    eapply Permutation_in; [|exact Hin]. apply Permutation_map.
    symmetry. exact Hp.
Qed.

Lemma serialize_JObj (K : option (list string)) (gap indent : string)
      (props : list (string * JsVal)) :
  JSON.serialize K gap indent (JObj props)
  = Some (JSON.wrap "{" "}" gap indent (indent ++ gap)
            (objectPartial K gap (memberTexts K gap (indent ++ gap) props))).
Proof. reflexivity. Qed.

Lemma serialize_JArr (K : option (list string)) (gap indent : string) (elems : list JsVal) :
  JSON.serialize K gap indent (JArr elems)
  = Some (JSON.wrap "[" "]" gap indent (indent ++ gap)
            (arrayPartial K gap (indent ++ gap) elems)).
Proof. reflexivity. Qed.

Lemma assoc_map {A B} (f : A -> B) (k : string) (l : list (string * A)) :
  assoc k (map (fun kx => (fst kx, f (snd kx))) l) = f <$> assoc k l.
Proof.
  induction l as [|[k' x] l IH]; simpl; [reflexivity|].
  destruct (String.eqb k k'); [reflexivity | exact IH].
Qed.

(** With a property list, the text of an object depends on its properties
    only through the lookups. *)
Lemma serialize_keys_Permutation (ks : list string) (gap indent : string)
      (p1 p2 : list (string * JsVal)) :
  NoDup (map fst p1) -> Permutation p1 p2 ->
  JSON.serialize (Some ks) gap indent (JObj p1)
  = JSON.serialize (Some ks) gap indent (JObj p2).
Proof.
  intros Hnd Hp. rewrite !serialize_JObj. do 2 f_equal.
  unfold objectPartial, memberTexts. apply flat_map_ext. intros k.
  rewrite !assoc_map, (assoc_Permutation k p1 p2 Hnd Hp). reflexivity.
Qed.

(** C7.  Two parameter objects with the same properties, listed in any
    order, get the same cache key under every prefix; so [get] and [set]
    address the same memory entry and the same file for both. *)
Theorem generateKey_order_independent (prefix : string) (p1 p2 : list (string * JsVal)) :
  NoDup (map fst p1) ->
  Permutation p1 p2 ->
  generateKey prefix (JObj p1) = generateKey prefix (JObj p2)
  /\ (forall c, get prefix (JObj p1) c = get prefix (JObj p2) c)
  /\ (forall d c, set prefix (JObj p1) d c = set prefix (JObj p2) d c).
Proof.
  intros Hnd Hp.
  assert (Hk : generateKey prefix (JObj p1) = generateKey prefix (JObj p2)).
  { unfold generateKey, JSON.stringifyKeys. cbn [Object_keys bindR].
    rewrite (sort_Permutation (map fst p1) (map fst p2))
      by (apply Permutation_map; exact Hp).
    rewrite (serialize_keys_Permutation _ _ _ p1 p2 Hnd Hp). reflexivity. }
  split; [exact Hk|]. split.
  - intros c. unfold get. rewrite Hk. reflexivity.
  - intros d c. unfold set. rewrite Hk. reflexivity.
Qed.

Lemma generateKey_order_independent_witness :
  generateKey "search" (JObj searchParams1) = generateKey "search" (JObj searchParams2).
Proof.
  apply (generateKey_order_independent "search" searchParams1 searchParams2).
  - apply NoDup_ListNoDup. repeat constructor; simpl; intuition discriminate.
  - apply (Permutation_app_comm
             [("query", JStr "cancer"); ("pageSize", JNum 100)]
             [("status", JStr "RECRUITING")]).
Defined.

(** ** JSON.parse after JSON.stringify *)

#[local] Arguments String.append !s1 s2 : simpl nomatch.

Lemma append_assoc (a b c : string) : ((a ++ b) ++ c = a ++ (b ++ c))%string.
Proof. induction a as [|x a IH]; [reflexivity | cbn; f_equal; exact IH]. Qed.

Lemma allWs_app (a b : string) : allWs (a ++ b) = allWs a && allWs b.
Proof.
  induction a as [|x a IH]; simpl; [reflexivity|].
  rewrite IH, andb_assoc. reflexivity.
Qed.

Lemma skipWs_app (w s : string) : allWs w = true -> skipWs (w ++ s) = skipWs s.
Proof.
  induction w as [|c w IH]; simpl; [reflexivity|].
  intros H. apply andb_true_iff in H as [Hc Hw]. rewrite Hc. apply IH. exact Hw.
Qed.

Lemma skipWs_head (c : ascii) (r : string) :
  isWs c = false -> skipWs (String c r) = String c r.
Proof. intros H. simpl. rewrite H. reflexivity. Qed.

Lemma parseChars_quoteChar (c : ascii) (t : string) :
  parseChars (quoteChar c ++ t) = consChar c (parseChars t).
Proof. destruct c as [[] [] [] [] [] [] [] []]; exact eq_refl. Qed.

(** A string literal reads back as the string it quotes. *)
Lemma parseChars_quoteChars (s rest : string) :
  parseChars (quoteChars s ++ rest) = Some (s, rest).
Proof.
  induction s as [|c s IH]; [reflexivity|].
  cbn [quoteChars]. rewrite append_assoc, parseChars_quoteChar, IH. reflexivity.
Qed.

(** *** Numbers *)

Lemma stops_head (c : ascii) (r : string) :
  (c = ","%char \/ c = "]"%char \/ c = "}"%char \/ c = ascii_of_nat 10) ->
  stops (String c r).
Proof.
  intros [-> | [-> | [-> | ->]]]; repeat split; discriminate.
Qed.

Lemma parseDigits_string_of_uint (d : Decimal.uint) (rest : string) :
  stops rest ->
  parseDigits (NilEmpty.string_of_uint d ++ rest) = (d, rest).
Proof.
  intros Hrest. induction d; cbn; try (rewrite IHd; reflexivity).
  destruct rest as [|c r]; [reflexivity|]. cbn.
  destruct Hrest as [-> _]. reflexivity.
Qed.

(** The decimal digits of a number: not empty, and without a leading zero
    unless the number is zero. *)
Lemma to_uint_shape (n : N) :
  N.to_uint n = Decimal.D0 Decimal.Nil /\ n = 0%N
  \/ (n <> 0%N /\ match N.to_uint n with
                  | Decimal.Nil | Decimal.D0 _ => False
                  | _ => True
                  end).
Proof.
  destruct n as [|p]; [left; split; reflexivity | right].
  split; [discriminate|].
  pose proof (DecimalN.Unsigned.to_of (N.to_uint (Npos p))) as H.
  rewrite DecimalN.Unsigned.of_to in H.
  destruct (N.to_uint (N.pos p)) as [|d| | | | | | | | |] eqn:E; try exact I.
  - cbn in H. discriminate.
  - (* a leading zero: the digits would denote the number of the tail *)
    exfalso. cbn [Decimal.unorm Decimal.nzhead] in H.
    assert (Hz : Decimal.unorm d = Decimal.D0 d) by exact (eq_sym H).
    clear H. 
    assert (Hd : N.of_uint (Decimal.D0 d) = N.of_uint d).
    { rewrite <- (DecimalN.Unsigned.of_uint_norm (Decimal.D0 d)).
      rewrite <- (DecimalN.Unsigned.of_uint_norm d). reflexivity. }
    rewrite <- E, DecimalN.Unsigned.of_to in Hd.
    (* [d] is normal up to [unorm], and [unorm d] starts with a zero: [d] is zero *)
    unfold Decimal.unorm in Hz.
    destruct (Decimal.nzhead d) eqn:Hnz; try discriminate.
    + injection Hz as <-. cbn in Hd. discriminate.
    + pose proof (DecimalFacts.nzhead_nonzero d u) as Hnn. contradiction.
Qed.

Lemma parseNat_natToString (n : N) (rest : string) :
  stops rest -> parseNat (natToString n ++ rest) = Some (n, rest).
Proof.
  intros Hrest. unfold parseNat, natToString.
  rewrite (parseDigits_string_of_uint _ _ Hrest).
  assert (Hc : match rest with
               | String c _ => Ascii.eqb c "." || Ascii.eqb c "e" || Ascii.eqb c "E"
               | EmptyString => false
               end = false).
  { destruct rest as [|c r]; [reflexivity|]. destruct Hrest as (_ & H1 & H2 & H3).
    apply Ascii.eqb_neq in H1, H2, H3. rewrite H1, H2, H3. reflexivity. }
  rewrite Hc.
  destruct (to_uint_shape n) as [[E ->] | [Hn Hshape]].
  - reflexivity.
  - rewrite <- (DecimalN.Unsigned.of_to n) at 2.
    destruct (N.to_uint n); try contradiction; reflexivity.
Qed.

Lemma parseValue_digit (fuel : nat) (c : ascii) (r : string) :
  digitOf c <> None ->
  parseValue (S fuel) (String c r)
  = match parseNat (String c r) with
    | Some (n, r') => Some (JNum (Z.of_N n), r')
    | None => None
    end.
Proof.
  intros H. destruct c as [[] [] [] [] [] [] [] []];
    first [exact eq_refl | exfalso; apply H; exact eq_refl].
Qed.

Lemma natToString_head (n : N) :
  exists c r, natToString n = String c r /\ digitOf c <> None.
Proof.
  unfold natToString.
  destruct (to_uint_shape n) as [[E _] | [_ Hshape]].
  - rewrite E. eexists _, _. split; [reflexivity | discriminate].
  - destruct (N.to_uint n); try contradiction;
      eexists _, _; (split; [reflexivity | discriminate]).
Qed.

Lemma parseValue_number (fuel : nat) (n : Z) (rest : string) :
  stops rest ->
  parseValue (S fuel) (numberToString n ++ rest) = Some (JNum n, rest).
Proof.
  intros Hrest. destruct n as [|p|p].
  - change (numberToString 0) with (natToString 0).
    destruct (natToString_head 0) as (c & r & E & Hc). rewrite E.
    cbn [String.append]. rewrite (parseValue_digit _ _ _ Hc).
    change (String c (r ++ rest)) with (String c r ++ rest). rewrite <- E.
    rewrite (parseNat_natToString _ _ Hrest). reflexivity.
  - change (numberToString (Z.pos p)) with (natToString (N.pos p)).
    destruct (natToString_head (N.pos p)) as (c & r & E & Hc). rewrite E.
    cbn [String.append]. rewrite (parseValue_digit _ _ _ Hc).
    change (String c (r ++ rest)) with (String c r ++ rest). rewrite <- E.
    rewrite (parseNat_natToString _ _ Hrest). reflexivity.
  - change (parseValue (S fuel) (numberToString (Z.neg p) ++ rest))
      with (match parseNat (natToString (N.pos p) ++ rest) with
            | Some (n, r') => Some (JNum (- Z.of_N n)%Z, r')
            | None => None
            end).
    rewrite (parseNat_natToString _ _ Hrest). reflexivity.
Qed.

(** *** Values *)

Lemma parseValue_skip (fuel : nat) (w s : string) :
  allWs w = true -> parseValue fuel (w ++ s) = parseValue fuel s.
Proof.
  intros Hw. destruct fuel as [|f]; [reflexivity|].
  cbn [parseValue]. rewrite (skipWs_app _ _ Hw). reflexivity.
Qed.

Lemma parseValue_array (f : nat) (r : string) :
  parseValue (S f) (String "[" r)
  = match skipWs r with
    | String c' r' =>
        if Ascii.eqb c' "]" then Some (JArr [], r')
        else
          match parseValue f r with
          | Some (x, r'') => parseElements (parseValue f) f [x] r''
          | None => None
          end
    | EmptyString => None
    end.
Proof. reflexivity. Qed.

Lemma parseValue_object (f : nat) (r : string) :
  parseValue (S f) (String "{" r)
  = match skipWs r with
    | String c' r' =>
        if Ascii.eqb c' "}" then Some (JObj [], r')
        else
          match parseMember (parseValue f) r with
          | Some (k, x, r'') => parseMembers (parseValue f) f [(k, x)] r''
          | None => None
          end
    | EmptyString => None
    end.
Proof. reflexivity. Qed.

Lemma parseValue_string (f : nat) (s rest : string) :
  parseValue (S f) (quote s ++ rest) = Some (JStr s, rest).
Proof.
  change (parseValue (S f) (quote s ++ rest))
    with (match parseChars (quoteChars s ++ rest) with
          | Some (str, r') => Some (JStr str, r')
          | None => None
          end).
  rewrite parseChars_quoteChars. reflexivity.
Qed.

Lemma concat_joined (sep t : string) (ts : list string) (tail : string) :
  (String.concat sep (t :: ts) ++ tail = t ++ joined sep ts tail)%string.
Proof.
  revert t. induction ts as [|t' ts IH]; intros t.
  - reflexivity.
  - change (String.concat sep (t :: t' :: ts))
      with (t ++ sep ++ String.concat sep (t' :: ts)).
    rewrite !append_assoc, IH. reflexivity.
Qed.

Lemma append_nil_r (s : string) : (s ++ EmptyString = s)%string.
Proof. induction s as [|c s IH]; [reflexivity | cbn; f_equal; exact IH]. Qed.

Lemma wrap_cons (opening closing gap stepback inner t : string) (ts : list string)
      (rest : string) :
  (wrap opening closing gap stepback inner (t :: ts) ++ rest
   = opening ++ sepBefore gap inner
     ++ t ++ joined ("," ++ sepBefore gap inner) ts
                    (sepAfter gap stepback ++ closing ++ rest))%string.
Proof.
  unfold wrap, sepBefore, sepAfter. destruct (String.eqb gap EmptyString).
  - cbn [String.append]. rewrite !append_assoc, concat_joined. reflexivity.
  - rewrite !append_assoc, concat_joined. reflexivity.
Qed.

Lemma allWs_newline : allWs newline = true.
Proof. reflexivity. Qed.

Lemma allWs_sepBefore (gap inner : string) :
  allWs inner = true -> allWs (sepBefore gap inner) = true.
Proof.
  intros H. unfold sepBefore. destruct (String.eqb gap EmptyString); [reflexivity|].
  rewrite allWs_app, H. reflexivity.
Qed.

Lemma allWs_sepAfter (gap indent : string) :
  allWs indent = true -> allWs (sepAfter gap indent) = true.
Proof. apply allWs_sepBefore. Qed.

Lemma stops_sepAfter (gap indent : string) (c : ascii) (rest : string) :
  (c = "]"%char \/ c = "}"%char) ->
  stops (sepAfter gap indent ++ String c rest).
Proof.
  intros Hc. unfold sepAfter. destruct (String.eqb gap EmptyString).
  - apply stops_head. tauto.
  - apply stops_head. tauto.
Qed.

Lemma skipWs_sep (w : string) (c : ascii) (r : string) :
  allWs w = true -> isWs c = false -> skipWs (w ++ String c r) = String c r.
Proof. intros Hw Hc. rewrite (skipWs_app _ _ Hw). apply skipWs_head. exact Hc. Qed.

(** *** Arrays *)

Section Elements.
Variable pv : string -> option (JsVal * string).
Variables w1 w2 rest : string.
Hypothesis Hw2 : allWs w2 = true.
Hypothesis Hstop : stops (w2 ++ String "]" rest).

Definition parsesAs (x : JsVal) (t : string) : Prop :=
  forall rest', stops rest' -> pv (w1 ++ t ++ rest') = Some (x, rest').

Lemma stops_joined (ts : list string) (tail : string) :
  stops tail -> stops (joined ("," ++ w1) ts tail).
Proof.
  intros H. destruct ts as [|t ts]; [exact H|].
  apply stops_head. left. reflexivity.
Qed.

Lemma parseElements_joined (xs : list JsVal) (texts : list string) :
  Forall2 parsesAs xs texts ->
  forall fuel acc,
    (List.length xs < fuel)%nat ->
    parseElements pv fuel acc (joined ("," ++ w1) texts (w2 ++ String "]" rest))
    = Some (JArr (rev acc ++ xs), rest).
Proof.
  induction 1 as [|x t xs ts Hx _ IH]; intros fuel acc Hfuel;
    (destruct fuel as [|fuel]; [cbn in Hfuel; lia|]).
  - cbn [joined fold_right parseElements].
    rewrite (skipWs_sep w2 "]" rest Hw2 eq_refl).
    change (Ascii.eqb "]" "]") with true. cbv iota.
    rewrite app_nil_r. reflexivity.
  - cbn [joined fold_right]. fold (joined ("," ++ w1) ts (w2 ++ String "]" rest)).
    cbn [String.append parseElements].
    rewrite (skipWs_head "," _ eq_refl).
    change (Ascii.eqb "," "]") with false. change (Ascii.eqb "," ",") with true.
    cbv iota. rewrite (Hx _ (stops_joined _ _ Hstop)).
    rewrite IH by (cbn in Hfuel; lia).
    cbn [rev]. rewrite <- app_assoc. reflexivity.
Qed.
End Elements.

(** *** Objects *)

Lemma distinct_NoDup (l : list string) : distinct l = true <-> NoDup l.
Proof.
  induction l as [|x l IH]; simpl.
  - split; [constructor | reflexivity].
  - rewrite andb_true_iff, negb_true_iff, NoDup_cons, IH.
    assert (H : existsb (String.eqb x) l = false <-> x ∉ l).
    { rewrite list_elem_of_In. split.
      - intros H Hin. assert (Ht : existsb (String.eqb x) l = true).
        { apply existsb_exists. exists x. split; [exact Hin | apply String.eqb_refl]. }
        congruence.
      - intros H. destruct (existsb (String.eqb x) l) eqn:E; [|reflexivity].
        apply existsb_exists in E as (y & Hy & Heq).
        apply String.eqb_eq in Heq. subst. contradiction. }
    rewrite H. reflexivity.
Qed.

Lemma setProp_fresh (k : string) (x : JsVal) (acc : list (string * JsVal)) :
  k ∉ map fst acc -> setProp k x acc = (acc ++ [(k, x)])%list.
Proof.
  induction acc as [|[k' y] acc IH]; intros Hk; [reflexivity|].
  cbn in Hk. apply not_elem_of_cons in Hk as [Hne Hk].
  cbn [setProp]. destruct (String.eqb_spec k k') as [->|_]; [contradiction|].
  rewrite (IH Hk). reflexivity.
Qed.

Section Members.
Variable pv : string -> option (JsVal * string).
Variables w1 w2 sp rest : string.
Hypothesis Hw1 : allWs w1 = true.
Hypothesis Hw2 : allWs w2 = true.
Hypothesis Hstop : stops (w2 ++ String "}" rest).

Definition memberString (k t : string) : string := quote k ++ ":" ++ sp ++ t.

Definition valueParsesAs (x : JsVal) (t : string) : Prop :=
  forall rest', stops rest' -> pv (sp ++ t ++ rest') = Some (x, rest').

Lemma parseMember_memberString (k t : string) (x : JsVal) (rest' : string) :
  valueParsesAs x t -> stops rest' ->
  parseMember pv (w1 ++ memberString k t ++ rest') = Some (k, x, rest').
Proof.
  intros Hx Hrest. unfold parseMember, memberString, quote.
  cbn [String.append].
  rewrite (skipWs_sep w1 "034" _ Hw1 eq_refl).
  change (Ascii.eqb "034" "034") with true. cbv iota.
  rewrite !append_assoc, parseChars_quoteChars.
  cbn [String.append]. rewrite (skipWs_head ":" _ eq_refl).
  change (Ascii.eqb ":" ":") with true. cbv iota.
  rewrite ?append_assoc, (Hx _ Hrest). reflexivity.
Qed.

Lemma parseMembers_joined (ps : list (string * JsVal)) (texts : list string) :
  Forall2 (fun kx t => valueParsesAs (snd kx) t) ps texts ->
  forall fuel acc,
    (List.length ps < fuel)%nat ->
    NoDup (map fst acc ++ map fst ps) ->
    parseMembers pv fuel acc
      (joined ("," ++ w1) (zip_with memberString (map fst ps) texts)
              (w2 ++ String "}" rest))
    = Some (JObj (acc ++ ps), rest).
Proof.
  induction 1 as [|[k x] t ps ts Hx _ IH]; intros fuel acc Hfuel Hnd;
    (destruct fuel as [|fuel]; [cbn in Hfuel; lia|]).
  - cbn [map zip_with joined fold_right parseMembers].
    rewrite (skipWs_sep w2 "}" rest Hw2 eq_refl).
    change (Ascii.eqb "}" "}") with true. cbv iota.
    rewrite app_nil_r. reflexivity.
  - cbn [map zip_with fst joined fold_right].
    fold (joined ("," ++ w1) (zip_with memberString (map fst ps) ts)
                 (w2 ++ String "}" rest)).
    cbn [String.append parseMembers].
    rewrite (skipWs_head "," _ eq_refl).
    change (Ascii.eqb "," "}") with false. change (Ascii.eqb "," ",") with true.
    cbv iota.
    rewrite (parseMember_memberString k t x _ Hx)
      by (destruct (zip_with memberString (map fst ps) ts);
          [exact Hstop | apply stops_head; left; reflexivity]).
    cbn [map fst] in Hnd.
    assert (Hk : k ∉ map fst acc).
    { apply NoDup_app in Hnd as (_ & Hdisj & _). intros Hin.
      apply (Hdisj _ Hin). left. }
    rewrite (setProp_fresh _ _ _ Hk).
    rewrite IH.
    + rewrite <- app_assoc. reflexivity.
    + cbn in Hfuel. lia.
    + rewrite map_app, <- app_assoc. exact Hnd.
Qed.
End Members.

(** *** The round trip *)

Lemma digit_char (c : ascii) :
  digitOf c <> None ->
  isWs c = false /\ Ascii.eqb c "]" = false /\ Ascii.eqb c "}" = false.
Proof.
  intros H. destruct c as [[] [] [] [] [] [] [] []];
    first [repeat split; exact eq_refl | exfalso; apply H; exact eq_refl].
Qed.

Lemma wrap_head (o : ascii) (closing gap stepback inner : string) (partial : list string) :
  exists r, wrap (String o EmptyString) closing gap stepback inner partial = String o r.
Proof.
  unfold wrap. destruct partial; [|destruct (String.eqb gap EmptyString)];
    eexists; reflexivity.
Qed.

Lemma serialize_some (K : option (list string)) (gap indent : string) (v : JsVal) :
  v <> JUndefined -> exists t, serialize K gap indent v = Some t.
Proof.
  destruct v as [| |[]| | | |]; intros H; try contradiction; eexists; reflexivity.
Qed.

Lemma isJson_defined (v : JsVal) : isJson v = true -> v <> JUndefined.
Proof. intros H ->. discriminate. Qed.

(** A serialised value starts with a character that is neither white space
    nor a closing bracket. *)
Lemma serialize_head (gap indent : string) (v : JsVal) (text : string) :
  serialize None gap indent v = Some text ->
  exists c r, text = String c r
              /\ isWs c = false /\ Ascii.eqb c "]" = false /\ Ascii.eqb c "}" = false.
Proof.
  destruct v as [| |[]|n|s|elems|props]; intros H; try discriminate;
    try (injection H as <-; eexists _, _; repeat split; reflexivity).
  - injection H as <-. destruct n as [|p|p].
    + eexists _, _. repeat split; reflexivity.
    + change (numberToString (Z.pos p)) with (natToString (N.pos p)).
      destruct (natToString_head (N.pos p)) as (c & r & E & Hc).
      exists c, r. split; [exact E | apply digit_char; exact Hc].
    + eexists _, _. repeat split; reflexivity.
  - rewrite serialize_JArr in H.
    match type of H with
    | Some (wrap _ ?cl ?g ?sb ?inn ?p) = _ =>
        destruct (wrap_head "[" cl g sb inn p) as [r Hr]; rewrite Hr in H
    end.
    injection H as <-. eexists _, _. repeat split; reflexivity.
  - rewrite serialize_JObj in H.
    match type of H with
    | Some (wrap _ ?cl ?g ?sb ?inn ?p) = _ =>
        destruct (wrap_head "{" cl g sb inn p) as [r Hr]; rewrite Hr in H
    end.
    injection H as <-. eexists _, _. repeat split; reflexivity.
Qed.

Lemma nodes_pos (v : JsVal) : (1 <= nodes v)%nat.
Proof. destruct v; cbn; lia. Qed.

Lemma list_sum_cons (a : nat) (l : list nat) : list_sum (a :: l) = (a + list_sum l)%nat.
Proof. reflexivity. Qed.

Lemma list_sum_In (n : nat) (l : list nat) : In n l -> (n <= list_sum l)%nat.
Proof.
  induction l as [|m l IH]; cbn [In]; [contradiction|].
  rewrite list_sum_cons. intros [-> | H]; [lia | specialize (IH H); lia].
Qed.

Lemma nodes_elem (x : JsVal) (l : list JsVal) :
  In x l -> (nodes x <= list_sum (map nodes l))%nat.
Proof.
  induction l as [|y l IH]; cbn [In map]; [contradiction|].
  rewrite list_sum_cons. intros [-> | H]; [lia | specialize (IH H); lia].
Qed.

Lemma length_le_nodes (l : list JsVal) : (List.length l <= list_sum (map nodes l))%nat.
Proof.
  induction l as [|y l IH]; cbn [length map]; [cbn; lia|].
  rewrite list_sum_cons. pose proof (nodes_pos y). lia.
Qed.

Lemma Forall2_map_diag {A B} (R : A -> B -> Prop) (f : A -> B) (l : list A) :
  Forall (fun x => R x (f x)) l -> Forall2 R l (map f l).
Proof. induction 1; cbn; constructor; assumption. Qed.

Lemma objectPartial_texts (gap inner : string) (props : list (string * JsVal)) :
  forallb (fun kx => isJson (snd kx)) props = true ->
  objectPartial None gap (memberTexts None gap inner props)
  = zip_with (memberString (if String.eqb gap EmptyString then EmptyString else " "))
             (map fst props)
             (map (fun kx => default "null" (serialize None gap inner (snd kx))) props).
Proof.
  induction props as [|[k x] props IH]; [reflexivity|].
  cbn [forallb snd]. intros H. apply andb_true_iff in H as [Hx Hps].
  cbn [objectPartial memberTexts map flat_map fst snd zip_with].
  destruct (serialize_some None gap inner x (isJson_defined _ Hx)) as [t Ht].
  rewrite Ht. cbn [memberText default app]. f_equal. apply IH. exact Hps.
Qed.

Section RoundTrip.
Variable gap : string.
Hypothesis Hgap : allWs gap = true.

Let goal (v : JsVal) : Prop :=
  isJson v = true ->
  forall indent text rest fuel,
    allWs indent = true ->
    serialize None gap indent v = Some text ->
    stops rest -> (nodes v <= fuel)%nat ->
    parseValue fuel (text ++ rest) = Some (v, rest).

Lemma roundtrip_atom (v : JsVal) (word : string) :
  (forall indent, serialize None gap indent v = Some word) ->
  (forall f rest, stops rest -> parseValue (S f) (word ++ rest) = Some (v, rest)) ->
  goal v.
Proof.
  intros Hser Hparse _ indent text rest fuel _ Ht Hrest Hfuel.
  rewrite Hser in Ht. injection Ht as <-.
  destruct fuel as [|f]; [pose proof (nodes_pos v); lia|].
  apply Hparse. exact Hrest.
Qed.

Lemma roundtrip_array (elems : list JsVal) : Forall goal elems -> goal (JArr elems).
Proof.
  intros IH Hjson indent text rest fuel Hind Hser Hrest Hfuel.
  rewrite serialize_JArr in Hser. injection Hser as <-.
  destruct fuel as [|f]; [cbn in Hfuel; lia|].
  cbn [isJson] in Hjson. cbn [nodes] in Hfuel.
  set (inner := (indent ++ gap)%string).
  assert (Hinner : allWs inner = true) by (unfold inner; rewrite allWs_app, Hind, Hgap; reflexivity).
  set (f0 := fun x => default "null" (serialize None gap inner x)).
  assert (Hall : Forall (fun x => forall rest', stops rest' ->
                    parseValue f (f0 x ++ rest') = Some (x, rest')) elems).
  { rewrite Forall_forall in IH |- *. intros x Hx rest' Hrest'.
    assert (Hjx : isJson x = true)
      by (rewrite forallb_forall in Hjson; apply Hjson, list_elem_of_In, Hx).
    destruct (serialize_some None gap inner x (isJson_defined _ Hjx)) as [t Ht].
    unfold f0. rewrite Ht. cbn [default].
    apply (IH x Hx Hjx inner); try assumption.
    apply list_elem_of_In, nodes_elem in Hx. lia. }
  destruct elems as [|x xs]; [exact eq_refl|].
  change (arrayPartial None gap inner (x :: xs)) with (f0 x :: map f0 xs).
  rewrite wrap_cons. cbn [String.append]. rewrite parseValue_array.
  apply Forall_cons in Hall as [Hx Hxs].
  assert (Hjx : isJson x = true) by (cbn in Hjson; apply andb_true_iff in Hjson; tauto).
  destruct (serialize_some None gap inner x (isJson_defined _ Hjx)) as [t Ht].
  destruct (serialize_head _ _ _ _ Ht) as (c & r & -> & Hws & Hb & _).
  assert (Ef : f0 x = String c r) by (unfold f0; rewrite Ht; reflexivity).
  rewrite Ef in *. 
  pose proof (allWs_sepBefore gap inner Hinner) as Hw1.
  pose proof (allWs_sepAfter gap indent Hind) as Hw2.
  assert (Hst : stops (sepAfter gap indent ++ String "]" rest))
    by (apply stops_sepAfter; left; reflexivity).
  cbn [String.append]. rewrite (skipWs_sep _ c _ Hw1 Hws), Hb.
  rewrite (parseValue_skip _ _ _ Hw1).
  change (String c (r ++ ?z)) with (String c r ++ z).
  rewrite Hx by (apply stops_joined; exact Hst).
  apply (parseElements_joined (parseValue f) _ _ rest Hw2 Hst xs (map f0 xs)).
  - apply Forall2_map_diag. eapply Forall_impl; [exact Hxs|].
    intros y Hy rest' Hrest'. cbn beta. rewrite (parseValue_skip _ _ _ Hw1).
    apply Hy. exact Hrest'.
  - cbn [map] in Hfuel. rewrite list_sum_cons in Hfuel.
    pose proof (length_le_nodes xs).
    pose proof (nodes_pos x). lia.
Qed.

Lemma skipWs_member (w1 sp k t rest' : string) :
  allWs w1 = true ->
  exists rq, skipWs (w1 ++ memberString sp k t ++ rest') = String "034" rq.
Proof.
  intros Hw1. unfold memberString, quote. cbn [String.append].
  rewrite (skipWs_sep w1 "034" _ Hw1 eq_refl). eexists. reflexivity.
Qed.

Lemma roundtrip_object (props : list (string * JsVal)) :
  Forall (fun kx => goal (snd kx)) props -> goal (JObj props).
Proof.
  intros IH Hjson indent text rest fuel Hind Hser Hrest Hfuel.
  cbn [isJson] in Hjson. apply andb_true_iff in Hjson as [Hdist Hjson].
  rewrite serialize_JObj, (objectPartial_texts gap _ props Hjson) in Hser.
  injection Hser as <-.
  destruct fuel as [|f]; [cbn in Hfuel; lia|].
  apply distinct_NoDup in Hdist. cbn [nodes] in Hfuel.
  set (inner := (indent ++ gap)%string).
  assert (Hinner : allWs inner = true)
    by (unfold inner; rewrite allWs_app, Hind, Hgap; reflexivity).
  set (sp := if String.eqb gap EmptyString then EmptyString else " ").
  assert (Hsp : allWs sp = true)
    by (unfold sp; destruct (String.eqb gap EmptyString); reflexivity).
  set (f0 := fun kx : string * JsVal => default "null" (serialize None gap inner (snd kx))).
  assert (Hall : Forall (fun kx => valueParsesAs (parseValue f) sp (snd kx) (f0 kx)) props).
  { rewrite Forall_forall in IH |- *. intros kx Hkx rest' Hrest'.
    assert (Hjx : isJson (snd kx) = true)
      by (rewrite forallb_forall in Hjson; apply Hjson, list_elem_of_In, Hkx).
    destruct (serialize_some None gap inner (snd kx) (isJson_defined _ Hjx)) as [t Ht].
    unfold f0. rewrite Ht. cbn [default]. rewrite (parseValue_skip _ _ _ Hsp).
    apply (IH kx Hkx Hjx inner); try assumption.
    apply list_elem_of_In, (in_map (fun kx => nodes (snd kx))), list_sum_In in Hkx.
    lia. }
  destruct props as [|[k x] ps]; [exact eq_refl|].
  cbn [map zip_with fst]. rewrite wrap_cons.
  change ("{" ++ ?z)%string with (String "{" z).
  change ("}" ++ rest)%string with (String "}" rest).
  rewrite parseValue_object.
  apply Forall_cons in Hall as [Hx Hxs]. cbn [snd] in Hx.
  pose proof (allWs_sepBefore gap inner Hinner) as Hw1.
  pose proof (allWs_sepAfter gap indent Hind) as Hw2.
  assert (Hst : stops (sepAfter gap indent ++ String "}" rest))
    by (apply stops_sepAfter; right; reflexivity).
  destruct (skipWs_member (sepBefore gap inner) sp k (f0 (k, x))
              (joined ("," ++ sepBefore gap inner)
                 (zip_with (memberString sp) (map fst ps) (map f0 ps))
                 (sepAfter gap indent ++ String "}" rest)) Hw1) as [rq Hrq].
  rewrite Hrq. change (Ascii.eqb "034" "}") with false. cbv iota.
  rewrite (parseMember_memberString (parseValue f) _ sp Hw1 k (f0 (k, x)) x _ Hx)
    by (destruct (zip_with (memberString sp) (map fst ps) (map f0 ps));
        [exact Hst | apply stops_head; left; reflexivity]).
  apply (parseMembers_joined (parseValue f) _ _ sp rest Hw1 Hw2 Hst ps (map f0 ps)).
  - apply Forall2_map_diag. exact Hxs.
  - cbn [map] in Hfuel. rewrite list_sum_cons in Hfuel.
    assert (List.length ps <= list_sum (map (fun kx => nodes (snd kx)) ps))%nat.
    { clear. induction ps as [|kx ps IH]; cbn [length map]; [cbn; lia|].
      rewrite list_sum_cons. pose proof (nodes_pos (snd kx)). lia. }
    pose proof (nodes_pos x). cbn [snd] in Hfuel. lia.
  - exact Hdist.
Qed.

(** Parsing the text of a JSON value gives the value back, whatever
    follows it. *)
Lemma parseValue_serialize (v : JsVal) : goal v.
Proof.
  induction v as [| |b|n|s|elems IH|props IH] using JsVal_ind.
  - intros H. discriminate.
  - apply (roundtrip_atom JNull "null"); [reflexivity | intros; exact eq_refl].
  - destruct b.
    + apply (roundtrip_atom (JBool true) "true"); [reflexivity | intros; exact eq_refl].
    + apply (roundtrip_atom (JBool false) "false"); [reflexivity | intros; exact eq_refl].
  - apply (roundtrip_atom (JNum n) (numberToString n)); [reflexivity|].
    intros f rest Hrest. apply parseValue_number. exact Hrest.
  - apply (roundtrip_atom (JStr s) (quote s)); [reflexivity|].
    intros f rest _. apply parseValue_string.
  - apply roundtrip_array. exact IH.
  - apply roundtrip_object. exact IH.
Qed.
End RoundTrip.

Lemma length_append (a b : string) :
  String.length (a ++ b) = (String.length a + String.length b)%nat.
Proof. induction a as [|c a IH]; cbn; [reflexivity | rewrite IH; reflexivity]. Qed.

(** *** Enough fuel *)

Lemma length_concat (sep : string) (l : list string) :
  (list_sum (map String.length l) <= String.length (String.concat sep l))%nat.
Proof.
  induction l as [|t l IH]; [cbn; lia|].
  cbn [map]. rewrite list_sum_cons. destruct l as [|t' l].
  - cbn. lia.
  - change (String.concat sep (t :: t' :: l)) with (t ++ sep ++ String.concat sep (t' :: l)).
    rewrite !length_append. lia.
Qed.

Lemma length_wrap (opening closing gap stepback inner : string) (partial : list string) :
  (String.length opening + list_sum (map String.length partial)
   <= String.length (wrap opening closing gap stepback inner partial))%nat.
Proof.
  unfold wrap. destruct partial as [|t ts].
  - rewrite length_append. cbn. lia.
  - pose proof (length_concat "," (t :: ts)).
    pose proof (length_concat ("," ++ newline ++ inner) (t :: ts)).
    destruct (String.eqb gap EmptyString); rewrite !length_append; lia.
Qed.

Lemma list_sum_le {A} (f g : A -> nat) (l : list A) :
  Forall (fun x => f x <= g x)%nat l ->
  (list_sum (map f l) <= list_sum (map g l))%nat.
Proof.
  induction 1 as [|x l Hx _ IH]; [cbn; lia|].
  cbn [map]. rewrite !list_sum_cons. lia.
Qed.

Lemma nodes_le_length (gap : string) (v : JsVal) :
  isJson v = true ->
  forall indent text,
    serialize None gap indent v = Some text -> (nodes v <= String.length text)%nat.
Proof.
  induction v as [| |b|n|s|elems IH|props IH] using JsVal_ind;
    intros Hjson indent text Hser.
  - discriminate.
  - injection Hser as <-. cbn. lia.
  - destruct b; injection Hser as <-; cbn; lia.
  - injection Hser as <-. cbn [nodes].
    destruct n as [|p|p]; try (cbn; lia).
    change (numberToString (Z.pos p)) with (natToString (N.pos p)).
    destruct (natToString_head (N.pos p)) as (c & r & -> & _). cbn. lia.
  - injection Hser as <-. cbn. lia.
  - rewrite serialize_JArr in Hser. injection Hser as <-. cbn [nodes isJson] in *.
    pose proof (length_wrap "[" "]" gap indent (indent ++ gap)
                  (arrayPartial None gap (indent ++ gap) elems)) as Hw.
    cbn [String.length] in Hw.
    assert (Hs : (list_sum (map nodes elems)
                  <= list_sum (map String.length
                                 (arrayPartial None gap (indent ++ gap) elems)))%nat).
    { unfold arrayPartial. rewrite map_map. apply list_sum_le.
      rewrite Forall_forall in IH |- *. intros x Hx.
      assert (Hjx : isJson x = true)
        by (rewrite forallb_forall in Hjson; apply Hjson, list_elem_of_In, Hx).
      destruct (serialize_some None gap (indent ++ gap) x (isJson_defined _ Hjx)) as [t Ht].
      rewrite Ht. cbn [default]. exact (IH x Hx Hjx _ _ Ht). }
    lia.
  - cbn [isJson] in Hjson. apply andb_true_iff in Hjson as [_ Hjson].
    rewrite serialize_JObj, (objectPartial_texts gap _ props Hjson) in Hser.
    injection Hser as <-. cbn [nodes].
    match goal with
    | |- (_ <= String.length (wrap _ ?cl ?g ?sb ?inn ?p))%nat =>
        pose proof (length_wrap "{" cl g sb inn p) as Hw
    end.
    cbn [String.length] in Hw.
    match type of Hw with
    | (_ + list_sum (map _ ?p) <= _)%nat =>
        assert (Hs : (list_sum (map (fun kx => nodes (snd kx)) props)
                      <= list_sum (map String.length p))%nat)
    end.
    { clear Hw. induction props as [|[k x] ps IHps]; [cbn; lia|].
      cbn [map zip_with fst snd]. rewrite !list_sum_cons.
      apply Forall_cons in IH as [IHx IHs]. cbn [forallb snd] in Hjson.
      apply andb_true_iff in Hjson as [Hjx Hjs].
      specialize (IHps IHs Hjs).
      destruct (serialize_some None gap (indent ++ gap) x (isJson_defined _ Hjx)) as [t Ht].
      rewrite Ht. cbn [default]. pose proof (IHx Hjx _ _ Ht) as Hlen. cbn [snd] in Hlen.
      unfold memberString at 1. rewrite !length_append. unfold id.
      apply Nat.add_le_mono; [lia | exact IHps]. }
    lia.
Qed.

(** [JSON.parse] applied to the serialisation of a JSON value, compact or
    indented, returns the value. *)
Lemma parse_serialize (gap : string) (v : JsVal) (text : string) :
  allWs gap = true ->
  isJson v = true ->
  serialize None gap EmptyString v = Some text ->
  parse text = Some v.
Proof.
  intros Hgap Hjson Hser. unfold parse.
  pose proof (parseValue_serialize gap Hgap v Hjson EmptyString text EmptyString
                (S (String.length text)) eq_refl Hser I) as H.
  rewrite append_nil_r in H. rewrite H; [reflexivity|].
  pose proof (nodes_le_length gap v Hjson _ _ Hser). lia.
Qed.

Lemma parse_stringify (v : JsVal) (text : string) :
  isJson v = true -> stringify v = Some text -> parse text = Some v.
Proof. apply parse_serialize. reflexivity. Qed.

Lemma parse_stringifyIndent2 (v : JsVal) (text : string) :
  isJson v = true -> stringifyIndent2 v = Some text -> parse text = Some v.
Proof. apply parse_serialize. reflexivity. Qed.

(** ** The two cache tiers *)

Lemma getFromMemory_hit (key : string) (c : State) (e : CacheEntry) :
  memoryCache c !! key = Some e ->
  clock c - timestamp e <= MEMORY_CACHE_TTL_MS ->
  getFromMemory key c = (c, data e).
Proof.
  intros He Hage. unfold getFromMemory. rewrite He.
  destruct (clock c - timestamp e >? MEMORY_CACHE_TTL_MS) eqn:H; [|reflexivity].
  apply Z.gtb_lt in H. lia.
Qed.

Lemma getFromMemory_expired (key : string) (c : State) (e : CacheEntry) :
  memoryCache c !! key = Some e ->
  MEMORY_CACHE_TTL_MS < clock c - timestamp e ->
  getFromMemory key c = (withMemory (delete key (memoryCache c)) c, JNull).
Proof.
  intros He Hage. unfold getFromMemory. rewrite He.
  destruct (clock c - timestamp e >? MEMORY_CACHE_TTL_MS) eqn:H; [reflexivity|].
  rewrite Z.gtb_ltb in H. apply Z.ltb_ge in H. lia.
Qed.


Lemma isJson_entryObject (d : JsVal) (t : Z) :
  isJson d = true -> isJson (entryObject d t) = true.
Proof. intros H. cbn. rewrite H. reflexivity. Qed.

(** What [set] leaves behind: the entry in memory, and on disk a file that
    parses to the entry. *)
Lemma set_state (key : string) (d : JsVal) (c : State) :
  let c1 := setOnDisk key d (setInMemory key d c) in
  clock c1 = clock c
  /\ cacheDir c1 = cacheDir c
  /\ memoryCache c1 !! key = Some {| data := d; timestamp := clock c |}
  /\ exists text,
       JSON.stringifyIndent2 (entryObject d (clock c)) = Some text
       /\ files c1 !! getDiskCachePath key c1 = Some text.
Proof.
  unfold setOnDisk. cbn [setInMemory withMemory clock files cacheDir].
  destruct (JSON.stringifyIndent2 (entryObject d (clock c))) as [text|] eqn:E.
  - cbn [withFiles withMemory clock cacheDir memoryCache files].
    repeat split; [apply lookup_insert_eq|].
    exists text. split; [reflexivity|]. unfold getDiskCachePath.
    cbn [cacheDir]. apply lookup_insert_eq.
  - exfalso. unfold JSON.stringifyIndent2, entryObject in E.
    rewrite serialize_JObj in E. discriminate.
Qed.

Lemma getFromMemory_answer (key : string) (c : State) :
  snd (getFromMemory key c) = memoryAnswer (clock c) (memoryCache c !! key)
  /\ clock (fst (getFromMemory key c)) = clock c
  /\ cacheDir (fst (getFromMemory key c)) = cacheDir c
  /\ files (fst (getFromMemory key c)) = files c.
Proof.
  unfold getFromMemory, memoryAnswer.
  destruct (memoryCache c !! key) as [e|]; [|repeat split].
  destruct (clock c - timestamp e >? MEMORY_CACHE_TTL_MS); repeat split.
Qed.

Lemma getFromDisk_answer (key : string) (c : State) :
  snd (getFromDisk key c) = diskAnswer (clock c) (files c !! getDiskCachePath key c).
Proof.
  unfold getFromDisk, diskAnswer, staleFile.
  destruct (files c !! getDiskCachePath key c) as [content|]; [|reflexivity].
  destruct (JSON.parse content) as [entry|]; [|reflexivity].
  destruct entry; try reflexivity;
    cbn [default];
    match goal with
    | |- context [toNumber ?x] => destruct (toNumber x) as [t|]; [|reflexivity]
    end;
    destruct (clock c - t >? DISK_CACHE_TTL_MS); reflexivity.
Qed.

Lemma get_answer (prefix key : string) (params : JsVal) (c : State) :
  generateKey prefix params = Ok key ->
  answer (get prefix params c)
  = Ok (tiersAnswer (clock c) (memoryCache c !! key) (files c !! getDiskCachePath key c)).
Proof.
  intros Hkey. unfold get, answer, tiersAnswer. rewrite Hkey. cbn [bindR].
  destruct (getFromMemory_answer key c) as (Hm & Hclock & Hdir & Hfiles).
  destruct (getFromMemory key c) as [c1 memoryData]. cbn [fst snd] in *.
  rewrite <- Hm. destruct (Js.truthy memoryData); [reflexivity|].
  pose proof (getFromDisk_answer key c1) as Hd.
  unfold getDiskCachePath in *. rewrite Hclock, Hdir, Hfiles in Hd.
  destruct (getFromDisk key c1) as [c2 diskData]. cbn [fst snd] in *.
  rewrite <- Hd. destruct (Js.truthy diskData); reflexivity.
Qed.





(** ** The record store *)

Lemma asStudy_defined (s : JsVal) (typed : Study) : asStudy s = Some typed -> s <> JUndefined.
Proof. intros H ->. discriminate. Qed.

Lemma upsertStudy_ok (s : JsVal) (typed : Study) (db : DB) :
  asStudy s = Some typed ->
  exists rawJson,
    JSON.stringify s = Some rawJson
    /\ upsertStudy s db
       = match studies db !! studyId typed with
         | None => (upsertRow (studyId typed) typed rawJson db, Ok tt)
         | Some _ =>
             if fts_accepts db (fts_updates db)
             then (indexed (upsertRow (studyId typed) typed rawJson db), Ok tt)
             else (indexed db, Throw SqliteError)
         end.
Proof.
  intros Hs.
  destruct (serialize_some None EmptyString EmptyString s (asStudy_defined _ _ Hs))
    as [rawJson Hraw].
  exists rawJson. split; [exact Hraw|].
  unfold upsertStudy. fold (JSON.stringify s) in Hraw. rewrite Hs, Hraw.
  destruct (studies db !! studyId typed); [|reflexivity].
  unfold studies_au. cbn [upsertRow withStudies fts_accepts fts_updates].
  destruct (fts_accepts db (fts_updates db)); reflexivity.
Qed.

(** An upsert that succeeds has written the row; one that throws has
    left every row as it was. *)
Lemma upsertStudy_outcome (s : JsVal) (typed : Study) (db : DB) :
  asStudy s = Some typed ->
  exists rawJson,
    JSON.stringify s = Some rawJson
    /\ ((snd (upsertStudy s db) = Ok tt
         /\ studies (fst (upsertStudy s db))
            = studies (upsertRow (studyId typed) typed rawJson db)
         /\ (studies db !! studyId typed = None
             \/ fts_accepts db (fts_updates db) = true))
        \/ (upsertStudy s db = (indexed db, Throw SqliteError)
            /\ is_Some (studies db !! studyId typed)
            /\ fts_accepts db (fts_updates db) = false))
    /\ search_sessions (fst (upsertStudy s db)) = search_sessions db
    /\ session_results (fst (upsertStudy s db)) = session_results db
    /\ now (fst (upsertStudy s db)) = now db.
Proof.
  intros Hs. destruct (upsertStudy_ok s typed db Hs) as (raw & Hraw & ->).
  exists raw. split; [exact Hraw|].
  destruct (studies db !! studyId typed) as [old|] eqn:Hold.
  - destruct (fts_accepts db (fts_updates db)) eqn:Hacc.
    + split; [left; repeat split; right; reflexivity | repeat split].
    + split; [right; repeat split; eexists; reflexivity | repeat split].
  - split; [left; repeat split; left; reflexivity | repeat split].
Qed.

Lemma getStudy_row (id : string) (row : StudyRow) (v : JsVal) (db : DB) :
  studies db !! id = Some row ->
  JSON.parse (raw_json row) = Some v ->
  getStudy id db = (db, Ok (Some v)).
Proof.
  intros Hrow Hparse. unfold getStudy, bind, read. rewrite Hrow, Hparse. reflexivity.
Qed.

Lemma upsertRow_lookup (id : string) (typed : Study) (rawJson : string) (db : DB) :
  exists row,
    studies (upsertRow id typed rawJson db) !! id = Some row /\ raw_json row = rawJson.
Proof.
  unfold upsertRow. cbn [withStudies studies].
  eexists. split; [apply lookup_insert_eq | reflexivity].
Qed.

Lemma upsertRow_other (id id' : string) (typed : Study) (rawJson : string) (db : DB) :
  id <> id' ->
  studies (upsertRow id typed rawJson db) !! id' = studies db !! id'.
Proof.
  intros Hne. unfold upsertRow. cbn [withStudies studies].
  apply lookup_insert_ne. exact Hne.
Qed.

(** C8.  The round trip holds for the first upsert of a study and is
    lost for an updated study: on a database file whose full-text index
    refuses the update that trigger [studies_au] runs, [upsertStudy] of the
    first sample study succeeds and [getStudy] returns it; [upsertStudy] of
    the same study under a longer title throws, and [getStudy] still
    returns the first payload and not the updated one. *)
Theorem updated_study_is_refused :
  exists db1 db2,
    upsertStudy sampleStudyA refusingDb = (db1, Ok tt)
    /\ getStudy "NCT00000101" db1 = (db1, Ok (Some sampleStudyA))
    /\ upsertStudy revisedStudyA db1 = (db2, Throw SqliteError)
    /\ getStudy "NCT00000101" db2 = (db2, Ok (Some sampleStudyA))
    /\ asStudy revisedStudyA <> None
    /\ isJson revisedStudyA = true
    /\ sampleStudyA <> revisedStudyA.
Proof.
  destruct (upsertStudy_ok sampleStudyA typedStudyA refusingDb eq_refl) as (raw1 & Hraw1 & Hup1).
  cbn [refusingDb studies] in Hup1. rewrite lookup_empty in Hup1.
  set (db1 := upsertRow (studyId typedStudyA) typedStudyA raw1 refusingDb) in *.
  destruct (upsertRow_lookup (studyId typedStudyA) typedStudyA raw1 refusingDb)
    as (row & Hrow & Hrj). fold db1 in Hrow.
  assert (Hget : getStudy "NCT00000101" db1 = (db1, Ok (Some sampleStudyA))).
  { apply (getStudy_row _ row); [exact Hrow|]. rewrite Hrj.
    apply parse_stringify; [reflexivity | exact Hraw1]. }
  exists db1, (indexed db1). split; [exact Hup1|]. split; [exact Hget|]. split.
  - destruct (upsertStudy_ok revisedStudyA
                (default bareStudy (asStudy revisedStudyA)) db1 eq_refl) as (raw2 & _ & ->).
    change (studyId (default bareStudy (asStudy revisedStudyA))) with (studyId typedStudyA).
    rewrite Hrow. reflexivity.
  - split; [|split; [discriminate | split; [reflexivity | discriminate]]].
    apply (getStudy_row _ row); [exact Hrow|]. rewrite Hrj.
    apply parse_stringify; [reflexivity | exact Hraw1].
Qed.

(** ** Sessions and refinement *)

Lemma touch_eq (sessionId : string) (db : DB) :
  touch sessionId db = (touched sessionId db, Ok tt).
Proof. reflexivity. Qed.

Lemma touched_session (sid sid' : string) (db : DB) :
  is_Some (search_sessions (touched sid db) !! sid') <-> is_Some (search_sessions db !! sid').
Proof.
  unfold touched. cbn [withSessions search_sessions].
  destruct (decide (sid = sid')) as [-> | Hne].
  - rewrite lookup_alter_eq. rewrite fmap_is_Some. reflexivity.
  - rewrite lookup_alter_ne by exact Hne. reflexivity.
Qed.

Lemma touched_unknown (sid : string) (db : DB) :
  search_sessions db !! sid = None -> touched sid db = db.
Proof.
  intros H. unfold touched, withSessions. destruct db as [st ss sr nw]. cbn in *.
  f_equal. apply map_eq. intros k. destruct (decide (sid = k)) as [-> | Hne].
  - rewrite lookup_alter_eq, H. reflexivity.
  - rewrite lookup_alter_ne by exact Hne. reflexivity.
Qed.

Lemma sessionRows_In (sid id : string) (db : DB) :
  In id (sessionRows sid db) <-> (sid, id) ∈ session_results db.
Proof.
  unfold sessionRows. rewrite list_elem_of_In.
  change (snd <$> ?l) with (map snd l). rewrite in_map_iff. split.
  - intros ([s i] & <- & H). apply filter_In in H as [H Heq].
    apply String.eqb_eq in Heq. cbn in Heq. subst. exact H.
  - intros H. exists (sid, id). split; [reflexivity|].
    apply filter_In. split; [exact H | apply String.eqb_refl].
Qed.

Lemma sessionRows_NoDup (sid : string) (db : DB) :
  NoDup (session_results db) -> NoDup (sessionRows sid db).
Proof.
  unfold sessionRows. generalize (session_results db) as rows.
  induction rows as [|[s i] rows IH]; intros Hnd; [constructor|].
  apply NoDup_cons in Hnd as [Hnotin Hnd]. cbn [List.filter fst].
  destruct (String.eqb_spec s sid) as [-> | Hne]; [|apply IH; exact Hnd].
  cbn [fmap list_fmap snd]. apply NoDup_cons. split; [|apply IH; exact Hnd].
  intros Hin. apply Hnotin.
  apply list_elem_of_In, in_map_iff in Hin as ([s' i'] & Heq & H). cbn in Heq. subst.
  apply filter_In in H as [H Heq]. apply String.eqb_eq in Heq. cbn in Heq. subst.
  apply list_elem_of_In. exact H.
Qed.

Lemma sessionIds_In (sid id : string) (db : DB) :
  In id (sessionIds sid db) <-> (sid, id) ∈ session_results db.
Proof. unfold sessionIds. rewrite sort_In. apply sessionRows_In. Qed.

Lemma sessionIds_NoDup (sid : string) (db : DB) :
  NoDup (session_results db) -> NoDup (sessionIds sid db).
Proof. intros H. apply sort_NoDup, sessionRows_NoDup, H. Qed.

Lemma sessionIds_ascending (sid : string) (db : DB) : ascending (sessionIds sid db).
Proof. apply sort_ascending. Qed.

(** Under the invariant every identifier of a session resolves, and
    [getSessionResults] returns the resolved records in the order of the
    identifiers. *)
Lemma resolve_wf (db : DB) (id : string) :
  wf db -> is_Some (studies db !! id) ->
  exists row v typed,
    studies db !! id = Some row /\ JSON.parse (raw_json row) = Some v
    /\ asStudy v = Some typed /\ studyId typed = id /\ resolve db id = Some typed.
Proof.
  intros Hwf [row Hrow].
  destruct (wf_studies db Hwf id row Hrow) as (v & typed & Hp & Ha & Hid).
  exists row, v, typed. repeat split; try assumption.
  unfold resolve. rewrite Hrow, Hp. exact Ha.
Qed.

Lemma select_resolved (db : DB) (ids : list string) :
  wf db ->
  Forall (fun id => is_Some (studies db !! id)) ids ->
  exists vs typed,
    mapM JSON.parse (omap (fun id => raw_json <$> studies db !! id) ids) = Some vs
    /\ mapM asStudy vs = Some typed
    /\ map studyId typed = ids
    /\ List.length vs = List.length ids
    /\ Forall (fun st => resolve db (studyId st) = Some st) typed.
Proof.
  intros Hwf Hall. induction Hall as [|id ids Hid _ IH].
  - exists [], []. repeat split; constructor.
  - destruct IH as (vs & typed & Hvs & Htyped & Hids & Hlen & Hres).
    destruct (resolve_wf db id Hwf Hid) as (row & v & st & Hrow & Hp & Ha & Hsid & Hr).
    exists (v :: vs), (st :: typed).
    cbn [omap list_omap]. rewrite Hrow. cbn [fmap option_fmap option_map].
    change (mapM ?f (?x :: ?l)) with (y ← f x; k ← mapM f l; mret (y :: k)).
    rewrite Hp, Hvs, Ha, Htyped. cbn. rewrite Hsid, Hids, Hlen.
    repeat split. constructor; [rewrite Hsid; exact Hr | exact Hres].
Qed.

Lemma getSessionResults_wf (sid : string) (db : DB) :
  wf db ->
  exists vs typed,
    getSessionResults sid db = (touched sid db, Ok vs)
    /\ mapM asStudy vs = Some typed
    /\ map studyId typed = sessionIds sid db
    /\ List.length vs = List.length (sessionIds sid db)
    /\ Forall (fun st => resolve db (studyId st) = Some st) typed.
Proof.
  intros Hwf.
  assert (Hall : Forall (fun id => is_Some (studies db !! id)) (sessionIds sid db)).
  { apply Forall_forall. intros id Hin.
    apply list_elem_of_In, sessionIds_In in Hin. apply (wf_foreign db Hwf) in Hin. tauto. }
  destruct (select_resolved db _ Hwf Hall) as (vs & typed & Hvs & Htyped & Hids & Hlen & Hres).
  exists vs, typed. repeat split; try assumption.
  unfold getSessionResults, bind, read, parseAll, selectRawJson.
  rewrite touch_eq.
  change (studies (touched sid db)) with (studies db).
  change (sessionIds sid (touched sid db)) with (sessionIds sid db).
  rewrite Hvs. reflexivity.
Qed.

(** Inserting fresh rows for an existing session and existing studies
    succeeds and appends them. *)
Lemma forEach_insertResult (sid : string) (ids : list string) :
  forall db,
    NoDup ids ->
    is_Some (search_sessions db !! sid) ->
    Forall (fun id => is_Some (studies db !! id) /\ (sid, id) ∉ session_results db) ids ->
    forEach ids (insertResult sid) db
    = (withResults (session_results db ++ map (pair sid) ids) db, Ok tt).
Proof.
  induction ids as [|id ids IH]; intros db Hnd Hs Hall.
  - cbn [forEach map]. unfold ret. rewrite app_nil_r. destruct db; reflexivity.
  - apply NoDup_cons in Hnd as [Hnotin Hnd].
    apply Forall_cons in Hall as [[Hst Hfresh] Hall].
    cbn [forEach]. unfold bind at 1. unfold insertResult at 1.
    rewrite (bool_decide_eq_false_2 _ Hfresh).
    rewrite (bool_decide_eq_true_2 _ (conj Hs Hst)).
    rewrite IH; try assumption.
    + cbn [withResults session_results studies search_sessions now map].
      rewrite <- app_assoc. reflexivity.
    + cbn [withResults studies session_results].
      rewrite Forall_forall in Hall |- *. intros x Hx.
      destruct (Hall x Hx) as [Hxs Hxf]. split; [exact Hxs|].
      intros Hin. apply elem_of_app in Hin as [Hin | Hin]; [contradiction|].
      apply list_elem_of_singleton in Hin. injection Hin as ->. contradiction.
Qed.

Lemma otherRows_In (sid : string) (db : DB) (row : string * string) :
  row ∈ otherRows sid db <-> row ∈ session_results db /\ fst row <> sid.
Proof.
  unfold otherRows. rewrite !list_elem_of_In, filter_In, negb_true_iff, String.eqb_neq.
  reflexivity.
Qed.

Lemma updateSessionResults_ok (sid : string) (ids : list string) (db : DB) :
  NoDup ids ->
  is_Some (search_sessions db !! sid) ->
  Forall (fun id => is_Some (studies db !! id)) ids ->
  updateSessionResults sid ids db = (updated sid ids db, Ok tt).
Proof.
  intros Hnd Hs Hall. unfold updateSessionResults.
  unfold bind at 1. unfold modify at 1. fold (otherRows sid db).
  unfold bind at 1.
  rewrite forEach_insertResult; [reflexivity | exact Hnd | exact Hs |].
  rewrite Forall_forall in Hall |- *. intros id Hid. split; [exact (Hall id Hid)|].
  cbn [withResults session_results]. intros Hin. apply otherRows_In in Hin as [_ Hne].
  apply Hne. reflexivity.
Qed.

Lemma sessionRows_updated (sid : string) (ids : list string) (db : DB) :
  sessionRows sid (updated sid ids db) = ids.
Proof.
  unfold sessionRows, updated, touched. cbn [withSessions withResults session_results].
  rewrite List.filter_app.
  assert (H1 : List.filter (fun row : string * string => String.eqb (fst row) sid)
                 (otherRows sid db) = []).
  { unfold otherRows. induction (session_results db) as [|[s i] rows IH]; [reflexivity|].
    cbn [List.filter fst]. destruct (String.eqb s sid) eqn:E; cbn [negb]; [exact IH|].
    cbn [List.filter fst]. rewrite E. exact IH. }
  rewrite H1. cbn [app].
  induction ids as [|id ids IH]; [reflexivity|].
  cbn [map List.filter fst]. rewrite String.eqb_refl. cbn. f_equal. exact IH.
Qed.

Lemma sessionRows_updated_other (sid sid' : string) (ids : list string) (db : DB) :
  sid' <> sid -> sessionRows sid' (updated sid ids db) = sessionRows sid' db.
Proof.
  intros Hne. unfold sessionRows, updated, touched.
  cbn [withSessions withResults session_results]. rewrite List.filter_app.
  assert (H2 : List.filter (fun row : string * string => String.eqb (fst row) sid')
                 (map (pair sid) ids) = []).
  { induction ids as [|id ids IH]; [reflexivity|]. cbn [map List.filter fst].
    destruct (String.eqb_spec sid sid'); [congruence | exact IH]. }
  rewrite H2, app_nil_r. f_equal.
  unfold otherRows. induction (session_results db) as [|[s i] rows IH]; [reflexivity|].
  cbn [List.filter fst]. destruct (String.eqb_spec s sid) as [-> | Hs]; cbn [negb].
  - destruct (String.eqb_spec sid sid'); [congruence | exact IH].
  - cbn [List.filter fst]. destruct (String.eqb s sid'); [f_equal|]; exact IH.
Qed.

Lemma sessionIds_updated (sid : string) (ids : list string) (db : DB) :
  sessionIds sid (updated sid ids db) = sort ids.
Proof. unfold sessionIds. rewrite sessionRows_updated. reflexivity. Qed.

Lemma sessionIds_updated_other (sid sid' : string) (ids : list string) (db : DB) :
  sid' <> sid -> sessionIds sid' (updated sid ids db) = sessionIds sid' db.
Proof.
  intros Hne. unfold sessionIds. rewrite sessionRows_updated_other by exact Hne.
  reflexivity.
Qed.

(** A part of a session's identifiers, written back, is read back as it
    is. *)
Lemma sort_kept (p : string -> bool) (sid : string) (db : DB) :
  sort (List.filter p (sessionIds sid db)) = List.filter p (sessionIds sid db).
Proof. apply sort_ascending_fixed, filter_ascending, sessionIds_ascending. Qed.

Lemma NoDup_List_filter {A} (p : A -> bool) (l : list A) :
  NoDup l -> NoDup (List.filter p l).
Proof.
  induction 1 as [|x l Hx _ IH]; cbn [List.filter]; [constructor|].
  destruct (p x); [|exact IH]. constructor; [|exact IH].
  intros Hin. apply Hx. apply list_elem_of_In, filter_In in Hin as [Hin _].
  apply list_elem_of_In. exact Hin.
Qed.

Lemma wf_touched (sid : string) (db : DB) : wf db -> wf (touched sid db).
Proof.
  intros [H1 H2 H3]. split; [exact H1 | exact H2 |].
  intros s i Hin. destruct (H3 s i Hin) as [Hs Hi]. split; [|exact Hi].
  apply touched_session. exact Hs.
Qed.

Lemma wf_updated (sid : string) (ids : list string) (db : DB) :
  wf db ->
  NoDup ids ->
  is_Some (search_sessions db !! sid) ->
  Forall (fun id => is_Some (studies db !! id)) ids ->
  wf (updated sid ids db).
Proof.
  intros [H1 H2 H3] Hnd Hs Hall. apply wf_touched. split.
  - exact H1.
  - cbn [withResults session_results]. apply NoDup_app. split; [|split].
    + unfold otherRows. apply NoDup_List_filter. exact H2.
    + intros row Hin Hin'. apply otherRows_In in Hin as [_ Hne].
      apply list_elem_of_In, in_map_iff in Hin' as (id & <- & _). apply Hne. reflexivity.
    + apply NoDup_fmap_2; [|exact Hnd]. intros a b [=]. assumption.
  - cbn [withResults session_results search_sessions studies]. intros s i Hin.
    apply elem_of_app in Hin as [Hin | Hin].
    + apply otherRows_In in Hin as [Hin _]. exact (H3 s i Hin).
    + apply list_elem_of_In, in_map_iff in Hin as (id & [= <- <-] & Hid).
      split; [exact Hs|]. rewrite Forall_forall in Hall. apply Hall, list_elem_of_In, Hid.
Qed.

(** The identifiers of the matching records are the matching identifiers. *)
Lemma filter_resolved (db : DB) (filters : FilterParams) (typed : list Study) :
  Forall (fun st => resolve db (studyId st) = Some st) typed ->
  map studyId (filterStudies typed filters)
  = List.filter (recordMatches db filters) (map studyId typed).
Proof.
  unfold filterStudies. induction 1 as [|st typed Hst _ IH]; [reflexivity|].
  assert (Hrm : recordMatches db filters (studyId st) = matches filters st)
    by (unfold recordMatches; rewrite Hst; reflexivity).
  cbn [List.filter map]. rewrite Hrm.
  destruct (matches filters st); cbn [map]; rewrite IH; reflexivity.
Qed.

(** What the handler does on a well-formed database: with [typed] the
    records the session resolves to, either the not-found text and nothing
    written, or the session replaced by the matching identifiers. *)
Lemma refine_results_spec (sid : string) (filters : FilterParams) (db : DB) :
  wf db ->
  exists typed,
    map studyId typed = sessionIds sid db
    /\ Forall (fun st => resolve db (studyId st) = Some st) typed
    /\ refine_results sid filters db
       = match typed with
         | [] => (touched sid db, Content (notFoundText sid))
         | _ =>
             (updated sid (studyId <$> filterStudies typed filters) (touched sid db),
              Content (filteredText (filterStudies typed filters) typed))
         end.
Proof.
  intros Hwf.
  destruct (getSessionResults_wf sid db Hwf) as (vs & typed & Hget & Htyped & Hids & Hlen & Hres).
  exists typed. split; [exact Hids|]. split; [exact Hres|].
  unfold refine_results, refineBody. unfold bind at 1. rewrite Hget.
  destruct vs as [|v vs].
  - destruct typed as [|st typed]; [reflexivity|].
    apply (f_equal (@List.length _)) in Hids. rewrite length_map in Hids.
    cbn in Hlen, Hids. lia.
  - rewrite Htyped. destruct typed as [|st typed].
    { apply (f_equal (@List.length _)) in Hids. rewrite length_map in Hids.
      cbn in Hlen, Hids. lia. }
    set (kept := filterStudies (st :: typed) filters).
    assert (Hkept : studyId <$> kept
                    = List.filter (recordMatches db filters) (sessionIds sid db)).
    { rewrite <- Hids. apply filter_resolved. exact Hres. }
    unfold bind at 1.
    rewrite (updateSessionResults_ok sid (studyId <$> kept) (touched sid db)).
    + reflexivity.
    + rewrite Hkept. apply NoDup_List_filter, sessionIds_NoDup, (wf_key db Hwf).
    + apply touched_session.
      assert (Hin : (sid, studyId st) ∈ session_results db).
      { apply sessionIds_In. rewrite <- Hids. left. reflexivity. }
      apply (wf_foreign db Hwf) in Hin. tauto.
    + rewrite Hkept. apply Forall_forall. intros id Hin.
      apply list_elem_of_In, filter_In in Hin as [Hin _].
      apply sessionIds_In, (wf_foreign db Hwf) in Hin. tauto.
Qed.

(** One refinement: the session afterwards, the records, and the
    invariant. *)
Lemma refine_step (sid : string) (filters : FilterParams) (db : DB) :
  wf db ->
  let db' := fst (refine_results sid filters db) in
  sessionIds sid db' = List.filter (recordMatches db filters) (sessionIds sid db)
  /\ studies db' = studies db
  /\ wf db'.
Proof.
  intros Hwf db'.
  destruct (refine_results_spec sid filters db Hwf) as (typed & Hids & Hres & Heq).
  subst db'. rewrite Heq. destruct typed as [|st typed].
  - cbn [fst]. change (sessionIds sid (touched sid db)) with (sessionIds sid db).
    rewrite <- Hids. split; [reflexivity|]. split; [reflexivity|].
    apply wf_touched. exact Hwf.
  - cbn [fst].
    assert (Hkept : studyId <$> filterStudies (st :: typed) filters
                    = List.filter (recordMatches db filters) (sessionIds sid db)).
    { rewrite <- Hids. apply filter_resolved. exact Hres. }
    rewrite sessionIds_updated. split; [rewrite Hkept; apply sort_kept|].
    split; [reflexivity|].
    apply wf_updated.
    + apply wf_touched. exact Hwf.
    + rewrite Hkept. apply NoDup_List_filter, sessionIds_NoDup, (wf_key db Hwf).
    + apply touched_session.
      assert (Hin : (sid, studyId st) ∈ session_results db).
      { apply sessionIds_In. rewrite <- Hids. left. reflexivity. }
      apply (wf_foreign db Hwf) in Hin. tauto.
    + rewrite Hkept. apply Forall_forall. intros id Hin.
      apply list_elem_of_In, filter_In in Hin as [Hin _].
      apply sessionIds_In, (wf_foreign db Hwf) in Hin. tauto.
Qed.

(** C2.  On a well-formed database, a refine call leaves in the session
    exactly those of its identifiers whose records satisfy the criteria, in
    their order; it reads and writes the database only, and changes no
    record.  After any sequence of refinements the identifiers of the
    session are a subsequence of the ones before, so no more in number, and
    the database is still well formed. *)
Theorem refinement_narrows (sid : string) (db : DB) (criteria : list FilterParams) :
  wf db ->
  (forall filters,
     let db' := fst (refine_results sid filters db) in
     sessionIds sid db' = List.filter (recordMatches db filters) (sessionIds sid db)
     /\ studies db' = studies db)
  /\ sublist (sessionIds sid (refineAll sid criteria db)) (sessionIds sid db)
  /\ (List.length (sessionIds sid (refineAll sid criteria db))
      <= List.length (sessionIds sid db))%nat
  /\ wf (refineAll sid criteria db).
Proof.
  intros Hwf. split.
  - intros filters db'. destruct (refine_step sid filters db Hwf) as (H1 & H2 & _).
    split; assumption.
  - assert (H : sublist (sessionIds sid (refineAll sid criteria db)) (sessionIds sid db)
                /\ wf (refineAll sid criteria db)).
    { revert db Hwf. induction criteria as [|filters criteria IH]; intros db Hwf.
      - split; [reflexivity | exact Hwf].
      - cbn [refineAll fold_left].
        destruct (refine_step sid filters db Hwf) as (H1 & _ & H3).
        destruct (IH _ H3) as [Hs Hw]. split; [|exact Hw].
        etransitivity; [exact Hs|]. rewrite H1. apply filter_sublist. }
    destruct H as [Hs Hw]. split; [exact Hs|]. split; [|exact Hw].
    apply sublist_length. exact Hs.
Qed.

Lemma filteredText_nil (studies : list Study) :
  filteredText [] studies = emptyResultText (List.length studies).
Proof. reflexivity. Qed.

Lemma emptyResultText_not_notFound (n : nat) (sid : string) :
  emptyResultText n <> notFoundText sid.
Proof. unfold emptyResultText, notFoundText. cbn [String.append]. discriminate. Qed.

Lemma sessionIds_unknown (sid : string) (db : DB) :
  wf db -> search_sessions db !! sid = None -> sessionIds sid db = [].
Proof.
  intros Hwf Hnone. destruct (sessionIds sid db) as [|id ids] eqn:E; [reflexivity|].
  assert (Hin : (sid, id) ∈ session_results db)
    by (apply sessionIds_In; rewrite E; left; reflexivity).
  apply (wf_foreign db Hwf) in Hin as [[row Hrow] _]. congruence.
Qed.

(** C9, as the code has it.  On a well-formed database: a refine on a
    token that names no session answers with the not-found text, no
    records, and leaves the database as it was.  A refine on a session that
    holds at least one record and whose criteria match none of them answers
    with the text of an empty result, count 0 out of the number held; the
    session is empty afterwards; the answer is not an error result and its
    text differs from the not-found text.  A refine on a session that holds
    no record is answered with the not-found text. *)
Theorem refine_outcomes (sid : string) (filters : FilterParams) (db : DB) :
  wf db ->
  (search_sessions db !! sid = None ->
     refine_results sid filters db = (db, Content (notFoundText sid)))
  /\ (sessionIds sid db <> [] ->
      List.filter (recordMatches db filters) (sessionIds sid db) = [] ->
      exists db',
        refine_results sid filters db
        = (db', Content (emptyResultText (List.length (sessionIds sid db))))
        /\ sessionIds sid db' = []
        /\ emptyResultText (List.length (sessionIds sid db)) <> notFoundText sid)
  /\ (sessionIds sid db = [] ->
      refine_results sid filters db = (touched sid db, Content (notFoundText sid))).
Proof.
  intros Hwf.
  destruct (refine_results_spec sid filters db Hwf) as (typed & Hids & Hres & Heq).
  assert (Hempty : sessionIds sid db = [] ->
            refine_results sid filters db = (touched sid db, Content (notFoundText sid))).
  { intros Hnil. rewrite Hnil in Hids. destruct typed; [exact Heq | discriminate]. }
  split; [|split; [|exact Hempty]].
  - intros Hnone. rewrite <- (touched_unknown sid db Hnone) at 2.
    apply Hempty, sessionIds_unknown; assumption.
  - intros Hne Hnone. destruct typed as [|st typed]; [cbn in Hids; congruence|].
    assert (Hkept : studyId <$> filterStudies (st :: typed) filters = []).
    { rewrite <- Hnone, <- Hids. apply filter_resolved. exact Hres. }
    assert (Hnil : filterStudies (st :: typed) filters = [])
      by (destruct (filterStudies (st :: typed) filters); [reflexivity | discriminate]).
    rewrite Hnil in Heq. eexists. split; [|split].
    + rewrite Heq, filteredText_nil, <- Hids, length_map. reflexivity.
    + apply sessionIds_updated.
    + apply emptyResultText_not_notFound.
Qed.

(** *** The invariant is established by the methods *)

Lemma wf_emptyDb : wf emptyDb.
Proof.
  split.
  - intros id row H. cbn in H. rewrite lookup_empty in H. discriminate.
  - constructor.
  - intros sid id H. cbn in H. apply elem_of_nil in H. contradiction.
Qed.

Lemma wf_upsertStudy (s : JsVal) (typed : Study) (db : DB) :
  wf db -> asStudy s = Some typed -> isJson s = true ->
  wf (fst (upsertStudy s db)).
Proof.
  intros [H1 H2 H3] Hs Hjson.
  destruct (upsertStudy_outcome s typed db Hs) as (raw & Hraw & Hcases & Hsess & Hres & _).
  assert (Hst : studies (fst (upsertStudy s db)) = studies db
                \/ studies (fst (upsertStudy s db))
                   = <[studyId typed := project typed raw
                                          match studies db !! studyId typed with
                                          | Some old => fetched_at old
                                          | None => now db
                                          end (now db)]> (studies db)).
  { destruct Hcases as [(_ & Hst & _) | (-> & _)]; [right; exact Hst | left; reflexivity]. }
  split.
  - intros id row. destruct Hst as [-> | ->]; [apply H1|].
    destruct (decide (studyId typed = id)) as [<- | Hne].
    + rewrite lookup_insert_eq. intros [= <-]. exists s, typed.
      repeat split; [|exact Hs]. cbn [project raw_json].
      apply parse_stringify; assumption.
    + rewrite lookup_insert_ne by exact Hne. apply H1.
  - rewrite Hres. exact H2.
  - intros sid id. rewrite Hres, Hsess. intros Hin.
    destruct (H3 sid id Hin) as [Hs' Hi]. split; [exact Hs'|].
    destruct Hst as [-> | ->]; [exact Hi|].
    destruct (decide (studyId typed = id)) as [<- | Hne].
    + rewrite lookup_insert_eq. eexists. reflexivity.
    + rewrite lookup_insert_ne by exact Hne. exact Hi.
Qed.

Lemma wf_createSession (sid : string) (params : JsVal) (ids : list string) (db : DB) :
  wf db ->
  params <> JUndefined ->
  search_sessions db !! sid = None ->
  NoDup ids ->
  Forall (fun id => is_Some (studies db !! id)) ids ->
  let db' := fst (createSession sid params ids db) in
  snd (createSession sid params ids db) = Ok tt
  /\ wf db' /\ sessionIds sid db' = sort ids /\ is_Some (search_sessions db' !! sid).
Proof.
  intros Hwf Hp Hnone Hnd Hall db'. subst db'.
  destruct (serialize_some None EmptyString EmptyString params Hp) as [text Ht].
  fold (JSON.stringify params) in Ht.
  set (db1 := withSessions
                (<[sid := {| search_params := text;
                             created_at := now db; last_accessed_at := now db |}]>
                   (search_sessions db)) db).
  assert (Hs1 : is_Some (search_sessions db1 !! sid))
    by (unfold db1; cbn [withSessions search_sessions]; rewrite lookup_insert_eq;
        eexists; reflexivity).
  assert (Hfresh : forall id, (sid, id) ∉ session_results db).
  { intros id Hin. apply (wf_foreign db Hwf) in Hin as [[row Hrow] _]. congruence. }
  assert (Hcs : createSession sid params ids db
                = (withResults (session_results db1 ++ map (pair sid) ids) db1, Ok tt)).
  { unfold createSession. rewrite Ht.
    unfold bind at 1, read. rewrite Hnone.
    unfold bind at 1. unfold modify at 1.
    apply forEach_insertResult; [exact Hnd | exact Hs1 |].
    rewrite Forall_forall in Hall |- *. intros id Hid. split; [exact (Hall id Hid)|].
    apply Hfresh. }
  rewrite Hcs.
  cbn [fst snd]. split; [reflexivity|]. destruct Hwf as [H1 H2 H3].
  split; [|split; [|exact Hs1]].
  - split.
    + exact H1.
    + cbn [withResults session_results db1 withSessions]. apply NoDup_app.
      split; [exact H2|]. split.
      * intros row Hin Hin'. apply list_elem_of_In, in_map_iff in Hin' as (id & <- & _).
        exact (Hfresh id Hin).
      * apply NoDup_fmap_2; [|exact Hnd]. intros a b [=]. assumption.
    + cbn [withResults session_results search_sessions studies db1 withSessions].
      intros s i Hin. apply elem_of_app in Hin as [Hin | Hin].
      * destruct (H3 s i Hin) as [Hs Hi]. split; [|exact Hi].
        destruct (decide (sid = s)) as [<- | Hne];
          [rewrite lookup_insert_eq; eexists; reflexivity
          | rewrite lookup_insert_ne by exact Hne; exact Hs].
      * apply list_elem_of_In, in_map_iff in Hin as (id & [= <- <-] & Hid).
        split; [rewrite lookup_insert_eq; eexists; reflexivity|].
        rewrite Forall_forall in Hall. apply Hall, list_elem_of_In, Hid.
  - unfold sessionIds. f_equal.
    unfold sessionRows. cbn [withResults session_results db1 withSessions].
    rewrite List.filter_app.
    assert (E : List.filter (fun row : string * string => String.eqb (fst row) sid)
                  (session_results db) = []).
    { destruct (List.filter _ (session_results db)) as [|[s i] l] eqn:E; [reflexivity|].
      assert (Hin : In (s, i) (List.filter (fun row : string * string => String.eqb (fst row) sid)
                                 (session_results db))) by (rewrite E; left; reflexivity).
      apply filter_In in Hin as [Hin Heq]. apply String.eqb_eq in Heq. cbn in Heq. subst.
      exfalso. apply (Hfresh i), list_elem_of_In, Hin. }
    rewrite E. cbn [app]. clear. induction ids as [|id ids IH]; [reflexivity|].
    cbn [map List.filter fst]. rewrite String.eqb_refl. cbn. f_equal. exact IH.
Qed.

(** *** Sample data *)

Lemma wf_sampleDb : wf sampleDb.
Proof.
  unfold sampleDb.
  apply wf_createSession.
  - apply (wf_upsertStudy sampleStudyB typedStudyB); [|reflexivity|reflexivity].
    apply (wf_upsertStudy sampleStudyA typedStudyA); [|reflexivity|reflexivity].
    apply wf_emptyDb.
  - discriminate.
  - vm_compute. reflexivity.
  - apply NoDup_ListNoDup. repeat constructor; simpl; intuition discriminate.
  - repeat constructor; eexists; vm_compute; reflexivity.
Qed.

Lemma refinement_narrows_witness :
  sublist (sessionIds "tok1" (refineAll "tok1" [withResultsOnly; fdaRegulatedOnly] sampleDb))
          (sessionIds "tok1" sampleDb).
Proof.
  apply (refinement_narrows "tok1" sampleDb [withResultsOnly; fdaRegulatedOnly] wf_sampleDb).
Defined.

Lemma refine_outcomes_witness :
  refine_results "nope" withResultsOnly sampleDb
  = (sampleDb, Content (notFoundText "nope")).
Proof.
  apply (refine_outcomes "nope" withResultsOnly sampleDb wf_sampleDb).
  vm_compute. reflexivity.
Defined.

(** C9 as stated fails for a session that exists and holds no record: no
    criteria match any record, and the answer is the not-found text, the one
    an unknown token gets. *)
Lemma refine_empty_session_not_found :
  is_Some (search_sessions emptySessionDb !! "tok0")
  /\ snd (refine_results "tok0" withResultsOnly emptySessionDb)
     = Content (notFoundText "tok0")
  /\ snd (refine_results "tok0" withResultsOnly emptyDb)
     = Content (notFoundText "tok0").
Proof.
  split; [eexists; vm_compute; reflexivity|].
  split; vm_compute; reflexivity.
Qed.

Example refine_sample_session :
  let '(db1, r1) := refine_results "tok1" withResultsOnly sampleDb in
  sessionIds "tok1" db1 = ["NCT00000101"]
  /\ sessionIds "tok1" (fst (refine_results "tok1" fdaRegulatedOnly db1)) = [].
Proof. vm_compute. split; reflexivity. Qed.

(** * Further properties of the code *)

(** ** The filter engine: the other criteria *)

Ltac unfold_clauses :=
  unfold phaseOk, locationCountryOk, locationStateOk, locationCityOk,
    enrollmentMinOk, enrollmentMaxOk,
    startDateAfterOk, startDateBeforeOk, completionDateAfterOk, completionDateBeforeOk,
    interventionTypeOk, hasResultsOk, studyTypeOk, sexOk, healthyVolunteersOk,
    sponsorClassOk, allocationOk, interventionModelOk, primaryPurposeOk,
    minAgeOk, maxAgeOk, ageGroupsOk, maskingOk, fdaRegulatedOk, keywordOk,
    upperEq, normalizedEq, notBefore, notAfter.

Lemma matches_blank (f : FilterParams) (study : Study) : blank f -> matches f study = true.
Proof.
  intros [H1 H2 H3 H4 H5 H6 H7 H8 H9 H10 H11 H12 H13 H14 H15 H16 H17 H18 H19 H20 H21
            H22 H23 H24 H25].
  unfold unset in *.
  apply matches_true_iff.
  repeat (apply List.Forall_cons; [|]); try apply List.Forall_nil; unfold_clauses;
    first [ rewrite H1 | rewrite H2 | rewrite H3 | rewrite H4 | rewrite H5 | rewrite H6
          | rewrite H7 | rewrite H8 | rewrite H9 | rewrite H10 | rewrite H11 | rewrite H12
          | rewrite H13 | rewrite H14 | rewrite H15 | rewrite H16 | rewrite H17
          | rewrite H18 | rewrite H19 | rewrite H20 | rewrite H21 | rewrite H23
          | rewrite H24 | rewrite H25 | idtac ];
    try reflexivity.
  destruct H22 as [-> | ->]; reflexivity.
Qed.

Lemma filter_all {A} (p : A -> bool) (l : list A) :
  (forall x, p x = true) -> List.filter p l = l.
Proof.
  intros Hp. induction l as [|x l IH]; [reflexivity|].
  cbn. rewrite Hp, IH. reflexivity.
Qed.

(** X1.  Criteria with no member in force (every string criterion absent
    or empty, no number, no boolean, no or an empty list of age groups)
    keep every record: the filter returns its input. *)
Theorem filterStudies_blank_criteria (S : list Study) (f : FilterParams) :
  blank f ->
  filterStudies S f = S /\ forall study, matches f study = true.
Proof.
  intros Hb. split.
  - apply filter_all. intros s. apply matches_blank, Hb.
  - intros s. apply matches_blank, Hb.
Qed.

Lemma blank_emptyStrings : blank emptyStrings.
Proof. split; try reflexivity. right; reflexivity. Qed.

Lemma filterStudies_blank_criteria_witness :
  filterStudies [bareStudy; noUpperAge] emptyStrings = [bareStudy; noUpperAge].
Proof.
  exact (proj1 (filterStudies_blank_criteria [bareStudy; noUpperAge] emptyStrings
                  blank_emptyStrings)).
Defined.

(** *** Criteria that look into a list of the record *)

Lemma truthy_set (q : string) : q <> EmptyString -> JsString.truthy (Some q) = Some q.
Proof. intros Hq. destruct q; [contradiction|reflexivity]. Qed.

(** X3.  A criterion that looks into a list of the record (phase, the
    three location criteria, intervention type, keyword, age groups)
    excludes every record whose list is absent or empty. *)
Theorem list_filters_fail_closed (filters : FilterParams) (study : Study) (q : string) :
  q <> EmptyString ->
  (f_phase filters = Some q -> phasesOf study = [] -> matches filters study = false)
  /\ (f_locationCountry filters = Some q \/ f_locationState filters = Some q
      \/ f_locationCity filters = Some q ->
      locationsOf study = [] -> matches filters study = false)
  /\ (f_interventionType filters = Some q -> interventionsOf study = [] ->
      matches filters study = false)
  /\ (f_keyword filters = Some q -> keywordsOf study = [] -> matches filters study = false)
  /\ (forall ag ags, f_ageGroups filters = Some (ag :: ags) -> ageGroupsOf study = [] ->
      matches filters study = false).
Proof.
  intros Hq. pose proof (truthy_set q Hq) as Ht.
  split; [|split; [|split; [|split]]].
  - intros Hf He. apply (matches_false_of filters study (phaseOk filters study));
      [|clause_of_matches].
    unfold phaseOk. rewrite Hf, Ht. unfold phasesOf in He. rewrite He. reflexivity.
  - intros [Hf | [Hf | Hf]] He; unfold locationsOf in He.
    + apply (matches_false_of filters study (locationCountryOk filters study));
        [|clause_of_matches].
      unfold locationCountryOk, someLocation. rewrite Hf, Ht, He. reflexivity.
    + apply (matches_false_of filters study (locationStateOk filters study));
        [|clause_of_matches].
      unfold locationStateOk, someLocation. rewrite Hf, Ht, He. reflexivity.
    + apply (matches_false_of filters study (locationCityOk filters study));
        [|clause_of_matches].
      unfold locationCityOk, someLocation. rewrite Hf, Ht, He. reflexivity.
  - intros Hf He. apply (matches_false_of filters study (interventionTypeOk filters study));
      [|clause_of_matches].
    unfold interventionTypeOk. rewrite Hf, Ht. unfold interventionsOf in He. rewrite He.
    reflexivity.
  - intros Hf He. apply (matches_false_of filters study (keywordOk filters study));
      [|clause_of_matches].
    unfold keywordOk. rewrite Hf, Ht. unfold keywordsOf in He. rewrite He. reflexivity.
  - intros ag ags Hf He. apply (matches_false_of filters study (ageGroupsOk filters study));
      [|clause_of_matches].
    unfold ageGroupsOk. rewrite Hf. unfold ageGroupsOf in He. rewrite He.
    clear. induction (ag :: ags) as [|x l IH]; [reflexivity|]. cbn. exact IH.
Qed.

Lemma list_filters_fail_closed_witness :
  matches (Build_FilterParams (Some "Phase 2") None None None None None None None None None
             None None None None None None None None None None None None None None None)
          bareStudy = false.
Proof.
  refine (proj1 (list_filters_fail_closed _ bareStudy "Phase 2" _) _ _);
    [discriminate | reflexivity | reflexivity].
Defined.

Lemma prefix_spec (a s : string) :
  String.prefix a s = true <-> exists after, s = a ++ after.
Proof.
  revert s. induction a as [|c a IH]; intros s.
  - split; [intros _; exists s; reflexivity | intros _; destruct s; reflexivity].
  - destruct s as [|d s]; cbn.
    + split; [discriminate | intros [after H]; discriminate].
    + destruct (Ascii.ascii_dec c d) as [->|Hne].
      * rewrite IH. split; intros [after H]; exists after.
        -- rewrite H. reflexivity.
        -- injection H as H. exact H.
      * split; [discriminate | intros [after H]; cbn in H; congruence].
Qed.

Lemma includes_spec (s sub : string) :
  JsString.includes s sub = true <-> exists before after, s = before ++ sub ++ after.
Proof.
  induction s as [|c s IH].
  - cbn [JsString.includes]. rewrite orb_false_r, prefix_spec. split.
    + intros [after H]. exists EmptyString, after. exact H.
    + intros [before [after H]]. destruct before; [exists after; exact H|discriminate].
  - cbn [JsString.includes]. rewrite orb_true_iff, prefix_spec, IH. split.
    + intros [[after H] | [before [after H]]].
      * exists EmptyString, after. exact H.
      * exists (String c before), after. cbn. rewrite H. reflexivity.
    + intros [before [after H]]. destruct before as [|d before].
      * left. exists after. exact H.
      * right. cbn in H. injection H as _ H. exists before, after. exact H.
Qed.

Lemma someLocation_spec (study : Study) (field : Location -> option string) (q : string) :
  someLocation study field q = true
  <-> exists loc v, In loc (locationsOf study) /\ field loc = Some v
                    /\ containsIgnoringCase v q.
Proof.
  unfold someLocation, locationsOf, containsIgnoringCase. rewrite existsb_exists. split.
  - intros [loc [Hin H]]. destruct (field loc) as [v|] eqn:E; [|discriminate].
    exists loc, v. repeat split; try assumption. apply includes_spec, H.
  - intros [loc [v [Hin [E H]]]]. exists loc. split; [exact Hin|].
    rewrite E. apply includes_spec, H.
Qed.

(** X4.  The three location criteria and the keyword criterion are
    case-insensitive substring tests: a record passes exactly when one of
    its locations has a country (state, city) that contains the criterion,
    resp. when one of its keywords contains it; a matching record passes
    all four. *)
Theorem substring_filters (filters : FilterParams) (study : Study) (q : string) :
  q <> EmptyString ->
  (f_locationCountry filters = Some q ->
     (locationCountryOk filters study = true <->
      exists loc v, In loc (locationsOf study) /\ country loc = Some v
                    /\ containsIgnoringCase v q))
  /\ (f_locationState filters = Some q ->
     (locationStateOk filters study = true <->
      exists loc v, In loc (locationsOf study) /\ state loc = Some v
                    /\ containsIgnoringCase v q))
  /\ (f_locationCity filters = Some q ->
     (locationCityOk filters study = true <->
      exists loc v, In loc (locationsOf study) /\ city loc = Some v
                    /\ containsIgnoringCase v q))
  /\ (f_keyword filters = Some q ->
     (keywordOk filters study = true <->
      exists kw, In kw (keywordsOf study) /\ containsIgnoringCase kw q))
  /\ (matches filters study = true ->
      locationCountryOk filters study = true /\ locationStateOk filters study = true
      /\ locationCityOk filters study = true /\ keywordOk filters study = true).
Proof.
  intros Hq. pose proof (truthy_set q Hq) as Ht.
  split; [|split; [|split; [|split]]].
  - intros Hf. unfold locationCountryOk. rewrite Hf, Ht. apply someLocation_spec.
  - intros Hf. unfold locationStateOk. rewrite Hf, Ht. apply someLocation_spec.
  - intros Hf. unfold locationCityOk. rewrite Hf, Ht. apply someLocation_spec.
  - intros Hf. unfold keywordOk, keywordsOf, containsIgnoringCase. rewrite Hf, Ht.
    rewrite existsb_exists. split.
    + intros [kw [Hin H]]. exists kw. split; [exact Hin|]. apply includes_spec, H.
    + intros [kw [Hin H]]. exists kw. split; [exact Hin|]. apply includes_spec, H.
  - intros Hm. repeat split; revert Hm; clause_of_matches.
Qed.

Lemma substring_filters_witness :
  locationCountryOk (inCountry "united") bostonStudy = true
  <-> exists loc v, In loc (locationsOf bostonStudy) /\ country loc = Some v
                    /\ containsIgnoringCase v "united".
Proof.
  refine (proj1 (substring_filters (inCountry "united") bostonStudy "united" _) _);
    [discriminate | reflexivity].
Defined.

(** X5.  The phase, intervention-type and age-group criteria are
    case-insensitive membership tests.  A record passes the phase criterion
    exactly when one of its phases equals it up to case, where the
    criterion phase 1 also accepts the phase early phase 1; it passes the
    intervention-type criterion exactly when one of its interventions has
    that type up to case; it passes a non-empty list of age groups exactly
    when it has one of them up to case. *)
Theorem membership_filters (filters : FilterParams) (study : Study) (q : string) :
  q <> EmptyString ->
  (f_phase filters = Some q ->
     (phaseOk filters study = true <->
      exists p, In p (phasesOf study)
                /\ (JsString.toLowerCase p = JsString.toLowerCase q
                    \/ (JsString.toLowerCase q = "phase 1"
                        /\ JsString.toLowerCase p = "early phase 1"))))
  /\ (f_interventionType filters = Some q ->
     (interventionTypeOk filters study = true <->
      exists int t, In int (interventionsOf study) /\ interventionKind int = Some t
                    /\ JsString.toLowerCase t = JsString.toLowerCase q))
  /\ (forall ag ags, f_ageGroups filters = Some (ag :: ags) ->
     (ageGroupsOk filters study = true <->
      exists wanted had, In wanted (ag :: ags) /\ In had (ageGroupsOf study)
                         /\ JsString.toUpperCase had = JsString.toUpperCase wanted))
  /\ (matches filters study = true ->
      phaseOk filters study = true /\ interventionTypeOk filters study = true
      /\ ageGroupsOk filters study = true).
Proof.
  intros Hq. pose proof (truthy_set q Hq) as Ht.
  split; [|split; [|split]].
  - intros Hf. unfold phaseOk, phasesOf. rewrite Hf, Ht. cbv zeta.
    rewrite existsb_exists. split.
    + intros [p [Hin H]]. exists p. split; [exact Hin|].
      destruct (String.eqb_spec (JsString.toLowerCase q) "phase 1") as [E|E].
      * apply orb_true_iff in H as [H|H]; apply String.eqb_eq in H.
        -- left. congruence.
        -- right. split; assumption.
      * left. apply String.eqb_eq, H.
    + intros [p [Hin H]]. exists p. split; [exact Hin|].
      destruct (String.eqb_spec (JsString.toLowerCase q) "phase 1") as [E|E].
      * apply orb_true_iff. destruct H as [H | [_ H]].
        -- left. apply String.eqb_eq. congruence.
        -- right. apply String.eqb_eq, H.
      * destruct H as [H | [H _]]; [apply String.eqb_eq, H | contradiction].
  - intros Hf. unfold interventionTypeOk, interventionsOf. rewrite Hf, Ht.
    rewrite existsb_exists. split.
    + intros [int [Hin H]]. apply bool_decide_eq_true in H.
      destruct (interventionKind int) as [t|] eqn:E; [|discriminate].
      exists int, t. repeat split; try assumption. cbn in H. congruence.
    + intros [int [t [Hin [E H]]]]. exists int. split; [exact Hin|].
      apply bool_decide_eq_true. rewrite E. cbn. congruence.
  - intros ag ags Hf. unfold ageGroupsOk, ageGroupsOf. rewrite Hf.
    rewrite existsb_exists. split.
    + intros [wanted [Hin H]]. apply existsb_exists in H as [had [Hin' H]].
      exists wanted, had. repeat split; try assumption. apply String.eqb_eq, H.
    + intros [wanted [had [Hin [Hin' H]]]]. exists wanted. split; [exact Hin|].
      apply existsb_exists. exists had. split; [exact Hin'|]. apply String.eqb_eq, H.
  - intros Hm. repeat split; revert Hm; clause_of_matches.
Qed.

Lemma membership_filters_witness :
  phaseOk (inPhase "PHASE 1") bostonStudy = true
  <-> exists p, In p (phasesOf bostonStudy)
                /\ (JsString.toLowerCase p = JsString.toLowerCase "PHASE 1"
                    \/ (JsString.toLowerCase "PHASE 1" = "phase 1"
                        /\ JsString.toLowerCase p = "early phase 1")).
Proof.
  refine (proj1 (membership_filters (inPhase "PHASE 1") bostonStudy "PHASE 1" _) _);
    [discriminate | reflexivity].
Defined.

(** *** The boolean criteria *)

(** X6.  The two boolean criteria compare strictly: a record that passes
    [hasResults] (resp. [healthyVolunteers]) set to [b] has the member, with
    the value [b]; a record without the member is excluded by the
    criterion [false] as well as by the criterion [true]. *)
Theorem boolean_filters_strict (filters : FilterParams) (study : Study) (b : bool) :
  (f_hasResults filters = Some b ->
     (hasResultsOk filters study = true <-> hasResults study = Some b)
     /\ (matches filters study = true -> hasResults study = Some b)
     /\ (hasResults study = None -> matches filters study = false))
  /\ (f_healthyVolunteers filters = Some b ->
     let volunteers := eligibilityModule (protocolSection study) ?. healthyVolunteers in
     (healthyVolunteersOk filters study = true <-> volunteers = Some b)
     /\ (matches filters study = true -> volunteers = Some b)
     /\ (volunteers = None -> matches filters study = false)).
Proof.
  split; intros Hf.
  - assert (Hc : hasResultsOk filters study = true <-> hasResults study = Some b).
    { unfold hasResultsOk. rewrite Hf. apply differs_false. }
    split; [exact Hc|]. split.
    + intros Hm. apply Hc. revert Hm. clause_of_matches.
    + intros Hn. apply (matches_false_of filters study (hasResultsOk filters study));
        [|clause_of_matches].
      apply not_true_is_false. intros H. apply Hc in H. congruence.
  - cbv zeta.
    assert (Hc : healthyVolunteersOk filters study = true
                 <-> eligibilityModule (protocolSection study) ?. healthyVolunteers = Some b).
    { unfold healthyVolunteersOk. rewrite Hf. apply differs_false. }
    split; [exact Hc|]. split.
    + intros Hm. apply Hc. revert Hm. clause_of_matches.
    + intros Hn. apply (matches_false_of filters study (healthyVolunteersOk filters study));
        [|clause_of_matches].
      apply not_true_is_false. intros H. apply Hc in H. congruence.
Qed.

Lemma boolean_filters_strict_witness :
  matches (resultsPosted false) bostonStudy = false.
Proof.
  refine (proj2 (proj2 (proj1 (boolean_filters_strict (resultsPosted false) bostonStudy false)
                          _)) _); reflexivity.
Defined.

(** X7.  For a record that has an oversight module, the criterion
    [fdaRegulated] compares [isFdaRegulatedDrug || isFdaRegulatedDevice]
    strictly with the wanted value: [true] keeps the records with one of the
    two flags true; [false] keeps the records whose drug flag is not true
    and whose device flag is present and false.  A record whose drug flag
    is false and whose device flag is absent passes neither. *)
Theorem fda_filter_with_oversight (filters : FilterParams) (study : Study)
        (o : OversightModule) :
  oversightModule (protocolSection study) = Some o ->
  (f_fdaRegulated filters = Some true ->
     (fdaRegulatedOk filters study = true <->
      isFdaRegulatedDrug o = Some true \/ isFdaRegulatedDevice o = Some true))
  /\ (f_fdaRegulated filters = Some false ->
     (fdaRegulatedOk filters study = true <->
      isFdaRegulatedDrug o <> Some true /\ isFdaRegulatedDevice o = Some false))
  /\ (forall b, f_fdaRegulated filters = Some b ->
      isFdaRegulatedDrug o <> Some true -> isFdaRegulatedDevice o = None ->
      matches filters study = false).
Proof.
  intros Ho. split; [|split].
  - intros Hf. unfold fdaRegulatedOk. rewrite Hf, Ho. rewrite differs_false.
    destruct o as [[[]|] [[]|]]; cbn; split; intros H;
      try discriminate; try (left; reflexivity); try (right; reflexivity);
      try reflexivity; destruct H as [H|H]; discriminate.
  - intros Hf. unfold fdaRegulatedOk. rewrite Hf, Ho. rewrite differs_false.
    destruct o as [[[]|] [[]|]]; cbn; split; intros H;
      try discriminate; try reflexivity;
      try (split; [discriminate|reflexivity]);
      destruct H as [H1 H2]; try discriminate; try (exfalso; apply H1; reflexivity).
  - intros b Hf Hd Hv. apply (matches_false_of filters study (fdaRegulatedOk filters study));
      [|clause_of_matches].
    unfold fdaRegulatedOk. rewrite Hf, Ho.
    destruct o as [[[]|] [[]|]]; cbn in *; try discriminate;
      try (exfalso; apply Hd; reflexivity); destruct b; reflexivity.
Qed.

Lemma fda_filter_with_oversight_witness :
  matches (fdaRegulatedIs false) bostonStudy = false.
Proof.
  refine (proj2 (proj2 (fda_filter_with_oversight (fdaRegulatedIs false) bostonStudy
                          {| isFdaRegulatedDrug := Some false; isFdaRegulatedDevice := None |}
                          _)) false _ _ _); [reflexivity | reflexivity | discriminate | reflexivity].
Defined.

(** *** The date criteria *)

Lemma textLe_refl (a : string) : textLe a a.
Proof.
  unfold textLe, String.ltb. rewrite string_compare_refl. reflexivity.
Qed.

Lemma notBefore_spec (b : string) (recordDate : option string) :
  b <> EmptyString ->
  (notBefore (Some b) recordDate = true
   <-> forall d, JsString.truthy recordDate = Some d -> textLe b d).
Proof.
  intros Hb. unfold notBefore, textLe, JsString.lt. rewrite (truthy_set b Hb).
  destruct (JsString.truthy recordDate) as [d|]; split.
  - intros H d' [= <-]. apply negb_true_iff, H.
  - intros H. apply negb_true_iff, H. reflexivity.
  - intros _ d' [=].
  - reflexivity.
Qed.

Lemma notAfter_spec (b : string) (recordDate : option string) :
  b <> EmptyString ->
  (notAfter (Some b) recordDate = true
   <-> forall d, JsString.truthy recordDate = Some d -> textLe d b).
Proof.
  intros Hb. unfold notAfter, textLe, JsString.gt. rewrite (truthy_set b Hb).
  destruct (JsString.truthy recordDate) as [d|]; split.
  - intros H d' [= <-]. apply negb_true_iff, H.
  - intros H. apply negb_true_iff, H. reflexivity.
  - intros _ d' [=].
  - reflexivity.
Qed.

(** X8.  The four date criteria constrain only the records that have
    the date: a record without (or with an empty) start date passes both
    start-date bounds, and likewise for the completion date.  For a record
    with the date, the bounds are inclusive and compare the two texts by
    code units: [startDateAfter] keeps the dates not below the bound,
    [startDateBefore] the dates not above it.  A matching record passes
    all four. *)
Theorem date_filters (filters : FilterParams) (study : Study) (b : string) :
  b <> EmptyString ->
  (f_startDateAfter filters = Some b ->
     (startDateAfterOk filters study = true
      <-> forall d, startDateOf study = Some d -> textLe b d))
  /\ (f_startDateBefore filters = Some b ->
     (startDateBeforeOk filters study = true
      <-> forall d, startDateOf study = Some d -> textLe d b))
  /\ (f_completionDateAfter filters = Some b ->
     (completionDateAfterOk filters study = true
      <-> forall d, completionDateOf study = Some d -> textLe b d))
  /\ (f_completionDateBefore filters = Some b ->
     (completionDateBeforeOk filters study = true
      <-> forall d, completionDateOf study = Some d -> textLe d b))
  /\ (startDateOf study = None ->
      startDateAfterOk filters study = true /\ startDateBeforeOk filters study = true)
  /\ (completionDateOf study = None ->
      completionDateAfterOk filters study = true
      /\ completionDateBeforeOk filters study = true)
  /\ (startDateOf study = Some b ->
      f_startDateAfter filters = Some b -> f_startDateBefore filters = Some b ->
      startDateAfterOk filters study = true /\ startDateBeforeOk filters study = true)
  /\ (matches filters study = true ->
      startDateAfterOk filters study = true /\ startDateBeforeOk filters study = true
      /\ completionDateAfterOk filters study = true
      /\ completionDateBeforeOk filters study = true).
Proof.
  intros Hb.
  split; [|split; [|split; [|split; [|split; [|split; [|split]]]]]].
  - intros Hf. unfold startDateAfterOk. rewrite Hf. apply notBefore_spec, Hb.
  - intros Hf. unfold startDateBeforeOk. rewrite Hf. apply notAfter_spec, Hb.
  - intros Hf. unfold completionDateAfterOk. rewrite Hf. apply notBefore_spec, Hb.
  - intros Hf. unfold completionDateBeforeOk. rewrite Hf. apply notAfter_spec, Hb.
  - unfold startDateOf, startDateAfterOk, startDateBeforeOk, notBefore, notAfter.
    intros ->. split.
    + destruct (JsString.truthy (f_startDateAfter filters)); reflexivity.
    + destruct (JsString.truthy (f_startDateBefore filters)); reflexivity.
  - unfold completionDateOf, completionDateAfterOk, completionDateBeforeOk,
      notBefore, notAfter.
    intros ->. split.
    + destruct (JsString.truthy (f_completionDateAfter filters)); reflexivity.
    + destruct (JsString.truthy (f_completionDateBefore filters)); reflexivity.
  - intros Hd Hf1 Hf2. split.
    + unfold startDateAfterOk. rewrite Hf1. apply (notBefore_spec b _ Hb).
      fold (startDateOf study). rewrite Hd. intros d [= <-]. apply textLe_refl.
    + unfold startDateBeforeOk. rewrite Hf2. apply (notAfter_spec b _ Hb).
      fold (startDateOf study). rewrite Hd. intros d [= <-]. apply textLe_refl.
  - intros Hm. repeat split; revert Hm; clause_of_matches.
Qed.

Lemma date_filters_witness :
  startDateAfterOk (startedFrom "2020-05-15") bostonStudy = true
  <-> forall d, startDateOf bostonStudy = Some d -> textLe "2020-05-15" d.
Proof.
  refine (proj1 (date_filters (startedFrom "2020-05-15") bostonStudy "2020-05-15" _) _);
    [discriminate | reflexivity].
Defined.

(** *** The age criteria compare texts *)

Lemma ltb_first_char (x y : ascii) (a b : string) :
  Ascii.ltb x y = true -> String.ltb (String x a) (String y b) = true.
Proof.
  unfold Ascii.ltb, String.ltb. cbn [String.compare].
  destruct (Ascii.compare x y); (discriminate || reflexivity).
Qed.

Lemma ltb_first_char_not (x y : ascii) (a b : string) :
  Ascii.ltb y x = true -> String.ltb (String x a) (String y b) = false.
Proof.
  unfold Ascii.ltb, String.ltb. cbn [String.compare].
  rewrite (Ascii.compare_antisym x y).
  destruct (Ascii.compare y x); cbn; (discriminate || reflexivity).
Qed.

(** X9.  The age criteria compare the record's age text with the bound
    by code units, not by the number in it: when the two texts differ in
    their first character, that character alone decides.  A record whose
    minimum age starts with a greater character than the bound passes
    [minAge], one that starts with a smaller character is excluded; for
    [maxAge] it is the other way round. *)
Theorem age_bounds_compare_as_text (filters : FilterParams) (study : Study)
        (x y : ascii) (a b : string) :
  String x a <> "N/A" ->
  let eligibility := eligibilityModule (protocolSection study) in
  (f_minAge filters = Some (String y b) ->
   eligibility ?. minimumAge = Some (String x a) ->
   (Ascii.ltb y x = true -> minAgeOk filters study = true)
   /\ (Ascii.ltb x y = true -> matches filters study = false))
  /\ (f_maxAge filters = Some (String y b) ->
      eligibility ?. maximumAge = Some (String x a) ->
      (Ascii.ltb x y = true -> maxAgeOk filters study = true)
      /\ (Ascii.ltb y x = true -> matches filters study = false)).
Proof.
  intros Hna. cbv zeta.
  assert (Hn : String.eqb (String x a) "N/A" = false) by (apply String.eqb_neq, Hna).
  split; intros Hf Hr; split; intros Hlt.
  - unfold minAgeOk. rewrite Hf, Hr. cbn [JsString.truthy]. rewrite Hn.
    unfold JsString.lt. rewrite (ltb_first_char_not x y a b Hlt). reflexivity.
  - apply (matches_false_of filters study (minAgeOk filters study)); [|clause_of_matches].
    unfold minAgeOk. rewrite Hf, Hr. cbn [JsString.truthy]. rewrite Hn.
    unfold JsString.lt. rewrite (ltb_first_char x y a b Hlt). reflexivity.
  - unfold maxAgeOk. rewrite Hf, Hr. cbn [JsString.truthy]. rewrite Hn.
    unfold JsString.gt. rewrite (ltb_first_char_not y x b a Hlt). reflexivity.
  - apply (matches_false_of filters study (maxAgeOk filters study)); [|clause_of_matches].
    unfold maxAgeOk. rewrite Hf, Hr. cbn [JsString.truthy]. rewrite Hn.
    unfold JsString.gt. rewrite (ltb_first_char y x b a Hlt). reflexivity.
Qed.

Lemma age_bounds_compare_as_text_witness :
  minAgeOk (minAgeIs "18 Years") bostonStudy = true.
Proof.
  refine (proj1 (proj1 (age_bounds_compare_as_text (minAgeIs "18 Years") bostonStudy
                          "9" "1" " Years" "8 Years" _) _ _) _);
    [discriminate | reflexivity | reflexivity | reflexivity].
Defined.

(** ** Successive refinements *)

Lemma recordMatches_studies (db db' : DB) (filters : FilterParams) (id : string) :
  studies db' = studies db -> recordMatches db' filters id = recordMatches db filters id.
Proof. unfold recordMatches, resolve. intros ->. reflexivity. Qed.

Lemma allMatch_studies (db db' : DB) (criteria : list FilterParams) (id : string) :
  studies db' = studies db -> allMatch db' criteria id = allMatch db criteria id.
Proof.
  intros H. unfold allMatch. induction criteria as [|f fs IH]; [reflexivity|].
  cbn. rewrite IH, (recordMatches_studies db db' f id H). reflexivity.
Qed.

Lemma filter_filter {A} (p q : A -> bool) (l : list A) :
  List.filter q (List.filter p l) = List.filter (fun x => p x && q x) l.
Proof.
  induction l as [|x l IH]; [reflexivity|].
  cbn. destruct (p x); cbn; [destruct (q x)|]; rewrite IH; reflexivity.
Qed.

Lemma filter_ext_eq {A} (p q : A -> bool) (l : list A) :
  (forall x, p x = q x) -> List.filter p l = List.filter q l.
Proof.
  intros H. induction l as [|x l IH]; [reflexivity|]. cbn. rewrite H, IH. reflexivity.
Qed.

Lemma refineAll_closed_form (sid : string) (criteria : list FilterParams) :
  forall db, wf db ->
    sessionIds sid (refineAll sid criteria db)
    = List.filter (allMatch db criteria) (sessionIds sid db)
    /\ studies (refineAll sid criteria db) = studies db.
Proof.
  induction criteria as [|f fs IH]; intros db Hwf.
  - cbn. split; [|reflexivity]. symmetry. apply filter_all. reflexivity.
  - destruct (refine_step sid f db Hwf) as [Hids [Hst Hwf']].
    change (refineAll sid (f :: fs) db)
      with (refineAll sid fs (fst (refine_results sid f db))).
    destruct (IH _ Hwf') as [IH1 IH2]. split.
    + rewrite IH1, Hids, filter_filter. apply filter_ext_eq. intros id.
      cbn. rewrite (allMatch_studies db _ fs id Hst). reflexivity.
    + rewrite IH2. exact Hst.
Qed.

Lemma allMatch_Permutation (db : DB) (c1 c2 : list FilterParams) (id : string) :
  Permutation c1 c2 -> allMatch db c1 id = allMatch db c2 id.
Proof.
  intros Hp. unfold allMatch. apply eq_true_iff_eq. rewrite !forallb_forall. split.
  - intros H f Hin. apply H. apply (Permutation_in _ (Permutation_sym Hp)), Hin.
  - intros H f Hin. apply H. apply (Permutation_in _ Hp), Hin.
Qed.

(** X2.  Successive refinements of a session compose as a conjunction:
    after refining by a list of criteria, the session holds exactly the
    identifiers it held before whose records satisfy all of them, in the
    same order, and the stored records are untouched.  Hence the order in
    which the criteria are applied does not matter. *)
Theorem refinements_compose (sid : string) (db : DB) (criteria : list FilterParams) :
  wf db ->
  sessionIds sid (refineAll sid criteria db)
  = List.filter (allMatch db criteria) (sessionIds sid db)
  /\ studies (refineAll sid criteria db) = studies db
  /\ (forall criteria', Permutation criteria criteria' ->
        sessionIds sid (refineAll sid criteria' db)
        = sessionIds sid (refineAll sid criteria db)).
Proof.
  intros Hwf. destruct (refineAll_closed_form sid criteria db Hwf) as [H1 H2].
  split; [exact H1|]. split; [exact H2|].
  intros criteria' Hp.
  destruct (refineAll_closed_form sid criteria' db Hwf) as [H1' _].
  rewrite H1, H1'. apply filter_ext_eq. intros id. symmetry.
  apply allMatch_Permutation, Hp.
Qed.

Lemma refinements_compose_witness :
  sessionIds "tok1" (refineAll "tok1" [fdaRegulatedOnly; withResultsOnly] sampleDb)
  = sessionIds "tok1" (refineAll "tok1" [withResultsOnly; fdaRegulatedOnly] sampleDb).
Proof.
  refine (proj2 (proj2 (refinements_compose "tok1" sampleDb
                          [withResultsOnly; fdaRegulatedOnly] wf_sampleDb)) _ _).
  apply perm_swap.
Defined.

(** ** The cache key *)

Lemma toInt32_spec (z : Z) : exists k, toInt32 z = z + k * 2 ^ 32.
Proof.
  unfold toInt32. pose proof (Z.div_mod z (2 ^ 32) ltac:(lia)) as H.
  destruct (z mod 2 ^ 32 <? 2 ^ 31).
  - exists (- (z / 2 ^ 32)). lia.
  - exists (- (z / 2 ^ 32) - 1). lia.
Qed.

Lemma toInt32_shift (z k : Z) : toInt32 (z + k * 2 ^ 32) = toInt32 z.
Proof. unfold toInt32. rewrite Z_mod_plus_full. reflexivity. Qed.

Lemma toInt32_range (z : Z) : - 2 ^ 31 <= toInt32 z < 2 ^ 31.
Proof.
  unfold toInt32. pose proof (Z.mod_pos_bound z (2 ^ 32) ltac:(lia)) as H.
  destruct (Z.ltb_spec (z mod 2 ^ 32) (2 ^ 31)); lia.
Qed.

Lemma hashStep_spec (a : Z) (c : ascii) :
  hashStep (toInt32 a) c = toInt32 (31 * a + charCode c).
Proof.
  unfold hashStep, and32, shl. rewrite Z.land_diag, Z.shiftl_mul_pow2 by lia.
  destruct (toInt32_spec a) as [k1 H1].
  destruct (toInt32_spec (toInt32 a)) as [k2 H2].
  destruct (toInt32_spec (toInt32 (toInt32 a) * 2 ^ 5)) as [k3 H3].
  rewrite H3, H2, H1.
  replace ((a + k1 * 2 ^ 32 + k2 * 2 ^ 32) * 2 ^ 5 + k3 * 2 ^ 32
           - (a + k1 * 2 ^ 32) + charCode c)
    with (31 * a + charCode c + (31 * k1 + 32 * k2 + k3) * 2 ^ 32) by lia.
  apply toInt32_shift.
Qed.

Lemma hashLoop_fold (l : list ascii) (a : Z) :
  fold_left hashStep l (toInt32 a)
  = toInt32 (fold_left (fun h c => 31 * h + charCode c) l a).
Proof.
  revert a. induction l as [|c l IH]; intros a; [reflexivity|].
  cbn [fold_left]. rewrite hashStep_spec. apply IH.
Qed.

Lemma hashLoop_poly31 (str : string) : hashLoop str = toInt32 (poly31 str).
Proof.
  unfold hashLoop, poly31. change 0 with (toInt32 0) at 1. apply hashLoop_fold.
Qed.

(** X10.  [hashString] is the polynomial hash with multiplier 31 over
    the code units of the text, wrapped to a signed 32-bit integer, then
    printed in base 36 without its sign. *)
Theorem hashString_polynomial (str : string) :
  hashLoop str = toInt32 (poly31 str)
  /\ - 2 ^ 31 <= hashLoop str < 2 ^ 31
  /\ hashString str = toString36 (Z.abs (toInt32 (poly31 str))).
Proof.
  pose proof (hashLoop_poly31 str) as H.
  split; [exact H|]. split.
  - rewrite H. apply toInt32_range.
  - unfold hashString. rewrite H. reflexivity.
Qed.

Lemma allChars_app (p : ascii -> bool) (a b : string) :
  allChars p (a ++ b) = allChars p a && allChars p b.
Proof.
  induction a as [|c a IH]; [reflexivity|].
  cbn. rewrite IH, andb_assoc. reflexivity.
Qed.

Lemma digit36_base36 (d : Z) : 0 <= d < 36 -> isBase36 (digit36 d) = true.
Proof.
  intros H.
  assert (Hall : forallb (fun n => isBase36 (digit36 (Z.of_nat n))) (seq 0 36) = true)
    by (vm_compute; reflexivity).
  rewrite forallb_forall in Hall.
  replace d with (Z.of_nat (Z.to_nat d)) by lia.
  apply Hall, in_seq. lia.
Qed.

Lemma digits36_base36 (fuel : nat) :
  forall n acc,
    allChars isBase36 acc = true -> allChars isBase36 (digits36 fuel n acc) = true.
Proof.
  induction fuel as [|fuel IH]; intros n acc Hacc; cbn [digits36]; [exact Hacc|].
  destruct (n <=? 0); [exact Hacc|].
  apply IH. cbn [allChars]. rewrite digit36_base36, Hacc; [reflexivity|].
  apply Z.mod_pos_bound. lia.
Qed.

Lemma digits36_nonempty (fuel : nat) :
  forall n acc, acc <> EmptyString -> digits36 fuel n acc <> EmptyString.
Proof.
  induction fuel as [|fuel IH]; intros n acc Hacc; cbn [digits36]; [exact Hacc|].
  destruct (n <=? 0); [exact Hacc|]. apply IH. discriminate.
Qed.

Lemma hashString_base36 (str : string) :
  allChars isBase36 (hashString str) = true /\ hashString str <> EmptyString.
Proof.
  unfold hashString, toString36.
  destruct (Z.eqb_spec (Z.abs (hashLoop str)) 0) as [E|E].
  - split; [reflexivity|discriminate].
  - split; [apply digits36_base36; reflexivity|].
    cbn [digits36]. destruct (Z.leb_spec (Z.abs (hashLoop str)) 0); [lia|].
    apply digits36_nonempty. discriminate.
Qed.

Lemma base36_no_colon (h : string) :
  allChars isBase36 h = true ->
  forall a b, h <> a ++ ":" ++ b.
Proof.
  intros Hh a b ->. rewrite allChars_app in Hh. apply andb_true_iff in Hh as [_ Hh].
  cbn in Hh. discriminate.
Qed.

Lemma key_split (p1 p2 h1 h2 : string) :
  allChars isBase36 h1 = true -> allChars isBase36 h2 = true ->
  p1 ++ ":" ++ h1 = p2 ++ ":" ++ h2 -> p1 = p2 /\ h1 = h2.
Proof.
  intros H1 H2. revert p2. induction p1 as [|c p1 IH]; intros [|d p2] E.
  - cbn in E. injection E as E. split; [reflexivity|exact E].
  - cbn in E. injection E as _ E. exfalso. exact (base36_no_colon h1 H1 p2 h2 E).
  - cbn in E. injection E as _ E. exfalso. symmetry in E.
    exact (base36_no_colon h2 H2 p1 h1 E).
  - cbn in E. injection E as -> E. destruct (IH p2 E) as [-> ->]. split; reflexivity.
Qed.

Lemma generateKey_Ok (prefix : string) (params : JsVal) (key : string) :
  generateKey prefix params = Ok key ->
  exists keys text,
    Object_keys params = Ok keys
    /\ JSON.stringifyKeys params (propertyList (sort keys)) = Some text
    /\ key = prefix ++ ":" ++ hashString text.
Proof.
  unfold generateKey. destruct (Object_keys params) as [keys|]; [|discriminate].
  cbn [bindR].
  destruct (JSON.stringifyKeys params (propertyList (sort keys))) as [text|] eqn:E;
    [|discriminate].
  intros [= <-]. exists keys, text. split; [reflexivity|split; [exact E|reflexivity]].
Qed.

(** X11.  A cache key is the category, a colon, and a non-empty text of
    digits [0-9a-z]; so two keys of different categories never coincide,
    whatever the parameters, and the [null] and [undefined] parameters have
    no key: the call throws a TypeError. *)
Theorem generateKey_shape (prefix : string) (params : JsVal) :
  (forall key, generateKey prefix params = Ok key ->
     exists hash, key = prefix ++ ":" ++ hash
                  /\ allChars isBase36 hash = true /\ hash <> EmptyString)
  /\ (forall prefix' params' key,
        generateKey prefix params = Ok key -> generateKey prefix' params' = Ok key ->
        prefix' = prefix)
  /\ (params = JNull \/ params = JUndefined ->
      generateKey prefix params = Throw TypeError
      /\ forall d c, set prefix params d c = Throw TypeError
                     /\ get prefix params c = Throw TypeError).
Proof.
  split; [|split].
  - intros key Hk. destruct (generateKey_Ok _ _ _ Hk) as (keys & text & _ & _ & ->).
    exists (hashString text). split; [reflexivity|]. apply hashString_base36.
  - intros prefix' params' key Hk Hk'.
    destruct (generateKey_Ok _ _ _ Hk) as (keys & text & _ & _ & E).
    destruct (generateKey_Ok _ _ _ Hk') as (keys' & text' & _ & _ & E').
    rewrite E in E'.
    destruct (key_split prefix prefix' (hashString text) (hashString text')) as [H _];
      [apply hashString_base36 | apply hashString_base36 | exact E' | ].
    symmetry. exact H.
  - intros [-> | ->]; (split; [reflexivity|]); intros d c; split; reflexivity.
Qed.

Lemma oneParam_text (k v : string) :
  JSON.stringifyKeys (oneParam k v) (propertyList (sort [k]))
  = Some ("{" ++ quote k ++ ":" ++ quote v ++ "}").
Proof.
  unfold oneParam, JSON.stringifyKeys.
  cbn [sort fold_right insertSorted propertyList fold_left existsb app].
  rewrite serialize_JObj. unfold memberTexts, objectPartial.
  cbn [map flat_map fst snd JSON.serialize assoc].
  rewrite String.eqb_refl.
  unfold id, memberText, wrap.
  cbn [default app String.concat String.eqb String.append].
  rewrite append_assoc. reflexivity.
Qed.

Lemma quoteChars_app (s : string) :
  exists u, forall x, quoteChars (s ++ x) = u ++ quoteChars x.
Proof.
  induction s as [|c s [u IH]].
  - exists EmptyString. reflexivity.
  - exists (quoteChar c ++ u). intros x. cbn [String.append quoteChars].
    rewrite IH, append_assoc. reflexivity.
Qed.

Lemma list_ascii_app (a b : string) :
  list_ascii_of_string (a ++ b) = (list_ascii_of_string a ++ list_ascii_of_string b)%list.
Proof.
  induction a as [|c a IH]; [reflexivity|]. cbn. rewrite IH. reflexivity.
Qed.

Lemma poly31_collision (u w : string) :
  poly31 (u ++ "Aa" ++ w) = poly31 (u ++ "BB" ++ w).
Proof.
  unfold poly31. rewrite !list_ascii_app, !fold_left_app. f_equal.
  generalize (fold_left (fun h c => 31 * h + charCode c) (list_ascii_of_string u) 0).
  intros h. cbn [list_ascii_of_string fold_left].
  change (charCode "A") with 65. change (charCode "a") with 97.
  change (charCode "B") with 66. lia.
Qed.

Lemma get_after_set (prefix key : string) (params v : JsVal) (c : State) :
  generateKey prefix params = Ok key ->
  Js.truthy v = true ->
  let c1 := setOnDisk key v (setInMemory key v c) in
  get prefix params c1 = Ok (c1, v).
Proof.
  intros Hkey Hv c1.
  destruct (set_state key v c) as (Hclock & _ & Hmem & _). fold c1 in Hclock, Hmem.
  unfold get. rewrite Hkey. cbn [bindR].
  rewrite (getFromMemory_hit key c1 _ Hmem)
    by (cbn [timestamp]; unfold MEMORY_CACHE_TTL_MS; lia).
  cbn [data]. rewrite Hv. reflexivity.
Qed.

(** X12.  The key does not identify the parameters: two parameter
    objects with one string member that differ only by the letters Aa and
    BB at one place have the same key, in every category.  After [set] for
    the one, [get] for the other answers with the stored payload. *)
Theorem cache_key_collision (prefix k s t : string) (v : JsVal) (c : State) :
  Js.truthy v = true ->
  let a := oneParam k (s ++ "Aa" ++ t) in
  let b := oneParam k (s ++ "BB" ++ t) in
  a <> b
  /\ generateKey prefix a = generateKey prefix b
  /\ exists c1, set prefix a v c = Ok c1 /\ get prefix b c1 = Ok (c1, v).
Proof.
  intros Hv a b.
  assert (Hkey : generateKey prefix a = generateKey prefix b).
  { unfold generateKey, a, b. cbn [Object_keys bindR oneParam map fst].
    fold (oneParam k (s ++ "Aa" ++ t)). fold (oneParam k (s ++ "BB" ++ t)).
    rewrite !oneParam_text. do 3 f_equal.
    unfold hashString. rewrite !hashLoop_poly31. do 3 f_equal.
    unfold quote. destruct (quoteChars_app s) as [u Hu]. rewrite !Hu.
    change (quoteChars ("Aa" ++ t)) with ("Aa" ++ quoteChars t).
    change (quoteChars ("BB" ++ t)) with ("BB" ++ quoteChars t).
    set (pre := "{" ++ String "034" (quoteChars k) ++ ":").
    replace ("{" ++ String "034" (quoteChars k) ++ ":"
             ++ String "034" (u ++ "Aa" ++ quoteChars t) ++ "}")
      with ((pre ++ String "034" u) ++ "Aa" ++ (quoteChars t ++ "}")).
    2:{ unfold pre. cbn [String.append]. rewrite !append_assoc. cbn [String.append].
        rewrite ?append_assoc. reflexivity. }
    replace ("{" ++ String "034" (quoteChars k) ++ ":"
             ++ String "034" (u ++ "BB" ++ quoteChars t) ++ "}")
      with ((pre ++ String "034" u) ++ "BB" ++ (quoteChars t ++ "}")).
    2:{ unfold pre. cbn [String.append]. rewrite !append_assoc. cbn [String.append].
        rewrite ?append_assoc. reflexivity. }
    apply poly31_collision. }
  split; [|split; [exact Hkey|]].
  - unfold a, b, oneParam. intros [= E]. revert E. clear.
    induction s as [|x s IH]; cbn; intros E; [discriminate|].
    injection E as E. exact (IH E).
  - destruct (generateKey prefix a) as [key|] eqn:Ha.
    + exists (setOnDisk key v (setInMemory key v c)). split.
      * unfold set. rewrite Ha. reflexivity.
      * apply get_after_set; [symmetry; exact Hkey | exact Hv].
    + exfalso. unfold generateKey, a in Ha. cbn [Object_keys bindR oneParam map fst] in Ha.
      fold (oneParam k (s ++ "Aa" ++ t)) in Ha. rewrite oneParam_text in Ha. discriminate.
Qed.

Lemma cache_key_collision_witness :
  generateKey "search" (oneParam "query" "Aa") = generateKey "search" (oneParam "query" "BB").
Proof.
  exact (proj1 (proj2 (cache_key_collision "search" "query" EmptyString EmptyString
                         (JBool true) emptyCache eq_refl))).
Defined.

(** ** The cache tiers: what [get] answers *)

Lemma getFromDisk_stale (key text : string) (c : State) :
  files c !! getDiskCachePath key c = Some text ->
  staleFile (clock c) text = true ->
  getFromDisk key c = (unlink (getDiskCachePath key c) c, JNull).
Proof.
  intros Hf Hs. unfold getFromDisk. rewrite Hf. unfold staleFile in Hs.
  destruct (JSON.parse text) as [entry|]; [|reflexivity].
  destruct entry; try reflexivity;
    match type of Hs with
    | context [toNumber ?x] => destruct (toNumber x) as [t|]; [|discriminate]
    end;
    rewrite Hs; reflexivity.
Qed.

(** X13.  An entry older than the disk TTL is gone from both tiers after
    it is asked for: [get] answers [null], deletes the memory entry and
    unlinks the file. *)
Theorem cache_expiry_purges (prefix key : string) (params v : JsVal) (c : State) (ms : Z) :
  generateKey prefix params = Ok key ->
  isJson v = true ->
  DISK_CACHE_TTL_MS < ms ->
  let c1 := setOnDisk key v (setInMemory key v c) in
  exists c2,
    get prefix params (elapse ms c1) = Ok (c2, JNull)
    /\ memoryCache c2 !! key = None
    /\ files c2 !! getDiskCachePath key c2 = None.
Proof.
  intros Hkey Hjson Hms c1.
  destruct (set_state key v c) as (Hclock & Hdir & Hmem & text & Htext & Hfile).
  fold c1 in Hclock, Hdir, Hmem, Hfile.
  set (c2 := elapse ms c1).
  set (c3 := withMemory (delete key (memoryCache c2)) c2).
  exists (unlink (getDiskCachePath key c3) c3).
  assert (Hm : getFromMemory key c2 = (c3, JNull)).
  { apply (getFromMemory_expired key c2 _ Hmem). unfold c2. cbn [elapse clock timestamp].
    unfold MEMORY_CACHE_TTL_MS, DISK_CACHE_TTL_MS in *. lia. }
  assert (Hd : getFromDisk key c3 = (unlink (getDiskCachePath key c3) c3, JNull)).
  { apply (getFromDisk_stale key text); [exact Hfile|].
    unfold staleFile.
    rewrite (parse_stringifyIndent2 _ _ (isJson_entryObject v (clock c) Hjson) Htext).
    change (member (entryObject v (clock c)) "timestamp") with (JNum (clock c)).
    cbn [entryObject toNumber]. apply Z.gtb_lt. unfold c3, c2.
    cbn [withMemory elapse clock]. lia. }
  split; [|split].
  - unfold get. rewrite Hkey. cbn [bindR]. fold c2. rewrite Hm. cbn [Js.truthy].
    rewrite Hd. reflexivity.
  - cbn [unlink withFiles withMemory memoryCache]. apply lookup_delete_eq.
  - cbn [unlink withFiles files]. unfold getDiskCachePath. cbn [cacheDir withFiles].
    apply lookup_delete_eq.
Qed.

Lemma cache_expiry_purges_witness :
  exists c2,
    get "search" (JObj searchParams1)
        (elapse 90000000
           (setOnDisk searchKey emptyResponse (setInMemory searchKey emptyResponse emptyCache)))
    = Ok (c2, JNull)
    /\ memoryCache c2 !! searchKey = None
    /\ files c2 !! getDiskCachePath searchKey c2 = None.
Proof.
  apply (cache_expiry_purges "search" searchKey (JObj searchParams1) emptyResponse
           emptyCache 90000000); [reflexivity | reflexivity | ].
  unfold DISK_CACHE_TTL_MS. lia.
Defined.

Lemma append_inj_l (a x y : string) : a ++ x = a ++ y -> x = y.
Proof.
  induction a as [|c a IH]; cbn; intros H; [exact H|].
  injection H as H. exact (IH H).
Qed.

Lemma append_inj_r (b x y : string) : x ++ b = y ++ b -> x = y.
Proof.
  revert y. induction x as [|c x IH]; intros [|d y] H.
  - reflexivity.
  - exfalso. apply (f_equal String.length) in H. rewrite !length_append in H.
    cbn [String.length] in H. lia.
  - exfalso. apply (f_equal String.length) in H. rewrite !length_append in H.
    cbn [String.length] in H. lia.
  - cbn in H. injection H as -> H. rewrite (IH y H). reflexivity.
Qed.

Lemma dropPrefix_app (a b : string) : dropPrefix a (a ++ b) = Some b.
Proof.
  induction a as [|c a IH]; [destruct b; reflexivity|].
  cbn. rewrite Ascii.eqb_refl. exact IH.
Qed.

Lemma includes_slash (s : string) :
  JsString.includes s "/" = negb (allChars (fun c => negb (Ascii.eqb c "/")) s).
Proof.
  induction s as [|c s IH]; [reflexivity|].
  cbn [JsString.includes allChars]. rewrite IH.
  cbn [String.prefix]. destruct (Ascii.ascii_dec "/" c) as [<-|Hne].
  - destruct s; reflexivity.
  - assert (E : Ascii.eqb c "/" = false) by (apply Ascii.eqb_neq; congruence).
    rewrite E. reflexivity.
Qed.

Lemma base36_no_slash (h : string) :
  allChars isBase36 h = true -> allChars (fun c => negb (Ascii.eqb c "/")) h = true.
Proof.
  induction h as [|c h IH]; [reflexivity|]. cbn [allChars].
  intros H. apply andb_true_iff in H as [Hc Hh]. rewrite (IH Hh), andb_true_r.
  destruct (Ascii.eqb_spec c "/") as [->|]; [discriminate|reflexivity].
Qed.

Lemma includes_false_head (p : string) :
  JsString.includes p "/" = false -> Path.isAbsolute p = false.
Proof.
  unfold Path.isAbsolute. destruct p as [|c r]; [reflexivity|].
  cbn [JsString.includes]. intros H. apply orb_false_iff in H. apply H.
Qed.

Lemma segments_plain (p current : string) :
  JsString.includes p "/" = false -> Path.segments p current = [current ++ p].
Proof.
  rewrite includes_slash. intros H. apply negb_false_iff in H.
  revert current. induction p as [|c p IH]; intros current.
  - cbn. rewrite append_nil_r. reflexivity.
  - cbn [allChars] in H. apply andb_true_iff in H as [Hc Hp].
    cbn [Path.segments]. apply negb_true_iff in Hc. rewrite Hc, (IH Hp), append_assoc.
    reflexivity.
Qed.


(** *** Paths *)

Lemma segments_app (a b cur : string) :
  Path.segments (a ++ String "/" b) cur
  = (Path.segments a cur ++ Path.segments b EmptyString)%list.
Proof.
  revert cur. induction a as [|c a IH]; intros cur; cbn [String.append Path.segments].
  - reflexivity.
  - destruct (Ascii.eqb c "/"); [rewrite IH; reflexivity | apply IH].
Qed.

Lemma resolve_app (allow : bool) (l1 l2 res : list string) :
  Path.resolve allow (l1 ++ l2) res = Path.resolve allow l2 (Path.resolve allow l1 res).
Proof.
  revert res. induction l1 as [|seg l1 IH]; intros res; [reflexivity|].
  cbn [app Path.resolve].
  destruct (String.eqb seg EmptyString || String.eqb seg "."); [apply IH|].
  destruct (String.eqb seg ".."); [|apply IH].
  destruct res as [|top below]; [apply IH|]. destruct (String.eqb top ".."); apply IH.
Qed.

Lemma isName_spec (name : string) :
  Path.isName name = true ->
  String.eqb name EmptyString = false /\ String.eqb name "." = false
  /\ String.eqb name ".." = false /\ JsString.includes name "/" = false.
Proof.
  unfold Path.isName. intros H. apply negb_true_iff in H.
  apply orb_false_iff in H as [H H4]. apply orb_false_iff in H as [H H3].
  apply orb_false_iff in H as [H1 H2]. repeat split; assumption.
Qed.

Lemma resolve_name (allow : bool) (name : string) (res : list string) :
  Path.isName name = true -> Path.resolve allow [name] res = name :: res.
Proof.
  intros H. destruct (isName_spec name H) as (H1 & H2 & H3 & _).
  cbn [Path.resolve]. rewrite H1, H2, H3. reflexivity.
Qed.

Lemma concat_snoc (sep : string) (l : list string) (x : string) :
  String.concat sep (l ++ [x])
  = match l with
    | [] => x
    | _ => String.concat sep l ++ sep ++ x
    end.
Proof.
  induction l as [|y l IH]; [reflexivity|].
  destruct l as [|z l]; [reflexivity|].
  change (String.concat sep ((y :: z :: l) ++ [x]))
    with (y ++ sep ++ String.concat sep ((z :: l) ++ [x])).
  rewrite IH.
  change (String.concat sep (y :: z :: l)) with (y ++ sep ++ String.concat sep (z :: l)).
  rewrite !append_assoc. reflexivity.
Qed.

Lemma trailingSeparator_app (a b : string) :
  b <> EmptyString -> Path.trailingSeparator (a ++ b) = Path.trailingSeparator b.
Proof.
  intros Hb. induction a as [|c a IH]; [reflexivity|].
  cbn [String.append Path.trailingSeparator].
  destruct (a ++ b) as [|d r] eqn:E; [|exact IH].
  destruct a; [cbn in E; contradiction | discriminate].
Qed.

Lemma trailingSeparator_plain (name : string) :
  JsString.includes name "/" = false -> Path.trailingSeparator name = false.
Proof.
  rewrite includes_slash. intros H. apply negb_false_iff in H.
  induction name as [|c name IH]; [reflexivity|].
  cbn [allChars] in H. apply andb_true_iff in H as [Hc Hn].
  cbn [Path.trailingSeparator]. destruct name; [|exact (IH Hn)].
  apply negb_true_iff. exact Hc.
Qed.

Lemma append_not_empty (a b : string) : b <> EmptyString -> a ++ b <> EmptyString.
Proof. destruct a; [intros H; exact H | discriminate]. Qed.

(** The path of an entry of a directory is the start of the directory's
    paths followed by the name of the entry. *)
Lemma join_name (dir name : string) :
  Path.isName name = true -> Path.join dir name = Path.below dir ++ name.
Proof.
  intros Hname. destruct (isName_spec name Hname) as (H1 & _ & _ & H4).
  assert (Hne : name <> EmptyString) by (intros ->; discriminate).
  unfold Path.join, Path.below, Path.normalize.
  destruct (String.eqb_spec dir EmptyString) as [-> | Hdir].
  - rewrite H1, (includes_false_head name H4), (segments_plain name EmptyString H4).
    cbn [String.append negb]. rewrite (resolve_name true name [] Hname).
    cbn [rev app JsString.join String.concat Path.isAbsolute String.prefix Path.segments
         Path.resolve String.eqb orb].
    rewrite H1, (trailingSeparator_plain name H4), append_nil_r. reflexivity.
  - rewrite H1.
    assert (Habs : Path.isAbsolute (dir ++ "/" ++ name) = Path.isAbsolute dir).
    { unfold Path.isAbsolute. destruct dir as [|c dir]; [contradiction|].
      cbn [String.append String.prefix]. destruct (ascii_dec "/" c); [|reflexivity].
      destruct dir; destruct (_ ++ _); reflexivity. }
    rewrite Habs.
    destruct (String.eqb_spec (dir ++ "/" ++ name) EmptyString) as [E | _];
      [destruct dir; discriminate|].
    change (dir ++ "/" ++ name) with (dir ++ String "/" name).
    rewrite segments_app, (segments_plain name EmptyString H4), resolve_app.
    cbn [String.append]. rewrite (resolve_name _ name _ Hname).
    rewrite trailingSeparator_app by (cbn; discriminate).
    cbn [Path.trailingSeparator]. destruct name as [|n0 name]; [contradiction|].
    fold (Path.trailingSeparator (String n0 name)).
    rewrite (trailingSeparator_plain _ H4), append_nil_r.
    cbn [rev]. unfold JsString.join. rewrite concat_snoc.
    set (res := Path.resolve (negb (Path.isAbsolute dir)) (Path.segments dir EmptyString) []).
    destruct res as [|top res].
    + cbn [rev]. destruct (String.eqb_spec (String n0 name) EmptyString) as [E | _];
        [discriminate|]. rewrite append_nil_r. reflexivity.
    + destruct (rev (top :: res)) as [|r0 rs] eqn:Er.
      { apply (f_equal (@List.length _)) in Er. rewrite length_rev in Er. discriminate. }
      destruct (String.eqb_spec (String.concat "/" (r0 :: rs) ++ "/" ++ String n0 name)
                                EmptyString) as [E | _].
      { exfalso. revert E. apply append_not_empty. discriminate. }
      change (rev res ++ [top])%list with (rev (top :: res)). rewrite Er.
      rewrite !append_assoc. reflexivity.
Qed.

(** In a category without a separator the name of the cache file is the
    name of a directory entry. *)
Lemma cache_file_name (prefix key : string) (params : JsVal) :
  JsString.includes prefix "/" = false ->
  generateKey prefix params = Ok key ->
  Path.isName (key ++ ".json") = true.
Proof.
  intros Hp Hkey. destruct (generateKey_Ok _ _ _ Hkey) as (keys & text & _ & _ & ->).
  unfold Path.isName. apply negb_true_iff.
  assert (Hs : JsString.includes ((prefix ++ ":" ++ hashString text) ++ ".json") "/" = false).
  { rewrite includes_slash, !allChars_app.
    rewrite includes_slash in Hp. apply negb_false_iff in Hp. rewrite Hp.
    rewrite (base36_no_slash _ (proj1 (hashString_base36 text))). reflexivity. }
  rewrite Hs, orb_false_r.
  assert (Hlen : (3 <= String.length ((prefix ++ ":" ++ hashString text) ++ ".json"))%nat).
  { rewrite !length_append. cbn [String.length]. lia. }
  destruct (String.eqb_spec ((prefix ++ ":" ++ hashString text) ++ ".json") EmptyString)
    as [E | _]; [rewrite E in Hlen; cbn in Hlen; lia|].
  destruct (String.eqb_spec ((prefix ++ ":" ++ hashString text) ++ ".json") ".")
    as [E | _]; [rewrite E in Hlen; cbn in Hlen; lia|].
  destruct (String.eqb_spec ((prefix ++ ":" ++ hashString text) ++ ".json") "..")
    as [E | _]; [rewrite E in Hlen; cbn in Hlen; lia|].
  reflexivity.
Qed.

Lemma getDiskCachePath_name (key : string) (c : State) :
  Path.isName (key ++ ".json") = true ->
  getDiskCachePath key c = Path.below (cacheDir c) ++ key ++ ".json".
Proof. intros H. unfold getDiskCachePath. apply join_name, H. Qed.

Lemma getDiskCachePath_inj (k1 k2 : string) (c c' : State) :
  Path.isName (k1 ++ ".json") = true ->
  Path.isName (k2 ++ ".json") = true ->
  cacheDir c = cacheDir c' ->
  getDiskCachePath k1 c = getDiskCachePath k2 c' -> k1 = k2.
Proof.
  intros H1 H2 Hdir H. rewrite (getDiskCachePath_name k1 c H1) in H.
  rewrite (getDiskCachePath_name k2 c' H2), Hdir in H.
  apply append_inj_l in H. apply append_inj_r in H. exact H.
Qed.

(** X14.  The answer of [get] is a function of the clock, the memory
    entry under the key and the file under the key alone.  Hence, in
    categories without a path separator, a [set] under another key never
    changes what [get] answers, at any later time. *)
Theorem cache_keys_isolated (prefix1 prefix2 key1 key2 : string)
        (params1 params2 v : JsVal) (c : State) :
  JsString.includes prefix1 "/" = false ->
  JsString.includes prefix2 "/" = false ->
  generateKey prefix1 params1 = Ok key1 ->
  generateKey prefix2 params2 = Ok key2 ->
  key1 <> key2 ->
  answer (get prefix2 params2 c)
  = Ok (tiersAnswer (clock c) (memoryCache c !! key2) (files c !! getDiskCachePath key2 c))
  /\ exists c1,
       set prefix1 params1 v c = Ok c1
       /\ forall ms, answer (get prefix2 params2 (elapse ms c1))
                     = answer (get prefix2 params2 (elapse ms c)).
Proof.
  intros Hp1 Hp2 H1 H2 Hne. split; [apply get_answer, H2|].
  exists (setOnDisk key1 v (setInMemory key1 v c)).
  split; [unfold set; rewrite H1; reflexivity|].
  intros ms. rewrite !(get_answer _ _ _ _ H2).
  assert (Hpath : getDiskCachePath key1 c <> getDiskCachePath key2 c).
  { intros E. apply Hne.
    exact (getDiskCachePath_inj key1 key2 c c (cache_file_name _ _ _ Hp1 H1)
             (cache_file_name _ _ _ Hp2 H2) eq_refl E). }
  unfold setOnDisk.
  destruct (JSON.stringifyIndent2 (entryObject v (clock (setInMemory key1 v c))));
    cbn [elapse setInMemory withFiles withMemory clock memoryCache files cacheDir].
  - rewrite lookup_insert_ne by exact Hne.
    change (getDiskCachePath key2 (elapse ms _)) with (getDiskCachePath key2 c).
    change (getDiskCachePath key1 (setInMemory key1 v c)) with (getDiskCachePath key1 c).
    rewrite lookup_insert_ne by exact Hpath. reflexivity.
  - rewrite lookup_insert_ne by exact Hne. reflexivity.
Qed.

Lemma cache_keys_isolated_witness :
  exists c1,
    set "search" (oneParam "query" "asthma") emptyResponse emptyCache = Ok c1
    /\ forall ms, answer (get "search" (JObj searchParams1) (elapse ms c1))
                  = answer (get "search" (JObj searchParams1) (elapse ms emptyCache)).
Proof.
  refine (proj2 (cache_keys_isolated "search" "search" _ searchKey
                   (oneParam "query" "asthma") (JObj searchParams1) emptyResponse emptyCache
                   _ _ _ _ _)).
  - reflexivity.
  - reflexivity.
  - vm_compute. reflexivity.
  - reflexivity.
  - vm_compute. discriminate.
Defined.

(** ** The clean-up methods of the cache *)

Lemma memoryAnswer_filter (now : Z) (m : gmap string CacheEntry) (key : string) :
  memoryAnswer now
    (filter (fun entry : string * CacheEntry =>
               (now - timestamp entry.2 >? MEMORY_CACHE_TTL_MS) = false) m !! key)
  = memoryAnswer now (m !! key).
Proof.
  destruct (m !! key) as [e|] eqn:He.
  - destruct (now - timestamp e >? MEMORY_CACHE_TTL_MS) eqn:E.
    + rewrite (map_lookup_filter_None_2 _ m key).
      * unfold memoryAnswer. rewrite E. reflexivity.
      * right. intros x Hx. rewrite He in Hx. injection Hx as <-. cbn [snd].
        rewrite E. discriminate.
    + rewrite (map_lookup_filter_Some_2 _ m key e He E). reflexivity.
  - rewrite (map_lookup_filter_None_2 _ m key); [reflexivity|]. left. exact He.
Qed.

Lemma diskAnswer_filter (now : Z) (dir : string) (f : gmap string string) (path : string) :
  diskAnswer now
    (filter (fun file : string * string =>
               listed dir file.1 && staleFile now file.2 = false) f !! path)
  = diskAnswer now (f !! path).
Proof.
  destruct (f !! path) as [content|] eqn:Hf.
  - destruct (listed dir path && staleFile now content) eqn:E.
    + rewrite (map_lookup_filter_None_2 _ f path).
      * unfold diskAnswer. apply andb_true_iff in E as [_ E]. rewrite E. reflexivity.
      * right. intros x Hx. rewrite Hf in Hx. injection Hx as <-. cbn [fst snd].
        rewrite E. discriminate.
    + rewrite (map_lookup_filter_Some_2 _ f path content Hf E). reflexivity.
  - rewrite (map_lookup_filter_None_2 _ f path); [reflexivity|]. left. exact Hf.
Qed.

(** X16.  [clearExpired] is invisible to the callers of [get]: whatever
    the state of the cache, [get] answers the same before and after it.
    It keeps every memory entry that has not expired and every file
    outside the cache directory. *)
Theorem clearExpired_transparent (prefix : string) (params : JsVal) (c : State) :
  answer (get prefix params (clearExpired c)) = answer (get prefix params c)
  /\ (forall key e, memoryCache c !! key = Some e ->
        clock c - timestamp e <= MEMORY_CACHE_TTL_MS ->
        memoryCache (clearExpired c) !! key = Some e)
  /\ (forall path, listed (cacheDir c) path = false ->
        files (clearExpired c) !! path = files c !! path).
Proof.
  split; [|split].
  - destruct (generateKey prefix params) as [key|e] eqn:Hkey.
    + rewrite !(get_answer _ _ _ _ Hkey). unfold tiersAnswer.
      cbn [clearExpired withFiles withMemory clock memoryCache files].
      change (getDiskCachePath key (clearExpired c)) with (getDiskCachePath key c).
      cbn [clearExpired withFiles withMemory files].
      rewrite memoryAnswer_filter, diskAnswer_filter. reflexivity.
    + unfold get. rewrite Hkey. reflexivity.
  - intros key e He Hage. cbn [clearExpired withFiles withMemory memoryCache].
    apply map_lookup_filter_Some. split; [exact He|]. cbn.
    rewrite Z.gtb_ltb. apply Z.ltb_ge. exact Hage.
  - intros path Hl. cbn [clearExpired withFiles files].
    destruct (files c !! path) as [content|] eqn:Hf.
    + apply map_lookup_filter_Some_2; [exact Hf|]. cbn [fst snd]. rewrite Hl. reflexivity.
    + apply map_lookup_filter_None_2. left. exact Hf.
Qed.

(** ** The record store: sessions *)

Lemma forEach_app {A} (l1 l2 : list A) (body : A -> M unit) (db : DB) :
  forEach (l1 ++ l2) body db
  = match forEach l1 body db with
    | (db', Ok _) => forEach l2 body db'
    | (db', Throw e) => (db', Throw e)
    end.
Proof.
  revert db. induction l1 as [|x l1 IH]; intros db; [reflexivity|].
  cbn [app forEach]. unfold bind.
  destruct (body x db) as [db1 [[]|e]]; [apply IH|reflexivity].
Qed.

Lemma sessionIds_fresh (sid : string) (db : DB) :
  wf db -> search_sessions db !! sid = None -> forall id, (sid, id) ∉ session_results db.
Proof.
  intros Hwf Hnone id Hin. apply (wf_foreign db Hwf) in Hin as [[row Hrow] _]. congruence.
Qed.

Lemma sessionIds_app_pairs (sid : string) (rows : list (string * string)) (ids : list string) :
  (forall id, (sid, id) ∉ rows) ->
  snd <$> List.filter (fun row : string * string => String.eqb (fst row) sid)
                      (rows ++ map (pair sid) ids)
  = ids.
Proof.
  intros Hfresh. rewrite List.filter_app.
  assert (E : List.filter (fun row : string * string => String.eqb (fst row) sid) rows = []).
  { destruct (List.filter _ rows) as [|[s i] l] eqn:E; [reflexivity|].
    assert (Hin : In (s, i) (List.filter (fun row : string * string => String.eqb (fst row) sid)
                               rows)) by (rewrite E; left; reflexivity).
    apply filter_In in Hin as [Hin Heq]. apply String.eqb_eq in Heq. cbn in Heq. subst.
    exfalso. apply (Hfresh i), list_elem_of_In, Hin. }
  rewrite E. cbn [app]. clear. induction ids as [|id ids IH]; [reflexivity|].
  cbn [map List.filter fst]. rewrite String.eqb_refl. cbn. f_equal. exact IH.
Qed.

(** What [createSession] does up to the first identifier it cannot insert. *)
Lemma createSession_stops (sid : string) (params : JsVal) (good rest : list string)
      (bad : string) (db : DB) :
  wf db ->
  params <> JUndefined ->
  search_sessions db !! sid = None ->
  NoDup good -> known db good ->
  studies db !! bad = None \/ In bad good ->
  exists db',
    createSession sid params (good ++ bad :: rest) db = (db', Throw SqliteError)
    /\ is_Some (search_sessions db' !! sid)
    /\ sessionRows sid db' = good
    /\ sessionIds sid db' = sort good
    /\ studies db' = studies db.
Proof.
  intros Hwf Hp Hnone Hnd Hall Hbad.
  destruct (serialize_some None EmptyString EmptyString params Hp) as [text Ht].
  fold (JSON.stringify params) in Ht.
  set (db1 := withSessions
                (<[sid := {| search_params := text;
                             created_at := now db; last_accessed_at := now db |}]>
                   (search_sessions db)) db).
  assert (Hs1 : is_Some (search_sessions db1 !! sid))
    by (unfold db1; cbn [withSessions search_sessions]; rewrite lookup_insert_eq;
        eexists; reflexivity).
  pose proof (sessionIds_fresh sid db Hwf Hnone) as Hfresh.
  set (db2 := withResults (session_results db1 ++ map (pair sid) good) db1).
  assert (Hrows : sessionRows sid db2 = good).
  { unfold sessionRows, db2. cbn [withResults session_results db1 withSessions].
    apply sessionIds_app_pairs, Hfresh. }
  exists db2. split; [|split; [exact Hs1|split; [exact Hrows|split; [|reflexivity]]]].
  - unfold createSession. rewrite Ht.
    unfold bind at 1, read. rewrite Hnone.
    unfold bind at 1. unfold modify at 1. fold db1.
    rewrite forEach_app.
    rewrite (forEach_insertResult sid good db1 Hnd Hs1).
    + fold db2. cbn [forEach]. unfold bind at 1. unfold insertResult at 1.
      destruct (bool_decide ((sid, bad) ∈ session_results db2)) eqn:Hdup; [reflexivity|].
      destruct Hbad as [Hbad | Hbad].
      * rewrite bool_decide_eq_false_2; [reflexivity|].
        intros [_ [row Hrow]]. cbn in Hrow. congruence.
      * exfalso. apply bool_decide_eq_false in Hdup. apply Hdup.
        unfold db2. cbn [withResults session_results]. apply elem_of_app. right.
        apply list_elem_of_In, in_map, Hbad.
    + unfold known in Hall. rewrite Forall_forall in Hall |- *. intros id Hid.
      split; [exact (Hall id Hid)|]. apply Hfresh.
  - unfold sessionIds. rewrite Hrows. reflexivity.
Qed.

Lemma first_offender (db : DB) (ids : list string) :
  (NoDup ids /\ known db ids)
  \/ exists good bad rest,
       ids = (good ++ bad :: rest)%list /\ NoDup good /\ known db good
       /\ (studies db !! bad = None \/ In bad good).
Proof.
  induction ids as [|x ids IH] using rev_ind.
  - left. split; [constructor|constructor].
  - destruct IH as [[Hnd Hk] | (good & bad & rest & -> & Hnd & Hk & Hbad)].
    + destruct (studies db !! x) as [row|] eqn:Hx.
      * destruct (in_dec string_dec x ids) as [Hin | Hnin].
        -- right. exists ids, x, []. repeat split; try assumption. right. exact Hin.
        -- left. split.
           ++ apply NoDup_app. split; [exact Hnd|]. split; [|apply NoDup_singleton].
              intros y Hy Hy'. apply list_elem_of_singleton in Hy'. subst y.
              apply Hnin, list_elem_of_In, Hy.
           ++ unfold known. apply Forall_app. split; [exact Hk|].
              constructor; [eexists; exact Hx|constructor].
      * right. exists ids, x, []. repeat split; try assumption. left. exact Hx.
    + right. exists good, bad, (rest ++ [x])%list. repeat split; try assumption.
      rewrite <- app_assoc. reflexivity.
Qed.

(** X17.  [createSession] is not atomic.  A session identifier that is
    taken makes it throw with nothing written.  For a new identifier it
    succeeds exactly when the record identifiers are pairwise distinct and
    all stored; otherwise it throws at the first identifier that is not
    stored or is repeated, and leaves the session behind with the
    identifiers before that one, which a later read finds in ascending
    order. *)
Theorem createSession_outcomes (sid : string) (params : JsVal) (ids : list string) (db : DB) :
  wf db ->
  params <> JUndefined ->
  (is_Some (search_sessions db !! sid) ->
     createSession sid params ids db = (db, Throw SqliteError))
  /\ (search_sessions db !! sid = None ->
      (snd (createSession sid params ids db) = Ok tt <-> NoDup ids /\ known db ids))
  /\ (forall good bad rest,
        search_sessions db !! sid = None ->
        ids = (good ++ bad :: rest)%list ->
        NoDup good -> known db good ->
        studies db !! bad = None \/ In bad good ->
        exists db',
          createSession sid params ids db = (db', Throw SqliteError)
          /\ is_Some (search_sessions db' !! sid)
          /\ sessionRows sid db' = good
          /\ sessionIds sid db' = sort good
          /\ studies db' = studies db).
Proof.
  intros Hwf Hp. split; [|split].
  - intros [row Hrow]. unfold createSession.
    destruct (serialize_some None EmptyString EmptyString params Hp) as [text Ht].
    fold (JSON.stringify params) in Ht. rewrite Ht.
    unfold bind, read. rewrite Hrow. reflexivity.
  - intros Hnone. split.
    + intros Hok. destruct (first_offender db ids) as [H | (good & bad & rest & E & Hnd & Hk & Hb)];
        [exact H|].
      destruct (createSession_stops sid params good rest bad db Hwf Hp Hnone Hnd Hk Hb)
        as (db' & Hcs & _).
      rewrite <- E in Hcs. rewrite Hcs in Hok. discriminate.
    + intros [Hnd Hk].
      exact (proj1 (wf_createSession sid params ids db Hwf Hp Hnone Hnd Hk)).
  - intros good bad rest Hnone -> Hnd Hk Hb.
    exact (createSession_stops sid params good rest bad db Hwf Hp Hnone Hnd Hk Hb).
Qed.

Lemma createSession_outcomes_witness :
  exists db',
    createSession "tok2" (JObj searchParams1) ["NCT00000101"; "NCT00000999"; "NCT00000102"]
                  sampleDb
    = (db', Throw SqliteError)
    /\ is_Some (search_sessions db' !! "tok2")
    /\ sessionRows "tok2" db' = ["NCT00000101"]
    /\ sessionIds "tok2" db' = ["NCT00000101"]
    /\ studies db' = studies sampleDb.
Proof.
  refine (proj2 (proj2 (createSession_outcomes "tok2" (JObj searchParams1)
                          ["NCT00000101"; "NCT00000999"; "NCT00000102"] sampleDb
                          wf_sampleDb _))
                 ["NCT00000101"] "NCT00000999" ["NCT00000102"] _ _ _ _ _).
  - discriminate.
  - vm_compute. reflexivity.
  - reflexivity.
  - apply NoDup_singleton.
  - repeat constructor. eexists. vm_compute. reflexivity.
  - left. vm_compute. reflexivity.
Defined.

Lemma getSessionResults_eq (sid : string) (db : DB) (vs : list JsVal) :
  mapM JSON.parse (selectRawJson sid db) = Some vs ->
  getSessionResults sid db = (touched sid db, Ok vs).
Proof.
  intros H. unfold getSessionResults, bind. rewrite touch_eq. unfold read.
  change (selectRawJson sid (touched sid db)) with (selectRawJson sid db).
  unfold parseAll. rewrite H. reflexivity.
Qed.

Lemma select_parsed (db : DB) (ids : list string) :
  known db ids ->
  forall vs,
    mapM JSON.parse (omap (fun id => raw_json <$> studies db !! id) ids) = Some vs ->
    Forall2 (fun id v => getStudy id db = (db, Ok (Some v))) ids vs.
Proof.
  induction ids as [|id ids IH]; intros Hk vs Hvs.
  - cbn in Hvs. injection Hvs as <-. constructor.
  - apply Forall_cons in Hk as [[row Hrow] Hk]. cbn [omap list_omap] in Hvs.
    rewrite Hrow in Hvs. cbn [fmap option_fmap option_map] in Hvs.
    cbn [mapM] in Hvs.
    destruct (JSON.parse (raw_json row)) as [v|] eqn:Hv; [|discriminate].
    cbn [mbind option_bind] in Hvs.
    destruct (mapM JSON.parse (omap (fun id => raw_json <$> studies db !! id) ids))
      as [vs'|] eqn:E; [|discriminate].
    cbn in Hvs. injection Hvs as <-.
    constructor; [exact (getStudy_row id row v db Hrow Hv)|]. apply IH; [exact Hk|reflexivity].
Qed.

(** X18.  Sessions read back what the record store holds.  In a
    database that satisfies its invariant, [getSessionResults] returns, in
    ascending order of the session's identifiers, exactly the payloads that
    [getStudy] returns for them, and changes nothing but the session's
    access time; after a [createSession] that succeeded these are the
    payloads of the identifiers it was given, in ascending order of the
    identifiers and not in the order in which they were given. *)
Theorem session_roundtrip (sid : string) (db : DB) :
  wf db ->
  (exists vs,
     getSessionResults sid db = (touched sid db, Ok vs)
     /\ Forall2 (fun id v => getStudy id db = (db, Ok (Some v))) (sessionIds sid db) vs)
  /\ (forall params ids,
        params <> JUndefined -> search_sessions db !! sid = None ->
        NoDup ids -> known db ids ->
        exists db' vs,
          createSession sid params ids db = (db', Ok tt)
          /\ getSessionResults sid db' = (touched sid db', Ok vs)
          /\ Forall2 (fun id v => getStudy id db = (db, Ok (Some v))) (sort ids) vs)
  /\ ascending (sessionIds sid db).
Proof.
  assert (Hread : forall db, wf db ->
            exists vs,
              getSessionResults sid db = (touched sid db, Ok vs)
              /\ Forall2 (fun id v => getStudy id db = (db, Ok (Some v)))
                         (sessionIds sid db) vs).
  { clear db. intros db Hwf.
    assert (Hk : known db (sessionIds sid db)).
    { unfold known. rewrite Forall_forall. intros id Hin. apply list_elem_of_In in Hin.
      apply sessionIds_In in Hin. exact (proj2 (wf_foreign db Hwf sid id Hin)). }
    destruct (select_resolved db (sessionIds sid db) Hwf Hk) as (vs & typed & Hvs & _).
    exists vs. split; [apply getSessionResults_eq, Hvs|].
    apply select_parsed; assumption. }
  intros Hwf. split; [exact (Hread db Hwf)|]. split; [|apply sessionIds_ascending].
  intros params ids Hp Hnone Hnd Hk.
  destruct (wf_createSession sid params ids db Hwf Hp Hnone Hnd Hk) as (Hok & Hwf' & Hids & _).
  destruct (createSession sid params ids db) as [db' r] eqn:Hcs. cbn [fst snd] in *.
  subst r. destruct (Hread db' Hwf') as (vs & Hget & Hall).
  exists db', vs. split; [reflexivity|]. split; [exact Hget|].
  rewrite Hids in Hall.
  assert (Hst : studies db' = studies db).
  { assert (H : studies (fst (createSession sid params ids db)) = studies db).
    { unfold createSession.
      destruct (JSON.stringify params); [|reflexivity].
      unfold bind at 1, read. rewrite Hnone. unfold bind at 1, modify at 1.
      set (db1 := withSessions _ db). change (studies db) with (studies db1).
      generalize db1. clear. induction ids as [|id ids IH]; intros db1; [reflexivity|].
      cbn [forEach]. unfold bind. unfold insertResult at 1.
      destruct (bool_decide _); [reflexivity|]. destruct (bool_decide _); [|reflexivity].
      rewrite IH. reflexivity. }
    rewrite Hcs in H. exact H. }
  remember (sort ids) as sorted eqn:E. clear - Hall Hst.
  induction Hall as [|id v sorted vs H Hall IH]; constructor; [|exact IH].
  unfold getStudy, bind, read in *. rewrite Hst in H.
  destruct (studies db !! id) as [row|]; [|discriminate].
  destruct (JSON.parse (raw_json row)); [|discriminate].
  injection H as H. rewrite H. reflexivity.
Qed.

Lemma session_roundtrip_witness :
  exists db' vs,
    createSession "tok3" (JObj searchParams1) ["NCT00000102"; "NCT00000101"] filedDb
    = (db', Ok tt)
    /\ getSessionResults "tok3" db' = (touched "tok3" db', Ok vs)
    /\ Forall2 (fun id v => getStudy id filedDb = (filedDb, Ok (Some v)))
               ["NCT00000101"; "NCT00000102"] vs.
Proof.
  refine (proj1 (proj2 (session_roundtrip "tok3" filedDb _))
                (JObj searchParams1) ["NCT00000102"; "NCT00000101"] _ _ _ _).
  - apply (wf_upsertStudy sampleStudyB typedStudyB); [|reflexivity|reflexivity].
    apply (wf_upsertStudy sampleStudyA typedStudyA); [|reflexivity|reflexivity].
    apply wf_emptyDb.
  - discriminate.
  - vm_compute. reflexivity.
  - apply NoDup_cons. split; [|apply NoDup_singleton].
    intros H. apply list_elem_of_singleton in H. discriminate.
  - repeat constructor; eexists; vm_compute; reflexivity.
Defined.

Lemma sessionIds_touched (sid sid' : string) (db : DB) :
  sessionIds sid' (touched sid db) = sessionIds sid' db.
Proof. reflexivity. Qed.

(** X19.  A refinement stays inside its session.  In a database that
    satisfies its invariant, [refine_results] never answers with an error,
    leaves the identifiers of every other session as they are, and leaves
    the stored records as they are. *)
Theorem refine_isolated (sid sid' : string) (filters : FilterParams) (db : DB) :
  wf db ->
  sid' <> sid ->
  let db' := fst (refine_results sid filters db) in
  (exists text, snd (refine_results sid filters db) = Content text)
  /\ sessionIds sid' db' = sessionIds sid' db
  /\ studies db' = studies db.
Proof.
  intros Hwf Hne db'. subst db'.
  destruct (refine_results_spec sid filters db Hwf) as (typed & _ & _ & ->).
  destruct typed as [|st typed]; cbn [fst snd].
  - split; [eexists; reflexivity|]. split; reflexivity.
  - split; [eexists; reflexivity|]. split; [|reflexivity].
    rewrite (sessionIds_updated_other sid sid' _ _ Hne). reflexivity.
Qed.

Lemma refine_isolated_witness :
  sessionIds "tok1" (fst (refine_results "tok9" withResultsOnly sampleDb))
  = sessionIds "tok1" sampleDb.
Proof.
  refine (proj1 (proj2 (refine_isolated "tok9" "tok1" withResultsOnly sampleDb
                          wf_sampleDb _))).
  discriminate.
Defined.

(** ** The record store: rows *)



Lemma asStudy_protocol (s : JsVal) (typed : Study) :
  asStudy s = Some typed ->
  exists props,
    member s "protocolSection" = JObj props
    /\ designModule (protocolSection typed)
       = obj (JObj props) "designModule" asDesignModule
    /\ eligibilityModule (protocolSection typed)
       = obj (JObj props) "eligibilityModule" asEligibilityModule
    /\ oversightModule (protocolSection typed)
       = obj (JObj props) "oversightModule" asOversightModule.
Proof.
  unfold asStudy. destruct (member s "protocolSection") as [| | | | | |props] eqn:E;
    try discriminate.
  cbn [asObject mbind option_bind]. unfold asProtocolSection.
  destruct (asObject (member (JObj props) "identificationModule") ≫= asIdentificationModule)
    as [ident|]; [|discriminate].
  destruct (asObject (member (JObj props) "statusModule") ≫= asStatusModule)
    as [status|]; [|discriminate].
  cbn [mbind option_bind]. intros [= <-]. exists props. repeat split.
Qed.

Lemma backfillRow_project (s : JsVal) (typed : Study) (raw : string) (fetched updated : Z) :
  JSON.parse raw = Some s ->
  asStudy s = Some typed ->
  backfillRow (project typed raw fetched updated) = Some (project typed raw fetched updated).
Proof.
  intros Hp Hs. destruct (asStudy_protocol s typed Hs) as (props & Hm & Hd & He & Ho).
  unfold backfillRow. cbn [project raw_json]. rewrite Hp, Hm.
  rewrite <- Hd, <- He, <- Ho. reflexivity.
Qed.

Lemma written_upsertStudy (s : JsVal) (typed : Study) (db : DB) :
  written db -> asStudy s = Some typed -> isJson s = true ->
  written (fst (upsertStudy s db)).
Proof.
  intros Hw Hs Hjson.
  destruct (upsertStudy_outcome s typed db Hs) as (raw & Hraw & Hcases & _).
  destruct Hcases as [(_ & Hst & _) | (-> & _)]; [|exact Hw].
  intros id row. rewrite Hst. unfold upsertRow. cbn [withStudies studies].
  destruct (decide (studyId typed = id)) as [<- | Hne].
  - rewrite lookup_insert_eq. intros [= <-]. exists s, typed.
    split; [apply parse_stringify; assumption|]. split; [exact Hs|reflexivity].
  - rewrite lookup_insert_ne by exact Hne. apply Hw.
Qed.

Lemma written_emptyDb : written emptyDb.
Proof. intros id row H. cbn in H. rewrite lookup_empty in H. discriminate. Qed.

Lemma backfillRow_fills (row : StudyRow) (s : JsVal) (typed : Study) :
  JSON.parse (raw_json row) = Some s ->
  asStudy s = Some typed ->
  exists filled,
    backfillRow row = Some filled
    /\ backfilled filled
       = backfilled (project typed (raw_json row) (fetched_at row) (updated_at row))
    /\ kept filled = kept row.
Proof.
  intros Hp Hs. destruct (asStudy_protocol s typed Hs) as (props & Hm & Hd & He & Ho).
  unfold backfillRow. rewrite Hp, Hm. eexists. split; [reflexivity|].
  unfold backfilled, kept.
  cbn [project allocation_ intervention_model primary_purpose masking_
       is_fda_regulated_drug is_fda_regulated_device age_groups].
  rewrite Hd, He, Ho. split; reflexivity.
Qed.

Lemma backfillStep_frame (db : DB) (entry : string * StudyRow) :
  search_sessions (backfillStep db entry) = search_sessions db
  /\ session_results (backfillStep db entry) = session_results db
  /\ fts_accepts (backfillStep db entry) = fts_accepts db
  /\ (forall id, id <> entry.1 -> studies (backfillStep db entry) !! id = studies db !! id)
  /\ (studies (backfillStep db entry) !! entry.1 = studies db !! entry.1
      \/ exists filled, backfillRow entry.2 = Some filled
                        /\ studies (backfillStep db entry) !! entry.1 = Some filled)
  /\ (fts_accepts db (fts_updates db) = true ->
      forall filled, backfillRow entry.2 = Some filled ->
                     studies (backfillStep db entry) !! entry.1 = Some filled).
Proof.
  unfold backfillStep. destruct (backfillRow entry.2) as [filled|].
  - destruct (fts_accepts db (fts_updates db)); cbn [indexed withStudies studies
      search_sessions session_results fts_accepts].
    + repeat split.
      * intros id Hne. apply lookup_insert_ne. congruence.
      * right. exists filled. split; [reflexivity | apply lookup_insert_eq].
      * intros _ f [= <-]. apply lookup_insert_eq.
    + repeat split; [left; reflexivity | discriminate].
  - repeat split; [left; reflexivity | discriminate].
Qed.

(** The loop touches the rows of its entries only, and leaves each as it
    was or filled. *)
Lemma backfill_loop (entries : list (string * StudyRow)) :
  forall db,
    let db' := fold_left backfillStep entries db in
    search_sessions db' = search_sessions db
    /\ session_results db' = session_results db
    /\ fts_accepts db' = fts_accepts db
    /\ forall id,
         studies db' !! id = studies db !! id
         \/ exists row filled,
              In (id, row) entries /\ backfillRow row = Some filled
              /\ studies db' !! id = Some filled.
Proof.
  induction entries as [|[id0 row0] entries IH]; intros db; cbn [fold_left].
  - repeat split. intros id. left. reflexivity.
  - destruct (backfillStep_frame db (id0, row0)) as (Hs & Hr & Hf & Hother & Hself & _).
    destruct (IH (backfillStep db (id0, row0))) as (Hs' & Hr' & Hf' & Hrows).
    cbn zeta in *. rewrite Hs', Hr', Hf'. repeat split; try assumption.
    intros id. destruct (Hrows id) as [E | (row & filled & Hin & Hb & E)].
    + rewrite E. destruct (decide (id = id0)) as [-> | Hne].
      * cbn [fst snd] in Hself. destruct Hself as [E' | (filled & Hb & E')].
        -- left. exact E'.
        -- right. exists row0, filled. split; [left; reflexivity|]. split; assumption.
      * left. apply Hother. exact Hne.
    + right. exists row, filled. split; [right; exact Hin|]. split; assumption.
Qed.

Lemma backfill_loop_accepted (entries : list (string * StudyRow)) :
  forall db,
    (forall n, fts_accepts db n = true) ->
    NoDup (map fst entries) ->
    forall id row filled,
      In (id, row) entries -> backfillRow row = Some filled ->
      studies (fold_left backfillStep entries db) !! id = Some filled.
Proof.
  induction entries as [|[id0 row0] entries IH]; intros db Hacc Hnd id row filled Hin Hb;
    [destruct Hin|].
  cbn [map fst] in Hnd. apply NoDup_cons in Hnd as [Hnotin Hnd]. cbn [fold_left].
  destruct (backfillStep_frame db (id0, row0)) as (_ & _ & Hf & _ & _ & Hset).
  assert (Hacc' : forall n, fts_accepts (backfillStep db (id0, row0)) n = true)
    by (intros n; rewrite Hf; apply Hacc).
  destruct Hin as [[= -> ->] | Hin].
  - destruct (backfill_loop entries (backfillStep db (id, row))) as (_ & _ & _ & Hrows).
    destruct (Hrows id) as [E | (row' & filled' & Hin & _)].
    + cbn zeta in E. rewrite E. apply (Hset (Hacc _)). exact Hb.
    + exfalso. apply Hnotin. apply list_elem_of_In, in_map_iff.
      exists (id, row'). split; [reflexivity | exact Hin].
  - apply (IH _ Hacc' Hnd id row filled Hin Hb).
Qed.

Lemma NoDup_map_filter {A B} (f : A -> B) (p : A -> bool) (l : list A) :
  NoDup (map f l) -> NoDup (map f (List.filter p l)).
Proof.
  induction l as [|x l IH]; cbn [map List.filter]; intros Hnd; [constructor|].
  apply NoDup_cons in Hnd as [Hx Hnd]. destruct (p x); [|exact (IH Hnd)].
  cbn [map]. apply NoDup_cons. split; [|exact (IH Hnd)].
  intros Hin. apply Hx. apply list_elem_of_In, in_map_iff in Hin as (y & E & Hy).
  apply filter_In in Hy as [Hy _]. apply list_elem_of_In, in_map_iff. exists y. tauto.
Qed.

Lemma selected_In (db : DB) (id : string) (row : StudyRow) :
  In (id, row) (selected db)
  <-> studies db !! id = Some row /\ unfilled row = true.
Proof.
  unfold selected.
  rewrite filter_In, <- list_elem_of_In, elem_of_map_to_list. reflexivity.
Qed.

Lemma selected_NoDup (db : DB) : NoDup (map fst (selected db)).
Proof. apply NoDup_map_filter, NoDup_fst_map_to_list. Qed.

(** X21.  The backfill that runs when the database is opened agrees
    with [upsertStudy], in whatever order its loop takes the rows that it
    selects.  A row whose allocation and drug flag are both set is not
    touched.  A row that lacks one of them and whose payload is a
    study is either left as it is or has its seven denormalised columns
    set to what [upsertStudy] writes for that payload, the other columns
    staying as they are; it is set whenever SQLite accepts the updates of
    the full-text index.  No row is added or removed, and the sessions are
    as they were.  Hence the rows of a database that were all written by
    [upsertStudy] are left exactly as they are, and [upsertStudy] of a
    payload that JSON can express keeps the database in that state. *)
Theorem backfill_agrees_with_upsert (db : DB) (rows : list (string * StudyRow)) :
  Permutation rows (selected db) ->
  let db' := backfillRows rows db in
  (forall id row,
     studies db !! id = Some row -> unfilled row = false ->
     studies db' !! id = Some row)
  /\ (forall id row s typed,
        studies db !! id = Some row -> unfilled row = true ->
        JSON.parse (raw_json row) = Some s -> asStudy s = Some typed ->
        exists filled,
          backfilled filled
          = backfilled (project typed (raw_json row) (fetched_at row) (updated_at row))
          /\ kept filled = kept row
          /\ (studies db' !! id = Some row \/ studies db' !! id = Some filled)
          /\ ((forall n, fts_accepts db n = true) -> studies db' !! id = Some filled))
  /\ (forall id, studies db !! id = None -> studies db' !! id = None)
  /\ search_sessions db' = search_sessions db
  /\ session_results db' = session_results db
  /\ (written db -> studies db' = studies db)
  /\ (written db ->
      forall s typed,
        asStudy s = Some typed -> isJson s = true ->
        written (fst (upsertStudy s db))).
Proof.
  intros Hperm db'. subst db'. unfold backfillRows.
  assert (Hsel : forall id row,
             In (id, row) rows <-> studies db !! id = Some row /\ unfilled row = true).
  { intros id row. rewrite <- selected_In.
    split; apply Permutation_in; [exact Hperm | symmetry; exact Hperm]. }
  assert (Hnd : NoDup (map fst rows)).
  { rewrite (Permutation_map fst Hperm). apply selected_NoDup. }
  destruct (backfill_loop rows db) as (Hs & Hr & _ & Hrows). cbn zeta in *.
  split; [|split; [|split; [|split; [exact Hs|split; [exact Hr|split]]]]].
  - intros id row Hrow Hun. destruct (Hrows id) as [E | (row' & filled & Hin & _)].
    + rewrite E. exact Hrow.
    + apply Hsel in Hin as [Hrow' Hun']. congruence.
  - intros id row s typed Hrow Hun Hp Hty.
    destruct (backfillRow_fills row s typed Hp Hty) as (filled & Hb & Hcols & Hkept).
    exists filled. split; [exact Hcols|]. split; [exact Hkept|]. split.
    + destruct (Hrows id) as [E | (row' & filled' & Hin & Hb' & E)].
      * left. rewrite E. exact Hrow.
      * right. apply Hsel in Hin as [Hrow' _].
        assert (row' = row) by congruence. subst row'.
        rewrite E. congruence.
    + intros Hacc. apply (backfill_loop_accepted rows db Hacc) with (row := row).
      * exact Hnd.
      * apply Hsel. split; assumption.
      * exact Hb.
  - intros id Hnone. destruct (Hrows id) as [E | (row' & filled & Hin & _)].
    + rewrite E. exact Hnone.
    + apply Hsel in Hin as [Hrow' _]. congruence.
  - intros Hw. apply map_eq. intros id.
    destruct (Hrows id) as [E | (row & filled & Hin & Hb & E)]; [exact E|].
    apply Hsel in Hin as [Hrow _].
    destruct (Hw id row Hrow) as (s & typed & Hp & Hty & Erow).
    pose proof (backfillRow_project s typed (raw_json row) (fetched_at row) (updated_at row)
                  Hp Hty) as B.
    rewrite <- Erow in B. rewrite E, Hrow. congruence.
  - intros Hw s typed Hty Hjson. exact (written_upsertStudy s typed db Hw Hty Hjson).
Qed.

Lemma backfill_agrees_with_upsert_witness :
  studies (backfillDenormalizedFields filedDb) = studies filedDb.
Proof.
  destruct (backfill_agrees_with_upsert filedDb (selected filedDb) (Permutation_refl _))
    as (_ & _ & _ & _ & _ & Hsame & _).
  apply Hsame. unfold filedDb.
  apply (written_upsertStudy sampleStudyB _ _ (written_upsertStudy sampleStudyA _ _
           written_emptyDb eq_refl eq_refl) eq_refl eq_refl).
Defined.


(** ** The session tools *)

Lemma resolved_unique (db : DB) (l1 l2 : list Study) :
  map studyId l1 = map studyId l2 ->
  Forall (fun st => resolve db (studyId st) = Some st) l1 ->
  Forall (fun st => resolve db (studyId st) = Some st) l2 ->
  l1 = l2.
Proof.
  revert l2. induction l1 as [|a l1 IH]; intros [|b l2] Hm H1 H2; try discriminate.
  - reflexivity.
  - cbn in Hm. injection Hm as Hab Hm.
    apply Forall_cons in H1 as [Ha H1]. apply Forall_cons in H2 as [Hb H2].
    rewrite Hab, Hb in Ha. injection Ha as <-. f_equal. apply IH; assumption.
Qed.

Lemma resolve_studies (db db' : DB) (id : string) :
  studies db' = studies db -> resolve db' id = resolve db id.
Proof. unfold resolve. intros ->. reflexivity. Qed.

Lemma summarize_session_spec (sid : string) (maxResults : nat) (db : DB) :
  wf db ->
  exists typed,
    map studyId typed = sessionIds sid db
    /\ Forall (fun st => resolve db (studyId st) = Some st) typed
    /\ summarize_session sid maxResults db
       = (touched sid db,
          Content match typed with
                  | [] => notFoundText sid
                  | _ => formatStudyList typed maxResults
                  end).
Proof.
  intros Hwf.
  destruct (getSessionResults_wf sid db Hwf) as (vs & typed & Hget & Hty & Hids & Hlen & Hres).
  exists typed. split; [exact Hids|]. split; [exact Hres|].
  unfold summarize_session, summarizeBody, bind. rewrite Hget.
  destruct vs as [|v vs].
  - cbn in Hty. injection Hty as <-. reflexivity.
  - rewrite Hty. destruct typed as [|st typed]; [|reflexivity].
    apply (f_equal (@List.length _)) in Hids. rewrite <- Hlen in Hids. discriminate.
Qed.

(** X22.  [summarize_session] only reads: it never answers with an
    error and changes nothing but the access time of the session.  It
    shows what the refinement before it kept: after a [refine_results]
    that kept at least one record, its answer is the listing that follows
    the first line of the refinement's answer; after one that kept none it
    is the not-found text. *)
Theorem summarize_after_refine (sid : string) (filters : FilterParams) (db : DB)
        (maxResults : nat) :
  wf db ->
  sessionIds sid db <> [] ->
  let db1 := fst (refine_results sid filters db) in
  fst (summarize_session sid maxResults db) = touched sid db
  /\ exists kept n,
       snd (refine_results sid filters db)
       = Content (filteredHeader (List.length kept) n ++ formatStudyList kept 10)
       /\ map studyId kept = sessionIds sid db1
       /\ summarize_session sid maxResults db1
          = (touched sid db1,
             Content match kept with
                     | [] => notFoundText sid
                     | _ => formatStudyList kept maxResults
                     end).
Proof.
  intros Hwf Hne db1.
  split.
  { destruct (summarize_session_spec sid maxResults db Hwf) as (typed & _ & _ & ->).
    reflexivity. }
  destruct (refine_step sid filters db Hwf) as (_ & Hst & Hwf1). fold db1 in Hst, Hwf1.
  destruct (refine_results_spec sid filters db Hwf) as (typed & Hids & Hres & Hr).
  destruct typed as [|st typed]; [cbn in Hids; congruence|].
  set (all := st :: typed) in *.
  exists (filterStudies all filters), (List.length all).
  assert (Hdb1 : db1 = updated sid (studyId <$> filterStudies all filters) (touched sid db))
    by (unfold db1; rewrite Hr; reflexivity).
  split; [rewrite Hr; cbn [snd]; unfold filteredText, filteredHeader, lengthText;
          rewrite !append_assoc; reflexivity|].
  assert (Hk : map studyId (filterStudies all filters) = sessionIds sid db1).
  { rewrite Hdb1, sessionIds_updated.
    assert (Hkept : studyId <$> filterStudies all filters
                    = List.filter (recordMatches db filters) (sessionIds sid db))
      by (rewrite <- Hids; apply filter_resolved; exact Hres).
    rewrite Hkept, sort_kept. exact Hkept. }
  split; [exact Hk|].
  destruct (summarize_session_spec sid maxResults db1 Hwf1) as (typed1 & Hids1 & Hres1 & ->).
  assert (E : typed1 = filterStudies all filters).
  { apply (resolved_unique db1); [congruence | exact Hres1 |].
    rewrite Forall_forall in Hres |- *. intros x Hx.
    rewrite (resolve_studies db db1 _ Hst). apply Hres.
    apply list_elem_of_In in Hx. apply list_elem_of_In.
    apply filterStudies_In in Hx. apply Hx. }
  rewrite E. reflexivity.
Qed.

Lemma summarize_after_refine_witness :
  exists kept n,
    snd (refine_results "tok1" withResultsOnly sampleDb)
    = Content (filteredHeader (List.length kept) n ++ formatStudyList kept 10)
    /\ map studyId kept = sessionIds "tok1" (fst (refine_results "tok1" withResultsOnly sampleDb))
    /\ summarize_session "tok1" 5 (fst (refine_results "tok1" withResultsOnly sampleDb))
       = (touched "tok1" (fst (refine_results "tok1" withResultsOnly sampleDb)),
          Content match kept with
                  | [] => notFoundText "tok1"
                  | _ => formatStudyList kept 5
                  end).
Proof.
  refine (proj2 (summarize_after_refine "tok1" withResultsOnly sampleDb 5 wf_sampleDb _)).
  vm_compute. discriminate.
Defined.

(** ** The exports *)

Import Exports.

Lemma basename_plain (p : string) : JsString.includes p "/" = false -> basename p = p.
Proof.
  intros H. unfold basename. rewrite (segments_plain p EmptyString H).
  cbn [String.append List.filter]. destruct p; reflexivity.
Qed.

Lemma includes_exports (rest : string) : JsString.includes ("exports/" ++ rest) "/" = true.
Proof. apply includes_spec. exists "exports", rest. reflexivity. Qed.

(** [path.join] normalises: the leading [./] is dropped, the empty name
    and ["."] stand for the directory itself and [".."] for its parent. *)
Lemma ensureExportsDir_plain (format : ExportFormat) (filename : string) :
  JsString.includes filename "/" = false ->
  ensureExportsDir format filename
  = if String.eqb filename ".." then "exports"
    else if String.eqb filename EmptyString || String.eqb filename "."
         then "exports/" ++ formatName format
         else "exports/" ++ formatName format ++ "/" ++ filename.
Proof.
  intros H. unfold ensureExportsDir.
  destruct (String.eqb_spec filename "..") as [-> | H3]; [destruct format; reflexivity|].
  destruct (String.eqb_spec filename EmptyString) as [-> | H1]; [destruct format; reflexivity|].
  destruct (String.eqb_spec filename ".") as [-> | H2]; [destruct format; reflexivity|].
  cbn [orb].
  assert (Hname : Path.isName filename = true).
  { unfold Path.isName. apply String.eqb_neq in H1, H2, H3. rewrite H, H1, H2, H3.
    reflexivity. }
  rewrite (join_name _ filename Hname). destruct format; reflexivity.
Qed.

(** X23.  [getExportPath] returns a path that contains a separator as it
    is, and files a bare file name under [exports/<format>/].  Except for
    the name [..], the path it returns is one it returns as it is: an
    export to the path reported by an earlier export goes to the same
    file, in any format. *)
Theorem getExportPath_spec (outputPath : string) (format : ExportFormat) :
  (JsString.includes outputPath "/" = true -> getExportPath outputPath format = outputPath)
  /\ (JsString.includes outputPath "/" = false ->
      outputPath <> EmptyString -> outputPath <> "." -> outputPath <> ".." ->
      getExportPath outputPath format
      = "exports/" ++ formatName format ++ "/" ++ outputPath)
  /\ (outputPath <> ".." ->
      forall format',
        getExportPath (getExportPath outputPath format) format'
        = getExportPath outputPath format).
Proof.
  assert (Hsep : forall p f, JsString.includes p "/" = true -> getExportPath p f = p).
  { intros p f H. unfold getExportPath. rewrite H, orb_true_r. reflexivity. }
  split; [apply Hsep|]. split.
  - intros H H1 H2 H3. unfold getExportPath.
    rewrite H, (includes_false_head _ H), (basename_plain _ H). cbn [orb].
    rewrite (ensureExportsDir_plain _ _ H).
    apply String.eqb_neq in H1, H2, H3. rewrite H1, H2, H3. reflexivity.
  - intros H3 format'. apply Hsep.
    destruct (JsString.includes outputPath "/") eqn:H; [rewrite (Hsep _ _ H); exact H|].
    unfold getExportPath.
    rewrite H, (includes_false_head _ H), (basename_plain _ H). cbn [orb].
    rewrite (ensureExportsDir_plain _ _ H).
    apply String.eqb_neq in H3. rewrite H3.
    destruct (String.eqb outputPath EmptyString || String.eqb outputPath ".");
      apply includes_exports.
Qed.

Lemma getExportPath_spec_witness :
  getExportPath "trials.json" json = "exports/json/trials.json"
  /\ getExportPath (getExportPath "trials.json" json) csv = getExportPath "trials.json" json.
Proof.
  split.
  - refine (proj1 (proj2 (getExportPath_spec "trials.json" json)) _ _ _ _);
      [reflexivity | discriminate | discriminate | discriminate].
  - refine (proj2 (proj2 (getExportPath_spec "trials.json" json)) _ csv). discriminate.
Defined.

(** *** A compact JSON text is one line *)

Lemma oneLine_app (a b : string) : oneLine (a ++ b) = oneLine a && oneLine b.
Proof. apply allChars_app. Qed.

Lemma oneLine_quoteChar (c : ascii) : oneLine (quoteChar c) = true.
Proof. destruct c as [[] [] [] [] [] [] [] []]; exact eq_refl. Qed.

Lemma oneLine_quote (s : string) : oneLine (quote s) = true.
Proof.
  unfold quote. change (oneLine (quoteChars s) = true).
  induction s as [|c s IH]; [reflexivity|].
  cbn [quoteChars]. rewrite oneLine_app, oneLine_quoteChar, IH. reflexivity.
Qed.

Lemma oneLine_uint (d : Decimal.uint) : oneLine (NilEmpty.string_of_uint d) = true.
Proof. induction d; cbn; auto. Qed.

Lemma oneLine_number (n : Z) : oneLine (numberToString n) = true.
Proof.
  unfold numberToString, natToString. destruct n; apply oneLine_uint.
Qed.

Lemma oneLine_concat (sep : string) (l : list string) :
  oneLine sep = true -> Forall (fun t => oneLine t = true) l ->
  oneLine (String.concat sep l) = true.
Proof.
  intros Hsep Hl. induction Hl as [|t l Ht Hl IH]; [reflexivity|].
  destruct l as [|t' l]; [exact Ht|].
  cbn [String.concat]. cbn [String.concat] in IH.
  rewrite !oneLine_app, Ht, Hsep, IH. reflexivity.
Qed.

Lemma oneLine_wrap (opening closing stepback inner : string) (partial : list string) :
  oneLine opening = true -> oneLine closing = true ->
  Forall (fun t => oneLine t = true) partial ->
  oneLine (wrap opening closing EmptyString stepback inner partial) = true.
Proof.
  intros Ho Hc Hp. unfold wrap. destruct partial as [|t l].
  - rewrite oneLine_app, Ho, Hc. reflexivity.
  - cbn [String.eqb]. rewrite !oneLine_app, Ho, Hc, oneLine_concat; [reflexivity|reflexivity|exact Hp].
Qed.

Lemma oneLine_serialize (K : option (list string)) (v : JsVal) :
  forall indent text,
    serialize K EmptyString indent v = Some text -> oneLine text = true.
Proof.
  induction v as [| |b|n|s|elems IH|props IH] using JsVal_ind; intros indent text H.
  - discriminate.
  - injection H as <-. reflexivity.
  - destruct b; injection H as <-; reflexivity.
  - injection H as <-. apply oneLine_number.
  - injection H as <-. apply oneLine_quote.
  - rewrite serialize_JArr in H. injection H as <-.
    apply oneLine_wrap; [reflexivity|reflexivity|].
    unfold arrayPartial. rewrite Forall_forall. intros t Ht.
    apply list_elem_of_In, in_map_iff in Ht as (x & <- & Hx).
    rewrite Forall_forall in IH. specialize (IH x (proj2 (list_elem_of_In _ _) Hx)).
    destruct (serialize K EmptyString (indent ++ EmptyString) x) as [t|] eqn:E;
      [exact (IH _ _ E)|reflexivity].
  - rewrite serialize_JObj in H. injection H as <-.
    apply oneLine_wrap; [reflexivity|reflexivity|].
    assert (Hm : forall k t, (forall t', t = Some t' -> oneLine t' = true) ->
                   Forall (fun t => oneLine t = true) (memberText EmptyString k t)).
    { intros k [t|] Ht; [|constructor]. cbn [memberText String.eqb].
      constructor; [|constructor].
      rewrite !oneLine_app, oneLine_quote, (Ht t eq_refl). reflexivity. }
    assert (Htexts : forall k t,
               In (k, t) (memberTexts K EmptyString (indent ++ EmptyString) props) ->
               forall t', t = Some t' -> oneLine t' = true).
    { intros k t Hin t' ->. unfold memberTexts in Hin.
      apply in_map_iff in Hin as ([k' x] & [= <- E] & Hx). cbn [snd] in E.
      rewrite Forall_forall in IH.
      exact (IH (k', x) (proj2 (list_elem_of_In _ _) Hx) _ _ E). }
    unfold objectPartial. destruct K as [ks|].
    + rewrite Forall_forall. intros t Ht. apply list_elem_of_In, in_flat_map in Ht
        as (k & _ & Ht).
      assert (Hk := Hm k (default None (assoc k (memberTexts (Some ks) EmptyString
                                                  (indent ++ EmptyString) props)))).
      rewrite Forall_forall in Hk. apply Hk; [|apply list_elem_of_In, Ht].
      intros t' Ht'. destruct (assoc k _) as [o|] eqn:Ea; [|discriminate].
      change (o = Some t') in Ht'. subst o. apply assoc_Some_In in Ea.
      exact (Htexts k (Some t') Ea t' eq_refl).
    + rewrite Forall_forall. intros t Ht. apply list_elem_of_In, in_flat_map in Ht
        as ([k o] & Hin & Ht). cbn [fst snd] in Ht.
      assert (Hk := Hm k o (Htexts k o Hin)). rewrite Forall_forall in Hk.
      apply Hk, list_elem_of_In, Ht.
Qed.

Lemma splitLines_line (l rest current : string) :
  oneLine l = true ->
  splitLines (l ++ rest) current = splitLines rest (current ++ l).
Proof.
  revert current. induction l as [|c l IH]; intros current H.
  - cbn. rewrite append_nil_r. reflexivity.
  - cbn [oneLine allChars] in H. apply andb_true_iff in H as [Hc Hl].
    apply negb_true_iff in Hc. cbn [String.append splitLines]. rewrite Hc.
    rewrite (IH _ Hl), append_assoc. reflexivity.
Qed.

Lemma splitLines_join (l : string) (ls : list string) :
  Forall (fun t => oneLine t = true) (l :: ls) ->
  splitLines (JsString.join newline (l :: ls)) EmptyString = l :: ls.
Proof.
  unfold JsString.join. revert l. induction ls as [|l' ls IH]; intros l H.
  - cbn [String.concat]. apply Forall_cons in H as [H _].
    rewrite <- (append_nil_r l) at 1. rewrite (splitLines_line l _ _ H). reflexivity.
  - apply Forall_cons in H as [H H']. cbn [String.concat].
    rewrite (splitLines_line l _ _ H). cbn [String.append newline splitLines].
    rewrite Ascii.eqb_refl. cbn [String.append]. f_equal. apply IH, H'.
Qed.

Lemma stringify_lines (studies : list JsVal) :
  forallb isJson studies = true ->
  Forall (fun t => oneLine t = true)
         (map (fun study => default EmptyString (JSON.stringify study)) studies)
  /\ map JSON.parse (map (fun study => default EmptyString (JSON.stringify study)) studies)
     = map Some studies.
Proof.
  induction studies as [|s studies IH]; intros H; [split; [constructor|reflexivity]|].
  cbn [forallb] in H. apply andb_true_iff in H as [Hs H]. destruct (IH H) as [IH1 IH2].
  destruct (serialize_some None EmptyString EmptyString s (isJson_defined s Hs)) as [t Ht].
  fold (JSON.stringify s) in Ht. cbn [map]. rewrite Ht. change (default EmptyString (Some t)) with t.
  split.
  - constructor; [exact (oneLine_serialize None s _ _ Ht)|exact IH1].
  - rewrite (parse_stringify s t Hs Ht), IH2. reflexivity.
Qed.

(** X24.  What the JSON and JSONL exports write can be read back.  For
    records made of [null], booleans, integers, strings, arrays and
    objects with distinct keys, [exportToJSON] hands to
    [fs.writeFileSync], for the path of [getExportPath], a text that parses
    to the array of the records; [exportToJSONL] hands over, for a list
    that is not empty, a text with exactly one line for each record, in
    order, each line parsing to its record.  For the empty list it hands
    over the empty text, whose one line is no JSON. *)
Theorem export_roundtrip (studies : list JsVal) (outputPath : string) :
  forallb isJson studies = true ->
  (exists text,
     exportToJSON studies outputPath
     = Ok {| target := getExportPath outputPath json; content := text |}
     /\ JSON.parse text = Some (JArr studies))
  /\ (studies <> [] ->
      exists text,
        exportToJSONL studies outputPath
        = Ok {| target := getExportPath outputPath jsonl; content := text |}
        /\ map JSON.parse (splitLines text EmptyString) = map Some studies)
  /\ exportToJSONL [] outputPath
     = Ok {| target := getExportPath outputPath jsonl; content := EmptyString |}
  /\ map JSON.parse (splitLines EmptyString EmptyString) = [None].
Proof.
  intros Hjson. split; [|split; [|split; reflexivity]].
  - unfold exportToJSON.
    destruct (JSON.stringifyIndent2 (JArr studies)) as [text|] eqn:E; [|discriminate].
    exists text. split; [reflexivity|]. apply (parse_stringifyIndent2 (JArr studies)); [|exact E].
    exact Hjson.
  - intros Hne. exists (jsonLines studies). split; [reflexivity|].
    destruct (stringify_lines studies Hjson) as [Hl Hp].
    unfold jsonLines. destruct studies as [|s studies]; [contradiction|].
    cbn [map] in Hl |- *. rewrite (splitLines_join _ _ Hl). exact Hp.
Qed.

Lemma export_roundtrip_witness :
  exists text,
    exportToJSONL [sampleStudyA; sampleStudyB] "trials.jsonl"
    = Ok {| target := "exports/jsonl/trials.jsonl"; content := text |}
    /\ map JSON.parse (splitLines text EmptyString) = map Some [sampleStudyA; sampleStudyB].
Proof.
  refine (proj1 (proj2 (export_roundtrip [sampleStudyA; sampleStudyB] "trials.jsonl" _)) _);
    [reflexivity | discriminate].
Defined.

(** *** The sanitiser *)

Import SanitizedExports.

Lemma mapR_Ok {A B} (f : A -> Result B) (l : list A) (l' : list B) :
  mapR f l = Ok l' <-> Forall2 (fun x y => f x = Ok y) l l'.
Proof.
  revert l'. induction l as [|x l IH]; intros l'; cbn [mapR].
  - split; [intros [= <-]; constructor | intros H; inversion H; reflexivity].
  - split.
    + destruct (f x) as [y|e] eqn:E; [|discriminate].
      destruct (mapR f l) as [ys|e]; [|discriminate].
      intros [= <-]. constructor; [exact E|]. apply IH. reflexivity.
    + intros H. inversion H as [|x' y l0 ys Hxy Hl]; subst. rewrite Hxy.
      apply IH in Hl. rewrite Hl. reflexivity.
Qed.

Lemma mapR_Throw {A B} (f : A -> Result B) (l : list A) (e : JsError) :
  mapR f l = Throw e -> exists x, In x l /\ f x = Throw e.
Proof.
  induction l as [|x l IH]; cbn [mapR]; [discriminate|].
  destruct (f x) as [y|e'] eqn:E.
  - destruct (mapR f l) as [ys|e'']; [discriminate|]. intros [= <-].
    destruct (IH eq_refl) as (x' & Hin & Hx'). exists x'. split; [right; exact Hin|exact Hx'].
  - intros [= <-]. exists x. split; [left; reflexivity|exact E].
Qed.

Lemma sanitizeDeep_JArr (x : JsVal) (r : list JsVal) :
  sanitizeDeep (JArr (x :: r))
  = match mapR sanitizeDeep (x :: r) with
    | Ok l => Ok (JArr l)
    | Throw e => Throw e
    end.
Proof. reflexivity. Qed.

Lemma sanitizeDeep_JObj (p : string * JsVal) (r : list (string * JsVal)) :
  sanitizeDeep (JObj (p :: r))
  = match assoc "hasOwnProperty" (p :: r) with
    | Some _ => Throw TypeError
    | None =>
        match mapR sanitizeMember (p :: r) with
        | Ok l => Ok (JObj (assigned l))
        | Throw e => Throw e
        end
    end.
Proof. reflexivity. Qed.

Lemma filter_all_In {A} (p : A -> bool) (l : list A) :
  (forall x, In x l -> p x = true) -> List.filter p l = l.
Proof.
  induction l as [|x l IH]; intros H; [reflexivity|].
  cbn. rewrite (H x (or_introl eq_refl)), IH; [reflexivity|].
  intros y Hy. apply H. right. exact Hy.
Qed.

Lemma assigned_clean (l : list (string * JsVal)) :
  Forall (fun kx => fst kx <> "hasOwnProperty" /\ clean (snd kx) = true) l ->
  clean (JObj (assigned l)) = true.
Proof.
  intros H. cbn [clean]. apply forallb_forall. intros kx Hin.
  apply filter_In in Hin as [Hin Hp]. rewrite Forall_forall in H.
  destruct (H kx (proj2 (list_elem_of_In _ _) Hin)) as [Hk Hc].
  rewrite Hp, Hc. apply String.eqb_neq in Hk. rewrite Hk. reflexivity.
Qed.

Lemma sanitizeDeep_clean (v : JsVal) :
  forall w, sanitizeDeep v = Ok w -> clean w = true.
Proof.
  induction v as [| |b|n|s|elems IH|props IH] using JsVal_ind; intros w H.
  - injection H as <-. reflexivity.
  - injection H as <-. reflexivity.
  - injection H as <-. reflexivity.
  - injection H as <-. reflexivity.
  - cbn [sanitizeDeep] in H. destruct (String.eqb s EmptyString) eqn:E; injection H as <-;
      [reflexivity|]. cbn [clean]. rewrite E. reflexivity.
  - destruct elems as [|x r]; [injection H as <-; reflexivity|].
    rewrite sanitizeDeep_JArr in H.
    destruct (mapR sanitizeDeep (x :: r)) as [l|e] eqn:E; [|discriminate].
    injection H as <-. apply mapR_Ok in E. cbn [clean].
    assert (Hl : forallb clean l = true).
    { clear - E IH. induction E as [|a y l0 ys Hay _ IHE]; [reflexivity|].
      apply Forall_cons in IH as [Ha IH]. cbn [forallb]. rewrite (Ha y Hay), (IHE IH).
      reflexivity. }
    rewrite Hl. inversion E; reflexivity.
  - destruct props as [|p r]; [injection H as <-; reflexivity|].
    rewrite sanitizeDeep_JObj in H.
    destruct (assoc "hasOwnProperty" (p :: r)) eqn:Ea; [discriminate|].
    destruct (mapR sanitizeMember (p :: r)) as [l|e] eqn:E; [|discriminate].
    injection H as <-. apply mapR_Ok in E. apply assigned_clean.
    apply assoc_None in Ea. remember (p :: r) as props eqn:Hprops.
    clear Hprops. induction E as [|a y l0 ys Hay _ IHE]; [constructor|].
    apply Forall_cons in IH as [Ha IH]. unfold sanitizeMember in Hay.
    destruct (sanitizeDeep (snd a)) as [z|] eqn:Ez; [|discriminate]. injection Hay as <-.
    constructor.
    + cbn [fst snd]. split; [|exact (Ha z eq_refl)]. intros Hk. apply Ea. left. exact Hk.
    + apply IHE; [exact IH|]. intros Hin. apply Ea. right. exact Hin.
Qed.

Lemma clean_fixed (v : JsVal) : clean v = true -> sanitizeDeep v = Ok v.
Proof.
  induction v as [| |b|n|s|elems IH|props IH] using JsVal_ind; intros H;
    try discriminate; try reflexivity.
  - cbn [clean] in H. apply negb_true_iff in H. cbn [sanitizeDeep]. rewrite H. reflexivity.
  - destruct elems as [|x r]; [discriminate|]. cbn [clean andb] in H.
    rewrite sanitizeDeep_JArr.
    assert (E : mapR sanitizeDeep (x :: r) = Ok (x :: r)).
    { apply mapR_Ok. generalize dependent (x :: r). intros l IH H.
      induction l as [|a l IHl]; [constructor|].
      apply Forall_cons in IH as [Ha IH]. cbn [forallb] in H.
      apply andb_true_iff in H as [Hc H]. constructor; [exact (Ha Hc)|exact (IHl IH H)]. }
    rewrite E. reflexivity.
  - destruct props as [|p r]; [reflexivity|]. rewrite sanitizeDeep_JObj. cbn [clean] in H.
    rewrite forallb_forall in H.
    assert (Ea : assoc "hasOwnProperty" (p :: r) = None).
    { apply assoc_None. intros Hin. apply in_map_iff in Hin as (kx & Hk & Hin).
      specialize (H kx Hin). rewrite Hk in H. discriminate. }
    rewrite Ea.
    assert (E : mapR sanitizeMember (p :: r) = Ok (p :: r)).
    { apply mapR_Ok. generalize dependent (p :: r). intros l IH H _.
      induction l as [|a l IHl]; [constructor|].
      apply Forall_cons in IH as [Ha IH]. constructor.
      - unfold sanitizeMember. rewrite Ha; [destruct a; reflexivity|].
        specialize (H a (or_introl eq_refl)). apply andb_true_iff in H. apply H.
      - apply IHl; [exact IH|]. intros kx Hin. apply H. right. exact Hin. }
    rewrite E. f_equal. f_equal. unfold assigned.
    apply filter_all_In. intros kx Hin. specialize (H kx Hin).
    apply andb_true_iff in H as [H _]. apply andb_true_iff in H as [_ H]. exact H.
Qed.

Lemma sanitizeDeep_plain (v : JsVal) : plain v = true -> exists w, sanitizeDeep v = Ok w.
Proof.
  induction v as [| |b|n|s|elems IH|props IH] using JsVal_ind; intros H;
    try (eexists; reflexivity).
  - cbn [sanitizeDeep]. destruct (String.eqb s EmptyString); eexists; reflexivity.
  - destruct elems as [|x r]; [eexists; reflexivity|]. rewrite sanitizeDeep_JArr.
    cbn [plain] in H.
    assert (E : exists l, mapR sanitizeDeep (x :: r) = Ok l).
    { generalize dependent (x :: r). intros l IH H.
      induction l as [|a l IHl]; [eexists; reflexivity|].
      apply Forall_cons in IH as [Ha IH]. cbn [forallb] in H.
      apply andb_true_iff in H as [Hp H]. destruct (Ha Hp) as [y Hy].
      destruct (IHl IH H) as [ys Hys]. exists (y :: ys). cbn [mapR]. rewrite Hy, Hys.
      reflexivity. }
    destruct E as [l ->]. eexists. reflexivity.
  - destruct props as [|p r]; [eexists; reflexivity|]. rewrite sanitizeDeep_JObj.
    cbn [plain] in H. rewrite forallb_forall in H.
    assert (Ea : assoc "hasOwnProperty" (p :: r) = None).
    { apply assoc_None. intros Hin. apply in_map_iff in Hin as (kx & Hk & Hin).
      specialize (H kx Hin). rewrite Hk in H. discriminate. }
    rewrite Ea.
    assert (E : exists l, mapR sanitizeMember (p :: r) = Ok l).
    { generalize dependent (p :: r). intros l IH H _.
      induction l as [|a l IHl]; [eexists; reflexivity|].
      apply Forall_cons in IH as [Ha IH].
      destruct Ha as [y Hy].
      { specialize (H a (or_introl eq_refl)). apply andb_true_iff in H. apply H. }
      destruct IHl as [ys Hys]; [exact IH|intros kx Hin; apply H; right; exact Hin|].
      exists ((fst a, y) :: ys). cbn [mapR]. unfold sanitizeMember at 1.
      rewrite Hy, Hys. reflexivity. }
    destruct E as [l ->]. eexists. reflexivity.
Qed.

Lemma sanitizeDeep_error (v : JsVal) (e : JsError) :
  sanitizeDeep v = Throw e -> e = TypeError.
Proof.
  revert e. induction v as [| |b|n|s|elems IH|props IH] using JsVal_ind; intros e H;
    try discriminate.
  - cbn [sanitizeDeep] in H. destruct (String.eqb s EmptyString); discriminate.
  - destruct elems as [|x r]; [discriminate|]. rewrite sanitizeDeep_JArr in H.
    destruct (mapR sanitizeDeep (x :: r)) as [l|e'] eqn:E; [discriminate|].
    injection H as <-. apply mapR_Throw in E as (a & Hin & Ha).
    rewrite Forall_forall in IH. exact (IH a (proj2 (list_elem_of_In _ _) Hin) _ Ha).
  - destruct props as [|p r]; [discriminate|]. rewrite sanitizeDeep_JObj in H.
    destruct (assoc "hasOwnProperty" (p :: r)); [congruence|].
    destruct (mapR sanitizeMember (p :: r)) as [l|e'] eqn:E; [discriminate|].
    injection H as <-. apply mapR_Throw in E as (a & Hin & Ha).
    unfold sanitizeMember in Ha.
    destruct (sanitizeDeep (snd a)) as [y|e''] eqn:Ey; [discriminate|]. injection Ha as <-.
    rewrite Forall_forall in IH. exact (IH a (proj2 (list_elem_of_In _ _) Hin) _ Ey).
Qed.

Lemma sanitizeDeep_isJson (v : JsVal) :
  isJson v = true -> forall w, sanitizeDeep v = Ok w -> isJson w = true.
Proof.
  induction v as [| |b|n|s|elems IH|props IH] using JsVal_ind; intros Hj w H;
    try discriminate; try (injection H as <-; reflexivity).
  - cbn [sanitizeDeep] in H. destruct (String.eqb s EmptyString); injection H as <-;
      reflexivity.
  - destruct elems as [|x r]; [injection H as <-; reflexivity|].
    rewrite sanitizeDeep_JArr in H.
    destruct (mapR sanitizeDeep (x :: r)) as [l|e] eqn:E; [|discriminate].
    injection H as <-. apply mapR_Ok in E. cbn [isJson] in Hj |- *.
    remember (x :: r) as elems eqn:Helems. clear Helems.
    induction E as [|a y l0 ys Hay _ IHE]; [reflexivity|].
    apply Forall_cons in IH as [Ha IH]. cbn [forallb] in Hj |- *.
    apply andb_true_iff in Hj as [Hja Hj]. rewrite (Ha Hja y Hay), (IHE IH Hj). reflexivity.
  - destruct props as [|p r]; [injection H as <-; reflexivity|].
    rewrite sanitizeDeep_JObj in H.
    destruct (assoc "hasOwnProperty" (p :: r)); [discriminate|].
    destruct (mapR sanitizeMember (p :: r)) as [l|e] eqn:E; [|discriminate].
    injection H as <-. apply mapR_Ok in E. cbn [isJson] in Hj |- *.
    apply andb_true_iff in Hj as [Hd Hj].
    remember (p :: r) as props eqn:Hprops. clear Hprops.
    assert (Hkeys : map fst l = map fst props).
    { clear - E. induction E as [|a y l0 ys Hay _ IHE]; [reflexivity|].
      unfold sanitizeMember in Hay. destruct (sanitizeDeep (snd a)); [|discriminate].
      injection Hay as <-. cbn. rewrite IHE. reflexivity. }
    assert (Hvals : forallb (fun kx => isJson (snd kx)) l = true).
    { clear - E IH Hj. induction E as [|a y l0 ys Hay _ IHE]; [reflexivity|].
      apply Forall_cons in IH as [Ha IH]. cbn [forallb] in Hj |- *.
      apply andb_true_iff in Hj as [Hja Hj]. unfold sanitizeMember in Hay.
      destruct (sanitizeDeep (snd a)) as [z|] eqn:Ez; [|discriminate]. injection Hay as <-.
      cbn [snd]. rewrite (Ha Hja z eq_refl), (IHE IH Hj). reflexivity. }
    apply andb_true_iff. split.
    + apply distinct_NoDup. apply distinct_NoDup in Hd. rewrite <- Hkeys in Hd.
      unfold assigned. clear - Hd. induction l as [|a l IHl]; [constructor|].
      cbn [map] in Hd. apply NoDup_cons in Hd as [Hn Hd]. cbn [List.filter].
      destruct (negb (String.eqb (fst a) "__proto__")); [|exact (IHl Hd)].
      cbn [map]. apply NoDup_cons. split; [|exact (IHl Hd)].
      intros Hin. apply Hn. apply list_elem_of_In in Hin. apply list_elem_of_In.
      apply in_map_iff in Hin as (kx & Hk & Hin). apply filter_In in Hin as [Hin _].
      apply in_map_iff. exists kx. split; assumption.
    + unfold assigned. apply forallb_forall. intros kx Hin. apply filter_In in Hin as [Hin _].
      rewrite forallb_forall in Hvals. exact (Hvals kx Hin).
Qed.

(** X25.  [sanitizeDeep] returns a value with nothing left to replace:
    no [null], no [undefined], no empty string, no empty array, and no
    property [__proto__]; on such a value it is the identity, so it is
    idempotent, and numbers and booleans, 0 and false included, are kept.
    It turns a value that JSON can express into one that JSON can express.
    It throws, a TypeError, only when an object of the value has an own
    property [hasOwnProperty].  The two sanitisers of the CSV cells never
    return the empty string. *)
Theorem sanitizeDeep_spec (v : JsVal) :
  (forall w, sanitizeDeep v = Ok w -> clean w = true /\ sanitizeDeep w = Ok w)
  /\ (clean v = true <-> sanitizeDeep v = Ok v)
  /\ (forall w, sanitizeDeep v = Ok w -> isJson v = true -> isJson w = true)
  /\ (plain v = true -> exists w, sanitizeDeep v = Ok w)
  /\ (forall e, sanitizeDeep v = Throw e -> e = TypeError /\ plain v = false)
  /\ (forall value, sanitizeValue value <> EmptyString)
  /\ (forall arr separator, sanitizeArray arr separator <> EmptyString).
Proof.
  split; [|split; [|split; [|split; [|split; [|split]]]]];
    [| | | | | intros [[|c s]|]; discriminate
     | intros [[|x l]|] separator; try discriminate; unfold sanitizeArray;
       destruct (String.eqb_spec (JsString.join separator (x :: l)) EmptyString);
       [discriminate|assumption] ].
  - intros w H. pose proof (sanitizeDeep_clean v w H) as Hc.
    split; [exact Hc|exact (clean_fixed w Hc)].
  - split; [apply clean_fixed|]. intros H. exact (sanitizeDeep_clean v v H).
  - intros w H Hj. exact (sanitizeDeep_isJson v Hj w H).
  - apply sanitizeDeep_plain.
  - intros e H. split; [exact (sanitizeDeep_error v e H)|].
    destruct (plain v) eqn:Hp; [|reflexivity].
    destruct (sanitizeDeep_plain v Hp) as [w Hw]. congruence.
Qed.

Lemma mapR_sanitized (studies sanitized : list JsVal) :
  mapR sanitizeDeep studies = Ok sanitized ->
  forallb isJson studies = true ->
  forallb isJson sanitized = true /\ forallb clean sanitized = true
  /\ List.length sanitized = List.length studies.
Proof.
  intros E. apply mapR_Ok in E.
  induction E as [|a y l ys Hay _ IH]; intros Hj; [repeat split|].
  cbn [forallb] in Hj |- *. apply andb_true_iff in Hj as [Ha Hj].
  destruct (IH Hj) as (H1 & H2 & H3).
  rewrite (sanitizeDeep_isJson a Ha y Hay), (sanitizeDeep_clean a y Hay), H1, H2.
  cbn [List.length]. rewrite H3. repeat split.
Qed.

(** X26.  In the revision that fills the blanks, the exports write the
    sanitised records.  For a list, not empty, of records made of [null],
    booleans, integers, strings, arrays and objects with distinct keys
    that the sanitiser accepts, the sanitised records have no blank left;
    [exportToJSON] hands to [fs.writeFileSync] a text that parses to their
    array, and [exportToJSONL] one line for each, parsing to it.  The empty
    list is exported by [exportToJSON] as the JSON string BLANK, not as
    the empty array. *)
Theorem sanitized_export_roundtrip (studies : list JsVal) (outputPath : string) :
  forallb isJson studies = true ->
  studies <> [] ->
  forall sanitized,
    mapR sanitizeDeep studies = Ok sanitized ->
    forallb clean sanitized = true
    /\ (exists text,
          SanitizedExports.exportToJSON studies outputPath
          = Ok {| target := getExportPath outputPath json; content := text |}
          /\ JSON.parse text = Some (JArr sanitized))
    /\ (exists text,
          SanitizedExports.exportToJSONL studies outputPath
          = Ok {| target := getExportPath outputPath jsonl; content := text |}
          /\ map JSON.parse (splitLines text EmptyString) = map Some sanitized)
    /\ SanitizedExports.exportToJSON [] outputPath
       = Ok {| target := getExportPath outputPath json; content := quote "BLANK" |}.
Proof.
  intros Hj Hne sanitized E.
  destruct (mapR_sanitized studies sanitized E Hj) as (Hjs & Hcs & Hlen).
  split; [exact Hcs|]. split; [|split].
  - unfold SanitizedExports.exportToJSON.
    destruct studies as [|x r]; [contradiction|].
    rewrite sanitizeDeep_JArr, E. cbn [bindR].
    destruct (JSON.stringifyIndent2 (JArr sanitized)) as [text|] eqn:Et; [|discriminate].
    exists text. split; [reflexivity|].
    apply (parse_stringifyIndent2 (JArr sanitized)); [exact Hjs|exact Et].
  - unfold SanitizedExports.exportToJSONL. rewrite E. cbn [bindR].
    exists (jsonLines sanitized). split; [reflexivity|].
    destruct (stringify_lines sanitized Hjs) as [Hl Hp].
    unfold jsonLines. destruct sanitized as [|s sanitized].
    + destruct studies; [contradiction|discriminate].
    + cbn [map] in Hl |- *. rewrite (splitLines_join _ _ Hl). exact Hp.
  - reflexivity.
Qed.

Lemma sanitized_export_roundtrip_witness :
  exists text,
    SanitizedExports.exportToJSONL [emptyResponse] "out.jsonl"
    = Ok {| target := "exports/jsonl/out.jsonl"; content := text |}
    /\ map JSON.parse (splitLines text EmptyString)
       = map Some [JObj [("studies", JStr "BLANK"); ("totalCount", JNum 0)]].
Proof.
  refine (proj1 (proj2 (proj2 (sanitized_export_roundtrip [emptyResponse] "out.jsonl"
                                 _ _ [JObj [("studies", JStr "BLANK"); ("totalCount", JNum 0)]]
                                 _))));
    [reflexivity | discriminate | reflexivity].
Defined.

(** ** The API client *)

Import Client.

Lemma pushed_nil (prefix : string) (v : option string) : pushed prefix v = [] <-> unset v.
Proof.
  unfold pushed, unset. destruct (JsString.truthy v); split; (discriminate || reflexivity).
Qed.

Lemma pushed_nonempty (prefix : string) (v : option string) :
  Forall (fun t => t <> EmptyString) (pushed prefix v).
Proof.
  unfold pushed. destruct (JsString.truthy v) as [s|] eqn:E; [|constructor].
  constructor; [|constructor]. apply truthy_Some in E as [_ Hs].
  destruct prefix; [exact Hs|discriminate].
Qed.

Lemma join_nonempty (sep t : string) (ts : list string) :
  t <> EmptyString -> JsString.join sep (t :: ts) <> EmptyString.
Proof.
  intros Ht. unfold JsString.join. destruct ts as [|t' ts]; [exact Ht|].
  cbn [String.concat]. destruct t; [contradiction|discriminate].
Qed.

Lemma assoc_setParam (k name value : string) (l : list (string * string)) :
  assoc k (setParam name value l)
  = if String.eqb k name then Some value else assoc k l.
Proof.
  induction l as [|[n v] l IH]; cbn [setParam assoc].
  - destruct (String.eqb k name); reflexivity.
  - destruct (String.eqb_spec name n) as [->|Hne]; cbn [assoc].
    + destruct (String.eqb k n); reflexivity.
    + rewrite IH. destruct (String.eqb_spec k n) as [->|Hkn]; [|reflexivity].
      apply String.eqb_neq in Hne. rewrite String.eqb_sym, Hne. reflexivity.
Qed.

Lemma assoc_setWhen (k name : string) (v : option string) (l : list (string * string)) :
  assoc k (setWhen name v l)
  = if String.eqb k name
    then match JsString.truthy v with Some x => Some x | None => assoc k l end
    else assoc k l.
Proof.
  unfold setWhen. destruct (JsString.truthy v) as [x|].
  - apply assoc_setParam.
  - destruct (String.eqb k name); reflexivity.
Qed.

Lemma truthy_toUpperCase (v : option string) :
  JsString.truthy (JsString.toUpperCase <$> JsString.truthy v)
  = JsString.toUpperCase <$> JsString.truthy v.
Proof. destruct v as [[|c s]|]; reflexivity. Qed.

Ltac eval_names :=
  repeat match goal with
         | |- context [String.eqb ?a ?b] =>
             let r := eval vm_compute in (String.eqb a b) in
             change (String.eqb a b) with r
         end;
  cbv iota.

(** X27.  The query of a search is empty exactly when no search term is
    set (absent or empty); the URL then has no [query.term], and otherwise
    has the query as its [query.term].  The URL always asks for the total
    count and always has a page size, which is never 0: a page size of 0
    or none is replaced by 100.  The status filter is sent in upper
    case. *)
Theorem buildURLParams_spec (params : SearchParams) :
  (buildQuery params = EmptyString <-> noTerm params)
  /\ assoc "query.term" (buildURLParams params) = JsString.truthy (Some (buildQuery params))
  /\ assoc "filter.overallStatus" (buildURLParams params)
     = JsString.toUpperCase <$> JsString.truthy (status params)
  /\ assoc "pageSize" (buildURLParams params)
     = Some (numberToString (pageSizeOrDefault params))
  /\ pageSizeOrDefault params <> 0
  /\ (pageSize params = None \/ pageSize params = Some 0 -> pageSizeOrDefault params = 100)
  /\ assoc "countTotal" (buildURLParams params) = Some "true".
Proof.
  split; [|split; [|split; [|split; [|split; [|split]]]]].
  - unfold buildQuery, noTerm.
    set (parts := (pushed EmptyString (query params) ++ _)%list).
    assert (Hparts : parts = [] <-> noTerm params).
    { unfold parts, noTerm. split.
      - intros H. apply app_eq_nil in H as [H1 H]. apply app_eq_nil in H as [H2 H].
        apply app_eq_nil in H as [H3 H]. apply app_eq_nil in H as [H4 H].
        apply app_eq_nil in H as [H5 H6].
        apply pushed_nil in H1, H2, H3, H4, H5, H6. repeat split; assumption.
      - intros (H1 & H2 & H3 & H4 & H5 & H6).
        apply (pushed_nil EmptyString) in H1, H6.
        apply (pushed_nil "AREA[ConditionSearch]") in H2.
        apply (pushed_nil "AREA[InterventionSearch]") in H3.
        apply (pushed_nil "AREA[SponsorSearch]") in H4.
        apply (pushed_nil "AREA[LocationSearch]") in H5.
        rewrite H1, H2, H3, H4, H5, H6. reflexivity. }
    assert (Hne : Forall (fun t => t <> EmptyString) parts).
    { unfold parts. repeat (apply Forall_app; split); apply pushed_nonempty. }
    destruct parts as [|t ts] eqn:E.
    + split; [intros _; apply Hparts; reflexivity|reflexivity].
    + split.
      * intros H. exfalso. apply Forall_cons in Hne as [Ht _].
        exact (join_nonempty " AND " t ts Ht H).
      * intros H. apply Hparts in H. discriminate.
  - unfold buildURLParams.
    destruct (fields params) as [[|f fs]|];
      repeat (rewrite assoc_setParam || rewrite assoc_setWhen); eval_names;
      destruct (JsString.truthy (Some (buildQuery params))); reflexivity.
  - unfold buildURLParams.
    destruct (fields params) as [[|f fs]|];
      repeat (rewrite assoc_setParam || rewrite assoc_setWhen); eval_names;
      rewrite truthy_toUpperCase;
      destruct (JsString.truthy (status params)); reflexivity.
  - unfold buildURLParams.
    destruct (fields params) as [[|f fs]|];
      repeat (rewrite assoc_setParam || rewrite assoc_setWhen); eval_names; reflexivity.
  - unfold pageSizeOrDefault, DEFAULT_PAGE_SIZE. destruct (pageSize params) as [[| |]|]; lia.
  - unfold pageSizeOrDefault, DEFAULT_PAGE_SIZE. intros [-> | ->]; reflexivity.
  - unfold buildURLParams. rewrite assoc_setParam. reflexivity.
Qed.

Lemma retryLoop_fails (net : Network) (url : string) (retries remaining : nat)
      (lastError : option string) (c : Client) (message : string) :
  (remaining < retries)%nat ->
  failure (net url (calls c)) = Some message ->
  retryLoop net url retries (S remaining) lastError c
  = retryLoop net url retries remaining (Some message)
      {| calls := S (calls c);
         waits := if Nat.ltb (retries - S remaining)%nat (retries - 1)%nat
                  then (waits c ++ [RETRY_DELAY_MS * 2 ^ Z.of_nat (retries - S remaining)%nat])%list
                  else waits c |}.
Proof.
  intros Hr Hf. cbn [retryLoop]. cbv zeta.
  destruct (net url (calls c)) as [m|r]; rewrite Hf; cbn [calls waits];
    destruct (Nat.ltb (retries - S remaining)%nat (retries - 1)%nat); reflexivity.
Qed.

Lemma retryLoop_success (net : Network) (url : string) (retries : nat) (r : Response) :
  forall remaining k lastError c,
    (k < remaining)%nat -> (remaining <= retries)%nat ->
    (forall j, (j < k)%nat -> failure (net url (calls c + j)%nat) <> None) ->
    net url (calls c + k)%nat = Resolved r -> ok r = true ->
    retryLoop net url retries remaining lastError c
    = ({| calls := (calls c + S k)%nat;
          waits := waits c ++ map (fun i => RETRY_DELAY_MS * 2 ^ Z.of_nat i)
                                  (seq (retries - remaining)%nat k) |},
       inl r).
Proof.
  induction remaining as [|remaining IH]; intros k lastError c Hk Hr Hfail Hnet Hok; [lia|].
  destruct k as [|k].
  - rewrite Nat.add_0_r in Hnet. cbn [retryLoop]. cbv zeta. rewrite Hnet. cbn [failure].
    rewrite Hok.
    cbn [seq map]. rewrite app_nil_r. f_equal. f_equal. lia.
  - destruct (failure (net url (calls c))) as [message|] eqn:Hf.
    2:{ exfalso. apply (Hfail O); [lia|]. rewrite Nat.add_0_r. exact Hf. }
    rewrite (retryLoop_fails net url retries remaining lastError c message) by (lia || exact Hf).
    replace (Nat.ltb (retries - S remaining)%nat (retries - 1)%nat) with true
      by (symmetry; apply Nat.ltb_lt; lia).
    rewrite (IH k); cbn [calls waits]; try lia.
    + f_equal. f_equal; [lia|]. rewrite <- app_assoc. f_equal.
      replace (retries - remaining)%nat with (S (retries - S remaining)) by lia.
      reflexivity.
    + intros j Hj. replace (S (calls c) + j)%nat with (calls c + S j)%nat by lia.
      apply Hfail. lia.
    + replace (S (calls c) + k)%nat with (calls c + S k)%nat by lia. exact Hnet.
    + exact Hok.
Qed.

Lemma retryLoop_exhausted (net : Network) (url : string) (retries : nat) :
  forall remaining lastError c,
    (remaining <= retries)%nat ->
    (forall j, (j < remaining)%nat -> failure (net url (calls c + j)%nat) <> None) ->
    retryLoop net url retries remaining lastError c
    = ({| calls := (calls c + remaining)%nat;
          waits := waits c ++ map (fun i => RETRY_DELAY_MS * 2 ^ Z.of_nat i)
                                  (seq (retries - remaining)%nat (remaining - 1)%nat) |},
       inr ("Failed after " ++ natToString (N.of_nat retries) ++ " retries: "
            ++ default "undefined"
                 match remaining with
                 | O => lastError
                 | S n => failure (net url (calls c + n)%nat)
                 end)).
Proof.
  induction remaining as [|remaining IH]; intros lastError c Hr Hfail.
  - cbn [retryLoop seq map]. rewrite app_nil_r, Nat.add_0_r. destruct c; reflexivity.
  - destruct (failure (net url (calls c))) as [message|] eqn:Hf.
    2:{ exfalso. apply (Hfail O); [lia|]. rewrite Nat.add_0_r. exact Hf. }
    rewrite (retryLoop_fails net url retries remaining lastError c message) by (lia || exact Hf).
    rewrite IH; cbn [calls waits]; try lia.
    + f_equal.
      * f_equal; [lia|]. destruct remaining as [|remaining].
        -- replace (Nat.ltb (retries - 1)%nat (retries - 1)%nat) with false
             by (symmetry; apply Nat.ltb_ge; lia).
           reflexivity.
        -- replace (Nat.ltb (retries - S (S remaining))%nat (retries - 1)%nat) with true
             by (symmetry; apply Nat.ltb_lt; lia).
           rewrite <- app_assoc. f_equal.
           replace (S (S remaining) - 1)%nat with (S remaining) by lia.
           replace (S remaining - 1)%nat with remaining by lia.
           replace (retries - S remaining)%nat with (S (retries - S (S remaining))) by lia.
           reflexivity.
      * do 4 f_equal. destruct remaining as [|remaining].
        -- rewrite Nat.add_0_r, Hf. reflexivity.
        -- replace (S (calls c) + remaining)%nat with (calls c + S remaining)%nat by lia.
           reflexivity.
    + intros j Hj. replace (S (calls c) + j)%nat with (calls c + S j)%nat by lia.
      apply Hfail. lia.
Qed.

(** X28.  [fetchWithRetry] returns the first response that is ok among
    the first [retries] attempts, after as many calls of [fetch] as it
    took, and having waited one second before the second attempt and twice
    as long before each further one.  When all [retries] attempts fail, by
    a rejected promise or by a response that is not ok, it throws the
    message of the last failure after exactly [retries] calls, and does
    not wait after the last one; with no attempt allowed it throws at
    once. *)
Theorem fetchWithRetry_spec (net : Network) (url : string) (retries : nat) (c : Client) :
  (forall k r,
     (k < retries)%nat ->
     (forall j, (j < k)%nat -> failure (net url (calls c + j)%nat) <> None) ->
     net url (calls c + k)%nat = Resolved r -> ok r = true ->
     fetchWithRetry net url retries c
     = ({| calls := (calls c + S k)%nat; waits := waits c ++ backoff k |}, inl r))
  /\ ((forall j, (j < retries)%nat -> failure (net url (calls c + j)%nat) <> None) ->
      fetchWithRetry net url retries c
      = ({| calls := (calls c + retries)%nat; waits := waits c ++ backoff (retries - 1)%nat |},
         inr ("Failed after " ++ natToString (N.of_nat retries) ++ " retries: "
              ++ default "undefined"
                   match retries with
                   | O => None
                   | S n => failure (net url (calls c + n)%nat)
                   end)))
  /\ fetchWithRetry net url 0 c = (c, inr "Failed after 0 retries: undefined").
Proof.
  split; [|split].
  - intros k r Hk Hfail Hnet Hok. unfold fetchWithRetry.
    rewrite (retryLoop_success net url retries r retries k None c Hk (le_n _) Hfail Hnet Hok).
    rewrite Nat.sub_diag. reflexivity.
  - intros Hfail. unfold fetchWithRetry.
    rewrite (retryLoop_exhausted net url retries retries None c (le_n _) Hfail).
    rewrite Nat.sub_diag. reflexivity.
  - reflexivity.
Qed.

Lemma fetchWithRetry_spec_witness :
  fetchWithRetry flakyNetwork "https://clinicaltrials.gov/api/v2/studies" MAX_RETRIES
                 {| calls := 0; waits := [] |}
  = ({| calls := 3; waits := [1000; 2000] |},
     inl {| ok := true; statusCode := 200; statusText := "OK"; body := emptyResponse |}).
Proof.
  refine (proj1 (fetchWithRetry_spec flakyNetwork "https://clinicaltrials.gov/api/v2/studies"
                   MAX_RETRIES {| calls := 0; waits := [] |})
                2%nat _ _ _ _ _).
  - unfold MAX_RETRIES. lia.
  - intros j Hj. destruct j as [|[|j]]; [discriminate | discriminate | lia].
  - reflexivity.
  - reflexivity.
Defined.

(** ** The [search_trials] tool *)

Import SearchTool.

Lemma wf_later (s : Z) (db : DB) : wf db -> wf (later s db).
Proof. intros [H1 H2 H3]. split; assumption. Qed.

Lemma mapM_cons_Some {A B} (f : A -> option B) (x : A) (l : list A) (ys : list B) :
  mapM f (x :: l) = Some ys ->
  exists y ys', f x = Some y /\ mapM f l = Some ys' /\ ys = y :: ys'.
Proof.
  intros H. cbn [mapM] in H. destruct (f x) as [y|]; [|discriminate].
  cbn [mbind option_bind] in H. destruct (mapM f l) as [ys'|]; [|discriminate].
  cbn in H. injection H as <-. exists y, ys'. repeat split.
Qed.

(** An upsert that SQLite accepts. *)
Lemma upsertStudy_accepted (s : JsVal) (t : Study) (db : DB) :
  asStudy s = Some t ->
  accepting 1 db ->
  exists raw db1,
    JSON.stringify s = Some raw
    /\ upsertStudy s db = (db1, Ok tt)
    /\ studies db1 = studies (upsertRow (studyId t) t raw db)
    /\ search_sessions db1 = search_sessions db
    /\ session_results db1 = session_results db
    /\ fts_accepts db1 = fts_accepts db
    /\ (fts_updates db <= fts_updates db1 <= S (fts_updates db))%nat.
Proof.
  intros Ht Hacc. destruct (upsertStudy_ok s t db Ht) as (raw & Hraw & Hup).
  specialize (Hacc 0%nat (Nat.lt_0_succ 0)). rewrite Nat.add_0_r in Hacc.
  rewrite Hacc in Hup. exists raw.
  destruct (studies db !! studyId t); eexists; (split; [exact Hraw|]);
    (split; [exact Hup|]);
    cbn [indexed upsertRow withStudies studies search_sessions session_results
         fts_accepts fts_updates]; repeat split; lia.
Qed.

(** The loop [for (const study of studies) db.upsertStudy(study)] on
    studies that the schema accepts and JSON can express, when SQLite
    accepts the updates of the full-text index. *)
Lemma upsertAll (items : list JsVal) :
  forall typed db,
    wf db ->
    mapM asStudy items = Some typed ->
    Forall (fun s => isJson s = true) items ->
    accepting (List.length items) db ->
    exists db',
      forEach items upsertStudy db = (db', Ok tt)
      /\ wf db'
      /\ search_sessions db' = search_sessions db
      /\ session_results db' = session_results db
      /\ fts_accepts db' = fts_accepts db
      /\ (fts_updates db <= fts_updates db' <= fts_updates db + List.length items)%nat
      /\ (forall id, is_Some (studies db !! id) -> is_Some (studies db' !! id))
      /\ known db' (studyId <$> typed)
      /\ (forall id, id ∉ (studyId <$> typed) -> studies db' !! id = studies db !! id)
      /\ (NoDup (studyId <$> typed) ->
          Forall2 (fun s t => exists row, studies db' !! studyId t = Some row
                                          /\ JSON.parse (raw_json row) = Some s)
                  items typed).
Proof.
  induction items as [|s rest IH]; intros typed db Hwf Htyped Hjson Hacc.
  - cbn in Htyped. injection Htyped as <-. exists db.
    split; [reflexivity|]. split; [exact Hwf|]. split; [reflexivity|].
    split; [reflexivity|]. split; [reflexivity|]. split; [cbn; lia|].
    split; [intros id H; exact H|]. split; [constructor|].
    split; [reflexivity|]. intros _. constructor.
  - apply mapM_cons_Some in Htyped as (t & ts & Ht & Hts & ->).
    apply Forall_cons in Hjson as [Hs Hjson]. cbn [List.length] in Hacc.
    destruct (upsertStudy_accepted s t db Ht) as (raw & db1 & Hraw & Hup & Hst1 & Hse1 & Hre1
                                                  & Hfa1 & Hfu1).
    { intros k Hk. apply Hacc. lia. }
    pose proof (wf_upsertStudy s t db Hwf Ht Hs) as Hwf1. rewrite Hup in Hwf1.
    cbn [fst] in Hwf1.
    destruct (IH ts db1 Hwf1 Hts Hjson) as (db' & Hrun & Hwf' & Hsess & Hres & Hfa & Hfu
                                            & Hmono & Hknown & Hother & Hrows).
    { intros k Hk. rewrite Hfa1.
      destruct (Nat.eq_dec (fts_updates db1) (fts_updates db)) as [E | E].
      - rewrite E. apply Hacc. lia.
      - replace (fts_updates db1 + k)%nat with (fts_updates db + S k)%nat by lia.
        apply Hacc. lia. }
    exists db'. cbn [forEach]. unfold bind. rewrite Hup.
    split; [exact Hrun|]. split; [exact Hwf'|]. split; [rewrite Hsess; exact Hse1|].
    split; [rewrite Hres; exact Hre1|]. split; [rewrite Hfa; exact Hfa1|].
    split; [cbn [List.length]; lia|].
    destruct (upsertRow_lookup (studyId t) t raw db) as (row & Hrow & Hrawjson).
    rewrite <- Hst1 in Hrow.
    assert (Hhead : is_Some (studies db' !! studyId t))
      by (apply Hmono; eexists; exact Hrow).
    split; [|split; [|split]].
    + intros id Hid. apply Hmono.
      destruct (decide (studyId t = id)) as [<- | Hne].
      * eexists. exact Hrow.
      * rewrite Hst1, (upsertRow_other _ _ t raw db Hne). exact Hid.
    + unfold known. cbn [fmap list_fmap]. constructor; [exact Hhead | exact Hknown].
    + intros id Hid. cbn [fmap list_fmap] in Hid.
      apply not_elem_of_cons in Hid as [Hne Hid].
      rewrite (Hother id Hid), Hst1. apply upsertRow_other. congruence.
    + intros Hnd. cbn [fmap list_fmap] in Hnd. apply NoDup_cons in Hnd as [Hnotin Hnd].
      constructor; [|exact (Hrows Hnd)].
      exists row. split; [rewrite (Hother _ Hnotin); exact Hrow|].
      rewrite Hrawjson. apply parse_stringify; assumption.
Qed.

Lemma pairs_of_other_session (sid sid' : string) (ids : list string) :
  sid' <> sid ->
  List.filter (fun row : string * string => String.eqb (fst row) sid') (map (pair sid) ids) = [].
Proof.
  intros Hne. induction ids as [|id ids IH]; [reflexivity|]. cbn [map List.filter fst].
  destruct (String.eqb_spec sid sid'); [congruence | exact IH].
Qed.

(** What a [createSession] that succeeds writes. *)
Lemma createSession_writes (sid : string) (params : JsVal) (ids : list string) (db : DB) :
  wf db ->
  params <> JUndefined ->
  search_sessions db !! sid = None ->
  NoDup ids ->
  known db ids ->
  exists db',
    createSession sid params ids db = (db', Ok tt)
    /\ wf db'
    /\ studies db' = studies db
    /\ fts_accepts db' = fts_accepts db
    /\ fts_updates db' = fts_updates db
    /\ sessionIds sid db' = sort ids
    /\ (forall sid', sid' <> sid ->
          search_sessions db' !! sid' = search_sessions db !! sid'
          /\ sessionIds sid' db' = sessionIds sid' db).
Proof.
  intros Hwf Hp Hnone Hnd Hall.
  destruct (wf_createSession sid params ids db Hwf Hp Hnone Hnd Hall) as (Hok & Hwf' & Hids & _).
  destruct (serialize_some None EmptyString EmptyString params Hp) as [text Ht].
  fold (JSON.stringify params) in Ht.
  set (db1 := withSessions
                (<[sid := {| search_params := text;
                             created_at := now db; last_accessed_at := now db |}]>
                   (search_sessions db)) db).
  assert (Hcs : createSession sid params ids db
                = (withResults (session_results db1 ++ map (pair sid) ids) db1, Ok tt)).
  { unfold createSession. rewrite Ht.
    unfold bind at 1, read. rewrite Hnone.
    unfold bind at 1. unfold modify at 1.
    apply forEach_insertResult; [exact Hnd | |].
    - unfold db1. cbn [withSessions search_sessions]. rewrite lookup_insert_eq.
      eexists. reflexivity.
    - unfold known in Hall. rewrite Forall_forall in Hall |- *. intros id Hid.
      split; [exact (Hall id Hid)|]. apply (sessionIds_fresh sid db Hwf Hnone). }
  rewrite Hcs in Hwf', Hids. cbn [fst] in Hwf', Hids.
  eexists. split; [exact Hcs|]. split; [exact Hwf'|]. split; [reflexivity|].
  split; [reflexivity|]. split; [reflexivity|]. split; [exact Hids|].
  intros sid' Hne. split.
  - cbn [withResults search_sessions db1 withSessions]. apply lookup_insert_ne. congruence.
  - unfold sessionIds, sessionRows. f_equal.
    cbn [withResults session_results db1 withSessions].
    rewrite List.filter_app, (pairs_of_other_session sid sid' ids Hne), app_nil_r.
    reflexivity.
Qed.

(** The second half of the handler on studies that the schema accepts,
    with pairwise distinct identifiers, and a new session identifier, when
    SQLite accepts the updates of the full-text index. *)
Lemma storeAndOpen_ok (sid : string) (params : list (string * JsVal))
      (items : list JsVal) (typed : list Study) (db : DB) :
  wf db ->
  mapM asStudy items = Some typed ->
  Forall (fun s => isJson s = true) items ->
  NoDup (studyId <$> typed) ->
  search_sessions db !! sid = None ->
  accepting (List.length items) db ->
  exists db',
    storeAndOpen sid params (JArr items) db
    = (db', Ok (sessionText (formatStudyList typed 10) sid))
    /\ wf db'
    /\ sessionIds sid db' = sort (studyId <$> typed)
    /\ Forall2 (fun s t => getStudy (studyId t) db' = (db', Ok (Some s))) items typed
    /\ fts_accepts db' = fts_accepts db
    /\ (forall sid', sid' <> sid ->
          search_sessions db' !! sid' = search_sessions db !! sid'
          /\ sessionIds sid' db' = sessionIds sid' db).
Proof.
  intros Hwf Htyped Hjson Hnd Hnone Hacc.
  destruct (upsertAll items typed db Hwf Htyped Hjson Hacc)
    as (db1 & Hrun & Hwf1 & Hsess & Hres & Hfa & _ & _ & Hknown & _ & Hrows).
  specialize (Hrows Hnd).
  assert (Hp : JObj params <> JUndefined) by discriminate.
  assert (Hnone1 : search_sessions db1 !! sid = None) by (rewrite Hsess; exact Hnone).
  destruct (createSession_writes sid (JObj params) _ db1 Hwf1 Hp Hnone1 Hnd Hknown)
    as (db' & Hcs & Hwf' & Hst & Hfa' & _ & Hids & Hother).
  exists db'. split; [|split; [exact Hwf'|split; [exact Hids|split; [|split]]]].
  - unfold storeAndOpen. cbn [asArray]. unfold bind at 1. rewrite Hrun, Htyped.
    unfold bind. rewrite Hcs. reflexivity.
  - eapply Forall2_impl; [exact Hrows|]. intros s t (row & Hrow & Hparse).
    apply (getStudy_row _ row); [rewrite Hst; exact Hrow | exact Hparse].
  - rewrite Hfa'. exact Hfa.
  - intros sid' Hne. destruct (Hother sid' Hne) as [H1 H2]. split.
    + rewrite H1, Hsess. reflexivity.
    + rewrite H2. unfold sessionIds, sessionRows. rewrite Hres. reflexivity.
Qed.

Lemma get_has_key (prefix : string) (params : JsVal) (c : State) (r : State * JsVal) :
  get prefix params c = Ok r -> exists key, generateKey prefix params = Ok key.
Proof.
  unfold get. destruct (generateKey prefix params) as [key|e]; [|discriminate].
  intros _. exists key. reflexivity.
Qed.

(** What [cache.set] and [cache.saveRawResponse] keep is what [cache.get]
    answers within the memory TTL. *)
Lemma keep_then_get (key : string) (params v : JsVal) (isoDate isoTimestamp : string)
      (c : State) :
  generateKey "search" params = Ok key ->
  Js.truthy v = true ->
  exists c1,
    keep params v isoDate isoTimestamp c = Ok c1
    /\ forall ms, ms <= MEMORY_CACHE_TTL_MS ->
         get "search" params (elapse ms c1) = Ok (elapse ms c1, v).
Proof.
  intros Hkey Hv. unfold keep, set. rewrite Hkey. cbn [bindR].
  eexists. split; [reflexivity|]. intros ms Hms.
  destruct (set_state key v c) as (Hclock & _ & Hmem & _).
  unfold get. rewrite Hkey. cbn [bindR].
  rewrite (getFromMemory_hit key _ {| data := v; timestamp := clock c |}).
  - cbn [data]. rewrite Hv. reflexivity.
  - exact Hmem.
  - cbn [elapse saveRawResponse withFiles clock timestamp]. rewrite Hclock. lia.
Qed.

(** X29.  A search for one page that misses the cache takes the
    response of the API; when the studies of the response have pairwise
    distinct identifiers, the session identifier is new and SQLite accepts
    the updates of the full-text index, it files every study, opens a
    session on their identifiers, which a later read finds in ascending
    order, and answers with the listing in the order of the response and
    the session identifier.  The same search again within the memory TTL
    is answered from the cache alone: whatever the API would say and
    whether or not all pages are asked for, it lists the same studies,
    leaves the cache as it is and, SQLite accepting the updates again,
    opens a second session with the same identifiers beside the first. *)
Theorem search_trials_repeated (api : Api) (fuel : nat) (latency : Z)
        (sessionId isoDate isoTimestamp : string) (searchParams response : list (string * JsVal))
        (w : World) (c0 : State) (items : list JsVal) (typed : list Study) :
  wf (store w) ->
  get "search" (JObj searchParams) (cache w) = Ok (c0, JNull) ->
  api 0%nat (JObj searchParams) = inl response ->
  member (JObj response) "studies" = JArr items ->
  mapM asStudy items = Some typed ->
  Forall (fun s => isJson s = true) items ->
  NoDup (studyId <$> typed) ->
  search_sessions (store w) !! sessionId = None ->
  accepting (List.length items) (store w) ->
  exists w1,
    search_trials api fuel latency sessionId isoDate isoTimestamp false searchParams w
    = Some (w1, Text (sessionText (formatStudyList typed 10) sessionId))
    /\ wf (store w1)
    /\ sessionIds sessionId (store w1) = sort (studyId <$> typed)
    /\ Forall2 (fun s t => getStudy (studyId t) (store w1) = (store w1, Ok (Some s)))
               items typed
    /\ forall api' fuel' latency' sessionId' isoDate' isoTimestamp' fetchAll' ms s,
         ms <= MEMORY_CACHE_TTL_MS ->
         sessionId' <> sessionId ->
         search_sessions (store w) !! sessionId' = None ->
         (forall n, fts_accepts (store w) n = true) ->
         exists w2,
           search_trials api' fuel' latency' sessionId' isoDate' isoTimestamp' fetchAll'
                         searchParams (afterwards ms s w1)
           = Some (w2, Text (sessionText (formatStudyList typed 10) sessionId'))
           /\ cache w2 = cache (afterwards ms s w1)
           /\ sessionIds sessionId' (store w2) = sort (studyId <$> typed)
           /\ sessionIds sessionId (store w2) = sort (studyId <$> typed).
Proof.
  intros Hwf Hget Hapi Hitems Htyped Hjson Hnd Hnone Hacc.
  destruct (get_has_key _ _ _ _ Hget) as [key Hkey].
  destruct (keep_then_get key (JObj searchParams) (JObj response) isoDate isoTimestamp
              (elapse latency c0) Hkey eq_refl) as (c1 & Hkeep & Hhit).
  destruct (storeAndOpen_ok sessionId searchParams items typed (store w)
              Hwf Htyped Hjson Hnd Hnone Hacc)
    as (db1 & Hrun & Hwf1 & Hids & Hrows & Hfa & Hother).
  exists {| cache := c1; store := db1 |}. cbn [store cache].
  split; [|split; [exact Hwf1|split; [exact Hids|split; [exact Hrows|]]]].
  - unfold search_trials, findStudies. rewrite Hget. cbn [Js.truthy].
    rewrite Hapi, Hkeep, Hitems, Hrun. reflexivity.
  - intros api' fuel' latency' sessionId' isoDate' isoTimestamp' fetchAll' ms s
           Hms Hne Hnone' Hacc'.
    destruct (Hother sessionId' Hne) as [Hsess' _].
    destruct (storeAndOpen_ok sessionId' searchParams items typed (later s db1)
                (wf_later s db1 Hwf1) Htyped Hjson Hnd)
      as (db2 & Hrun2 & _ & Hids2 & _ & _ & Hother2).
    { cbn [later search_sessions]. rewrite Hsess'. exact Hnone'. }
    { intros k _. cbn [later fts_accepts]. rewrite Hfa. apply Hacc'. }
    exists {| cache := elapse ms c1; store := db2 |}. cbn [store cache afterwards].
    split; [|split; [reflexivity|split; [exact Hids2|]]].
    + unfold search_trials, findStudies. cbn [afterwards cache store].
      rewrite (Hhit ms Hms). cbn [Js.truthy]. rewrite Hitems, Hrun2. reflexivity.
    + destruct (Hother2 sessionId (not_eq_sym Hne)) as [_ H]. rewrite H. exact Hids.
Qed.

Lemma search_trials_repeated_witness :
  exists w1,
    search_trials onePage 0 250 "s1" "2024-03-05T10:00:00.000Z" "2024-03-05T10:00:00.001Z"
                  false searchParams1 freshWorld
    = Some (w1, Text (sessionText (formatStudyList [typedStudyA; typedStudyB] 10) "s1"))
    /\ exists w2,
         search_trials down 0 0 "s2" "2024-03-05T10:00:30.000Z" "2024-03-05T10:00:30.001Z"
                       true searchParams1 (afterwards 30000 30 w1)
         = Some (w2, Text (sessionText (formatStudyList [typedStudyA; typedStudyB] 10) "s2")).
Proof.
  destruct (search_trials_repeated onePage 0 250 "s1" "2024-03-05T10:00:00.000Z"
              "2024-03-05T10:00:00.001Z" searchParams1
              [("studies", JArr [sampleStudyA; sampleStudyB])] freshWorld emptyCache
              [sampleStudyA; sampleStudyB] [typedStudyA; typedStudyB])
    as (w1 & H1 & _ & _ & _ & H2).
  - exact wf_emptyDb.
  - vm_compute. reflexivity.
  - reflexivity.
  - reflexivity.
  - reflexivity.
  - repeat constructor.
  - apply NoDup_cons. split; [|apply NoDup_singleton].
    intros H. apply list_elem_of_singleton in H. discriminate.
  - reflexivity.
  - intros k _. reflexivity.
  - exists w1. split; [exact H1|].
    destruct (H2 down 0%nat 0 "s2" "2024-03-05T10:00:30.000Z" "2024-03-05T10:00:30.001Z"
                 true 30000 30) as (w2 & H & _).
    + unfold MEMORY_CACHE_TTL_MS. lia.
    + discriminate.
    + reflexivity.
    + intros n. reflexivity.
    + exists w2. exact H.
Defined.

Lemma searchAll_serves (api : Api) (params : list (string * JsVal))
      (pages : list (list JsVal * JsVal)) :
  forall fuel calls token acc,
    serves api calls params token pages ->
    (List.length pages <= fuel)%nat ->
    searchAll api fuel calls params token acc = Some (inl (acc ++ concat (fst <$> pages))%list).
Proof.
  induction pages as [|[batch next] rest IH]; intros fuel calls token acc Hs Hfuel;
    [destruct Hs|].
  destruct Hs as (response & Hapi & Hbatch & Hnext & Hrest).
  destruct fuel as [|fuel]; [cbn in Hfuel; lia|].
  cbn [searchAll]. rewrite Hapi, Hbatch, Hnext. cbn [asArray fmap list_fmap fst concat].
  destruct rest as [|page rest].
  - rewrite Hrest. cbn [fmap list_fmap concat]. rewrite app_nil_r. reflexivity.
  - destruct Hrest as [Htruthy Hrest]. rewrite Htruthy.
    rewrite (IH fuel (S calls) next (acc ++ batch)%list Hrest) by (cbn in Hfuel |- *; lia).
    rewrite <- app_assoc. reflexivity.
Qed.

Lemma searchAll_breaks (api : Api) (params : list (string * JsVal))
      (pages : list (list JsVal * JsVal)) (message : string) :
  forall fuel calls token acc,
    breaks api calls params token pages message ->
    (List.length pages < fuel)%nat ->
    searchAll api fuel calls params token acc = Some (inr (Rejected message)).
Proof.
  induction pages as [|[batch next] rest IH]; intros fuel calls token acc Hb Hfuel;
    (destruct fuel as [|fuel]; [cbn in Hfuel; lia|]); cbn [searchAll].
  - cbn [breaks] in Hb. rewrite Hb. reflexivity.
  - destruct Hb as (response & Hapi & Hbatch & Hnext & Htruthy & Hrest).
    rewrite Hapi, Hbatch, Hnext, Htruthy. cbn [asArray].
    apply IH; [exact Hrest | cbn in Hfuel; lia].
Qed.

Lemma searchAll_endless (api : Api) (params : list (string * JsVal)) :
  (forall calls request, exists response batch,
      api calls request = inl response
      /\ member (JObj response) "studies" = JArr batch
      /\ Js.truthy (member (JObj response) "nextPageToken") = true) ->
  forall fuel calls token acc, searchAll api fuel calls params token acc = None.
Proof.
  intros Hapi. induction fuel as [|fuel IH]; intros calls token acc; [reflexivity|].
  cbn [searchAll].
  destruct (Hapi calls (JObj (setProp "pageToken" token params)))
    as (response & batch & -> & -> & ->).
  cbn [asArray]. apply IH.
Qed.

(** X30.  A search for all pages that misses the cache follows the page
    tokens, each request carrying the token of the page before, until a
    page comes without one.  When SQLite accepts the updates of the
    full-text index it then files the studies of all pages, opens the
    session on them, and caches them as one response without a token, so
    that the same search within the memory TTL finds them all.  It is all
    or nothing: when a request is rejected after some pages, the handler
    reports that error and the pages it had are neither cached nor filed.  There is no bound on the pages: against an API whose
    every page has a token the handler never returns. *)
Theorem search_trials_fetchAll (api : Api) (latency : Z)
        (sessionId isoDate isoTimestamp : string) (searchParams : list (string * JsVal))
        (w : World) (c0 : State) :
  get "search" (JObj searchParams) (cache w) = Ok (c0, JNull) ->
  (forall pages fuel typed,
     serves api 0 searchParams JUndefined pages ->
     (List.length pages <= fuel)%nat ->
     let items := concat (fst <$> pages) in
     wf (store w) ->
     mapM asStudy items = Some typed ->
     Forall (fun s => isJson s = true) items ->
     NoDup (studyId <$> typed) ->
     search_sessions (store w) !! sessionId = None ->
     accepting (List.length items) (store w) ->
     exists w1,
       search_trials api fuel latency sessionId isoDate isoTimestamp true searchParams w
       = Some (w1, Text (sessionText (formatStudyList typed 10) sessionId))
       /\ sessionIds sessionId (store w1) = sort (studyId <$> typed)
       /\ Forall2 (fun s t => getStudy (studyId t) (store w1) = (store w1, Ok (Some s)))
                  items typed
       /\ forall ms, ms <= MEMORY_CACHE_TTL_MS ->
            get "search" (JObj searchParams) (elapse ms (cache w1))
            = Ok (elapse ms (cache w1),
                  JObj [("studies", JArr items); ("nextPageToken", JUndefined);
                        ("totalCount", JNum (Z.of_nat (List.length items)))]))
  /\ (forall pages fuel message,
        breaks api 0 searchParams JUndefined pages message ->
        (List.length pages < fuel)%nat ->
        search_trials api fuel latency sessionId isoDate isoTimestamp true searchParams w
        = Some ({| cache := c0; store := store w |}, IsError (Rejected message)))
  /\ ((forall calls request, exists response batch,
          api calls request = inl response
          /\ member (JObj response) "studies" = JArr batch
          /\ Js.truthy (member (JObj response) "nextPageToken") = true) ->
      forall fuel,
        search_trials api fuel latency sessionId isoDate isoTimestamp true searchParams w
        = None).
Proof.
  intros Hget. destruct (get_has_key _ _ _ _ Hget) as [key Hkey].
  split; [|split].
  - intros pages fuel typed Hs Hfuel items Hwf Htyped Hjson Hnd Hnone Hacc.
    pose proof (searchAll_serves api searchParams pages fuel 0%nat JUndefined [] Hs Hfuel)
      as Hall.
    cbn [app] in Hall. fold items in Hall.
    destruct (keep_then_get key (JObj searchParams)
                (JObj [("studies", JArr items); ("nextPageToken", JUndefined);
                       ("totalCount", JNum (Z.of_nat (List.length items)))])
                isoDate isoTimestamp (elapse latency c0) Hkey eq_refl) as (c1 & Hkeep & Hhit).
    destruct (storeAndOpen_ok sessionId searchParams items typed (store w)
                Hwf Htyped Hjson Hnd Hnone Hacc) as (db1 & Hrun & _ & Hids & Hrows & _).
    exists {| cache := c1; store := db1 |}. cbn [store cache].
    split; [|split; [exact Hids|split; [exact Hrows|exact Hhit]]].
    unfold search_trials, findStudies. rewrite Hget. cbn [Js.truthy].
    rewrite Hall, Hkeep, Hrun. reflexivity.
  - intros pages fuel message Hb Hfuel.
    unfold search_trials, findStudies. rewrite Hget. cbn [Js.truthy].
    rewrite (searchAll_breaks api searchParams pages message fuel 0%nat JUndefined [] Hb Hfuel).
    reflexivity.
  - intros Hendless fuel.
    unfold search_trials, findStudies. rewrite Hget. cbn [Js.truthy].
    rewrite (searchAll_endless api searchParams Hendless). reflexivity.
Qed.

Lemma search_trials_fetchAll_witness :
  (exists w1,
     search_trials twoPages 5 400 "s1" "2024-03-05T10:00:00.000Z" "2024-03-05T10:00:00.001Z"
                   true searchParams1 freshWorld
     = Some (w1, Text (sessionText (formatStudyList [typedStudyA; typedStudyB] 10) "s1"))
     /\ sessionIds "s1" (store w1) = ["NCT00000101"; "NCT00000102"])
  /\ search_trials secondPageFails 5 400 "s1" "2024-03-05T10:00:00.000Z"
                   "2024-03-05T10:00:00.001Z" true searchParams1 freshWorld
     = Some (freshWorld,
             IsError (Rejected "Failed after 3 retries: HTTP 500: Internal Server Error")).
Proof.
  split.
  - destruct (proj1 (search_trials_fetchAll twoPages 400 "s1" "2024-03-05T10:00:00.000Z"
                       "2024-03-05T10:00:00.001Z" searchParams1 freshWorld emptyCache
                       ltac:(vm_compute; reflexivity))
                    [([sampleStudyA], JStr "page2"); ([sampleStudyB], JUndefined)] 5%nat
                    [typedStudyA; typedStudyB])
      as (w1 & H1 & H2 & _).
    + eexists. split; [reflexivity|]. split; [reflexivity|]. split; [reflexivity|].
      split; [reflexivity|].
      eexists. split; [reflexivity|]. split; [reflexivity|]. split; reflexivity.
    + cbn. lia.
    + exact wf_emptyDb.
    + reflexivity.
    + repeat constructor.
    + apply NoDup_cons. split; [|apply NoDup_singleton].
      intros H. apply list_elem_of_singleton in H. discriminate.
    + reflexivity.
    + intros k _. reflexivity.
    + exists w1. split; [exact H1 | exact H2].
  - refine (proj1 (proj2 (search_trials_fetchAll secondPageFails 400 "s1"
                            "2024-03-05T10:00:00.000Z" "2024-03-05T10:00:00.001Z"
                            searchParams1 freshWorld emptyCache _))
                  [([sampleStudyA], JStr "page2")] 5%nat _ _ _).
    + vm_compute. reflexivity.
    + eexists. split; [reflexivity|]. split; [reflexivity|]. split; [reflexivity|].
      split; reflexivity.
    + cbn. lia.
Defined.
